(** * rearrange_viz: layout and arrow geometry of the scene diagram

    A shallow embedding of [entities/object.py], [entities/room.py] and
    [entities/scene.py].

    Conventions of the embedding.
    - Python numbers of the layout code are exact rationals ([Q]): what is
      proved over them is about the formulas the code evaluates, before
      the rounding of binary floating point; no identity that rounding
      breaks is stated of the code.  Where a property is about the rounded values
      themselves (the shares of [redistribute_target_width_to_rooms]), the
      code is also given over the doubles ([float], IEEE 754 binary64).
      The arrow code needs a square root and lives over [R] (module
      [Arrow]).
    - A Python exception is an [outcome]: [Raise e].  Methods that mutate
      their receiver return the mutated state together with the outcome, so
      the writes made before an exception stay visible, as in Python.
    - [Scene.rooms] is the store of the room objects, each object listed
      once; the auxiliary lists of the layout code ([all_rooms],
      [current_rooms_to_plot]) alias these objects and are lists of
      positions in the store.  A room owns its receptacles and objects: no
      child object is shared between two rooms or listed twice.
    - The matplotlib axes is a log of the draw calls; a missing axes
      argument ([ax=None]) of [Room.plot] and [Object.plot] is not modelled.
    - The classes and helpers outside the three files ([Receptacle],
      [Placeholder], [IsNextToLegend], [wrap_text], the colour tables, the
      file system) are parameters, gathered in [Collaborators]. *)

From Stdlib Require Import PrimFloat.
From Stdlib Require Import List String Ascii Bool Arith Lia.
From Stdlib Require Import ZArith QArith Qminmax Qfield Lqa.
From Stdlib Require Import Reals Lra.
From Stdlib Require Import Sorted.
From stdpp Require Import base list strings gmap.

Import ListNotations.
Local Open Scope string_scope.
Local Open Scope list_scope.
Local Open Scope Q_scope.

(** ** Exceptions and the state-and-exception monad *)

Inductive PyError : Type :=
| ZeroDivisionError
| ValueError
| TypeError
| AttributeError
| KeyError
| IndexError
| NotImplementedError
| AssertionError
| FuelExhausted.   (* not a Python exception: the loop bound of the model ran out *)

Inductive outcome (A : Type) : Type :=
| Ok (a : A)
| Raise (e : PyError).
Arguments Ok {A} a.
Arguments Raise {A} e.

Definition is_raise {A} (o : outcome A) : bool :=
  match o with Ok _ => false | Raise _ => true end.

(** A computation over a mutable state [S]: the final state is returned on
    both exits. *)
Definition M (S A : Type) : Type := S -> S * outcome A.

Definition ret {S A} (a : A) : M S A := fun s => (s, Ok a).
Definition raise {S A} (e : PyError) : M S A := fun s => (s, Raise e).
Definition bind {S A B} (m : M S A) (k : A -> M S B) : M S B :=
  fun s => match m s with
           | (s', Ok a) => k a s'
           | (s', Raise e) => (s', Raise e)
           end.
Definition get {S} : M S S := fun s => (s, Ok s).
Definition modify {S} (f : S -> S) : M S unit := fun s => (f s, Ok tt).

Notation "'do' x <- m ; k" := (bind m (fun x => k))
  (at level 10, x name, m at level 100, k at level 200).
Notation "'do' ' p <- m ; k" := (bind m (fun x => match x with p => k end))
  (at level 10, p pattern, m at level 100, k at level 200).
Notation "'run' m ; k" := (bind m (fun _ => k))
  (at level 10, m at level 100, k at level 200).

(** [for x in l: body x] *)
Fixpoint for_each {S A} (l : list A) (body : A -> M S unit) : M S unit :=
  match l with
  | [] => ret tt
  | x :: l' => bind (body x) (fun _ => for_each l' body)
  end.

(** ** Python string operations used by [sort_rooms] (ASCII strings) *)

Module PyStr.

Definition is_space (c : ascii) : bool :=
  let n := nat_of_ascii c in
  ((9 <=? n)%nat && (n <=? 13)%nat) || ((28 <=? n)%nat && (n <=? 32)%nat).

Definition is_empty (s : string) : bool :=
  match s with EmptyString => true | _ => false end.

Definition snoc (s : string) (c : ascii) : string := (s ++ String c "")%string.

(** [s.split()]: maximal runs of non-whitespace characters. *)
Fixpoint split_ws_from (cur : string) (s : string) : list string :=
  match s with
  | EmptyString => if is_empty cur then [] else [cur]
  | String c s' =>
      if is_space c
      then (if is_empty cur then split_ws_from "" s'
            else cur :: split_ws_from "" s')
      else split_ws_from (snoc cur c) s'
  end.
Definition split_ws (s : string) : list string := split_ws_from "" s.

(** [s.split(sep)] for a one-character separator: empty fields are kept. *)
Fixpoint split_on_from (sep : ascii) (cur : string) (s : string) : list string :=
  match s with
  | EmptyString => [cur]
  | String c s' =>
      if Ascii.eqb c sep then cur :: split_on_from sep "" s'
      else split_on_from sep (snoc cur c) s'
  end.
Definition split_on (sep : ascii) (s : string) : list string :=
  split_on_from sep "" s.

Definition lower_char (c : ascii) : ascii :=
  let n := nat_of_ascii c in
  if ((65 <=? n)%nat && (n <=? 90)%nat) then ascii_of_nat (n + 32) else c.

(** [s.lower()] *)
Fixpoint lower (s : string) : string :=
  match s with
  | EmptyString => EmptyString
  | String c s' => String (lower_char c) (lower s')
  end.

Fixpoint lstrip (ch : ascii) (s : string) : string :=
  match s with
  | EmptyString => EmptyString
  | String c s' => if Ascii.eqb c ch then lstrip ch s' else s
  end.

Fixpoint rstrip (ch : ascii) (s : string) : string :=
  match s with
  | EmptyString => EmptyString
  | String c s' =>
      let r := rstrip ch s' in
      if Ascii.eqb c ch && is_empty r then EmptyString else String c r
  end.

(** [s.strip(ch)] removes the character at both ends. *)
Definition strip (ch : ascii) (s : string) : string := rstrip ch (lstrip ch s).

(** [l[:-1]] *)
Definition drop_last {A} (l : list A) : list A := removelast l.

(** [sep.join(l)] *)
Definition join (sep : string) (l : list string) : string := String.concat sep l.

(** [needle in hay] *)
Fixpoint contains (needle hay : string) : bool :=
  String.prefix needle hay
  || match hay with
     | EmptyString => false
     | String _ hay' => contains needle hay'
     end.

(** [" ".join(ident.split("_")[:-1])] *)
Definition phrase (ident : string) : string :=
  join " " (drop_last (split_on "_"%char ident)).

End PyStr.


(** ** Data model *)

Definition Point : Type := (Q * Q)%type.

(** [sum(...)] of Python: a left fold from [0]. *)
Definition Qsum (l : list Q) : Q := fold_left Qplus l 0.

(** [config.object] *)
Record ObjectConfig : Type := {
  oc_width : Q;
  oc_height : Q;
  oc_text_margin : Q;
  oc_textwrap_width : Q;
}.

(** [config.room] *)
Record RoomConfig : Type := {
  min_width : Q;
  min_width_per_object : Q;
  left_pad : Q;
  right_pad : Q;
  bottom_pad : Q;
  top_pad : Q;
  horizontal_margin : Q;
  vertical_margin : Q;
  full_height : Q;
  half_height : Q;
  receptacle_horizontal_margin_fraction : Q;
  object_horizontal_margin_fraction : Q;
  objects_height : Q;
  placeholder_height_if_full : Q;
  placeholder_height_if_half : Q;
  border_width : Q;
  placeholder_width : Q;      (* config.placeholder.width *)
  placeholder_height : Q;     (* config.placeholder.height *)
  max_chars_per_line : Q;
}.

(** [config.scene] *)
Record SceneConfig : Type := {
  target_width : option Q;
  arrow_head_length : Q;          (* config.arrow.head_length *)
  scene_max_chars_per_line : Q;
  is_next_to_height : Q;          (* config.is_next_to.height *)
}.

(** [Object] of object.py.  [center_position] is [None] until [plot] runs.
    [text_position] is the attribute that [Room.plot] reads on an object
    stacked on a receptacle: [Object.plot] binds that name to a local
    variable only and [__init__] does not create it, so it is [None]
    (absent) unless code outside these files has set it. *)
Record Object : Type := {
  object_id : string;
  icon_path : option string;
  object_config : ObjectConfig;
  center_position : option Point;
  text_position : option Point;
  is_on_floor : bool;
}.

(** The [width] and [height] properties. *)
Definition Object_width (o : Object) : Q := oc_width (object_config o).
Definition Object_height (o : Object) : Q := oc_height (object_config o).

Definition Object_init (config : ObjectConfig) (object_id : string)
    (icon_path : option string) : Object :=
  {| object_id := object_id; icon_path := icon_path; object_config := config;
     center_position := None; text_position := None; is_on_floor := false |}.

(** Modelled from the spec: the [Receptacle] class (entities/receptacle.py),
    an external collaborator referenced by interface only.  It exposes a
    [width], the mutable flags [plot_top_placeholder] and
    [plot_center_placeholder], the anchors [top_placeholder_position] and
    [center_placeholder_position] and the cursor [new_top_item_position]
    used when objects are stacked on top of it. *)
Record Receptacle : Type := {
  receptacle_id : string;
  receptacle_width : Q;
  plot_top_placeholder : bool;
  plot_center_placeholder : bool;
  top_placeholder_position : option Point;
  center_placeholder_position : option Point;
  new_top_item_position : Point;
}.

(** [Room] of room.py.  [room_center_position] is [None] while the attribute
    has not been created (it is first assigned at the end of [plot]). *)
Record Room : Type := {
  room_config : RoomConfig;
  room_id : string;
  receptacles : list Receptacle;
  objects : option (list Object);
  in_proposition : bool;
  plot_placeholder : bool;
  object_to_recep : option (gmap string string);
  use_full_height : bool;
  room_width : Q;
  width : Q;
  room_height : Q;
  height : Q;
  room_center_position : option Point;
}.

(** What the axes has been asked to draw, oldest call first. *)
Inductive DrawCmd : Type :=
| ReceptaclePlot (rid : string) (position : Point)
| ObjectImage (oid : string) (position : Point) (size : Point)
| ObjectBox (oid : string) (position : Point) (w h : Q) (facecolor : string)
| Annotate (text : string) (xy : Point)
| RoomRectangle (origin : Point) (w h : Q) (bordered : bool)
| PlaceholderPlot (origin : Point)
| SetXlim (lo hi : Q)
| SetYlim (lo hi : Q)
| AddArrow (obj_loc room_loc : Point) (dashed : bool) (color : string)
| InstructionText (text : string)
| LegendPlot (position : Point)
| AxHLine (y : Q).

Definition Canvas : Type := list DrawCmd.

(** The collaborators outside these three files: the other entity classes,
    the helper and constant modules, and the file system. *)
Record Collaborators : Type := {
  (* Receptacle.plot(ax, position): the state of the receptacle afterwards *)
  receptacle_plot : Receptacle -> Point -> Receptacle;
  (* utils.wrap_text(text, max_chars_per_line) *)
  wrap_text : string -> Q -> string;
  (* textwrap.fill(text, width) *)
  textwrap_fill : string -> Q -> string;
  (* os.path.exists(path) *)
  path_exists : string -> bool;
  (* Image.open(path).size *)
  icon_size : string -> Point;
  (* constants.object_category_map and constants.category_color_map *)
  object_category_map : string -> option string;
  category_color_map : string -> option string;
  (* IsNextToLegend(...).width *)
  legend_width : Q;
}.

(** Field updates ([obj.attr = v]). *)
Definition Object_set_center (c : option Point) (o : Object) : Object :=
  {| object_id := object_id o; icon_path := icon_path o;
     object_config := object_config o; center_position := c;
     text_position := text_position o; is_on_floor := is_on_floor o |}.

Definition Object_set_is_on_floor (b : bool) (o : Object) : Object :=
  {| object_id := object_id o; icon_path := icon_path o;
     object_config := object_config o; center_position := center_position o;
     text_position := text_position o; is_on_floor := b |}.

Definition Receptacle_set_new_top_item_position (p : Point) (r : Receptacle)
    : Receptacle :=
  {| receptacle_id := receptacle_id r; receptacle_width := receptacle_width r;
     plot_top_placeholder := plot_top_placeholder r;
     plot_center_placeholder := plot_center_placeholder r;
     top_placeholder_position := top_placeholder_position r;
     center_placeholder_position := center_placeholder_position r;
     new_top_item_position := p |}.

Definition Receptacle_set_placeholders (top center : bool) (r : Receptacle)
    : Receptacle :=
  {| receptacle_id := receptacle_id r; receptacle_width := receptacle_width r;
     plot_top_placeholder := top;
     plot_center_placeholder := center;
     top_placeholder_position := top_placeholder_position r;
     center_placeholder_position := center_placeholder_position r;
     new_top_item_position := new_top_item_position r |}.

Definition Room_set_children (recs : list Receptacle) (objs : option (list Object))
    (r : Room) : Room :=
  {| room_config := room_config r; room_id := room_id r;
     receptacles := recs; objects := objs;
     in_proposition := in_proposition r; plot_placeholder := plot_placeholder r;
     object_to_recep := object_to_recep r; use_full_height := use_full_height r;
     room_width := room_width r; width := width r;
     room_height := room_height r; height := height r;
     room_center_position := room_center_position r |}.

Definition Room_set_flags (in_prop placeholder full : bool) (r : Room) : Room :=
  {| room_config := room_config r; room_id := room_id r;
     receptacles := receptacles r; objects := objects r;
     in_proposition := in_prop; plot_placeholder := placeholder;
     object_to_recep := object_to_recep r; use_full_height := full;
     room_width := room_width r; width := width r;
     room_height := room_height r; height := height r;
     room_center_position := room_center_position r |}.

Definition Room_set_in_proposition (b : bool) (r : Room) : Room :=
  Room_set_flags b (plot_placeholder r) (use_full_height r) r.
Definition Room_set_plot_placeholder (b : bool) (r : Room) : Room :=
  Room_set_flags (in_proposition r) b (use_full_height r) r.
Definition Room_set_use_full_height (b : bool) (r : Room) : Room :=
  Room_set_flags (in_proposition r) (plot_placeholder r) b r.

Definition Room_set_geometry (rw w rh h : Q) (c : option Point) (r : Room) : Room :=
  {| room_config := room_config r; room_id := room_id r;
     receptacles := receptacles r; objects := objects r;
     in_proposition := in_proposition r; plot_placeholder := plot_placeholder r;
     object_to_recep := object_to_recep r; use_full_height := use_full_height r;
     room_width := rw; width := w; room_height := rh; height := h;
     room_center_position := c |}.

(** Truth value of [room.objects]: neither [None] nor the empty list. *)
Definition has_objects (r : Room) : bool :=
  match objects r with
  | Some (_ :: _) => true
  | _ => false
  end.

(** The objects a [for obj in self.objects] loop visits when the guard
    [if self.objects] has passed. *)
Definition objects_list (r : Room) : list Object :=
  match objects r with Some l => l | None => [] end.

(** [self.object_to_recep[obj.object_id]] when the map exists and has the
    key; [None] is the case [object_to_recep is None or object_id not in
    object_to_recep.keys()]. *)
Definition mapped_receptacle (m : option (gmap string string)) (o : Object)
    : option string :=
  match m with
  | None => None
  | Some d => d !! object_id o
  end.

(** ** room.py *)

(** [Room.init_size] *)
Definition init_size (self : Room) : Room :=
  let cfg := room_config self in
  let min_w :=
    if has_objects self then
      let object_widths :=
        fold_left (fun acc o => acc + Object_width o) (objects_list self) 0 in
      Qmax (min_width cfg) (object_widths * min_width_per_object cfg)
    else min_width cfg in
  let total_receptacle_width :=
    Qmax min_w (Qsum (map receptacle_width (receptacles self))) in
  let rw := total_receptacle_width + left_pad cfg + right_pad cfg in
  let w := rw + 2 * horizontal_margin cfg in
  let rh := (if use_full_height self then full_height cfg else half_height cfg)
            + bottom_pad cfg + top_pad cfg in
  let h := rh + 2 * vertical_margin cfg in
  Room_set_geometry rw w rh h (room_center_position self) self.

(** [Room.__init__] *)
Definition Room_init (config : RoomConfig) (room_id : string)
    (receptacles : list Receptacle) (objects : option (list Object))
    (use_full_height in_proposition : bool)
    (object_to_recep : option (gmap string string)) : Room :=
  let self :=
    {| room_config := config; room_id := room_id;
       receptacles := receptacles; objects := objects;
       in_proposition := in_proposition; plot_placeholder := false;
       object_to_recep := object_to_recep;
       use_full_height :=
         (match objects with Some (_ :: _) => true | _ => use_full_height end);
       room_width := 0; width := 0; room_height := 0; height := 0;
       room_center_position := None |} in
  init_size self.

(** [Room.find_object_by_id], with the position of the object found. *)
Fixpoint find_object_from (i : nat) (l : list Object) (oid : string)
    : option (nat * Object) :=
  match l with
  | [] => None
  | o :: l' => if String.eqb (object_id o) oid then Some (i, o)
               else find_object_from (S i) l' oid
  end.
Definition find_object_by_id (self : Room) (oid : string) : option (nat * Object) :=
  if has_objects self then find_object_from 0 (objects_list self) oid else None.

(** [Room.find_receptacle_by_id], with the position of the receptacle found. *)
Fixpoint find_receptacle_from (i : nat) (l : list Receptacle) (rid : string)
    : option (nat * Receptacle) :=
  match l with
  | [] => None
  | r :: l' => if String.eqb (receptacle_id r) rid then Some (i, r)
               else find_receptacle_from (S i) l' rid
  end.
Definition find_receptacle_by_id (recs : list Receptacle) (rid : string)
    : option (nat * Receptacle) :=
  find_receptacle_from 0 recs rid.

(** [text.count("\n")] *)
Fixpoint count_newlines (s : string) : nat :=
  match s with
  | EmptyString => 0
  | String c s' => (if Ascii.eqb c "010"%char then 1 else 0) + count_newlines s'
  end.

Definition Qnat (n : nat) : Q := inject_Z (Z.of_nat n).

Section Layout.

Variable env : Collaborators.

(** ** object.py *)

(** The shape that [Object.plot] draws (lines 72-101): the icon when its
    file exists, else a rounded box whose colour is looked up by the id
    without its last token; a failed lookup raises. *)
Definition object_patch (self : Object) (position : Point) : outcome DrawCmd :=
  let cfg := object_config self in
  let box : outcome DrawCmd :=
    let key := PyStr.join "_" (PyStr.drop_last (PyStr.split_on "_"%char (object_id self))) in
    match object_category_map env key with
    | None => Raise KeyError
    | Some cat =>
        match category_color_map env cat with
        | None => Raise KeyError
        | Some col => Ok (ObjectBox (object_id self) position
                            (oc_width cfg) (oc_height cfg) col)
        end
    end in
  match icon_path self with
  | Some p => if path_exists env p
              then Ok (ObjectImage (object_id self) position (icon_size env p))
              else box
  | None => box
  end.

(** [Object.plot(ax, position)]: the shape, then the center anchor and the
    label.  A failed colour lookup raises before the anchor is assigned. *)
Definition Object_plot (self : Object) (ax : Canvas) (position : Point)
    : Object * Canvas * outcome unit :=
  let cfg := object_config self in
  match object_patch self position with
  | Raise e => (self, ax, Raise e)
  | Ok d =>
      let center := (fst position + oc_width cfg / 2,
                     snd position + oc_height cfg / 2) in
      let text_pos := (fst center, snd center + oc_text_margin cfg) in
      let wrapped_text := textwrap_fill env (object_id self) (oc_textwrap_width cfg) in
      (Object_set_center (Some center) self,
       (ax ++ [d; Annotate wrapped_text text_pos])%list,
       Ok tt)
  end.

(** ** room.py: [Room.plot] *)

(** The loop over [self.receptacles]: each is plotted at [(offset, y)] and
    the offset advances by its width and the spacing. *)
Fixpoint plot_receptacles (y spacing : Q) (recs : list Receptacle)
    (offset : Q) (ax : Canvas) : list Receptacle * Canvas :=
  match recs with
  | [] => ([], ax)
  | receptacle :: rest =>
      let receptacle' := receptacle_plot env receptacle (offset, y) in
      let ax' := (ax ++ [ReceptaclePlot (receptacle_id receptacle) (offset, y)])%list in
      let offset' := offset + (receptacle_width receptacle' + spacing) in
      let '(rest', ax'') := plot_receptacles y spacing rest offset' ax' in
      (receptacle' :: rest', ax'')
  end.

(** The loop over [self.objects].  An object without a receptacle is
    plotted in the row; an object mapped to a receptacle is plotted at the
    cursor of that receptacle, which then moves above it. *)
Fixpoint plot_objects (m : option (gmap string string)) (y spacing : Q)
    (objs : list Object) (offset : Q) (recs : list Receptacle) (ax : Canvas)
    : list Object * list Receptacle * Canvas * outcome unit :=
  match objs with
  | [] => ([], recs, ax, Ok tt)
  | obj :: rest =>
      match mapped_receptacle m obj with
      | None =>
          match Object_plot obj ax (offset, y) with
          | (obj', ax', Raise e) => (obj' :: rest, recs, ax', Raise e)
          | (obj', ax', Ok _) =>
              let offset' := offset + (Object_width obj' + spacing) in
              let '(rest', recs', ax'', res) :=
                plot_objects m y spacing rest offset' recs ax' in
              (obj' :: rest', recs', ax'', res)
          end
      | Some rid =>
          match find_receptacle_by_id recs rid with
          | None => (obj :: rest, recs, ax, Raise AttributeError)
          | Some (i, current_receptacle) =>
              let obj_position := new_top_item_position current_receptacle in
              match Object_plot obj ax obj_position with
              | (obj', ax', Raise e) => (obj' :: rest, recs, ax', Raise e)
              | (obj', ax', Ok _) =>
                  match text_position obj' with
                  | None => (obj' :: rest, recs, ax', Raise AttributeError)
                  | Some tp =>
                      let cursor := (fst obj_position,
                                     snd tp + oc_height (object_config obj')) in
                      let recs1 :=
                        <[i := Receptacle_set_new_top_item_position cursor
                                 current_receptacle]> recs in
                      let '(rest', recs', ax'', res) :=
                        plot_objects m y spacing rest offset recs1 ax' in
                      (obj' :: rest', recs', ax'', res)
                  end
              end
          end
      end
  end.

(** The even spacing of a row of children of total width [total] and
    number [n] in a room of content width [rw]. *)
Definition row_spacing (rw fraction total : Q) (n : nat) : Q :=
  ((rw - fraction * 2 * rw) - total) / (Qnat n + 1).

(** The content width [self.room_width] that [plot] computes. *)
Definition plot_room_width (self : Room) (target_width : option Q) : Q :=
  let cfg := room_config self in
  let min_w :=
    if has_objects self then
      let object_widths :=
        fold_left (fun acc o =>
                     match mapped_receptacle (object_to_recep self) o with
                     | None => acc + Object_width o
                     | Some _ => acc
                     end) (objects_list self) 0 in
      Qmax (min_width cfg) (object_widths * min_width_per_object cfg)
    else min_width cfg in
  let minimum_room_width :=
    Qmax min_w (Qsum (map receptacle_width (receptacles self))) in
  let rw := minimum_room_width + left_pad cfg + right_pad cfg in
  let extra_horizontal_pad :=
    match target_width with
    | None => 0
    | Some tw => Qmax 0 ((tw - rw - 2 * horizontal_margin cfg) / 2)
    end in
  rw + 2 * extra_horizontal_pad.

(** Lines 235-240: total width and number of the objects that are not
    mapped to a receptacle. *)
Definition unmapped_objects (self : Room) : Q * nat :=
  fold_left (fun '(tw, n) obj =>
               match mapped_receptacle (object_to_recep self) obj with
               | None => (tw + Object_width obj, S n)
               | Some _ => (tw, n)
               end) (objects_list self) (0, O).

(** Lines 285-329: the center anchor, the background rectangle, the
    placeholder marker and the axis limits. *)
Definition Room_plot_finish (self : Room) (position : Point) (rw : Q)
    (recs : list Receptacle) (objs : option (list Object))
    (rh h : Q) (ax : Canvas) : Room * Canvas * outcome unit :=
  let cfg := room_config self in
  let new_position := (fst position + horizontal_margin cfg,
                       snd position + vertical_margin cfg) in
  let w := rw + 2 * horizontal_margin cfg in
  let center :=
    (fst new_position + rw / 2,
     snd new_position + bottom_pad cfg
     + (if use_full_height self
        then placeholder_height_if_full cfg * full_height cfg
        else placeholder_height_if_half cfg * half_height cfg)) in
  let rect :=
    if negb (in_proposition self)
    then RoomRectangle new_position rw rh false
    else RoomRectangle (fst new_position + border_width cfg,
                        snd new_position + border_width cfg)
           (rw - 2 * border_width cfg) (rh - 2 * border_width cfg) true in
  let marker :=
    if plot_placeholder self
    then [PlaceholderPlot (fst center - placeholder_width cfg / 2,
                           snd center - placeholder_height cfg / 2)]
    else [] in
  let limits := [SetXlim (fst position) (fst position + w);
                 SetYlim (snd position) (snd position + h)] in
  (Room_set_geometry rw w rh h (Some center) (Room_set_children recs objs self),
   (ax ++ [rect] ++ marker ++ limits)%list,
   Ok tt).

(** [Room.plot(position, ax, target_width)].  The room is returned as the
    call leaves it, also when plotting an object raises. *)
Definition Room_plot (self : Room) (position : Point) (ax : Canvas)
    (target_width : option Q) : Room * Canvas * outcome unit :=
  let cfg := room_config self in
  let new_position := (fst position + horizontal_margin cfg,
                       snd position + vertical_margin cfg) in
  let rw := plot_room_width self target_width in
  (* receptacles *)
  let new_receptacle_width := Qsum (map receptacle_width (receptacles self)) in
  let num_receptacles := length (receptacles self) in
  let spacing := row_spacing rw (receptacle_horizontal_margin_fraction cfg)
                   new_receptacle_width num_receptacles in
  let offset := fst new_position + spacing
                + receptacle_horizontal_margin_fraction cfg * rw in
  let '(recs1, ax1) :=
    plot_receptacles (snd new_position + bottom_pad cfg) spacing
      (receptacles self) offset ax in
  let w := rw + 2 * horizontal_margin cfg in
  (* room label *)
  let text_x := fst new_position + rw / 2 in
  let wrapped_text := wrap_text env (room_id self) (max_chars_per_line cfg) in
  let text_y := snd new_position
                + bottom_pad cfg / 4 * 1 / (Qnat (count_newlines wrapped_text) + 1) in
  let ax2 := (ax1 ++ [Annotate wrapped_text (text_x, text_y)])%list in
  let rh_full := full_height cfg + bottom_pad cfg + top_pad cfg in
  if has_objects self then
    let '(total_object_width, num_objects) := unmapped_objects self in
    let spacing := row_spacing rw (object_horizontal_margin_fraction cfg)
                     total_object_width num_objects in
    let offset := fst new_position
                  + object_horizontal_margin_fraction cfg * rw + spacing in
    let y := snd new_position + bottom_pad cfg
             + full_height cfg * objects_height cfg in
    let '(objs', recs2, ax3, res) :=
      plot_objects (object_to_recep self) y spacing (objects_list self)
        offset recs1 ax2 in
    match res with
    | Raise e =>
        (Room_set_geometry rw w rh_full (height self) (room_center_position self)
           (Room_set_children recs2 (Some objs') self),
         ax3, Raise e)
    | Ok _ =>
        Room_plot_finish self position rw recs2 (Some objs') rh_full (height self) ax3
    end
  else
    let rh := if negb (use_full_height self)
              then half_height cfg + bottom_pad cfg + top_pad cfg
              else rh_full in
    Room_plot_finish self position rw recs1 (objects self) rh
      (rh + 2 * vertical_margin cfg) ax2.

End Layout.

(** ** scene.py: room ordering *)

(** Python's [sorted(l, key=key, reverse=True)].  The sort is stable, also
    under [reverse], so its result is determined by [l] and [key]: the
    elements in descending key order, equal keys in their order in [l].
    Insertion from the right computes it. *)
Fixpoint insert_desc {A} (key : A -> nat) (x : A) (l : list A) : list A :=
  match l with
  | [] => [x]
  | y :: l' => if (key x <? key y)%nat then y :: insert_desc key x l' else x :: l
  end.
Definition sorted_reverse {A} (key : A -> nat) (l : list A) : list A :=
  fold_right (insert_desc key) [] l.

Section SortRooms.

(** [H] is the identity of a room object: the dictionary of the scores is
    keyed by the room objects themselves, and [Room] defines neither
    [__eq__] nor [__hash__].  [room_of] reads the fields of the object. *)
Context {H : Type} `{EqDecision H}.
Variable room_of : H -> Room.

(** An insertion-ordered [dict]: assigning to a present key keeps its place. *)
Fixpoint dict_set (k : H) (v : nat) (d : list (H * nat)) : list (H * nat) :=
  match d with
  | [] => [(k, v)]
  | (k', v') :: d' =>
      if bool_decide (k = k') then (k', v) :: d' else (k', v') :: dict_set k v d'
  end.

Fixpoint dict_get (d : list (H * nat)) (k : H) : nat :=
  match d with
  | [] => O
  | (k', v) :: d' => if bool_decide (k = k') then v else dict_get d' k
  end.

Definition dict_keys (d : list (H * nat)) : list H := map fst d.

(** [[word.lower().strip(".") for word in instruction.split()]] *)
Definition keywords_of (instruction : string) : list string :=
  map (fun word => PyStr.strip "."%char (PyStr.lower word))
      (PyStr.split_ws instruction).

(** [sum(" ".join(ident.split("_")[:-1]) in keyword for keyword in keywords)] *)
Definition count_matches (ident : string) (keywords : list string) : nat :=
  fold_left (fun acc keyword =>
               (acc + (if PyStr.contains (PyStr.phrase ident) keyword then 1 else 0))%nat)
            keywords O.

(** The body of the loop over the rooms: the score of one room. *)
Definition room_score (keywords : list string) (room : Room) : nat :=
  let score := count_matches (room_id room) keywords in
  let score :=
    fold_left (fun score receptacle =>
                 (score + count_matches (receptacle_id receptacle) keywords)%nat)
              (receptacles room) score in
  if has_objects room then
    fold_left (fun score obj =>
                 (score + count_matches (object_id obj) keywords)%nat)
              (objects_list room) score
  else score.

Definition relevance_scores (keywords : list string) (rooms : list H)
    : list (H * nat) :=
  fold_left (fun d room => dict_set room (room_score keywords (room_of room)) d)
            rooms [].

(** [Scene.sort_rooms] *)
Definition sort_rooms (rooms : list H) (instruction : string) : list H :=
  if PyStr.is_empty instruction then rooms
  else
    let keywords := keywords_of instruction in
    let scores := relevance_scores keywords rooms in
    sorted_reverse (dict_get scores) (dict_keys scores).

End SortRooms.

(** The wording of the specification for the score: the number of pairs of
    a phrase of the room (its own id, the ids of its receptacles, the ids of
    its objects, each without the trailing index token and with spaces for
    underscores) and an instruction word such that the phrase occurs inside
    the word. *)
Definition room_phrases (room : Room) : list string :=
  PyStr.phrase (room_id room)
  :: (map (fun r => PyStr.phrase (receptacle_id r)) (receptacles room)
      ++ map (fun o => PyStr.phrase (object_id o)) (objects_list room))%list.

Definition is_substring (p w : string) : Prop :=
  exists pre post : string, w = (pre ++ p ++ post)%string.

Definition spec_score (keywords : list string) (room : Room) : nat :=
  length (List.filter (fun pw => PyStr.contains (fst pw) (snd pw))
            (list_prod (room_phrases room) keywords)).

(** ** scene.py: propositions, constraints and the scene *)

(** [prop["args"]]: a dictionary; a key that is absent is [None] here and
    reading it raises [KeyError]. *)
Record PropArgs : Type := {
  object_names : option (list string);
  receptacle_names : option (list string);
  room_names : option (list string);
  number : option Z;
  entity_handles_a_names_and_types : option (list (string * string));
  entity_handles_b_names_and_types : option (list (string * string));
}.

Record Proposition : Type := {
  function_name : string;
  args : PropArgs;
}.

(** A constraint dictionary: its ["type"] and, when present, ["toposort"]. *)
Record Constraint : Type := {
  constraint_type : string;
  toposort : option (list (list Z));
}.

(** [Scene].  [scene_width] and [scene_height] hold [self.width] and
    [self.height] once assigned. *)
Record Scene : Type := {
  scene_config : SceneConfig;
  instruction : string;
  rooms : list Room;
  scene_width : Q;
  scene_height : Q;
}.

Definition Scene_set_rooms (l : list Room) (s : Scene) : Scene :=
  {| scene_config := scene_config s; instruction := instruction s;
     rooms := l; scene_width := scene_width s; scene_height := scene_height s |}.
Definition Scene_set_width (w : Q) (s : Scene) : Scene :=
  {| scene_config := scene_config s; instruction := instruction s;
     rooms := rooms s; scene_width := w; scene_height := scene_height s |}.
Definition Scene_set_height (h : Q) (s : Scene) : Scene :=
  {| scene_config := scene_config s; instruction := instruction s;
     rooms := rooms s; scene_width := scene_width s; scene_height := h |}.

(** The state of a scene method: the scene and the axes it draws on. *)
Definition SceneM (A : Type) : Type := M (Scene * Canvas) A.

Definition get_scene : SceneM Scene := fun s => (s, Ok (fst s)).
Definition modify_scene (f : Scene -> Scene) : SceneM unit :=
  fun s => ((f (fst s), snd s), Ok tt).
Definition draw (c : DrawCmd) : SceneM unit :=
  fun s => ((fst s, (snd s ++ [c])%list), Ok tt).

(** [self.rooms[i]] *)
Definition room_at (i : nat) : SceneM Room :=
  fun s => match rooms (fst s) !! i with
           | Some r => (s, Ok r)
           | None => (s, Raise IndexError)
           end.

(** A write to an attribute of the room object at position [i]. *)
Definition update_room (i : nat) (f : Room -> Room) : SceneM unit :=
  fun s => match rooms (fst s) !! i with
           | Some r => ((Scene_set_rooms (<[i := f r]> (rooms (fst s))) (fst s), snd s),
                        Ok tt)
           | None => (s, Raise IndexError)
           end.

(** [for ... in l] with a local variable carried through the iterations. *)
Fixpoint fold_m {S A B} (l : list A) (acc : B) (body : B -> A -> M S B) : M S B :=
  match l with
  | [] => ret acc
  | x :: l' => bind (body acc x) (fun acc' => fold_m l' acc' body)
  end.

(** [while cond: body], cut off after [fuel] iterations. *)
Fixpoint while_loop {S L} (fuel : nat) (cond : L -> S -> bool)
    (body : L -> M S L) (l : L) : M S L :=
  fun s =>
    if cond l s then
      match fuel with
      | O => (s, Raise FuelExhausted)
      | Datatypes.S fuel' => bind (body l) (while_loop fuel' cond body) s
      end
    else (s, Ok l).

(** [max(iterable)]: [ValueError] on an empty one, else the first maximum. *)
Definition py_max {S} (l : list Q) : M S Q :=
  match l with
  | [] => raise ValueError
  | x :: l' => ret (fold_left Qmax l' x)
  end.

(** [x in l] for a list of strings. *)
Definition str_in (x : string) (l : list string) : bool :=
  existsb (String.eqb x) l.

(** [Scene.redistribute_target_width_to_rooms]: the division raises when the
    widths sum to zero. *)
Definition redistribute_target_width_to_rooms (rooms_to_plot : list Room)
    (target_width : Q) : outcome (list Q) :=
  let total_width := Qsum (map width rooms_to_plot) in
  if Qeq_bool total_width 0 then Raise ZeroDivisionError
  else
    let redistribution_factor := target_width / total_width in
    Ok (map (fun room => width room * redistribution_factor) rooms_to_plot).

(** [sum(...)] over doubles: from [0], left to right. *)
Definition float_sum (l : list float) : float :=
  fold_left PrimFloat.add l 0%float.

(** [Scene.redistribute_target_width_to_rooms] as the doubles compute it.
    [widths] are the [room.width] of [rooms_to_plot].  The quotient
    [target_width / total_width] is rounded once, then each product; a
    zero total ([0.0] or [-0.0]) raises. *)
Definition redistribute_target_width_to_rooms_float (widths : list float)
    (target_width : float) : outcome (list float) :=
  let total_width := float_sum widths in
  if PrimFloat.eqb total_width 0%float then Raise ZeroDivisionError
  else
    let redistribution_factor := PrimFloat.div target_width total_width in
    Ok (map (fun w => PrimFloat.mul w redistribution_factor) widths).

Definition lift_outcome {S A} (o : outcome A) : M S A :=
  match o with Ok a => ret a | Raise e => raise e end.

Section SceneLayout.

Variable env : Collaborators.

(** [ax = room.plot(position=..., ax=ax, target_width=...)] on the room
    object at position [i] of the store. *)
Definition plot_room (i : nat) (position : Point) (target_width : option Q)
    : SceneM unit :=
  fun s =>
    match rooms (fst s) !! i with
    | None => (s, Raise IndexError)
    | Some r =>
        let '(r', ax', res) := Room_plot env r position (snd s) target_width in
        ((Scene_set_rooms (<[i := r']> (rooms (fst s))) (fst s), ax'), res)
    end.

(** [[f(room) for room in row]] for a list of room objects. *)
Definition rooms_of (row : list nat) : SceneM (list Room) :=
  fold_m row [] (fun acc i => do r <- room_at i; ret (acc ++ [r])%list).

(** [np.any([room.objects is not None and room.objects != [] for room in row])] *)
Definition rooms_have_objects (row : list nat) : SceneM bool :=
  do rs <- rooms_of row; ret (existsb has_objects rs).

(** The positions in the store of the rooms whose id passes [keep], in
    store order. *)
Definition select_rooms (keep : string -> bool) : SceneM (list nat) :=
  do sc <- get_scene;
  fold_m (seq 0 (length (rooms sc))) []
    (fun acc i => do room <- room_at i;
                  ret (if keep (room_id room) then (acc ++ [i])%list else acc)).

(** Loop variables of the row packing: [i], [current_rooms_to_plot],
    [current_row_width], [current_row_height]. *)
Record RowLoop : Type := {
  rl_i : nat;
  rl_rooms : list nat;
  rl_width : Q;
  rl_height : Q;
}.

(** *** Without a target width *)

(** The rooms of a row are plotted left to right at height [y]. *)
Definition plot_row (set_full_height : option bool) (row : list nat) (y : Q)
    : SceneM Q :=
  fold_m row 0
    (fun current_row_width i =>
       run (match set_full_height with
            | Some b => update_room i (Room_set_use_full_height b)
            | None => ret tt
            end);
       run plot_room i (current_row_width, y) None;
       do room <- room_at i;
       ret (current_row_width + width room)).

Definition linear_body (mentioned_rooms : list string) (st : RowLoop)
    : SceneM RowLoop :=
  do room <- room_at (rl_i st);
  do sc <- get_scene;
  if negb (str_in (room_id room) mentioned_rooms) then
    if Qle_bool (width room + rl_width st) (scene_width sc) then
      ret {| rl_i := S (rl_i st);
             rl_rooms := (rl_rooms st ++ [rl_i st])%list;
             rl_width := rl_width st + width room;
             rl_height := rl_height st |}
    else
      do rs <- rooms_of (rl_rooms st);
      do max_room_height_for_row <- py_max (map height rs);
      do have_objects <- rooms_have_objects (rl_rooms st);
      let current_row_height := rl_height st - max_room_height_for_row in
      run plot_row (Some have_objects) (rl_rooms st) current_row_height;
      ret {| rl_i := rl_i st; rl_rooms := [];
             rl_width := 0; rl_height := current_row_height |}
  else
    ret {| rl_i := S (rl_i st); rl_rooms := rl_rooms st;
           rl_width := rl_width st; rl_height := rl_height st |}.

Definition plot_rooms_linear_free (mentioned_rooms : list string)
    (height_offset : Q) : SceneM (Q * Q) :=
  do sc0 <- get_scene;
  let n := length (rooms sc0) in
  do first_row_position <-
    fold_m (seq 0 n) 0
      (fun first_row_position i =>
         do room <- room_at i;
         if str_in (room_id room) mentioned_rooms then
           run plot_room i (first_row_position, 0) None;
           do room' <- room_at i;
           ret (first_row_position + width room')
         else ret first_row_position);
  run modify_scene (Scene_set_width first_row_position);
  do mentioned <- select_rooms (fun id => str_in id mentioned_rooms);
  do ms <- rooms_of mentioned;
  do first_row_height <- py_max (map height ms);
  do st <- while_loop (2 * n + 1) (fun st _ => (rl_i st <? n)%nat)
             (linear_body mentioned_rooms)
             {| rl_i := 0; rl_rooms := []; rl_width := 0;
                rl_height := 0 + height_offset |};
  do rs <- rooms_of (rl_rooms st);
  do h <- py_max (map height rs);
  let current_row_height := rl_height st - h in
  run plot_row None (rl_rooms st) current_row_height;
  ret (current_row_height, first_row_height).

(** *** With a target width *)

(** A row is flushed: every room of the row gets [use_full_height] from
    whether some room of the row has objects and its size is recomputed;
    the row moves down by its tallest room; the target width is shared out
    in proportion and each room is plotted with its share.  The source
    has this block twice, inside the loop and after it. *)
Definition flush_row (target_width : Q) (row : list nat) (row_height : Q)
    : SceneM Q :=
  do have_objects <- rooms_have_objects row;
  run for_each row
        (fun i => update_room i
                    (fun room => init_size (Room_set_use_full_height have_objects room)));
  do rs <- rooms_of row;
  do h <- py_max (map height rs);
  let current_row_height := row_height - h in
  do room_target_widths <-
    lift_outcome (redistribute_target_width_to_rooms rs target_width);
  do current_row_width <-
    fold_m (combine row room_target_widths) 0
      (fun current_row_width '(i, room_target_width) =>
         run plot_room i (current_row_width, current_row_height)
               (Some room_target_width);
         do room <- room_at i;
         ret (current_row_width + width room));
  do sc <- get_scene;
  run modify_scene (Scene_set_width (Qmax current_row_width (scene_width sc)));
  ret current_row_height.

Definition target_body (target_width : Q) (all_rooms : list nat)
    (st : RowLoop) : SceneM RowLoop :=
  match all_rooms !! rl_i st with
  | None => raise IndexError
  | Some i =>
      do room <- room_at i;
      do sc <- get_scene;
      if Qle_bool (width room + rl_width st) (scene_width sc) then
        ret {| rl_i := S (rl_i st);
               rl_rooms := (rl_rooms st ++ [i])%list;
               rl_width := rl_width st + width room;
               rl_height := rl_height st |}
      else
        do current_row_height <- flush_row target_width (rl_rooms st) (rl_height st);
        ret {| rl_i := rl_i st; rl_rooms := [];
               rl_width := 0; rl_height := current_row_height |}
  end.

Definition plot_rooms_linear_target (mentioned_rooms : list string)
    (target_width height_offset : Q)
    (all_mentioned_rooms : option (list string)) : SceneM (Q * Q) :=
  run modify_scene (Scene_set_width target_width);
  let all_mentioned_rooms :=
    match all_mentioned_rooms with
    | None => mentioned_rooms
    | Some l => l
    end in
  do front <- select_rooms (fun id => str_in id all_mentioned_rooms);
  do back <- select_rooms (fun id => negb (str_in id all_mentioned_rooms));
  let all_rooms := (front ++ back)%list in
  run modify_scene (fun sc => Scene_set_rooms (map init_size (rooms sc)) sc);
  do st <- while_loop (2 * length all_rooms + 1)
             (fun st _ => (rl_i st <? length all_rooms)%nat)
             (target_body target_width all_rooms)
             {| rl_i := 0; rl_rooms := []; rl_width := 0;
                rl_height := 0 + height_offset |};
  do current_row_height <- flush_row target_width (rl_rooms st) (rl_height st);
  ret (current_row_height, 0).

(** [Scene.plot_rooms_linear] *)
Definition plot_rooms_linear (mentioned_rooms : list string)
    (target_width : option Q) (height_offset : Q)
    (all_mentioned_rooms : option (list string)) : SceneM (Q * Q) :=
  match target_width with
  | None => plot_rooms_linear_free mentioned_rooms height_offset
  | Some tw =>
      plot_rooms_linear_target mentioned_rooms tw height_offset all_mentioned_rooms
  end.

(** *** Propositions *)

(** [d[key]] on the argument dictionary. *)
Definition arg {A} (o : option A) : outcome A :=
  match o with Some a => Ok a | None => Raise KeyError end.

(** The lists that the first loop of [plot_for_propositions] fills. *)
Record Mentions : Type := {
  mentioned_objs : list string;
  on_floor_objs : list string;
  mentioned_receps : list (string * string);
  mentioned_rooms : list string;
  is_next_tos :
    list (list (string * string) * list (string * string) * Z);
}.

Definition no_mentions : Mentions :=
  {| mentioned_objs := []; on_floor_objs := []; mentioned_receps := [];
     mentioned_rooms := []; is_next_tos := [] |}.

Definition outcome_bind {A B} (o : outcome A) (k : A -> outcome B) : outcome B :=
  match o with Ok a => k a | Raise e => Raise e end.

(** One iteration of [for prop in propositions] in [plot_for_propositions]
    (lines 469-497). *)
Definition classify_proposition (m : Mentions) (prop : Proposition)
    : outcome Mentions :=
  let fn := function_name prop in
  let a := args prop in
  if String.eqb fn "is_on_top" || String.eqb fn "is_inside" then
    outcome_bind (arg (object_names a)) (fun objs =>
    outcome_bind
      (if String.eqb fn "is_on_top" then
         outcome_bind (arg (receptacle_names a)) (fun recs =>
           Ok (mentioned_receps m ++ map (fun r => ("is_on_top", r)) recs)%list)
       else Ok (mentioned_receps m)) (fun receps1 =>
    outcome_bind
      (if String.eqb fn "is_inside" then
         outcome_bind (arg (receptacle_names a)) (fun recs =>
           Ok (receps1 ++ map (fun r => ("is_inside", r)) recs)%list)
       else Ok receps1) (fun receps2 =>
    Ok {| mentioned_objs := (mentioned_objs m ++ objs)%list;
          on_floor_objs := on_floor_objs m;
          mentioned_receps := receps2;
          mentioned_rooms := mentioned_rooms m;
          is_next_tos := is_next_tos m |})))
  else if String.eqb fn "is_in_room" then
    outcome_bind (arg (object_names a)) (fun objs =>
    outcome_bind (arg (room_names a)) (fun rms =>
    Ok {| mentioned_objs := (mentioned_objs m ++ objs)%list;
          on_floor_objs := on_floor_objs m;
          mentioned_receps := mentioned_receps m;
          mentioned_rooms := (mentioned_rooms m ++ rms)%list;
          is_next_tos := is_next_tos m |}))
  else if String.eqb fn "is_on_floor" then
    outcome_bind (arg (object_names a)) (fun objs =>
    Ok {| mentioned_objs := mentioned_objs m;
          on_floor_objs := (on_floor_objs m ++ objs)%list;
          mentioned_receps := mentioned_receps m;
          mentioned_rooms := mentioned_rooms m;
          is_next_tos := is_next_tos m |})
  else if String.eqb fn "is_next_to" then
    outcome_bind (arg (entity_handles_a_names_and_types a)) (fun ha =>
    outcome_bind (arg (entity_handles_b_names_and_types a)) (fun hb =>
    outcome_bind (arg (number a)) (fun n =>
    Ok {| mentioned_objs := mentioned_objs m;
          on_floor_objs := on_floor_objs m;
          mentioned_receps := mentioned_receps m;
          mentioned_rooms := mentioned_rooms m;
          is_next_tos := (is_next_tos m ++ [(ha, hb, n)])%list |})))
  else Raise NotImplementedError.

Fixpoint classify_propositions (m : Mentions) (props : list Proposition)
    : outcome Mentions :=
  match props with
  | [] => Ok m
  | prop :: rest =>
      outcome_bind (classify_proposition m prop)
        (fun m' => classify_propositions m' rest)
  end.

(** One iteration of [for prop in propositions] in the toposort branch of
    [Scene.plot] (lines 664-685). *)
Definition classify_proposition_toposort (m : Mentions) (prop : Proposition)
    : outcome Mentions :=
  let fn := function_name prop in
  let a := args prop in
  if String.eqb fn "is_on_top" || String.eqb fn "is_inside" then
    outcome_bind (arg (object_names a)) (fun objs =>
    outcome_bind
      (if String.eqb fn "is_on_top" then
         outcome_bind (arg (receptacle_names a)) (fun recs =>
           Ok (mentioned_receps m ++ map (fun r => ("is_on_top", r)) recs)%list)
       else Ok (mentioned_receps m)) (fun receps1 =>
    outcome_bind
      (if String.eqb fn "is_inside" then
         outcome_bind (arg (receptacle_names a)) (fun recs =>
           Ok (receps1 ++ map (fun r => ("is_inside", r)) recs)%list)
       else Ok receps1) (fun receps2 =>
    Ok {| mentioned_objs := (mentioned_objs m ++ objs)%list;
          on_floor_objs := on_floor_objs m;
          mentioned_receps := receps2;
          mentioned_rooms := mentioned_rooms m;
          is_next_tos := is_next_tos m |})))
  else if String.eqb fn "is_in_room" then
    outcome_bind (arg (object_names a)) (fun objs =>
    outcome_bind (arg (room_names a)) (fun rms =>
    Ok {| mentioned_objs := (mentioned_objs m ++ objs)%list;
          on_floor_objs := on_floor_objs m;
          mentioned_receps := mentioned_receps m;
          mentioned_rooms := (mentioned_rooms m ++ rms)%list;
          is_next_tos := is_next_tos m |}))
  else if String.eqb fn "is_on_floor" then
    outcome_bind (arg (object_names a)) (fun objs =>
    Ok {| mentioned_objs := (mentioned_objs m ++ objs)%list;
          on_floor_objs := on_floor_objs m;
          mentioned_receps := mentioned_receps m;
          mentioned_rooms := mentioned_rooms m;
          is_next_tos := is_next_tos m |})
  else Raise NotImplementedError.

Fixpoint classify_propositions_toposort (m : Mentions) (props : list Proposition)
    : outcome Mentions :=
  match props with
  | [] => Ok m
  | prop :: rest =>
      outcome_bind (classify_proposition_toposort m prop)
        (fun m' => classify_propositions_toposort m' rest)
  end.

Definition Room_update_object (j : nat) (f : Object -> Object) (room : Room) : Room :=
  Room_set_children (receptacles room)
    (match objects room with
     | Some objs => Some (alter f j objs)
     | None => None
     end) room.

Definition Room_update_receptacle (j : nat) (f : Receptacle -> Receptacle)
    (room : Room) : Room :=
  Room_set_children (alter f j (receptacles room)) (objects room) room.

Definition get_axes : SceneM Canvas := fun s => (s, Ok (snd s)).
Definition set_axes (ax : Canvas) : SceneM unit := fun s => ((fst s, ax), Ok tt).

(** [if room.room_id not in mentioned_rooms: mentioned_rooms += [room.room_id]] *)
Definition mention (id : string) (l : list string) : list string :=
  if negb (str_in id l) then (l ++ [id])%list else l.

(** Lines 505-510: the placeholder flags of every receptacle and the
    floor flag of every object are cleared, room by room.  The loop over
    [room.objects] has no guard: a room whose [objects] is [None] raises. *)
Definition reset_children_flags : SceneM unit :=
  do sc <- get_scene;
  for_each (seq 0 (length (rooms sc)))
    (fun i =>
       run update_room i
             (fun room => Room_set_children
                            (map (Receptacle_set_placeholders false false)
                                 (receptacles room))
                            (objects room) room);
       do room <- room_at i;
       match objects room with
       | None => raise TypeError
       | Some objs =>
           update_room i
             (Room_set_children (receptacles room)
                (Some (map (Object_set_is_on_floor false) objs)))
       end).

(** Lines 512-537: the rooms that hold a mentioned object or receptacle
    join [mentioned_rooms]; floor objects and target receptacles are
    flagged. *)
Definition resolve_room (m : Mentions) (i : nat) (mentioned : list string)
    : SceneM (list string) :=
  do mentioned1 <-
    fold_m (on_floor_objs m) mentioned
      (fun mentioned obj =>
         do room <- room_at i;
         match find_object_by_id room obj with
         | Some (j, _) =>
             run update_room i (Room_update_object j (Object_set_is_on_floor true));
             ret (mention (room_id room) mentioned)
         | None => ret mentioned
         end);
  do mentioned2 <-
    fold_m (mentioned_objs m) mentioned1
      (fun mentioned obj =>
         do room <- room_at i;
         match find_object_by_id room obj with
         | Some _ => ret (mention (room_id room) mentioned)
         | None => ret mentioned
         end);
  fold_m (mentioned_receps m) mentioned2
    (fun mentioned '(prop_function, recep) =>
       do room <- room_at i;
       match find_receptacle_by_id (receptacles room) recep with
       | Some (j, _) =>
           let mentioned' := mention (room_id room) mentioned in
           if String.eqb prop_function "is_on_top" then
             run update_room i
                   (Room_update_receptacle j
                      (fun r => Receptacle_set_placeholders true
                                  (plot_center_placeholder r) r));
             ret mentioned'
           else if String.eqb prop_function "is_inside" then
             run update_room i
                   (Room_update_receptacle j
                      (fun r => Receptacle_set_placeholders
                                  (plot_top_placeholder r) true r));
             ret mentioned'
           else raise NotImplementedError
       | None => ret mentioned
       end).

(** [Scene.add_arrow] as the layout sees it: the two anchors are unpacked
    (a [None] anchor cannot be) and the call is logged; the geometry of
    the curve is in module [Arrow]. *)
Definition add_arrow_call (obj_loc room_loc : option Point) (dashed : bool)
    (color : string) : SceneM unit :=
  match obj_loc, room_loc with
  | Some p0, Some p1 => draw (AddArrow p0 p1 dashed color)
  | _, _ => raise TypeError
  end.

(** [Scene.plot_object_to_receptacle_lines] *)
Definition plot_object_to_receptacle_lines (object_names receptacle_names : list string)
    (number : Z) (function_name color : string) : SceneM unit :=
  do sc <- get_scene;
  let dashed := (number <? Z.of_nat (length object_names))%Z in
  for_each object_names (fun object_name =>
    for_each (rooms sc) (fun room =>
      match find_object_by_id room object_name with
      | None => ret tt
      | Some (_, object_obj) =>
          for_each receptacle_names (fun receptacle_name =>
            let receptacle_objs :=
              omap (fun r_room =>
                      find_receptacle_by_id (receptacles r_room) receptacle_name)
                   (rooms sc) in
            for_each receptacle_objs (fun '(_, receptacle_obj) =>
              if String.eqb function_name "is_inside" then
                add_arrow_call (center_position object_obj)
                  (center_placeholder_position receptacle_obj) dashed color
              else if String.eqb function_name "is_on_top" then
                add_arrow_call (center_position object_obj)
                  (top_placeholder_position receptacle_obj) dashed color
              else ret tt))
      end)).

(** [Scene.plot_object_to_room_lines].  A target room that was never
    plotted has no [center_position] attribute. *)
Definition plot_object_to_room_lines (object_names room_names : list string)
    (number : Z) (color : string) : SceneM unit :=
  do sc <- get_scene;
  let source_objects :=
    flat_map (fun object_name =>
                omap (fun room => find_object_by_id room object_name) (rooms sc))
             object_names in
  let target_rooms :=
    flat_map (fun room_name =>
                List.filter (fun r_room => String.eqb (room_id r_room) room_name)
                            (rooms sc))
             room_names in
  let dashed := (number <? Z.of_nat (length object_names))%Z in
  for_each source_objects (fun '(_, object_obj) =>
    for_each target_rooms (fun room_obj =>
      match room_center_position room_obj with
      | None => raise AttributeError
      | Some c => add_arrow_call (center_position object_obj) (Some c) dashed color
      end)).

Definition color_palette : list string :=
  ["#FFFFFF"; "#FF7F50"; "#FFD700"; "#00FFFF"; "#98FF98";
   "#E6E6FA"; "#FA8072"; "#FFDAB9"; "#FFC0CB"].

(** Lines 579-599: one proposition of the line-drawing loop; the colour
    index advances only for a proposition that has ["object_names"]. *)
Definition plot_proposition_lines (color_index : nat) (proposition : Proposition)
    : SceneM nat :=
  let fn := function_name proposition in
  let a := args proposition in
  match object_names a with
  | None => ret color_index
  | Some objs =>
      do number <- lift_outcome (arg (number a));
      let color := nth (color_index mod length color_palette) color_palette "" in
      if String.eqb fn "is_inside" || String.eqb fn "is_on_top" then
        do recs <- lift_outcome (arg (receptacle_names a));
        run plot_object_to_receptacle_lines objs recs number fn color;
        ret (S color_index)
      else if String.eqb fn "is_in_room" then
        do rms <- lift_outcome (arg (room_names a));
        run plot_object_to_room_lines objs rms number color;
        ret (S color_index)
      else ret (S color_index)
  end.

(** [Scene.plot_for_propositions].  [initial_ax] is the axes passed in, or
    [None] for a new figure.  Returns [height_lower], [height_upper] and
    the wrapped instruction. *)
Definition plot_for_propositions (propositions : list Proposition)
    (show_instruction : bool) (height_offset : Q)
    (initial_ax : option Canvas) (all_mentioned_rooms : option (list string))
    : SceneM (Q * Q * string) :=
  do m <- lift_outcome (classify_propositions no_mentions propositions);
  run modify_scene
        (fun sc => Scene_set_rooms
                     (map (fun room => Room_set_plot_placeholder
                                         (str_in (room_id room) (mentioned_rooms m)) room)
                          (rooms sc)) sc);
  run reset_children_flags;
  do sc <- get_scene;
  do mentioned <-
    fold_m (seq 0 (length (rooms sc))) (mentioned_rooms m)
      (fun mentioned i => resolve_room m i mentioned);
  run modify_scene
        (fun sc => Scene_set_rooms
                     (map (fun room => Room_set_in_proposition
                                         (str_in (room_id room) mentioned) room)
                          (rooms sc)) sc);
  run set_axes (match initial_ax with None => [] | Some ax => ax end);
  do '(height_lower, height_upper) <-
    plot_rooms_linear mentioned (target_width (scene_config sc))
      height_offset all_mentioned_rooms;
  run fold_m propositions O plot_proposition_lines;
  do sc <- get_scene;
  let wrapped_text :=
    if negb (PyStr.is_empty (instruction sc)) && show_instruction
    then wrap_text env (instruction sc) (scene_max_chars_per_line (scene_config sc))
    else "" in
  run (if negb (PyStr.is_empty (instruction sc)) && show_instruction
       then draw (InstructionText wrapped_text) else ret tt);
  run (match is_next_tos m with
       | _ :: _ =>
           run draw (LegendPlot
                       (scene_width sc,
                        (height_lower + height_upper) / 2
                        - is_next_to_height (scene_config sc) / 2));
           draw (SetXlim (0 - 300)
                   (scene_width sc + 300 + legend_width env + 300))
       | [] => draw (SetXlim 0 (scene_width sc))
       end);
  run draw (SetYlim height_lower height_upper);
  ret (height_lower, height_upper, wrapped_text).

(** [propositions[idx]], Python indexing: a negative index counts from
    the end. *)
Definition py_index {A} (l : list A) (idx : Z) : outcome A :=
  let n := Z.of_nat (length l) in
  let k := if (idx <? 0)%Z then (idx + n)%Z else idx in
  if (k <? 0)%Z then Raise IndexError
  else match l !! Z.to_nat k with
       | Some a => Ok a
       | None => Raise IndexError
       end.

Fixpoint py_index_all {A} (l : list A) (idxs : list Z) : outcome (list A) :=
  match idxs with
  | [] => Ok []
  | idx :: rest =>
      outcome_bind (py_index l idx) (fun a =>
      outcome_bind (py_index_all l rest) (fun r => Ok (a :: r)))
  end.

(** [sorted(l)] on strings. *)
Fixpoint insert_str (x : string) (l : list string) : list string :=
  match l with
  | [] => [x]
  | y :: l' => if String.ltb y x then y :: insert_str x l' else x :: l
  end.
Definition sorted_str (l : list string) : list string :=
  fold_right insert_str [] l.

(** The last ["toposort"] among the temporal constraints, [[]] if none. *)
Fixpoint find_toposort (cur : list (list Z)) (constraints : list Constraint)
    : outcome (list (list Z)) :=
  match constraints with
  | [] => Ok cur
  | c :: rest =>
      if String.eqb (constraint_type c) "TemporalConstraint" then
        outcome_bind (arg (toposort c)) (fun t => find_toposort t rest)
      else find_toposort cur rest
  end.

(** Lines 687-697: the rooms holding a mentioned object or receptacle. *)
Definition mentioned_rooms_toposort (m : Mentions) (rms : list Room) : list string :=
  fold_left
    (fun mentioned room =>
       let mentioned1 :=
         fold_left (fun mentioned obj =>
                      match find_object_by_id room obj with
                      | Some _ => mention (room_id room) mentioned
                      | None => mentioned
                      end) (mentioned_objs m) mentioned in
       fold_left (fun mentioned '(_, recep) =>
                    match find_receptacle_by_id (receptacles room) recep with
                    | Some _ => mention (room_id room) mentioned
                    | None => mentioned
                    end) (mentioned_receps m) mentioned1)
    rms (mentioned_rooms m).

(** Loop variables of the levels: [num_instruction_lines], [max_upper],
    [min_lower]. *)
Definition plot_level (propositions : list Proposition)
    (force_hide_instructions : bool) (all_mentioned_rooms : list string)
    (acc : nat * nat * Q * Q) (current_level : list Z)
    : SceneM (nat * nat * Q * Q) :=
  let '(level_idx, num_instruction_lines, max_upper, min_lower) := acc in
  let show_instruction :=
    (level_idx =? 0)%nat && negb force_hide_instructions in
  do current_propositions <- lift_outcome (py_index_all propositions current_level);
  do ax <- get_axes;
  do '(height_lower, height_upper, wrapped_text) <-
    plot_for_propositions current_propositions show_instruction min_lower
      (Some ax) (Some all_mentioned_rooms);
  run draw (AxHLine (height_lower - 20));
  ret (S level_idx,
       Nat.max num_instruction_lines (count_newlines wrapped_text + 1),
       Qmax height_upper max_upper,
       Qmin (height_lower - 40) min_lower).

(** [Scene.plot]: returns [num_instruction_lines]. *)
Definition Scene_plot (propositions : option (list Proposition))
    (constraints : option (list Constraint)) (force_hide_instructions : bool)
    : SceneM nat :=
  match constraints with
  | None => raise AssertionError
  | Some constraints =>
  match propositions with
  | None => raise AssertionError
  | Some propositions =>
      do toposort <- lift_outcome (find_toposort [] constraints);
      match toposort with
      | _ :: _ =>
          do m <- lift_outcome
                    (classify_propositions_toposort no_mentions propositions);
          do sc <- get_scene;
          let all_mentioned_rooms :=
            sorted_str (mentioned_rooms_toposort m (rooms sc)) in
          run set_axes [];
          do '(_, num_instruction_lines, max_upper, min_lower) <-
            fold_m toposort (O, O, 0, 0)
              (plot_level propositions force_hide_instructions all_mentioned_rooms);
          run modify_scene (Scene_set_height (max_upper - min_lower));
          ret num_instruction_lines
      | [] =>
          do '(height_lower, height_upper, wrapped_text) <-
            plot_for_propositions propositions (negb force_hide_instructions)
              0 None None;
          run modify_scene (Scene_set_height (height_upper - height_lower));
          ret (Nat.max O (count_newlines wrapped_text + 1))
      end
  end
  end.

End SceneLayout.

(** ** scene.py: the curved arrow *)

Module Arrow.

Local Open Scope R_scope.

Definition RPoint : Type := (R * R)%type.

(** What [add_arrow] adds to the axes.  [FancyArrowNaN] is the arrowhead
    patch built from NaN coordinates: numpy divides a zero vector by its
    zero norm without raising, every component becomes NaN, and the patch
    is still created from them. *)
Inductive Patch : Type :=
| PathPatch (p0 ctrl p1 : RPoint)
| FancyArrow (x y dx dy : R)
| FancyArrowNaN.

(** Lines 198-199 *)
Definition control_point (p0 p1 : RPoint) : RPoint :=
  let '(x0, y0) := p0 in
  let '(x1, y1) := p1 in
  let dx := x1 - x0 in
  let dy := y1 - y0 in
  ((x0 + x1) / 2 + dy / 2, (y0 + y1) / 2 + Rabs dx / 2).

(** Lines 213-215: the derivative of the curve at [t = 1]. *)
Definition end_tangent (p0 p1 : RPoint) : RPoint :=
  let '(x0, y0) := p0 in
  let '(x1, y1) := p1 in
  let '(ctrl_x, ctrl_y) := control_point p0 p1 in
  let t := 1 in
  (2 * (1 - t) * (ctrl_x - x0) + 2 * t * (x1 - ctrl_x),
   2 * (1 - t) * (ctrl_y - y0) + 2 * t * (y1 - ctrl_y)).

(** [np.linalg.norm] *)
Definition norm (v : RPoint) : R := sqrt (fst v * fst v + snd v * snd v).

(** [v /= np.linalg.norm(v)]: [None] is the NaN vector of a zero norm. *)
Definition normalize (v : RPoint) : option RPoint :=
  if Req_dec_T (norm v) 0 then None
  else Some (fst v / norm v, snd v / norm v).

(** Lines 216-217 *)
Definition arrow_dir (p0 p1 : RPoint) : option RPoint :=
  normalize (end_tangent p0 p1).

(** [Scene.add_arrow] *)
Definition add_arrow (head_length : R) (obj_loc room_loc : RPoint)
    (curved : bool) : list Patch :=
  let '(x0, y0) := obj_loc in
  let '(x1, y1) := room_loc in
  let dx := x1 - x0 in
  let dy := y1 - y0 in
  if curved then
    let patch := PathPatch (x0, y0) (control_point obj_loc room_loc) (x1, y1) in
    let arrow_head :=
      match arrow_dir obj_loc room_loc with
      | None => FancyArrowNaN
      | Some d =>
          let head_pos := (x1 - fst d * head_length, y1 - snd d * head_length) in
          FancyArrow (fst head_pos) (snd head_pos)
            (fst d * head_length) (snd d * head_length)
      end in
    [patch; arrow_head]
  else [FancyArrow x0 y0 dx dy].

(** The arrowhead as the specification describes it: the direction is the
    normalised tangent [2 * (p1 - ctrl)], the arrowhead patch starts at
    [p1 - direction * head_length] and spans [direction * head_length],
    so it ends on [p1]. *)
Definition arrowhead_at_destination (head_length : R) (p0 p1 : RPoint) : Prop :=
  exists d : RPoint,
    let ctrl := control_point p0 p1 in
    let tangent := (2 * (fst p1 - fst ctrl), 2 * (snd p1 - snd ctrl)) in
    norm tangent <> 0
    /\ d = (fst tangent / norm tangent, snd tangent / norm tangent)
    /\ add_arrow head_length p0 p1 true =
         [PathPatch p0 ctrl p1;
          FancyArrow (fst p1 - fst d * head_length) (snd p1 - snd d * head_length)
            (fst d * head_length) (snd d * head_length)]
    /\ (fst p1 - fst d * head_length) + fst d * head_length = fst p1
    /\ (snd p1 - snd d * head_length) + snd d * head_length = snd p1.

End Arrow.

(** * Vocabulary of the properties, and example data *)

(** A room of a given total width, for the examples. *)
Definition example_room_config : RoomConfig :=
  {| min_width := 100; min_width_per_object := 2; left_pad := 10; right_pad := 10;
     bottom_pad := 20; top_pad := 20; horizontal_margin := 5; vertical_margin := 5;
     full_height := 200; half_height := 100;
     receptacle_horizontal_margin_fraction := 1 # 10;
     object_horizontal_margin_fraction := 1 # 10;
     objects_height := 1 # 2;
     placeholder_height_if_full := 3 # 4; placeholder_height_if_half := 1 # 2;
     border_width := 2; placeholder_width := 10; placeholder_height := 10;
     max_chars_per_line := 20 |}.

Definition room_of_width (w : Q) : Room :=
  Room_set_geometry (w - 10) w 140 150 None
    (Room_init example_room_config "room_0" [] None false false None).

(** The positions at which [Receptacle.plot] was called, in call order. *)
Definition receptacle_plot_positions (c : Canvas) : list Point :=
  omap (fun d => match d with ReceptaclePlot _ p => Some p | _ => None end) c.

(** The wording of the specification: the first child starts at [start],
    each next one at the right edge of the previous one plus the spacing. *)
Fixpoint even_row (start spacing : Q) (widths : list Q) : list Q :=
  match widths with
  | [] => []
  | w :: ws => start :: even_row (start + w + spacing) spacing ws
  end.

(** The receptacle [b] is [a] with its stacking cursor possibly moved. *)
Definition cursor_moved (a b : Receptacle) : Prop :=
  exists c : Point, b = Receptacle_set_new_top_item_position c a.

(** The object [b] is [a] with its center anchor possibly reassigned. *)
Definition center_changed (a b : Object) : Prop :=
  exists c : option Point, b = Object_set_center c a.

(** The arguments of the receptacle loop of [Room.plot]. *)
Definition receptacle_row_spacing (self : Room) (target_width : option Q) : Q :=
  row_spacing (plot_room_width self target_width)
    (receptacle_horizontal_margin_fraction (room_config self))
    (Qsum (map receptacle_width (receptacles self)))
    (length (receptacles self)).

Definition receptacle_row_start (self : Room) (position : Point)
    (target_width : option Q) : Q :=
  fst position + horizontal_margin (room_config self)
  + receptacle_row_spacing self target_width
  + receptacle_horizontal_margin_fraction (room_config self)
    * plot_room_width self target_width.

Definition receptacle_row_y (self : Room) (position : Point) : Q :=
  snd position + vertical_margin (room_config self) + bottom_pad (room_config self).

(** Collaborators for the examples: a receptacle whose [plot] recomputes its
    anchors and its cursor from the position, one known object category,
    no icon files. *)
Definition example_receptacle_plot (r : Receptacle) (p : Point) : Receptacle :=
  {| receptacle_id := receptacle_id r; receptacle_width := receptacle_width r;
     plot_top_placeholder := plot_top_placeholder r;
     plot_center_placeholder := plot_center_placeholder r;
     top_placeholder_position := Some (fst p + receptacle_width r / 2, snd p + 60);
     center_placeholder_position := Some (fst p + receptacle_width r / 2, snd p + 30);
     new_top_item_position := (fst p, snd p + 50) |}.

Definition example_env : Collaborators :=
  {| receptacle_plot := example_receptacle_plot;
     wrap_text := fun s _ => s;
     textwrap_fill := fun s _ => s;
     path_exists := fun _ => false;
     icon_size := fun _ => (0, 0);
     object_category_map :=
       fun s => if String.eqb s "apple" then Some "food" else None;
     category_color_map :=
       fun s => if String.eqb s "food" then Some "#FF0000" else None;
     legend_width := 100 |}.

Definition example_receptacle (rid : string) (w : Q) : Receptacle :=
  {| receptacle_id := rid; receptacle_width := w;
     plot_top_placeholder := false; plot_center_placeholder := false;
     top_placeholder_position := None; center_placeholder_position := None;
     new_top_item_position := (0, 0) |}.

(** A room whose single receptacle (width 300) is wider than the minimum
    width (100) of the room. *)
Definition wide_receptacle_room : Room :=
  Room_init example_room_config "kitchen_0" [example_receptacle "fridge_0" 300]
    None false false None.

(** A room with a receptacle and two objects placed in the row. *)
Definition example_object_config : ObjectConfig :=
  {| oc_width := 40; oc_height := 40; oc_text_margin := 10; oc_textwrap_width := 12 |}.

Definition furnished_room : Room :=
  Room_init example_room_config "kitchen_0" [example_receptacle "fridge_0" 80]
    (Some [Object_init example_object_config "apple_0" None;
           Object_init example_object_config "apple_1" None])
    false false None.

(** The number of pairs (phrase, keyword) with the phrase inside the keyword. *)
Definition matches (phrases keywords : list string) : nat :=
  length (List.filter (fun pw => PyStr.contains (fst pw) (snd pw))
            (list_prod phrases keywords)).

(** Each element is followed only by elements of a key no larger. *)
Inductive descending {A} (key : A -> nat) : list A -> Prop :=
| descending_nil : descending key []
| descending_cons x l :
    (forall y, In y l -> (key y <= key x)%nat) ->
    descending key l -> descending key (x :: l).

(** The keys of the score dictionary: the room objects in the order of
    their first occurrence in the input. *)
Definition first_occurrences {H : Type} `{EqDecision H} (l : list H) : list H :=
  fold_left (fun acc h => if bool_decide (h ∈ acc) then acc else acc ++ [h]) l [].

(** The kitchen of the example: one receptacle, no objects. *)
Definition kitchen_room : Room :=
  Room_init example_room_config "kitchen_0" [example_receptacle "fridge_0" 80]
    None false false None.

(** A second room of the same score under the example instruction. *)
Definition pantry_room : Room :=
  Room_init example_room_config "pantry_0" []
    (Some [Object_init example_object_config "apple_0" None]) false false None.

Definition example_room_of (i : nat) : Room :=
  match i with O => kitchen_room | _ => pantry_room end.

(** Whether each room of the store has objects. *)
Definition objects_vector (sc : Scene) : list bool := map has_objects (rooms sc).

(** Every room that has objects has [use_full_height] set. *)
Definition full_height_inv (sc : Scene) : Prop :=
  Forall (fun r => has_objects r = true -> use_full_height r = true) (rooms sc).

Definition scene_inv (v : list bool) (sc : Scene) : Prop :=
  objects_vector sc = v /\ full_height_inv sc.

(** The computation [m] keeps the invariant on both exits, and a value it
    returns satisfies [Q]. *)
Definition keeps (v : list bool) {A} (m : SceneM A) (Q : A -> Prop) : Prop :=
  forall s : Scene * Canvas,
    scene_inv v (fst s) ->
    scene_inv v (fst (fst (m s))) /\ (forall a, snd (m s) = Ok a -> Q a).

(** What the invariant says about the room at position [i]. *)
Definition room_ok (v : list bool) (i : nat) (r : Room) : Prop :=
  v !! i = Some (has_objects r)
  /\ (has_objects r = true -> use_full_height r = true).

(** The rooms read at the positions of [row] have the objects that the
    store records for these positions. *)
Definition rooms_match (v : list bool) (row : list nat) (rs : list Room) : Prop :=
  Forall2 (fun i r => v !! i = Some (has_objects r)) row rs.

(** The flag that a flush computes is set as soon as a room of the row
    has objects. *)
Definition covers (v : list bool) (row : list nat) (b : bool) : Prop :=
  forall i, In i row -> v !! i = Some true -> b = true.

Definition example_scene_config : SceneConfig :=
  {| target_width := Some 500; arrow_head_length := 10;
     scene_max_chars_per_line := 40; is_next_to_height := 50 |}.

(** A scene of three rooms: a kitchen without objects, a furnished kitchen
    and a pantry with an object. *)
Definition example_scene : Scene :=
  {| scene_config := example_scene_config;
     instruction := "put the apple in the fridge";
     rooms := [kitchen_room; furnished_room; pantry_room];
     scene_width := 0; scene_height := 0 |}.

Definition next_to_proposition : Proposition :=
  {| function_name := "is_next_to";
     args := {| object_names := None; receptacle_names := None; room_names := None;
                number := Some 1%Z;
                entity_handles_a_names_and_types := Some [("apple_0", "object")];
                entity_handles_b_names_and_types := Some [("fridge_0", "furniture")] |} |}.

Definition temporal_constraint : Constraint :=
  {| constraint_type := "TemporalConstraint"; toposort := Some [[0%Z]] |}.

Definition terminal_constraint : Constraint :=
  {| constraint_type := "TerminalSatisfactionConstraint"; toposort := None |}.

(** A scene whose rooms all have an [objects] list. *)
Definition furnished_scene : Scene :=
  {| scene_config := example_scene_config;
     instruction := "put the apple next to the fridge";
     rooms := [furnished_room; pantry_room];
     scene_width := 0; scene_height := 0 |}.

Definition has_legend (ax : Canvas) : bool :=
  existsb (fun d => match d with LegendPlot _ => true | _ => false end) ax.

(** The computation [m] never stops on the loop bound, and a value it
    returns satisfies [Q]. *)
Definition post {A} (m : SceneM A) (Q : A -> Prop) : Prop :=
  forall s : Scene * Canvas,
    match snd (m s) with
    | Ok a => Q a
    | Raise e => e <> FuelExhausted
    end.

(** Work left in the row packing: two steps for each room still to visit,
    one more while the current row is not empty. *)
Definition row_measure (n : nat) (st : RowLoop) : nat :=
  (2 * (n - rl_i st) + match rl_rooms st with [] => 0 | _ => 1 end)%nat.

(** ** Constructors and cleanup *)

(** [Scene.__init__]: [self.rooms] is what [sort_rooms] returns.  The rooms
    passed in are distinct objects: the position of a room in the argument
    stands for its identity. *)
Definition Scene_init (config : SceneConfig) (rooms : list Room)
    (instruction : string) : Scene :=
  let sorted :=
    match rooms with
    | [] => []
    | r0 :: _ =>
        let room_of (i : nat) : Room := default r0 (rooms !! i) in
        map room_of (sort_rooms room_of (seq 0 (length rooms)) instruction)
    end in
  {| scene_config := config; instruction := instruction; rooms := sorted;
     scene_width := 0; scene_height := 0 |}.

(** [Room.cleanup]: a non-empty [objects] list and a non-empty
    [receptacles] list are cleared; [None] and the empty list are left as
    they are. *)
Definition Room_cleanup (self : Room) : Room :=
  let objs := match objects self with
              | Some (_ :: _) => Some []
              | o => o
              end in
  let recs := match receptacles self with
              | _ :: _ => []
              | l => l
              end in
  Room_set_children recs objs self.

(** [Scene.cleanup]: every room is cleaned up. *)
Definition Scene_cleanup (self : Scene) : Scene :=
  Scene_set_rooms (map Room_cleanup (rooms self)) self.

(** ** Vocabulary of the further properties *)

(** [Object.plot] has something to draw for the object: an icon file that
    exists, or a colour for the category named by its id. *)
Definition has_shape (env : Collaborators) (o : Object) : bool :=
  match icon_path o with
  | Some p => path_exists env p
  | None => false
  end
  || match object_category_map env
             (PyStr.join "_" (PyStr.drop_last (PyStr.split_on "_"%char (object_id o)))) with
     | Some cat =>
         match category_color_map env cat with Some _ => true | None => false end
     | None => false
     end.

(** An object that the map sends to a receptacle can be stacked on it: the
    receptacle is in the room and the object carries a [text_position]. *)
Definition stackable (m : option (gmap string string)) (recs : list Receptacle)
    (o : Object) : bool :=
  match mapped_receptacle m o with
  | None => true
  | Some rid =>
      existsb (fun r => String.eqb (receptacle_id r) rid) recs
      && match text_position o with Some _ => true | None => false end
  end.

(** A room that stacks its one object on its receptacle. *)
Definition stacked_room : Room :=
  Room_init example_room_config "kitchen_0" [example_receptacle "fridge_0" 80]
    (Some [Object_init example_object_config "apple_0" None])
    false false (Some {[ "apple_0"%string := "fridge_0"%string ]}).

(** The center anchor of the object is the center of a box of its size
    whose lower left corner is [(x, y)]. *)
Definition centered_at (y : Q) (o : Object) (x : Q) : Prop :=
  match center_position o with
  | Some c => fst c == x + Object_width o / 2 /\ snd c == y + Object_height o / 2
  | None => False
  end.

(** The proposition kinds that [plot_for_propositions] has a branch for,
    and those the pass of [Scene.plot] over a toposort has a branch for. *)
Definition known_function (fn : string) : bool :=
  String.eqb fn "is_on_top" || String.eqb fn "is_inside"
  || String.eqb fn "is_in_room" || String.eqb fn "is_on_floor"
  || String.eqb fn "is_next_to".

Definition known_function_toposort (fn : string) : bool :=
  String.eqb fn "is_on_top" || String.eqb fn "is_inside"
  || String.eqb fn "is_in_room" || String.eqb fn "is_on_floor".

(** The computation [m] takes every state to a state related to it by
    [R], on both exits. *)
Definition steps (R : Scene * Canvas -> Scene * Canvas -> Prop) {A}
    (m : SceneM A) : Prop :=
  forall s : Scene * Canvas, R s (fst (m s)).

(** What plotting leaves alone.  An object keeps its id, icon, config and
    text position; a receptacle its id and width; a room its id, config and
    object map, the number and order of its children, and whether it has
    an [objects] list at all; a scene its config, instruction and the
    number and order of its rooms. *)
Definition same_object (o o' : Object) : Prop :=
  object_id o' = object_id o /\ icon_path o' = icon_path o
  /\ object_config o' = object_config o /\ text_position o' = text_position o.

Definition same_receptacle (r r' : Receptacle) : Prop :=
  receptacle_id r' = receptacle_id r /\ receptacle_width r' = receptacle_width r.

Definition same_room (r r' : Room) : Prop :=
  room_id r' = room_id r /\ room_config r' = room_config r
  /\ object_to_recep r' = object_to_recep r
  /\ Forall2 same_receptacle (receptacles r) (receptacles r')
  /\ match objects r, objects r' with
     | Some l, Some l' => Forall2 same_object l l'
     | None, None => True
     | _, _ => False
     end.

Definition same_scene (sc sc' : Scene) : Prop :=
  scene_config sc' = scene_config sc /\ instruction sc' = instruction sc
  /\ Forall2 same_room (rooms sc) (rooms sc').

(** [same_scene] as a relation between the states of a scene method. *)
Definition scene_kept (s s' : Scene * Canvas) : Prop := same_scene (fst s) (fst s').

(** The positions, from [k] on, of the rooms of [l] whose id passes
    [keep]. *)
Fixpoint positions_from (k : nat) (keep : string -> bool) (l : list Room)
    : list nat :=
  match l with
  | [] => []
  | r :: l' =>
      if keep (room_id r) then k :: positions_from (S k) keep l'
      else positions_from (S k) keep l'
  end.

(** The room holds an object or a receptacle that the propositions
    mention. *)
Definition holds_mentioned (m : Mentions) (room : Room) : Prop :=
  (exists obj, In obj (mentioned_objs m) /\ find_object_by_id room obj <> None)
  \/ (exists fn recep, In (fn, recep) (mentioned_receps m)
                       /\ find_receptacle_by_id (receptacles room) recep <> None).

(** The state [s'] is [s] with arrows of one style added to the axes. *)
Definition arrows_added (dashed : bool) (color : string)
    (s s' : Scene * Canvas) : Prop :=
  fst s' = fst s
  /\ exists arrows : Canvas,
       snd s' = (snd s ++ arrows)%list
       /\ Forall (fun d => exists p q, d = AddArrow p q dashed color) arrows.

(** The scene is at least as wide afterwards. *)
Definition width_grows (s s' : Scene * Canvas) : Prop :=
  scene_width (fst s) <= scene_width (fst s').

(** A room of positive natural width none of whose objects is mapped to a
    receptacle. *)
Definition plain_room (r : Room) : Prop :=
  0 < width (init_size r)
  /\ forall o, In o (objects_list r) ->
               mapped_receptacle (object_to_recep r) o = None.

(** The room is one of the mentioned ones. *)
Definition is_mentioned (mentioned : list string) (r : Room) : bool :=
  str_in (room_id r) mentioned.

(** The state [s'] has the scene width of [s], rooms with the ids of those
    of [s], and the mentioned rooms of [s] unchanged. *)
Definition first_row_kept (mentioned : list string) (s s' : Scene * Canvas) : Prop :=
  scene_width (fst s') = scene_width (fst s)
  /\ Forall2 (fun r r' => room_id r' = room_id r
                          /\ (is_mentioned mentioned r = true -> r' = r))
       (rooms (fst s)) (rooms (fst s')).

(** The room at position [i], if any, is not mentioned. *)
Definition unmentioned_at (mentioned : list string) (s : Scene * Canvas)
    (i : nat) : Prop :=
  forall r, rooms (fst s) !! i = Some r -> is_mentioned mentioned r = false.

(** The rooms of [s'] are, position by position, related by [RR] to those
    of [s]. *)
Definition rooms_kept (RR : Room -> Room -> Prop) (s s' : Scene * Canvas) : Prop :=
  Forall2 RR (rooms (fst s)) (rooms (fst s')).

(** The room has kept its id and its two highlighting flags. *)
Definition same_flags (r r' : Room) : Prop :=
  room_id r' = room_id r /\ plot_placeholder r' = plot_placeholder r
  /\ in_proposition r' = in_proposition r.

(** The room holds an object that an [is_on_floor] proposition names, or
    an object or a receptacle that another proposition mentions. *)
Definition holds_named (m : Mentions) (room : Room) : Prop :=
  (exists obj, In obj (on_floor_objs m) /\ find_object_by_id room obj <> None)
  \/ holds_mentioned m room.

(** [is_in_room(apple_0, pantry_0)] *)
Definition in_room_proposition : Proposition :=
  {| function_name := "is_in_room";
     args := {| object_names := Some ["apple_0"]; receptacle_names := None;
                room_names := Some ["pantry_0"]; number := Some 1%Z;
                entity_handles_a_names_and_types := None;
                entity_handles_b_names_and_types := None |} |}.

(** * Properties *)

(** Linear arithmetic over [Q] and over [R]. *)
Ltac qlra := Lqa.lra.
Ltac rlra := Lra.lra.

(** ** Sums of rationals *)

Lemma fold_left_Qplus_compat (l : list Q) (a b : Q) :
  a == b -> fold_left Qplus l a == fold_left Qplus l b.
Proof.
  revert a b. induction l as [|x l IH]; intros a b Hab; simpl.
  - exact Hab.
  - apply IH. rewrite Hab. reflexivity.
Qed.

Lemma fold_left_Qplus_scale (f : Q) (l : list Q) (a : Q) :
  fold_left Qplus (map (fun x => x * f) l) (a * f) == fold_left Qplus l a * f.
Proof.
  revert a. induction l as [|x l IH]; intros a; simpl.
  - reflexivity.
  - rewrite <- IH. apply fold_left_Qplus_compat. ring.
Qed.

Lemma Qsum_scale (f : Q) (l : list Q) :
  Qsum (map (fun x => x * f) l) == Qsum l * f.
Proof.
  unfold Qsum. rewrite <- fold_left_Qplus_scale.
  apply fold_left_Qplus_compat. ring.
Qed.

(** ** Width redistribution *)

Lemma redistribute_ok (rooms_to_plot : list Room) (target_width : Q) :
  ~ Qsum (map width rooms_to_plot) == 0 ->
  redistribute_target_width_to_rooms rooms_to_plot target_width =
  Ok (map (fun room =>
             width room * (target_width / Qsum (map width rooms_to_plot)))
          rooms_to_plot).
Proof.
  intros Hne. unfold redistribute_target_width_to_rooms.
  destruct (Qeq_bool (Qsum (map width rooms_to_plot)) 0) eqn:E.
  - apply Qeq_bool_iff in E. contradiction.
  - reflexivity.
Qed.

(** C1 as stated fails on the doubles: rooms of width 130 and 170 with
    target 500 get 216.66666666666669 and 283.33333333333337, and these
    sum to 500.00000000000006, above the target. *)
Lemma C1_rounded_shares_miss_target :
  exists w1 w2 : float,
    redistribute_target_width_to_rooms_float [130; 170]%float 500%float
    = Ok [w1; w2]
    /\ PrimFloat.ltb 500%float (float_sum [w1; w2]) = true
    /\ float_sum [w1; w2] <> 500%float.
Proof.
  eexists. eexists. split; [vm_compute; reflexivity|].
  split; [vm_compute; reflexivity|].
  intros H. apply (f_equal (fun x => PrimFloat.eqb x 500%float)) in H.
  vm_compute in H. discriminate.
Qed.

(** C1, amended: [redistribute_target_width_to_rooms] returns one width per
    room, the product [room.width * (target_width / total)] as the doubles
    give it (the quotient rounded first, then each product), and raises
    [ZeroDivisionError] when the total is zero; rooms of width 100 and 200
    with target 450 get exactly 150 and 300.  In exact arithmetic, for a
    non-empty list of rooms of positive total width, the products sum to
    [target_width]; the rounded products need not. *)
Theorem C1_redistribute_proportional :
  (forall (widths : list float) (target_width : float),
      (PrimFloat.eqb (float_sum widths) 0%float = true ->
       redistribute_target_width_to_rooms_float widths target_width
       = Raise ZeroDivisionError)
      /\ (PrimFloat.eqb (float_sum widths) 0%float = false ->
          exists shares : list float,
            redistribute_target_width_to_rooms_float widths target_width
            = Ok shares
            /\ length shares = length widths
            /\ forall (i : nat) (w : float),
                 widths !! i = Some w ->
                 shares !! i
                 = Some (PrimFloat.mul w
                           (PrimFloat.div target_width (float_sum widths)))))
  /\ redistribute_target_width_to_rooms_float [100; 200]%float 450%float
     = Ok [150; 300]%float
  /\ (forall (rooms_to_plot : list Room) (target_width : Q),
        rooms_to_plot <> [] ->
        0 < Qsum (map width rooms_to_plot) ->
        exists widths : list Q,
          redistribute_target_width_to_rooms rooms_to_plot target_width = Ok widths
          /\ length widths = length rooms_to_plot
          /\ widths = map (fun room =>
                             width room
                             * (target_width / Qsum (map width rooms_to_plot)))
                          rooms_to_plot
          /\ Qsum widths == target_width).
Proof.
  split; [|split].
  - intros widths target_width. unfold redistribute_target_width_to_rooms_float.
    split; intros E; rewrite E; [reflexivity|].
    eexists. split; [reflexivity|]. split; [apply length_map|].
    intros i w Hi. rewrite list_lookup_fmap, Hi. reflexivity.
  - vm_compute. reflexivity.
  - intros rooms_to_plot target_width _ Hpos.
    assert (Hne : ~ Qsum (map width rooms_to_plot) == 0) by qlra.
    eexists. split; [apply redistribute_ok; exact Hne|].
    split; [apply length_map|]. split; [reflexivity|].
    rewrite <- (map_map width
                 (fun w => w * (target_width / Qsum (map width rooms_to_plot)))).
    rewrite Qsum_scale. field. exact Hne.
Qed.

Lemma C1_redistribute_proportional_witness :
  (exists shares : list float,
     redistribute_target_width_to_rooms_float [100; 200]%float 450%float
     = Ok shares
     /\ length shares = length [100; 200]%float
     /\ forall (i : nat) (w : float),
          [100; 200]%float !! i = Some w ->
          shares !! i
          = Some (PrimFloat.mul w
                    (PrimFloat.div 450%float (float_sum [100; 200]%float))))
  /\ exists widths : list Q,
       redistribute_target_width_to_rooms
         [room_of_width 100; room_of_width 200] 450 = Ok widths
       /\ length widths = length [room_of_width 100; room_of_width 200]
       /\ widths = map (fun room =>
                          width room
                          * (450 / Qsum (map width
                                           [room_of_width 100; room_of_width 200])))
                       [room_of_width 100; room_of_width 200]
       /\ Qsum widths == 450.
Proof.
  split.
  - apply (proj2 (proj1 C1_redistribute_proportional [100; 200]%float 450%float)).
    vm_compute. reflexivity.
  - apply (proj2 (proj2 C1_redistribute_proportional)
             [room_of_width 100; room_of_width 200] 450).
    + discriminate.
    + vm_compute. reflexivity.
Defined.

(** ** Placement of the receptacles by [Room.plot] *)

Lemma even_row_compat (spacing : Q) (widths : list Q) (a b : Q) :
  a == b -> Forall2 Qeq (even_row a spacing widths) (even_row b spacing widths).
Proof.
  revert a b. induction widths as [|w ws IH]; intros a b Hab; simpl.
  - constructor.
  - constructor; [exact Hab|]. apply IH. rewrite Hab. reflexivity.
Qed.

Lemma Forall2_Qeq_trans (l1 l2 l3 : list Q) :
  Forall2 Qeq l1 l2 -> Forall2 Qeq l2 l3 -> Forall2 Qeq l1 l3.
Proof.
  intros H12. revert l3. induction H12 as [|a b l1 l2 Hab _ IH]; intros l3 H23.
  - inversion H23. constructor.
  - inversion H23 as [|b' c l2' l3' Hbc Hrest]; subst.
    constructor; [rewrite Hab; exact Hbc | apply IH; exact Hrest].
Qed.

Lemma receptacle_plot_positions_app (c1 c2 : Canvas) :
  receptacle_plot_positions (c1 ++ c2) =
  (receptacle_plot_positions c1 ++ receptacle_plot_positions c2)%list.
Proof. unfold receptacle_plot_positions. apply omap_app. Qed.

Section ReceptaclePlacement.

Variable env : Collaborators.

Lemma plot_receptacles_spec (y spacing : Q) (recs : list Receptacle) :
  forall (offset : Q) (ax : Canvas),
  exists (xs : list Q) (drawn : Canvas),
    snd (plot_receptacles env y spacing recs offset ax) = (ax ++ drawn)%list
    /\ receptacle_plot_positions drawn = map (fun x => (x, y)) xs
    /\ length (fst (plot_receptacles env y spacing recs offset ax)) = length recs
    /\ Forall2 Qeq xs
         (even_row offset spacing
            (map receptacle_width
               (fst (plot_receptacles env y spacing recs offset ax))))
    /\ length xs = length recs.
Proof.
  induction recs as [|r rest IH]; intros offset ax; simpl.
  - exists [], []. rewrite app_nil_r. repeat split; constructor.
  - destruct (plot_receptacles env y spacing rest
                (offset + (receptacle_width (receptacle_plot env r (offset, y)) + spacing))
                (ax ++ [ReceptaclePlot (receptacle_id r) (offset, y)])%list)
      as [rest' ax''] eqn:E.
    specialize (IH (offset + (receptacle_width (receptacle_plot env r (offset, y)) + spacing))
                   (ax ++ [ReceptaclePlot (receptacle_id r) (offset, y)])%list).
    rewrite E in IH. simpl in IH.
    destruct IH as (xs & drawn & Hax & Hpos & Hlen & Hrow & Hxs).
    exists (offset :: xs), (ReceptaclePlot (receptacle_id r) (offset, y) :: drawn).
    simpl. repeat split.
    + rewrite Hax, <- app_assoc. reflexivity.
    + unfold receptacle_plot_positions in *. simpl. rewrite Hpos. reflexivity.
    + rewrite Hlen. reflexivity.
    + constructor; [reflexivity|].
      eapply Forall2_Qeq_trans; [exact Hrow|].
      apply even_row_compat. ring.
    + rewrite Hxs. reflexivity.
Qed.

End ReceptaclePlacement.

(** ** What [Room.plot] changes in its children *)

Lemma cursor_moved_refl (a : Receptacle) : cursor_moved a a.
Proof. exists (new_top_item_position a). destruct a; reflexivity. Qed.

Lemma cursor_moved_trans (a b c : Receptacle) :
  cursor_moved a b -> cursor_moved b c -> cursor_moved a c.
Proof. intros [x ->] [y ->]. exists y. reflexivity. Qed.

Lemma center_changed_refl (a : Object) : center_changed a a.
Proof. exists (center_position a). destruct a; reflexivity. Qed.

Lemma Forall2_refl_on {A} (P : A -> A -> Prop) (l : list A) :
  (forall a, P a a) -> Forall2 P l l.
Proof. intros HP. induction l; constructor; auto. Qed.

Lemma Forall2_cursor_moved_trans (l1 l2 l3 : list Receptacle) :
  Forall2 cursor_moved l1 l2 -> Forall2 cursor_moved l2 l3 ->
  Forall2 cursor_moved l1 l3.
Proof.
  intros H12. revert l3. induction H12 as [|a b l1 l2 Hab _ IH]; intros l3 H23.
  - inversion H23. constructor.
  - inversion H23 as [|b' c l2' l3' Hbc Hrest]; subst.
    constructor; [eapply cursor_moved_trans; eauto | apply IH; exact Hrest].
Qed.

Lemma find_receptacle_from_lookup (l : list Receptacle) (rid : string) :
  forall (k i : nat) (r : Receptacle),
    find_receptacle_from k l rid = Some (i, r) ->
    exists j : nat, i = (k + j)%nat /\ l !! j = Some r.
Proof.
  induction l as [|x l IH]; intros k i r Hf; simpl in Hf; [discriminate|].
  destruct (String.eqb (receptacle_id x) rid).
  - inversion Hf; subst. exists O. split; [lia | reflexivity].
  - apply IH in Hf. destruct Hf as (j & -> & Hj).
    exists (S j). split; [lia | exact Hj].
Qed.

Lemma find_receptacle_by_id_lookup (l : list Receptacle) (rid : string)
    (i : nat) (r : Receptacle) :
  find_receptacle_by_id l rid = Some (i, r) -> l !! i = Some r.
Proof.
  intros Hf. apply find_receptacle_from_lookup in Hf.
  destruct Hf as (j & -> & Hj). exact Hj.
Qed.

Lemma cursor_moved_insert (recs : list Receptacle) (i : nat) (cur : Receptacle)
    (c : Point) :
  recs !! i = Some cur ->
  Forall2 cursor_moved recs
    (<[i := Receptacle_set_new_top_item_position c cur]> recs).
Proof.
  intros Hi.
  rewrite <- (list_insert_id recs i cur Hi) at 1.
  apply Forall2_insert.
  - apply Forall2_refl_on, cursor_moved_refl.
  - exists c. reflexivity.
Qed.

Section RoomPlotFacts.

Variable env : Collaborators.

Lemma object_patch_center (o : Object) (c : option Point) (p : Point) :
  object_patch env (Object_set_center c o) p = object_patch env o p.
Proof. reflexivity. Qed.

Lemma object_patch_no_receptacle (o : Object) (p : Point) (d : DrawCmd)
    (rest : Canvas) :
  object_patch env o p = Ok d ->
  receptacle_plot_positions (d :: rest) = receptacle_plot_positions rest.
Proof.
  unfold object_patch. intros Hd.
  destruct (icon_path o) as [ip|]; [destruct (path_exists env ip)|];
    try (inversion Hd; subst; reflexivity);
    destruct (object_category_map env _) as [cat|]; try discriminate;
    destruct (category_color_map env cat); try discriminate;
    inversion Hd; subst; reflexivity.
Qed.

(** [Object.plot] either raises and leaves everything as it was, or
    assigns the center anchor and draws the shape and the label. *)
Lemma Object_plot_cases (o : Object) (ax : Canvas) (p : Point) :
  (exists e, object_patch env o p = Raise e
             /\ Object_plot env o ax p = (o, ax, Raise e))
  \/ (exists d, object_patch env o p = Ok d
                /\ Object_plot env o ax p =
                   (Object_set_center
                      (Some (fst p + oc_width (object_config o) / 2,
                             snd p + oc_height (object_config o) / 2)) o,
                    ax ++ [d; Annotate
                                (textwrap_fill env (object_id o)
                                   (oc_textwrap_width (object_config o)))
                                (fst p + oc_width (object_config o) / 2,
                                 snd p + oc_height (object_config o) / 2
                                 + oc_text_margin (object_config o))],
                    Ok tt)).
Proof.
  unfold Object_plot. destruct (object_patch env o p) as [d|e].
  - right. exists d. split; reflexivity.
  - left. exists e. split; reflexivity.
Qed.

(** The loop over the objects keeps the receptacles up to their cursors,
    keeps the objects up to their center anchors, and only adds drawings
    of objects to the axes. *)
Lemma plot_objects_facts (m : option (gmap string string)) (y spacing : Q)
    (objs : list Object) :
  forall (offset : Q) (recs : list Receptacle) (ax : Canvas)
         (objs' : list Object) (recs' : list Receptacle) (ax' : Canvas)
         (res : outcome unit),
    plot_objects env m y spacing objs offset recs ax = (objs', recs', ax', res) ->
    Forall2 center_changed objs objs'
    /\ Forall2 cursor_moved recs recs'
    /\ exists extra, ax' = ax ++ extra /\ receptacle_plot_positions extra = [].
Proof.
  induction objs as [|obj rest IH]; intros offset recs ax objs' recs' ax' res Hp;
    simpl in Hp.
  - inversion Hp; subst. split; [constructor|].
    split; [apply Forall2_refl_on, cursor_moved_refl|].
    exists []. rewrite app_nil_r. split; reflexivity.
  - destruct (mapped_receptacle m obj) as [rid|].
    + destruct (find_receptacle_by_id recs rid) as [[i cur]|] eqn:Hfind.
      * destruct (Object_plot_cases obj ax (new_top_item_position cur))
          as [(e & Hpatch & Hplot)|(d & Hpatch & Hplot)]; rewrite Hplot in Hp.
        -- inversion Hp; subst.
           split; [apply Forall2_refl_on, center_changed_refl|].
           split; [apply Forall2_refl_on, cursor_moved_refl|].
           exists []. rewrite app_nil_r. split; reflexivity.
        -- simpl in Hp. destruct (text_position obj) as [tp|].
           ++ match type of Hp with
              | context [plot_objects ?a ?b ?c ?d ?e ?f ?g ?h] =>
                  destruct (plot_objects a b c d e f g h)
                    as [[[rest1 recs1] ax1] res1] eqn:Hcall
              end.
              inversion Hp; subst. apply IH in Hcall.
              destruct Hcall as (Hobjs & Hrecs & extra & -> & Hextra).
              split; [constructor; [eexists; reflexivity | exact Hobjs]|].
              split.
              { eapply Forall2_cursor_moved_trans; [|exact Hrecs].
                apply cursor_moved_insert.
                eapply find_receptacle_by_id_lookup; exact Hfind. }
              eexists. rewrite <- app_assoc. split; [reflexivity|].
              rewrite receptacle_plot_positions_app,
                (object_patch_no_receptacle _ _ _ _ Hpatch), Hextra.
              reflexivity.
           ++ inversion Hp; subst.
              split; [constructor;
                      [eexists; reflexivity
                      | apply Forall2_refl_on, center_changed_refl]|].
              split; [apply Forall2_refl_on, cursor_moved_refl|].
              eexists. split; [reflexivity|].
              rewrite (object_patch_no_receptacle _ _ _ _ Hpatch). reflexivity.
      * inversion Hp; subst.
        split; [apply Forall2_refl_on, center_changed_refl|].
        split; [apply Forall2_refl_on, cursor_moved_refl|].
        exists []. rewrite app_nil_r. split; reflexivity.
    + destruct (Object_plot_cases obj ax (offset, y))
        as [(e & Hpatch & Hplot)|(d & Hpatch & Hplot)]; rewrite Hplot in Hp.
      * inversion Hp; subst.
        split; [apply Forall2_refl_on, center_changed_refl|].
        split; [apply Forall2_refl_on, cursor_moved_refl|].
        exists []. rewrite app_nil_r. split; reflexivity.
      * match type of Hp with
              | context [plot_objects ?a ?b ?c ?d ?e ?f ?g ?h] =>
                  destruct (plot_objects a b c d e f g h)
                    as [[[rest1 recs1] ax1] res1] eqn:Hcall
              end.
        inversion Hp; subst. apply IH in Hcall.
        destruct Hcall as (Hobjs & Hrecs & extra & -> & Hextra).
        split; [constructor; [eexists; reflexivity | exact Hobjs]|].
        split; [exact Hrecs|].
        eexists. rewrite <- app_assoc. split; [reflexivity|].
        rewrite receptacle_plot_positions_app,
          (object_patch_no_receptacle _ _ _ _ Hpatch), Hextra.
        reflexivity.
Qed.

End RoomPlotFacts.

Lemma even_row_compat2 (widths : list Q) (a b s s' : Q) :
  a == b -> s == s' ->
  Forall2 Qeq (even_row a s widths) (even_row b s' widths).
Proof.
  revert a b. induction widths as [|w ws IH]; intros a b Hab Hs; simpl.
  - constructor.
  - constructor; [exact Hab|]. apply IH; [|exact Hs]. rewrite Hab, Hs. reflexivity.
Qed.

Lemma cursor_moved_widths (l1 l2 : list Receptacle) :
  Forall2 cursor_moved l1 l2 ->
  map receptacle_width l2 = map receptacle_width l1
  /\ map receptacle_id l2 = map receptacle_id l1.
Proof.
  induction 1 as [|a b l1 l2 [c ->] _ [IHw IHi]]; [split; reflexivity|].
  simpl. rewrite IHw, IHi. split; reflexivity.
Qed.

Lemma Qdiv_neg_iff (x d : Q) : 0 < d -> (x < 0 <-> x / d < 0).
Proof.
  intros Hd. split; intros Hx.
  - apply Qlt_shift_div_r; [exact Hd|]. qlra.
  - assert (E : x == x / d * d) by (field; qlra).
    assert (H1 : x / d * d < 0 * d) by (apply Qmult_lt_r; assumption).
    rewrite <- E in H1. qlra.
Qed.

Lemma Qnat_succ_pos (n : nat) : 0 < Qnat n + 1.
Proof.
  unfold Qnat. assert (0 <= inject_Z (Z.of_nat n)).
  { change 0 with (inject_Z 0). rewrite <- Zle_Qle. lia. }
  qlra.
Qed.

Lemma Room_plot_finish_room (self : Room) (position : Point) (rw : Q)
    (recs : list Receptacle) (objs : option (list Object)) (rh h : Q) (ax : Canvas) :
  exists extra center,
    Room_plot_finish self position rw recs objs rh h ax =
    (Room_set_geometry rw (rw + 2 * horizontal_margin (room_config self)) rh h
       (Some center) (Room_set_children recs objs self),
     ax ++ extra, Ok tt)
    /\ receptacle_plot_positions extra = []
    /\ center =
       (fst position + horizontal_margin (room_config self) + rw / 2,
        snd position + vertical_margin (room_config self)
        + bottom_pad (room_config self)
        + (if use_full_height self
           then placeholder_height_if_full (room_config self)
                * full_height (room_config self)
           else placeholder_height_if_half (room_config self)
                * half_height (room_config self))).
Proof.
  unfold Room_plot_finish. eexists. eexists.
  split; [reflexivity|]. split; [|reflexivity].
  destruct (in_proposition self), (plot_placeholder self); reflexivity.
Qed.

Section RoomPlotShape.

Variable env : Collaborators.

(** The room after [Room.plot]: the same room with new geometry, with
    receptacles that went through [Receptacle.plot] and whose cursors may
    have moved, and with objects whose center anchors may have changed.
    The axes only grows, and after the receptacle loop no further
    receptacle is plotted. *)
Lemma Room_plot_shape (self : Room) (position : Point) (ax : Canvas)
    (target_width : option Q) :
  let row := plot_receptacles env (receptacle_row_y self position)
               (receptacle_row_spacing self target_width) (receptacles self)
               (receptacle_row_start self position target_width) ax in
  exists (objs' : option (list Object)) (recs2 : list Receptacle)
         (rh h : Q) (center : option Point) (extra : Canvas) (res : outcome unit),
    Room_plot env self position ax target_width =
      (Room_set_geometry (plot_room_width self target_width)
         (plot_room_width self target_width + 2 * horizontal_margin (room_config self))
         rh h center (Room_set_children recs2 objs' self),
       snd row ++ extra, res)
    /\ Forall2 cursor_moved (fst row) recs2
    /\ receptacle_plot_positions extra = []
    /\ match objects self, objs' with
       | Some l, Some l' => Forall2 center_changed l l'
       | None, None => True
       | _, _ => False
       end
    /\ (has_objects self = false -> res = Ok tt).
Proof.
  intros row. subst row.
  unfold Room_plot, receptacle_row_start, receptacle_row_y, receptacle_row_spacing.
  cbn [fst snd].
  match goal with
  | |- context [plot_receptacles ?a ?b ?c ?d ?e ?f] =>
      destruct (plot_receptacles a b c d e f) as [recs1 ax1]
  end.
  cbn [fst snd].
  destruct (has_objects self) eqn:Hobj.
  - destruct (unmapped_objects self) as [total_object_width num_objects].
    match goal with
    | |- context [plot_objects ?a ?b ?c ?d ?e ?f ?g ?h] =>
        destruct (plot_objects a b c d e f g h)
          as [[[objs' recs2] ax3] res] eqn:Hcall
    end.
    apply plot_objects_facts in Hcall.
    destruct Hcall as (Hobjs & Hrecs & extra & -> & Hextra).
    assert (Hl : objects self = Some (objects_list self)).
    { unfold has_objects, objects_list in *. destruct (objects self); [reflexivity|discriminate]. }
    destruct res as [[]|e].
    + destruct (Room_plot_finish_room self position
                  (plot_room_width self target_width) recs2 (Some objs')
                  (full_height (room_config self) + bottom_pad (room_config self)
                   + top_pad (room_config self)) (height self)
                  ((ax1 ++ [Annotate
                              (wrap_text env (room_id self)
                                 (max_chars_per_line (room_config self)))
                              (fst position + horizontal_margin (room_config self)
                               + plot_room_width self target_width / 2,
                               snd position + vertical_margin (room_config self)
                               + bottom_pad (room_config self) / 4 * 1
                                 / (Qnat (count_newlines
                                            (wrap_text env (room_id self)
                                               (max_chars_per_line (room_config self))))
                                    + 1))]) ++ extra))
        as (extra2 & center & Hfin & Hextra2 & _).
      simpl fst in *. simpl snd in *. rewrite Hfin.
      exists (Some objs'), recs2. do 2 eexists. exists (Some center).
      eexists. exists (Ok tt).
      split; [rewrite <- !app_assoc; reflexivity|].
      split; [exact Hrecs|]. split.
      { rewrite !receptacle_plot_positions_app, Hextra, Hextra2. reflexivity. }
      split; [rewrite Hl; exact Hobjs | discriminate].
    + exists (Some objs'), recs2. do 2 eexists. exists (room_center_position self).
      eexists. exists (Raise e).
      split; [rewrite <- !app_assoc; reflexivity|].
      split; [exact Hrecs|]. split.
      { rewrite !receptacle_plot_positions_app, Hextra. reflexivity. }
      split; [rewrite Hl; exact Hobjs | discriminate].
  - match goal with
    | |- context [Room_plot_finish ?a ?b ?c ?d ?e ?f ?g ?h] =>
        destruct (Room_plot_finish_room a b c d e f g h)
          as (extra2 & center & Hfin & Hextra2 & _)
    end.
    simpl fst in *. simpl snd in *. rewrite Hfin.
    exists (objects self), recs1. do 2 eexists. exists (Some center).
    eexists. exists (Ok tt).
    split; [rewrite <- !app_assoc; reflexivity|].
    split; [apply Forall2_refl_on, cursor_moved_refl|]. split.
    { rewrite !receptacle_plot_positions_app, Hextra2. reflexivity. }
    split; [|reflexivity].
    destruct (objects self) as [l|]; [|exact I].
    apply Forall2_refl_on, center_changed_refl.
Qed.

End RoomPlotShape.

(** C2: [Room.plot] calls [Receptacle.plot] once per receptacle, in a single
    row: with [spacing = (room_width - 2 * fraction * room_width - sum of the
    receptacle widths) / (count + 1)], the first call is at the left content
    edge plus [spacing + fraction * room_width], each next call at the right
    edge of the previous receptacle plus [spacing].  The spacing is negative
    exactly when the receptacles are wider than the room width left between
    the two margins; the positions are computed all the same, and a room
    without objects returns without raising. *)
Theorem C2_receptacles_evenly_spaced :
  (forall (env : Collaborators) (self : Room) (position : Point) (ax : Canvas)
          (target_width : option Q),
      let cfg := room_config self in
      let result := Room_plot env self position ax target_width in
      let self' := fst (fst result) in
      let rw := room_width self' in
      let fraction := receptacle_horizontal_margin_fraction cfg in
      let total := Qsum (map receptacle_width (receptacles self)) in
      let count := length (receptacles self) in
      let spacing := (rw - 2 * fraction * rw - total) / (Qnat count + 1) in
      let room_left := fst position + horizontal_margin cfg in
      exists (xs : list Q) (drawn : Canvas),
        snd (fst result) = ax ++ drawn
        /\ receptacle_plot_positions drawn =
           map (fun x => (x, snd position + vertical_margin cfg + bottom_pad cfg)) xs
        /\ length xs = count
        /\ Forall2 Qeq xs
             (even_row (room_left + spacing + fraction * rw) spacing
                (map receptacle_width (receptacles self')))
        /\ (rw - 2 * fraction * rw < total <-> spacing < 0)
        /\ (has_objects self = false -> snd result = Ok tt))
  /\ (exists (self' : Room) (drawn : Canvas),
        Room_plot example_env wide_receptacle_room (0, 0) [] None
        = (self', drawn, Ok tt)
        /\ room_width self' == 320
        /\ row_spacing (room_width self') (1 # 10) 300 1 == - (22)
        /\ exists x y, receptacle_plot_positions drawn = [(x, y)]
                       /\ x == 15 /\ y == 25).
Proof.
  split.
  - intros env self position ax target_width. cbv zeta.
    destruct (Room_plot_shape env self position ax target_width)
      as (objs' & recs2 & rh & h & center & extra & res
          & Hplot & Hrecs & Hextra & _ & Hres).
    rewrite Hplot. cbn [fst snd room_width Room_set_geometry Room_set_children
                        receptacles].
    destruct (plot_receptacles_spec env (receptacle_row_y self position)
                (receptacle_row_spacing self target_width) (receptacles self)
                (receptacle_row_start self position target_width) ax)
      as (xs & drawn & Hax & Hpos & Hlen & Hrow & Hxs).
    destruct (cursor_moved_widths _ _ Hrecs) as [Hw _].
    assert (Hsp : receptacle_row_spacing self target_width ==
                  (plot_room_width self target_width
                   - 2 * receptacle_horizontal_margin_fraction (room_config self)
                     * plot_room_width self target_width
                   - Qsum (map receptacle_width (receptacles self)))
                  / (Qnat (length (receptacles self)) + 1)).
    { unfold receptacle_row_spacing, row_spacing.
      assert (Hpos' := Qnat_succ_pos (length (receptacles self))).
      field. qlra. }
    exists xs, (drawn ++ extra).
    split; [rewrite Hax, app_assoc; reflexivity|].
    split.
    { rewrite receptacle_plot_positions_app, Hextra, app_nil_r. exact Hpos. }
    split; [exact Hxs|].
    split.
    { rewrite Hw. eapply Forall2_Qeq_trans; [exact Hrow|].
      apply even_row_compat2; [|exact Hsp].
      unfold receptacle_row_start. rewrite Hsp. reflexivity. }
    split; [|exact Hres].
    rewrite <- Hsp. unfold receptacle_row_spacing, row_spacing.
    rewrite <- Qdiv_neg_iff by apply Qnat_succ_pos.
    split; intros Hlt; qlra.
  - eexists. eexists. split; [vm_compute; reflexivity|].
    split; [reflexivity|]. split; [reflexivity|].
    eexists. eexists. split; [vm_compute; reflexivity|].
    split; reflexivity.
Qed.

(** ** Replaying [Room.plot] *)

Section RoomPlotReplay.

Variable env : Collaborators.

(** What the replay needs from the external [Receptacle.plot]: it keeps
    the width of the receptacle, and plotting again at the same position
    gives the same receptacle, wherever the stacking cursor was left. *)
Hypothesis receptacle_plot_width :
  forall (r : Receptacle) (p : Point),
    receptacle_width (receptacle_plot env r p) = receptacle_width r.
Hypothesis receptacle_plot_again :
  forall (r : Receptacle) (p c : Point),
    receptacle_plot env
      (Receptacle_set_new_top_item_position c (receptacle_plot env r p)) p
    = receptacle_plot env r p.

Lemma plot_receptacles_canvas_irrelevant (y spacing : Q) (recs : list Receptacle) :
  forall (offset : Q) (ax ax2 : Canvas),
    fst (plot_receptacles env y spacing recs offset ax)
    = fst (plot_receptacles env y spacing recs offset ax2).
Proof.
  induction recs as [|r rest IH]; intros offset ax ax2; simpl; [reflexivity|].
  specialize (IH (offset + (receptacle_width (receptacle_plot env r (offset, y)) + spacing))
                 (ax ++ [ReceptaclePlot (receptacle_id r) (offset, y)])
                 (ax2 ++ [ReceptaclePlot (receptacle_id r) (offset, y)])).
  do 2 match goal with
       | |- context [plot_receptacles ?a ?b ?c ?d ?e ?f] =>
           destruct (plot_receptacles a b c d e f)
       end.
  simpl in *. rewrite IH. reflexivity.
Qed.

Lemma plot_receptacles_widths (y spacing : Q) (recs : list Receptacle) :
  forall (offset : Q) (ax : Canvas),
    map receptacle_width (fst (plot_receptacles env y spacing recs offset ax))
    = map receptacle_width recs.
Proof.
  induction recs as [|r rest IH]; intros offset ax; simpl; [reflexivity|].
  specialize (IH (offset + (receptacle_width (receptacle_plot env r (offset, y)) + spacing))
                 (ax ++ [ReceptaclePlot (receptacle_id r) (offset, y)])).
  match goal with
  | |- context [plot_receptacles ?a ?b ?c ?d ?e ?f] =>
      destruct (plot_receptacles a b c d e f)
  end.
  simpl in *. rewrite IH, receptacle_plot_width. reflexivity.
Qed.

(** Receptacles that were plotted, and whose cursors then moved, come out
    of a second pass at the same offsets as they came out of the first. *)
Lemma plot_receptacles_again (y spacing : Q) (recs : list Receptacle) :
  forall (offset : Q) (ax ax2 : Canvas) (recs2 : list Receptacle),
    Forall2 cursor_moved (fst (plot_receptacles env y spacing recs offset ax)) recs2 ->
    fst (plot_receptacles env y spacing recs2 offset ax2)
    = fst (plot_receptacles env y spacing recs offset ax).
Proof.
  induction recs as [|r rest IH]; intros offset ax ax2 recs2 H; simpl in *.
  - inversion H. reflexivity.
  - specialize (IH (offset + (receptacle_width (receptacle_plot env r (offset, y)) + spacing))
                   (ax ++ [ReceptaclePlot (receptacle_id r) (offset, y)])).
    match type of H with
    | context [plot_receptacles ?a ?b ?c ?d ?e ?f] =>
        destruct (plot_receptacles a b c d e f) as [rest' ax'] eqn:E
    end.
    simpl in *. inversion H as [|a b l1 l2 [c Hb] Hrest]; subst. simpl.
    rewrite receptacle_plot_again.
    specialize (IH (ax2 ++ [ReceptaclePlot (receptacle_id (receptacle_plot env r (offset, y)))
                              (offset, y)]) l2 Hrest).
    match goal with
    | |- context [plot_receptacles ?a ?b ?c ?d ?e ?f] =>
        destruct (plot_receptacles a b c d e f) as [rest'' ax'']
    end.
    simpl in *. rewrite IH. reflexivity.
Qed.

Lemma Object_plot_again (o : Object) (ax ax2 : Canvas) (p : Point)
    (o' : Object) (ax' : Canvas) (res : outcome unit) :
  Object_plot env o ax p = (o', ax', res) ->
  exists ax2', Object_plot env o' ax2 p = (o', ax2', res).
Proof.
  intros H.
  destruct (Object_plot_cases env o ax p)
    as [(e & Hpatch & Hplot)|(d & Hpatch & Hplot)];
    rewrite Hplot in H; inversion H; subst.
  - destruct (Object_plot_cases env o' ax2 p)
      as [(e' & Hpatch' & Hplot')|(d' & Hpatch' & Hplot')];
      rewrite Hpatch in Hpatch'; inversion Hpatch'; subst.
    eexists. exact Hplot'.
  - match goal with
    | |- context [Object_plot env ?x ax2 p] =>
        destruct (Object_plot_cases env x ax2 p)
          as [(e' & Hpatch' & Hplot')|(d' & Hpatch' & Hplot')]
    end; rewrite object_patch_center, Hpatch in Hpatch';
      inversion Hpatch'; subst.
    eexists. rewrite Hplot'. reflexivity.
Qed.

(** The loop over the objects, run again on the objects it produced and
    from the same receptacles, produces the same objects, the same
    receptacles and the same outcome. *)
Lemma plot_objects_again (m : option (gmap string string)) (y spacing : Q)
    (objs : list Object) :
  forall (offset : Q) (recs : list Receptacle) (ax ax2 : Canvas)
         (objs' : list Object) (recs' : list Receptacle) (ax' : Canvas)
         (res : outcome unit),
    plot_objects env m y spacing objs offset recs ax = (objs', recs', ax', res) ->
    exists ax2',
      plot_objects env m y spacing objs' offset recs ax2 = (objs', recs', ax2', res).
Proof.
  induction objs as [|obj rest IH];
    intros offset recs ax ax2 objs' recs' ax' res Hp; simpl in Hp.
  - inversion Hp; subst. eexists. reflexivity.
  - destruct (mapped_receptacle m obj) as [rid|] eqn:Hmap.
    + destruct (find_receptacle_by_id recs rid) as [[i cur]|] eqn:Hfind.
      * destruct (Object_plot env obj ax (new_top_item_position cur))
          as [[obj1 ax1] res1] eqn:Hplot.
        destruct (Object_plot_again _ _ ax2 _ _ _ _ Hplot) as [ax2' Hagain].
        assert (Hid : object_id obj1 = object_id obj
                      /\ text_position obj1 = text_position obj
                      /\ object_config obj1 = object_config obj).
        { destruct (Object_plot_cases env obj ax (new_top_item_position cur))
            as [(e & _ & Hc)|(d & _ & Hc)]; rewrite Hc in Hplot;
            inversion Hplot; subst; repeat split. }
        destruct Hid as (Hid & Htp & Hcfg).
        assert (Hmap1 : mapped_receptacle m obj1 = Some rid).
        { unfold mapped_receptacle in *. rewrite Hid. exact Hmap. }
        destruct res1 as [[]|e].
        -- destruct (text_position obj1) as [tp|] eqn:Htp1.
           ++ match type of Hp with
              | context [plot_objects ?a ?b ?c ?d ?e ?f ?g ?h] =>
                  destruct (plot_objects a b c d e f g h)
                    as [[[rest1 recs1] ax3] res3] eqn:Hcall
              end.
              inversion Hp; subst.
              destruct (IH _ _ _ ax2' _ _ _ _ Hcall) as [ax4 Hrec].
              simpl. rewrite Hmap1, Hfind, Hagain, Htp1, Hrec.
              eexists. reflexivity.
           ++ inversion Hp; subst.
              simpl. rewrite Hmap1, Hfind, Hagain, Htp1.
              eexists. reflexivity.
        -- inversion Hp; subst.
           simpl. rewrite Hmap1, Hfind, Hagain. eexists. reflexivity.
      * inversion Hp; subst. simpl. rewrite Hmap, Hfind. eexists. reflexivity.
    + destruct (Object_plot env obj ax (offset, y)) as [[obj1 ax1] res1] eqn:Hplot.
      destruct (Object_plot_again _ _ ax2 _ _ _ _ Hplot) as [ax2' Hagain].
      assert (Hid : object_id obj1 = object_id obj
                    /\ object_config obj1 = object_config obj).
      { destruct (Object_plot_cases env obj ax (offset, y))
          as [(e & _ & Hc)|(d & _ & Hc)]; rewrite Hc in Hplot;
          inversion Hplot; subst; repeat split. }
      destruct Hid as (Hid & Hcfg).
      assert (Hmap1 : mapped_receptacle m obj1 = None).
      { unfold mapped_receptacle in *. rewrite Hid. exact Hmap. }
      destruct res1 as [[]|e].
      * match type of Hp with
        | context [plot_objects ?a ?b ?c ?d ?e ?f ?g ?h] =>
            destruct (plot_objects a b c d e f g h)
              as [[[rest1 recs1] ax3] res3] eqn:Hcall
        end.
        inversion Hp; subst.
        destruct (IH _ _ _ ax2' _ _ _ _ Hcall) as [ax4 Hrec].
        simpl. rewrite Hmap1, Hagain, Hrec. eexists. reflexivity.
      * inversion Hp; subst. simpl. rewrite Hmap1, Hagain. eexists. reflexivity.
Qed.

Lemma fold_left_center_changed {B} (f : B -> Object -> B) (l l' : list Object) :
  (forall b o c, f b (Object_set_center c o) = f b o) ->
  Forall2 center_changed l l' ->
  forall a : B, fold_left f l' a = fold_left f l a.
Proof.
  intros Hf H. induction H as [|o o' l l' [c ->] _ IH]; intros a; simpl.
  - reflexivity.
  - rewrite Hf. apply IH.
Qed.

Lemma has_objects_children (self : Room) (recs : list Receptacle)
    (objs' : list Object) :
  has_objects self = true ->
  Forall2 center_changed (objects_list self) objs' ->
  has_objects (Room_set_children recs (Some objs') self) = true.
Proof.
  unfold has_objects, objects_list. cbn [objects Room_set_children].
  destruct (objects self) as [[|o l]|]; try discriminate.
  intros _ H. inversion H; subst. reflexivity.
Qed.

(** [Room.plot] run again on the room it produced, at the same position
    and with the same target width, produces the same room and the same
    outcome. *)
Lemma Room_plot_again (self : Room) (position : Point) (ax ax2 : Canvas)
    (target_width : option Q) (self1 : Room) (ax1 : Canvas) (res : outcome unit) :
  Room_plot env self position ax target_width = (self1, ax1, res) ->
  exists ax2', Room_plot env self1 position ax2 target_width = (self1, ax2', res).
Proof.
  intros H1. unfold Room_plot in H1.
  match type of H1 with
  | context [plot_receptacles ?a ?b ?c ?d ?e ?f] =>
      destruct (plot_receptacles a b c d e f) as [recs1 axr] eqn:Hrow
  end.
  destruct (has_objects self) eqn:Hobj.
  - destruct (unmapped_objects self) as [total_object_width num_objects] eqn:Hun.
    match type of H1 with
    | context [plot_objects ?a ?b ?c ?d ?e ?f ?g ?h] =>
        destruct (plot_objects a b c d e f g h)
          as [[[objs' recs2] ax3] res3] eqn:Hcall
    end.
    destruct (plot_objects_facts env _ _ _ _ _ _ _ _ _ _ _ Hcall)
      as (Hobjs & Hrecs & _).
    assert (Hw1 : map receptacle_width recs1 = map receptacle_width (receptacles self)).
    { match type of Hrow with
      | plot_receptacles _ ?b ?c ?d ?e ?f = _ =>
          rewrite <- (plot_receptacles_widths b c d e f), Hrow
      end. reflexivity. }
    destruct (cursor_moved_widths _ _ Hrecs) as [Hw2 _].
    rewrite Hw1 in Hw2.
    assert (Hlen : length recs2 = length (receptacles self)).
    { rewrite <- (length_map receptacle_width recs2), Hw2. apply length_map. }
    assert (E1 : forall a b c d e,
               plot_room_width
                 (Room_set_geometry a b c d e
                    (Room_set_children recs2 (Some objs') self)) target_width
               = plot_room_width self target_width).
    { intros. unfold plot_room_width.
      rewrite (has_objects_children self recs2 objs' Hobj Hobjs : has_objects
                 (Room_set_geometry a b c d e (Room_set_children recs2 (Some objs') self))
               = true), Hobj.
      cbn [room_config receptacles object_to_recep objects_list objects
           Room_set_geometry Room_set_children].
      rewrite Hw2.
      erewrite fold_left_center_changed;
        [reflexivity | intros; reflexivity | exact Hobjs]. }
    assert (E2 : forall a b c d e,
               unmapped_objects
                 (Room_set_geometry a b c d e
                    (Room_set_children recs2 (Some objs') self))
               = unmapped_objects self).
    { intros. unfold unmapped_objects.
      cbn [object_to_recep objects_list objects Room_set_geometry Room_set_children].
      apply fold_left_center_changed; [|exact Hobjs].
      intros [tw n] o c0. reflexivity. }
    assert (E3 : forall a b c d e,
               has_objects
                 (Room_set_geometry a b c d e
                    (Room_set_children recs2 (Some objs') self)) = true).
    { intros. exact (has_objects_children self recs2 objs' Hobj Hobjs). }
    assert (Hgoal : forall a b c d e,
               exists ax2',
                 Room_plot env
                   (Room_set_geometry a b c d e
                      (Room_set_children recs2 (Some objs') self))
                   position ax2 target_width
                 = match res3 with
                   | Ok _ =>
                       Room_plot_finish
                         (Room_set_geometry a b c d e
                            (Room_set_children recs2 (Some objs') self))
                         position (plot_room_width self target_width)
                         recs2 (Some objs')
                         (full_height (room_config self) + bottom_pad (room_config self)
                          + top_pad (room_config self)) d ax2'
                   | Raise err =>
                       (Room_set_geometry (plot_room_width self target_width)
                          (plot_room_width self target_width
                           + 2 * horizontal_margin (room_config self))
                          (full_height (room_config self)
                           + bottom_pad (room_config self)
                           + top_pad (room_config self))
                          d e
                          (Room_set_children recs2 (Some objs') self),
                        ax2', Raise err)
                   end).
    { intros. unfold Room_plot. rewrite E1, E2, E3, Hun.
      cbn [room_config receptacles object_to_recep objects_list objects room_id
           height room_center_position Room_set_geometry Room_set_children].
      rewrite Hw2, Hlen.
      match goal with
      | |- context [plot_receptacles ?a ?b ?c ?d ?e ?f] =>
          destruct (plot_receptacles a b c d e f) as [recs1' axr'] eqn:Hrow2
      end.
      assert (Hsame : recs1' = recs1).
      { change recs1' with (fst (recs1', axr')). rewrite <- Hrow2.
        change recs1 with (fst (recs1, axr)). rewrite <- Hrow.
        apply plot_receptacles_again. rewrite Hrow. exact Hrecs. }
      subst recs1'.
      match goal with
      | |- context [plot_objects ?a ?b ?c ?d ?e ?f ?g ?h] =>
          destruct (plot_objects_again b c d _ f g _ h _ _ _ _ Hcall) as [ax4 Hagain]
      end.
      rewrite Hagain. exists ax4. destruct res3; reflexivity. }
    destruct res3 as [[]|err].
    + unfold Room_plot_finish in H1. inversion H1; subst self1 ax1 res.
      match goal with
      | |- context [Room_plot env (Room_set_geometry ?a ?b ?c ?d ?e _)] =>
          destruct (Hgoal a b c d e) as [ax4 Hg]
      end.
      rewrite Hg. unfold Room_plot_finish. eexists. reflexivity.
    + inversion H1; subst self1 ax1 res.
      match goal with
      | |- context [Room_plot env (Room_set_geometry ?a ?b ?c ?d ?e _)] =>
          destruct (Hgoal a b c d e) as [ax4 Hg]
      end.
      rewrite Hg. eexists. reflexivity.
  - assert (Hw1 : map receptacle_width recs1 = map receptacle_width (receptacles self)).
    { match type of Hrow with
      | plot_receptacles _ ?b ?c ?d ?e ?f = _ =>
          rewrite <- (plot_receptacles_widths b c d e f), Hrow
      end. reflexivity. }
    assert (Hlen : length recs1 = length (receptacles self)).
    { rewrite <- (length_map receptacle_width recs1), Hw1. apply length_map. }
    assert (E3 : forall a b c d e,
               has_objects
                 (Room_set_geometry a b c d e
                    (Room_set_children recs1 (objects self) self)) = false).
    { intros. exact Hobj. }
    assert (E1 : forall a b c d e,
               plot_room_width
                 (Room_set_geometry a b c d e
                    (Room_set_children recs1 (objects self) self)) target_width
               = plot_room_width self target_width).
    { intros. unfold plot_room_width. rewrite E3, Hobj.
      cbn [room_config receptacles Room_set_geometry Room_set_children].
      rewrite Hw1. reflexivity. }
    unfold Room_plot_finish in H1. inversion H1; subst self1 ax1 res.
    unfold Room_plot. rewrite E1, E3.
    cbn [room_config receptacles object_to_recep objects room_id use_full_height
         height room_center_position Room_set_geometry Room_set_children].
    rewrite Hw1, Hlen.
    match goal with
    | |- context [plot_receptacles ?a ?b ?c ?d ?e ?f] =>
        destruct (plot_receptacles a b c d e f) as [recs1' axr'] eqn:Hrow2
    end.
    assert (Hsame : recs1' = recs1).
    { change recs1' with (fst (recs1', axr')). rewrite <- Hrow2.
      change recs1 with (fst (recs1, axr)). rewrite <- Hrow.
      apply plot_receptacles_again. rewrite Hrow.
      apply Forall2_refl_on, cursor_moved_refl. }
    subst recs1'. unfold Room_plot_finish. eexists. reflexivity.
Qed.

End RoomPlotReplay.

(** C9: [Room.plot] is idempotent on the anchors.  Provided the external
    [Receptacle.plot] keeps the width of a receptacle and recomputes its
    state from the position, a second call of [Room.plot] on the room that
    the first call left, with the same position and target width, leaves the
    center anchor of the room and the center anchor of every object as the
    first call left them; indeed the whole room and the outcome are the
    same. *)
Theorem C9_room_plot_idempotent (env : Collaborators)
    (receptacle_plot_width :
       forall (r : Receptacle) (p : Point),
         receptacle_width (receptacle_plot env r p) = receptacle_width r)
    (receptacle_plot_again :
       forall (r : Receptacle) (p c : Point),
         receptacle_plot env
           (Receptacle_set_new_top_item_position c (receptacle_plot env r p)) p
         = receptacle_plot env r p)
    (self : Room) (position : Point) (ax ax2 : Canvas) (target_width : option Q) :
  let first := Room_plot env self position ax target_width in
  let second := Room_plot env (fst (fst first)) position ax2 target_width in
  room_center_position (fst (fst second)) = room_center_position (fst (fst first))
  /\ map center_position (objects_list (fst (fst second)))
     = map center_position (objects_list (fst (fst first)))
  /\ fst (fst second) = fst (fst first)
  /\ snd second = snd first.
Proof.
  intros first second. subst second.
  destruct first as [[self1 ax1] res] eqn:Hfirst. subst first.
  destruct (Room_plot_again env receptacle_plot_width receptacle_plot_again
              self position ax ax2 target_width self1 ax1 res Hfirst)
    as [ax2' Hsecond].
  cbn [fst snd]. rewrite Hsecond. cbn [fst snd]. repeat split.
Qed.

Lemma C9_room_plot_idempotent_witness :
  let first := Room_plot example_env furnished_room (0, 0) [] (Some 400) in
  let second := Room_plot example_env (fst (fst first)) (0, 0) [] (Some 400) in
  room_center_position (fst (fst second)) = room_center_position (fst (fst first))
  /\ map center_position (objects_list (fst (fst second)))
     = map center_position (objects_list (fst (fst first)))
  /\ fst (fst second) = fst (fst first)
  /\ snd second = snd first.
Proof.
  apply (C9_room_plot_idempotent example_env).
  - intros r p. reflexivity.
  - intros r p c. reflexivity.
Defined.

(** ** Substring test and relevance score *)

Lemma prefix_iff (p w : string) :
  String.prefix p w = true <-> exists post : string, w = (p ++ post)%string.
Proof.
  revert w. induction p as [|c p IH]; intros w.
  - split; [intros _; exists w; reflexivity | intros _; destruct w; reflexivity].
  - destruct w as [|d w]; simpl.
    + split; [discriminate | intros [post H]; discriminate].
    + destruct (ascii_dec c d) as [->|Hne].
      * rewrite IH. split; intros [post H]; exists post;
          [rewrite H; reflexivity | inversion H; reflexivity].
      * split; [discriminate | intros [post H]; inversion H; congruence].
Qed.

Lemma contains_iff (p w : string) :
  PyStr.contains p w = true <-> is_substring p w.
Proof.
  unfold is_substring. induction w as [|d w IH].
  - change (PyStr.contains p "") with (String.prefix p "" || false).
    rewrite orb_false_r, prefix_iff. split.
    + intros [post H]. exists ""%string, post. exact H.
    + intros (pre & post & H). destruct pre; [exists post; exact H|discriminate].
  - change (PyStr.contains p (String d w))
      with (String.prefix p (String d w) || PyStr.contains p w).
    rewrite orb_true_iff, prefix_iff, IH. split.
    + intros [[post H]|(pre & post & H)].
      * exists ""%string, post. exact H.
      * exists (String d pre), post. simpl. rewrite H. reflexivity.
    + intros (pre & post & H). destruct pre as [|e pre].
      * left. exists post. exact H.
      * right. simpl in H. inversion H; subst. exists pre, post. reflexivity.
Qed.

Lemma count_matches_from (ident : string) (keywords : list string) (a : nat) :
  fold_left (fun acc keyword =>
               (acc + (if PyStr.contains (PyStr.phrase ident) keyword then 1 else 0))%nat)
            keywords a
  = (a + matches [PyStr.phrase ident] keywords)%nat.
Proof.
  unfold matches. simpl. rewrite app_nil_r.
  revert a. induction keywords as [|k ks IH]; intros a; simpl.
  - lia.
  - rewrite IH. destruct (PyStr.contains (PyStr.phrase ident) k); simpl; lia.
Qed.

Lemma matches_app (ps qs keywords : list string) :
  matches (ps ++ qs) keywords = (matches ps keywords + matches qs keywords)%nat.
Proof.
  unfold matches. induction ps as [|p ps IH]; simpl; [reflexivity|].
  rewrite !List.filter_app, !length_app, IH. lia.
Qed.

Lemma fold_count_matches {A} (ident_of : A -> string) (keywords : list string)
    (l : list A) (a : nat) :
  fold_left (fun score x => (score + count_matches (ident_of x) keywords)%nat) l a
  = (a + matches (map (fun x => PyStr.phrase (ident_of x)) l) keywords)%nat.
Proof.
  revert a. induction l as [|x l IH]; intros a; simpl.
  - unfold matches. simpl. lia.
  - rewrite IH. unfold count_matches. rewrite count_matches_from.
    change (PyStr.phrase (ident_of x) :: map (fun x0 => PyStr.phrase (ident_of x0)) l)
      with ([PyStr.phrase (ident_of x)] ++ map (fun x0 => PyStr.phrase (ident_of x0)) l).
    rewrite matches_app. lia.
Qed.

Lemma room_score_spec (keywords : list string) (room : Room) :
  room_score keywords room = spec_score keywords room.
Proof.
  unfold room_score, spec_score, room_phrases.
  change (length (List.filter (fun pw => PyStr.contains (fst pw) (snd pw))
                    (list_prod ?l keywords))) with (matches l keywords).
  change (PyStr.phrase (room_id room) :: ?l)
    with ([PyStr.phrase (room_id room)] ++ l).
  rewrite !matches_app.
  rewrite (fold_count_matches receptacle_id).
  assert (E : count_matches (room_id room) keywords
              = matches [PyStr.phrase (room_id room)] keywords).
  { unfold count_matches. rewrite count_matches_from. reflexivity. }
  rewrite E.
  destruct (has_objects room) eqn:Hobj.
  - rewrite (fold_count_matches object_id). lia.
  - assert (Hnil : objects_list room = []).
    { unfold has_objects, objects_list in *.
      destruct (objects room) as [[|o l]|]; try reflexivity; discriminate. }
    rewrite Hnil. cbn [map]. change (matches [] keywords) with O. lia.
Qed.

(** ** The stable descending sort *)

Lemma insert_desc_In {A} (key : A -> nat) (x y : A) (l : list A) :
  In y (insert_desc key x l) <-> y = x \/ In y l.
Proof.
  induction l as [|z l IH]; simpl.
  - intuition.
  - destruct (key x <? key z)%nat; simpl; rewrite ?IH; intuition.
Qed.

Lemma sorted_reverse_In {A} (key : A -> nat) (y : A) (l : list A) :
  In y (sorted_reverse key l) <-> In y l.
Proof.
  induction l as [|x l IH]; simpl; [reflexivity|].
  rewrite insert_desc_In, IH. intuition.
Qed.

Lemma insert_desc_Permutation {A} (key : A -> nat) (x : A) (l : list A) :
  Permutation (insert_desc key x l) (x :: l).
Proof.
  induction l as [|z l IH]; simpl; [reflexivity|].
  destruct (key x <? key z)%nat; [|reflexivity].
  rewrite IH. apply perm_swap.
Qed.

(** The result is a rearrangement of the input. *)
Lemma sorted_reverse_Permutation {A} (key : A -> nat) (l : list A) :
  Permutation (sorted_reverse key l) l.
Proof.
  induction l as [|x l IH]; simpl; [reflexivity|].
  rewrite insert_desc_Permutation, IH. reflexivity.
Qed.

Lemma insert_desc_descending {A} (key : A -> nat) (x : A) (l : list A) :
  descending key l -> descending key (insert_desc key x l).
Proof.
  induction 1 as [|z l Hz Hl IH]; simpl.
  - constructor; [intros y []|constructor].
  - destruct (key x <? key z)%nat eqn:E.
    + apply Nat.ltb_lt in E. constructor; [|exact IH].
      intros y Hy. apply insert_desc_In in Hy. destruct Hy as [->|Hy]; [lia|auto].
    + apply Nat.ltb_ge in E. constructor; [|constructor; assumption].
      intros y [->|Hy]; [exact E|]. specialize (Hz y Hy). lia.
Qed.

Lemma sorted_reverse_descending {A} (key : A -> nat) (l : list A) :
  descending key (sorted_reverse key l).
Proof.
  induction l as [|x l IH]; simpl; [constructor|].
  apply insert_desc_descending, IH.
Qed.

Lemma insert_desc_stable {A} (key : A -> nat) (v : nat) (x : A) (l : list A) :
  List.filter (fun z => (key z =? v)%nat) (insert_desc key x l)
  = List.filter (fun z => (key z =? v)%nat) (x :: l).
Proof.
  induction l as [|z l IH]; [reflexivity|].
  cbn [insert_desc]. destruct (key x <? key z)%nat eqn:E; [|reflexivity].
  apply Nat.ltb_lt in E. cbn [List.filter] in *. rewrite IH.
  destruct (key z =? v)%nat eqn:Ez, (key x =? v)%nat eqn:Ex; try reflexivity.
  apply Nat.eqb_eq in Ez, Ex. lia.
Qed.

(** Elements of equal key keep the order they have in the input. *)
Lemma sorted_reverse_stable {A} (key : A -> nat) (v : nat) (l : list A) :
  List.filter (fun z => (key z =? v)%nat) (sorted_reverse key l)
  = List.filter (fun z => (key z =? v)%nat) l.
Proof.
  induction l as [|x l IH]; [reflexivity|].
  cbn [sorted_reverse fold_right]. rewrite insert_desc_stable.
  cbn [List.filter]. fold (sorted_reverse key l). rewrite IH. reflexivity.
Qed.

Lemma sorted_reverse_ext {A} (k1 k2 : A -> nat) (l : list A) :
  (forall x, In x l -> k1 x = k2 x) ->
  sorted_reverse k1 l = sorted_reverse k2 l.
Proof.
  induction l as [|x l IH]; intros Hk; [reflexivity|].
  cbn [sorted_reverse fold_right]. fold (sorted_reverse k1 l) (sorted_reverse k2 l).
  rewrite <- IH by (intros y Hy; apply Hk; right; exact Hy).
  assert (Hin : forall y, In y (sorted_reverse k1 l) -> k1 y = k2 y).
  { intros y Hy. apply Hk. right. apply (sorted_reverse_In k1). exact Hy. }
  assert (Hx : k1 x = k2 x) by (apply Hk; left; reflexivity).
  revert Hin. generalize (sorted_reverse k1 l) as s.
  induction s as [|z s IHs]; intros Hin; [reflexivity|].
  cbn [insert_desc]. rewrite Hx, (Hin z) by (left; reflexivity).
  destruct (k2 x <? k2 z)%nat; [|reflexivity].
  rewrite IHs by (intros y Hy; apply Hin; right; exact Hy). reflexivity.
Qed.

(** With all keys equal nothing moves. *)
Lemma sorted_reverse_equal_keys {A} (key : A -> nat) (l : list A) :
  (forall x y, In x l -> In y l -> key x = key y) ->
  sorted_reverse key l = l.
Proof.
  induction l as [|x l IH]; intros Hk; [reflexivity|].
  cbn [sorted_reverse fold_right]. fold (sorted_reverse key l).
  rewrite IH by (intros a b Ha Hb; apply Hk; right; assumption).
  destruct l as [|z l]; [reflexivity|].
  cbn [insert_desc].
  rewrite (Hk x z) by (simpl; auto). rewrite Nat.ltb_irrefl. reflexivity.
Qed.

(** ** [sort_rooms] *)

Section SortRoomsFacts.

Context {H : Type} `{EqDecision H}.
Variable room_of : H -> Room.

Lemma dict_set_map (f : H -> nat) (k : H) (acc : list H) :
  dict_set k (f k) (map (fun h => (h, f h)) acc)
  = map (fun h => (h, f h)) (if bool_decide (k ∈ acc) then acc else acc ++ [k]).
Proof.
  induction acc as [|a acc IH]; simpl.
  - reflexivity.
  - destruct (decide (k = a)) as [->|Hka].
    + rewrite !bool_decide_eq_true_2 by (reflexivity || left). reflexivity.
    + rewrite (bool_decide_eq_false_2 (k = a)) by exact Hka. rewrite IH.
      destruct (decide (k ∈ acc)) as [Hin|Hin].
      * rewrite !bool_decide_eq_true_2 by (exact Hin || (right; exact Hin)).
        reflexivity.
      * rewrite !bool_decide_eq_false_2; [reflexivity| |exact Hin].
        intros Hc. apply elem_of_cons in Hc. destruct Hc; contradiction.
Qed.

Lemma relevance_scores_from (keywords : list string) (rooms acc : list H) :
  fold_left (fun d room => dict_set room (room_score keywords (room_of room)) d)
    rooms (map (fun h => (h, room_score keywords (room_of h))) acc)
  = map (fun h => (h, room_score keywords (room_of h)))
      (fold_left (fun acc h => if bool_decide (h ∈ acc) then acc else acc ++ [h])
         rooms acc).
Proof.
  revert acc. induction rooms as [|r rooms IH]; intros acc; simpl; [reflexivity|].
  rewrite (dict_set_map (fun h => room_score keywords (room_of h))). apply IH.
Qed.

Lemma relevance_scores_spec (keywords : list string) (rooms : list H) :
  relevance_scores room_of keywords rooms
  = map (fun h => (h, room_score keywords (room_of h))) (first_occurrences rooms).
Proof. apply (relevance_scores_from keywords rooms []). Qed.

Lemma dict_get_map (f : H -> nat) (acc : list H) (h : H) :
  In h acc -> dict_get (map (fun h => (h, f h)) acc) h = f h.
Proof.
  induction acc as [|a acc IH]; intros Hin; [destruct Hin|]. simpl.
  case_bool_decide as Hha; [subst; reflexivity|].
  destruct Hin as [->|Hin]; [contradiction|]. apply IH, Hin.
Qed.

Lemma first_occurrences_from (l : list H) :
  forall acc : list H,
    NoDup (acc ++ l) ->
    fold_left (fun acc h => if bool_decide (h ∈ acc) then acc else acc ++ [h]) l acc
    = acc ++ l.
Proof.
  induction l as [|x l IH]; intros acc Hnd; simpl.
  - rewrite app_nil_r. reflexivity.
  - rewrite bool_decide_eq_false_2.
    + rewrite IH; rewrite <- app_assoc; [reflexivity | exact Hnd].
    + apply NoDup_app in Hnd. destruct Hnd as (_ & Hdisj & _).
      intros Hx. apply (Hdisj x Hx). left.
Qed.

Lemma first_occurrences_NoDup (l : list H) : NoDup l -> first_occurrences l = l.
Proof. intros Hnd. apply (first_occurrences_from l []). exact Hnd. Qed.

(** [sort_rooms] with a non-empty instruction: the distinct room objects,
    sorted by descending score, stably. *)
Lemma sort_rooms_spec (rooms : list H) (instruction : string) :
  instruction <> ""%string ->
  sort_rooms room_of rooms instruction
  = sorted_reverse (fun h => room_score (keywords_of instruction) (room_of h))
      (first_occurrences rooms).
Proof.
  intros Hne. unfold sort_rooms.
  destruct instruction as [|c i]; [contradiction|]. cbn [PyStr.is_empty].
  rewrite relevance_scores_spec. unfold dict_keys.
  rewrite map_map. cbn [fst]. rewrite map_id.
  apply sorted_reverse_ext. intros h Hh.
  apply (dict_get_map (fun h => room_score (keywords_of (String c i)) (room_of h))).
  exact Hh.
Qed.

End SortRoomsFacts.

Lemma first_occurrences_In {H : Type} `{EqDecision H} (l : list H) (h : H) :
  In h (first_occurrences l) -> In h l.
Proof.
  unfold first_occurrences.
  assert (G : forall acc,
             In h (fold_left (fun acc h => if bool_decide (h ∈ acc) then acc
                                           else acc ++ [h]) l acc) ->
             In h acc \/ In h l).
  { induction l as [|x l IH]; intros acc Hin; simpl in *; [left; exact Hin|].
    apply IH in Hin. destruct Hin as [Hin|Hin]; [|right; right; exact Hin].
    destruct (bool_decide (x ∈ acc)); [left; exact Hin|].
    apply in_app_or in Hin. destruct Hin as [Hin|[->|[]]]; [left; exact Hin|].
    right. left. reflexivity. }
  intros Hin. destruct (G [] Hin) as [[]|Hl]. exact Hl.
Qed.

(** C5: [sort_rooms] with an empty instruction returns its input list; with
    an instruction that scores all rooms equally it returns the room objects
    in their original order (the list itself when no room object is listed
    twice); in general rooms of equal score keep their relative order. *)
Theorem C5_sort_rooms_stable :
  forall (H : Type) (EqH : EqDecision H) (room_of : H -> Room) (rooms : list H),
    sort_rooms room_of rooms "" = rooms
    /\ (forall instruction : string,
          (forall h1 h2, In h1 rooms -> In h2 rooms ->
              room_score (keywords_of instruction) (room_of h1)
              = room_score (keywords_of instruction) (room_of h2)) ->
          sort_rooms room_of rooms instruction
          = (if PyStr.is_empty instruction then rooms else first_occurrences rooms)
          /\ (NoDup rooms -> sort_rooms room_of rooms instruction = rooms))
    /\ (forall (instruction : string) (v : nat),
          instruction <> ""%string ->
          List.filter (fun h => (room_score (keywords_of instruction) (room_of h) =? v)%nat)
            (sort_rooms room_of rooms instruction)
          = List.filter (fun h => (room_score (keywords_of instruction) (room_of h) =? v)%nat)
              (first_occurrences rooms)).
Proof.
  intros H EqH room_of rooms. split; [reflexivity|]. split.
  - intros instruction Heq.
    destruct instruction as [|c i] eqn:Hi; [split; reflexivity|].
    rewrite <- Hi in *.
    assert (Hne : instruction <> ""%string) by (rewrite Hi; discriminate).
    assert (E : sort_rooms room_of rooms instruction = first_occurrences rooms).
    { rewrite sort_rooms_spec by exact Hne.
      apply sorted_reverse_equal_keys. intros x y Hx Hy.
      apply Heq; apply first_occurrences_In; assumption. }
    split.
    + rewrite E, Hi. reflexivity.
    + intros Hnd. rewrite E. apply first_occurrences_NoDup, Hnd.
  - intros instruction v Hne. rewrite sort_rooms_spec by exact Hne.
    apply (sorted_reverse_stable
             (fun h => room_score (keywords_of instruction) (room_of h))).
Qed.

Lemma C5_sort_rooms_stable_witness :
  sort_rooms example_room_of [O; 1%nat] "put the apple in the fridge" = [O; 1%nat].
Proof.
  apply (proj1 (proj2 (C5_sort_rooms_stable nat _ example_room_of [O; 1%nat]))
           "put the apple in the fridge").
  - intros h1 h2 H1 H2.
    destruct H1 as [<-|[<-|[]]]; destruct H2 as [<-|[<-|[]]]; vm_compute; reflexivity.
  - repeat constructor; simpl; intros Hc; inversion Hc; subst;
      try discriminate; match goal with H : _ ∈ [] |- _ => inversion H end.
Defined.

(** C6: the relevance score of a room counts the pairs of a phrase of the
    room (the id of the room, of a receptacle or of an object, without its
    last token, underscores as spaces) and an instruction word (lowercased,
    dots stripped) such that the phrase occurs inside the word.  For "put
    the apple in the fridge" and a room "kitchen_0" with a receptacle
    "fridge_0" the score is 1: "fridge" matches once and "kitchen" is inside
    no word. *)
Theorem C6_relevance_score_counts_substrings :
  (forall (keywords : list string) (room : Room),
      room_score keywords room = spec_score keywords room)
  /\ (forall p w : string, PyStr.contains p w = true <-> is_substring p w)
  /\ (forall (H : Type) (EqH : EqDecision H) (room_of : H -> Room)
             (rooms : list H) (instruction : string),
        relevance_scores room_of (keywords_of instruction) rooms
        = map (fun h => (h, room_score (keywords_of instruction) (room_of h)))
            (first_occurrences rooms))
  /\ keywords_of "put the apple in the fridge"
     = ["put"; "the"; "apple"; "in"; "the"; "fridge"]%string
  /\ keywords_of "Put the Apple in the FRIDGE."
     = ["put"; "the"; "apple"; "in"; "the"; "fridge"]%string
  /\ room_phrases kitchen_room = ["kitchen"; "fridge"]%string
  /\ room_score (keywords_of "put the apple in the fridge") kitchen_room = 1%nat
  /\ count_matches "kitchen_0" (keywords_of "put the apple in the fridge") = O
  /\ count_matches "fridge_0" (keywords_of "put the apple in the fridge") = 1%nat
  /\ (forall w, In w (keywords_of "put the apple in the fridge") ->
                ~ is_substring "kitchen" w)
  /\ is_substring "fridge" "fridge".
Proof.
  split; [exact room_score_spec|].
  split; [exact contains_iff|].
  split; [intros; apply relevance_scores_spec|].
  repeat (split; [vm_compute; reflexivity|]).
  split.
  - intros w Hw Hsub. apply contains_iff in Hsub.
    vm_compute in Hw.
    repeat (destruct Hw as [<-|Hw]; [vm_compute in Hsub; discriminate|]).
    destruct Hw.
  - apply contains_iff. vm_compute. reflexivity.
Qed.

(** ** The arrowhead *)

Section ArrowFacts.

Local Open Scope R_scope.
Import Arrow.

(** At [t = 1] the derivative of the curve is [2 * (p1 - ctrl)]. *)
Lemma end_tangent_eq (p0 p1 : RPoint) :
  end_tangent p0 p1
  = (2 * (fst p1 - fst (control_point p0 p1)),
     2 * (snd p1 - snd (control_point p0 p1))).
Proof.
  destruct p0 as [x0 y0], p1 as [x1 y1].
  unfold end_tangent, control_point. cbn [fst snd]. f_equal; ring.
Qed.

(** In coordinates the tangent is [(dx - dy, dy - |dx|)]. *)
Lemma end_tangent_components (x0 y0 x1 y1 : R) :
  end_tangent (x0, y0) (x1, y1)
  = ((x1 - x0) - (y1 - y0), (y1 - y0) - Rabs (x1 - x0)).
Proof. unfold end_tangent, control_point. f_equal; field. Qed.

Lemma norm_zero_iff (v : RPoint) : norm v = 0 <-> v = (0, 0).
Proof.
  destruct v as [a b]. unfold norm. cbn [fst snd]. split.
  - intros Hs. apply sqrt_eq_0 in Hs; [|nra].
    assert (a = 0) by nra. assert (b = 0) by nra. subst. reflexivity.
  - intros Hv. inversion Hv; subst.
    replace (0 * 0 + 0 * 0) with 0 by ring. apply sqrt_0.
Qed.

(** The tangent vanishes exactly when [dx = dy >= 0]. *)
Lemma end_tangent_zero_iff (x0 y0 x1 y1 : R) :
  end_tangent (x0, y0) (x1, y1) = (0, 0)
  <-> (x1 - x0 = y1 - y0 /\ 0 <= x1 - x0).
Proof.
  rewrite end_tangent_components. split.
  - intros Hv. inversion Hv as [[Ha Hb]].
    unfold Rabs in *. destruct (Rcase_abs (x1 - x0)); split; rlra.
  - intros [Hd Hpos]. rewrite (Rabs_right (x1 - x0)) by rlra.
    f_equal; rlra.
Qed.

Lemma normalize_zero (v : RPoint) : norm v = 0 -> normalize v = None.
Proof.
  intros Hn. unfold normalize. destruct (Req_dec_T (norm v) 0); [reflexivity|contradiction].
Qed.

Lemma normalize_nonzero (v : RPoint) :
  norm v <> 0 -> normalize v = Some (fst v / norm v, snd v / norm v).
Proof.
  intros Hn. unfold normalize. destruct (Req_dec_T (norm v) 0); [contradiction|reflexivity].
Qed.

(** C3: when the two anchors coincide the tangent at the end of the curve
    is the zero vector, its norm is zero, and [add_arrow] divides by that
    norm with no guard: the direction is undefined (NaN) and the arrowhead
    patch is still built from it. *)
Theorem C3_coinciding_anchors_divide_by_zero (head_length : R) (p : RPoint) :
  end_tangent p p = (0, 0)
  /\ norm (end_tangent p p) = 0
  /\ arrow_dir p p = None
  /\ add_arrow head_length p p true
     = [PathPatch p (control_point p p) p; FancyArrowNaN].
Proof.
  destruct p as [x y].
  assert (Ht : end_tangent (x, y) (x, y) = (0, 0)).
  { apply end_tangent_zero_iff. split; rlra. }
  assert (Hn : norm (end_tangent (x, y) (x, y)) = 0) by (apply norm_zero_iff, Ht).
  assert (Hd : arrow_dir (x, y) (x, y) = None) by (apply normalize_zero, Hn).
  repeat split; try assumption.
  unfold add_arrow. rewrite Hd. reflexivity.
Qed.

(** Away from the anchors with [x1 - x0 = y1 - y0 >= 0], where the tangent
    vanishes, [add_arrow] does what is asked of it: the control point is
    [((x0+x1)/2 + (y1-y0)/2, (y0+y1)/2 + |x1-x0|/2)], the direction is the
    normalised [2 * (p1 - ctrl)], and the arrowhead starts at
    [p1 - direction * head_length], so that it ends on [p1]. *)
Lemma arrowhead_ends_at_destination (head_length x0 y0 x1 y1 : R) :
  ~ (x1 - x0 = y1 - y0 /\ 0 <= x1 - x0) ->
  control_point (x0, y0) (x1, y1)
  = ((x0 + x1) / 2 + (y1 - y0) / 2, (y0 + y1) / 2 + Rabs (x1 - x0) / 2)
  /\ arrowhead_at_destination head_length (x0, y0) (x1, y1).
Proof.
  intros Hnz. split; [reflexivity|].
  assert (Hn : norm (end_tangent (x0, y0) (x1, y1)) <> 0).
  { intros Hc. apply norm_zero_iff, end_tangent_zero_iff in Hc. contradiction. }
  unfold arrowhead_at_destination. cbv zeta.
  rewrite <- end_tangent_eq.
  eexists. split; [exact Hn|]. split; [reflexivity|].
  split.
  - unfold add_arrow, arrow_dir. rewrite (normalize_nonzero _ Hn). reflexivity.
  - cbn [fst snd]. split; ring.
Qed.

(** C7: the anchors (0,0) and (1,1) are distinct, yet the control point
    is the destination itself, the tangent at the end of the curve is the
    zero vector, and [add_arrow] divides it by its zero norm with no guard:
    the arrowhead patch is built from NaN and does not end on the
    destination.  The same happens whenever the destination lies on the
    diagonal above and to the right of the source ([x1 - x0 = y1 - y0 >= 0]). *)
Theorem C7_diagonal_anchors_lose_the_arrowhead :
  (0, 0) <> (1, 1)
  /\ control_point (0, 0) (1, 1) = (1, 1)
  /\ end_tangent (0, 0) (1, 1) = (0, 0)
  /\ norm (end_tangent (0, 0) (1, 1)) = 0
  /\ arrow_dir (0, 0) (1, 1) = None
  /\ (forall head_length : R,
        add_arrow head_length (0, 0) (1, 1) true
        = [PathPatch (0, 0) (control_point (0, 0) (1, 1)) (1, 1); FancyArrowNaN]
        /\ ~ arrowhead_at_destination head_length (0, 0) (1, 1))
  /\ (forall head_length x0 y0 d : R,
        arrow_dir (x0, y0) (x0 + Rabs d, y0 + Rabs d) = None
        /\ ~ arrowhead_at_destination head_length
               (x0, y0) (x0 + Rabs d, y0 + Rabs d)).
Proof.
  assert (Hzero : forall x0 y0 x1 y1 : R,
             x1 - x0 = y1 - y0 /\ 0 <= x1 - x0 ->
             norm (end_tangent (x0, y0) (x1, y1)) = 0).
  { intros x0 y0 x1 y1 Hz. apply norm_zero_iff, end_tangent_zero_iff. exact Hz. }
  assert (Hnot : forall head_length x0 y0 x1 y1 : R,
             x1 - x0 = y1 - y0 /\ 0 <= x1 - x0 ->
             ~ arrowhead_at_destination head_length (x0, y0) (x1, y1)).
  { intros head_length x0 y0 x1 y1 Hz (d & Hnorm & _). apply Hnorm. cbv zeta.
    rewrite <- (end_tangent_eq (x0, y0) (x1, y1)). apply Hzero, Hz. }
  assert (H01 : 1 - 0 = 1 - 0 /\ 0 <= 1 - 0) by (split; rlra).
  assert (Hd : arrow_dir (0, 0) (1, 1) = None) by (apply normalize_zero, Hzero, H01).
  split; [intros Hc; inversion Hc; rlra|].
  split.
  { unfold control_point. rewrite Rabs_pos_eq by rlra. f_equal; field. }
  split; [apply end_tangent_zero_iff, H01|].
  split; [apply Hzero, H01|]. split; [exact Hd|]. split.
  - intros head_length. split.
    + unfold add_arrow. rewrite Hd. reflexivity.
    + apply Hnot, H01.
  - intros head_length x0 y0 d.
    assert (Hz : x0 + Rabs d - x0 = y0 + Rabs d - y0 /\ 0 <= x0 + Rabs d - x0).
    { pose proof (Rabs_pos d). split; rlra. }
    split; [apply normalize_zero, Hzero, Hz | apply Hnot, Hz].
Qed.

End ArrowFacts.

(** ** Rooms with objects use the full height *)

Section KeepsRules.

Variable v : list bool.

Lemma keeps_ret {A} (a : A) (Q : A -> Prop) : Q a -> keeps v (ret a) Q.
Proof.
  intros HQ s Hs. split; [exact Hs|]. intros a' E. inversion E; subst. exact HQ.
Qed.

Lemma keeps_raise {A} (e : PyError) (Q : A -> Prop) : keeps v (raise e) Q.
Proof. intros s Hs. split; [exact Hs|]. intros a E. discriminate. Qed.

Lemma keeps_bind {A B} (m : SceneM A) (k : A -> SceneM B)
    (Q : A -> Prop) (Q' : B -> Prop) :
  keeps v m Q -> (forall a, Q a -> keeps v (k a) Q') -> keeps v (bind m k) Q'.
Proof.
  intros Hm Hk s Hs. unfold bind. specialize (Hm s Hs).
  destruct (m s) as [s' [a|e]]; cbn [fst snd] in *.
  - destruct Hm as [Hinv HQ]. apply (Hk a (HQ a eq_refl) s' Hinv).
  - split; [apply Hm|]. intros a E. discriminate.
Qed.

Lemma keeps_weaken {A} (m : SceneM A) (Q Q' : A -> Prop) :
  keeps v m Q -> (forall a, Q a -> Q' a) -> keeps v m Q'.
Proof.
  intros Hm HQ s Hs. destruct (Hm s Hs) as [Hinv Ha].
  split; [exact Hinv|]. intros a E. apply HQ, Ha, E.
Qed.

Lemma keeps_lift_outcome {A} (o : outcome A) : keeps v (lift_outcome o) (fun _ => True).
Proof. destruct o; [apply keeps_ret; exact I | apply keeps_raise]. Qed.

Lemma keeps_for_each {A} (l : list A) (body : A -> SceneM unit) :
  (forall x, In x l -> keeps v (body x) (fun _ => True)) ->
  keeps v (for_each l body) (fun _ => True).
Proof.
  induction l as [|x l IH]; intros Hb; simpl.
  - apply keeps_ret. exact I.
  - eapply keeps_bind; [apply Hb; left; reflexivity|].
    intros _ _. apply IH. intros y Hy. apply Hb. right. exact Hy.
Qed.

Lemma keeps_fold_m {A B} (l : list A) (body : B -> A -> SceneM B) (acc : B) :
  (forall acc x, In x l -> keeps v (body acc x) (fun _ => True)) ->
  keeps v (fold_m l acc body) (fun _ => True).
Proof.
  revert acc. induction l as [|x l IH]; intros acc Hb; simpl.
  - apply keeps_ret. exact I.
  - eapply keeps_bind; [apply Hb; left; reflexivity|].
    intros acc' _. apply IH. intros a y Hy. apply Hb. right. exact Hy.
Qed.

Lemma keeps_while {L} (fuel : nat) (cond : L -> Scene * Canvas -> bool)
    (body : L -> SceneM L) :
  (forall l, keeps v (body l) (fun _ => True)) ->
  forall l, keeps v (while_loop fuel cond body l) (fun _ => True).
Proof.
  intros Hb. induction fuel as [|fuel IH]; intros l s Hs; simpl.
  - destruct (cond l s); cbn [fst snd]; (split; [exact Hs|]); intros; exact I.
  - destruct (cond l s).
    + apply (keeps_bind (body l) (while_loop fuel cond body)
               (fun _ => True) (fun _ => True)); [apply Hb | intros; apply IH | exact Hs].
    + cbn [fst snd]. split; [exact Hs|]. intros; exact I.
Qed.

Lemma keeps_get_scene : keeps v get_scene (scene_inv v).
Proof.
  intros s Hs. unfold get_scene. cbn [fst snd]. split; [exact Hs|].
  intros a E. inversion E; subst. exact Hs.
Qed.

Lemma keeps_draw (c : DrawCmd) : keeps v (draw c) (fun _ => True).
Proof. intros s Hs. unfold draw. cbn [fst snd]. split; [exact Hs|]. intros; exact I. Qed.

Lemma keeps_set_axes (ax : Canvas) : keeps v (set_axes ax) (fun _ => True).
Proof. intros s Hs. unfold set_axes. cbn [fst snd]. split; [exact Hs|]. intros; exact I. Qed.

Lemma keeps_get_axes : keeps v get_axes (fun _ => True).
Proof. intros s Hs. unfold get_axes. cbn [fst snd]. split; [exact Hs|]. intros; exact I. Qed.

Lemma keeps_modify_scene (f : Scene -> Scene) :
  (forall sc, scene_inv v sc -> scene_inv v (f sc)) ->
  keeps v (modify_scene f) (fun _ => True).
Proof.
  intros Hf s Hs. unfold modify_scene. cbn [fst snd]. split; [apply Hf, Hs|].
  intros; exact I.
Qed.

Lemma scene_inv_lookup (sc : Scene) (i : nat) (r : Room) :
  scene_inv v sc -> rooms sc !! i = Some r -> room_ok v i r.
Proof.
  intros [Hv Hf] Hi. split.
  - rewrite <- Hv. unfold objects_vector. rewrite list_lookup_fmap, Hi. reflexivity.
  - unfold full_height_inv in Hf. rewrite Forall_lookup in Hf.
    exact (Hf i r Hi).
Qed.

Lemma scene_inv_insert (sc : Scene) (i : nat) (r r' : Room) :
  scene_inv v sc -> rooms sc !! i = Some r ->
  has_objects r' = has_objects r ->
  (has_objects r' = true -> use_full_height r' = true) ->
  scene_inv v (Scene_set_rooms (<[i := r']> (rooms sc)) sc).
Proof.
  intros [Hv Hf] Hi Ho Hu. split.
  - unfold objects_vector in *. cbn [rooms Scene_set_rooms].
    rewrite list_fmap_insert, Ho.
    rewrite list_insert_id; [exact Hv|].
    rewrite list_lookup_fmap, Hi. reflexivity.
  - unfold full_height_inv in *. cbn [rooms Scene_set_rooms].
    apply Forall_insert; assumption.
Qed.

Lemma keeps_room_at (i : nat) : keeps v (room_at i) (room_ok v i).
Proof.
  intros s Hs. unfold room_at.
  destruct (rooms (fst s) !! i) as [r|] eqn:E; cbn [fst snd].
  - split; [exact Hs|]. intros a Ea. inversion Ea; subst.
    eapply scene_inv_lookup; eassumption.
  - split; [exact Hs|]. intros a Ea. discriminate.
Qed.

Lemma keeps_update_room (i : nat) (f : Room -> Room) :
  (forall r, room_ok v i r ->
             has_objects (f r) = has_objects r
             /\ (has_objects (f r) = true -> use_full_height (f r) = true)) ->
  keeps v (update_room i f) (fun _ => True).
Proof.
  intros Hf s Hs. unfold update_room.
  destruct (rooms (fst s) !! i) as [r|] eqn:E; cbn [fst snd].
  - destruct (Hf r (scene_inv_lookup _ _ _ Hs E)) as [Ho Hu].
    split; [|intros; exact I]. eapply scene_inv_insert; eassumption.
  - split; [exact Hs|]. intros; exact I.
Qed.

End KeepsRules.

Lemma Room_plot_keeps_flags (env : Collaborators) (self : Room) (position : Point)
    (ax : Canvas) (target_width : option Q) :
  has_objects (fst (fst (Room_plot env self position ax target_width)))
  = has_objects self
  /\ use_full_height (fst (fst (Room_plot env self position ax target_width)))
     = use_full_height self.
Proof.
  destruct (Room_plot_shape env self position ax target_width)
    as (objs' & recs2 & rh & h & center & extra & res & Hplot & _ & _ & Hobjs & _).
  rewrite Hplot. cbn [fst snd]. split; [|reflexivity].
  unfold has_objects. cbn [objects Room_set_geometry Room_set_children].
  destruct (objects self) as [l|], objs' as [l'|]; try contradiction; [|reflexivity].
  destruct Hobjs; reflexivity.
Qed.

Lemma init_size_keeps_flags (r : Room) :
  has_objects (init_size r) = has_objects r
  /\ use_full_height (init_size r) = use_full_height r.
Proof. split; reflexivity. Qed.

Section FullHeight.

Variable env : Collaborators.
Variable v : list bool.

Lemma keeps_plot_room (i : nat) (position : Point) (target_width : option Q) :
  keeps v (plot_room env i position target_width) (fun _ => True).
Proof.
  intros s Hs. unfold plot_room.
  destruct (rooms (fst s) !! i) as [r|] eqn:E; cbn [fst snd].
  - destruct (Room_plot_keeps_flags env r position (snd s) target_width) as [Ho Hu].
    destruct (Room_plot env r position (snd s) target_width) as [[r' ax'] res].
    cbn [fst snd] in *. split; [|intros; exact I].
    destruct (scene_inv_lookup v _ _ _ Hs E) as [_ Hr].
    eapply scene_inv_insert; try eassumption.
    rewrite Ho, Hu. exact Hr.
  - split; [exact Hs|]. intros; exact I.
Qed.

Lemma keeps_rooms_of_from (row : list nat) :
  forall (pre : list nat) (acc : list Room),
    rooms_match v pre acc ->
    keeps v (fold_m row acc
               (fun acc i => do r <- room_at i; ret (acc ++ [r])))
          (rooms_match v (pre ++ row)).
Proof.
  induction row as [|i row IH]; intros pre acc Hacc; simpl.
  - apply keeps_ret. rewrite app_nil_r. exact Hacc.
  - eapply keeps_bind.
    + eapply keeps_bind; [apply keeps_room_at|].
      intros r Hr. apply (keeps_ret v (acc ++ [r]) (rooms_match v (pre ++ [i]))).
      apply Forall2_app; [exact Hacc|]. constructor; [apply Hr|constructor].
    + intros acc' Hacc'. rewrite (app_assoc pre [i] row : pre ++ i :: row = (pre ++ [i]) ++ row).
      apply IH. exact Hacc'.
Qed.

Lemma keeps_rooms_of (row : list nat) : keeps v (rooms_of row) (rooms_match v row).
Proof. apply (keeps_rooms_of_from row [] []). constructor. Qed.

Lemma keeps_rooms_have_objects (row : list nat) :
  keeps v (rooms_have_objects row) (covers v row).
Proof.
  unfold rooms_have_objects. eapply keeps_bind; [apply keeps_rooms_of|].
  intros rs Hrs. apply keeps_ret. intros i Hi Hv.
  induction Hrs as [|j r row rs Hj _ IH]; [destruct Hi|].
  cbn [existsb]. destruct Hi as [->|Hi].
  - rewrite Hv in Hj. injection Hj as Hr. rewrite <- Hr. reflexivity.
  - rewrite (IH Hi). apply orb_true_r.
Qed.

Lemma keeps_set_full_height (row : list nat) (b : bool) (i : nat)
    (g : Room -> Room) :
  covers v row b -> In i row ->
  (forall r, has_objects (g r) = has_objects r
             /\ use_full_height (g r) = use_full_height r) ->
  keeps v (update_room i (fun room => g (Room_set_use_full_height b room)))
        (fun _ => True).
Proof.
  intros Hb Hi Hg. apply keeps_update_room. intros r [Hv _].
  destruct (Hg (Room_set_use_full_height b r)) as [Ho Hu].
  rewrite Ho, Hu. split; [reflexivity|].
  intros Hr. change (has_objects r = true) in Hr. change (b = true).
  apply (Hb i Hi). rewrite Hv, Hr. reflexivity.
Qed.

End FullHeight.

Section FullHeightLayout.

Variable env : Collaborators.
Variable v : list bool.

Lemma keeps_py_max (l : list Q) : keeps v (py_max l) (fun _ => True).
Proof. destruct l; [apply keeps_raise | apply keeps_ret; exact I]. Qed.

Lemma keeps_select_rooms (keep : string -> bool) :
  keeps v (select_rooms keep) (fun _ => True).
Proof.
  unfold select_rooms. eapply keeps_bind; [apply keeps_get_scene|].
  intros sc _. apply keeps_fold_m. intros acc i _.
  eapply keeps_bind; [apply keeps_room_at|]. intros r _. apply keeps_ret. exact I.
Qed.

Lemma keeps_plot_row (set_full_height : option bool) (row : list nat) (y : Q) :
  (forall b, set_full_height = Some b -> covers v row b) ->
  keeps v (plot_row env set_full_height row y) (fun _ => True).
Proof.
  intros Hb. unfold plot_row. apply keeps_fold_m. intros w i Hi.
  eapply keeps_bind.
  - destruct set_full_height as [b|].
    + apply (keeps_set_full_height v row b i (fun r => r)); auto.
    + apply keeps_ret. exact I.
  - intros _ _. eapply keeps_bind; [apply keeps_plot_room|].
    intros _ _. eapply keeps_bind; [apply keeps_room_at|].
    intros r _. apply keeps_ret. exact I.
Qed.

Lemma keeps_linear_body (mentioned_rooms : list string) (st : RowLoop) :
  keeps v (linear_body env mentioned_rooms st) (fun _ => True).
Proof.
  unfold linear_body.
  eapply keeps_bind; [apply keeps_room_at|]. intros room _.
  eapply keeps_bind; [apply keeps_get_scene|]. intros sc _.
  destruct (negb (str_in (room_id room) mentioned_rooms));
    [|apply keeps_ret; exact I].
  destruct (Qle_bool (width room + rl_width st) (scene_width sc));
    [apply keeps_ret; exact I|].
  eapply keeps_bind; [apply keeps_rooms_of|]. intros rs _.
  eapply keeps_bind; [apply keeps_py_max|]. intros h _.
  eapply keeps_bind; [apply keeps_rooms_have_objects|]. intros b Hb.
  eapply keeps_bind; [apply keeps_plot_row; intros b' E; inversion E; subst; exact Hb|].
  intros _ _. apply keeps_ret. exact I.
Qed.

Lemma scene_inv_set_width (w : Q) (sc : Scene) :
  scene_inv v sc -> scene_inv v (Scene_set_width w sc).
Proof. intros H. exact H. Qed.

Lemma keeps_plot_rooms_linear_free (mentioned_rooms : list string) (height_offset : Q) :
  keeps v (plot_rooms_linear_free env mentioned_rooms height_offset) (fun _ => True).
Proof.
  unfold plot_rooms_linear_free.
  eapply keeps_bind; [apply keeps_get_scene|]. intros sc0 _.
  eapply keeps_bind.
  { apply keeps_fold_m. intros acc i _.
    eapply keeps_bind; [apply keeps_room_at|]. intros room _.
    destruct (str_in (room_id room) mentioned_rooms); [|apply keeps_ret; exact I].
    eapply keeps_bind; [apply keeps_plot_room|]. intros _ _.
    eapply keeps_bind; [apply keeps_room_at|]. intros room' _.
    apply keeps_ret. exact I. }
  intros first_row_position _.
  eapply keeps_bind; [apply keeps_modify_scene, scene_inv_set_width|]. intros _ _.
  eapply keeps_bind; [apply keeps_select_rooms|]. intros mentioned _.
  eapply keeps_bind; [apply keeps_rooms_of|]. intros ms _.
  eapply keeps_bind; [apply keeps_py_max|]. intros first_row_height _.
  eapply keeps_bind; [apply keeps_while, keeps_linear_body|]. intros st _.
  eapply keeps_bind; [apply keeps_rooms_of|]. intros rs _.
  eapply keeps_bind; [apply keeps_py_max|]. intros h _.
  eapply keeps_bind; [apply keeps_plot_row; discriminate|]. intros _ _.
  apply keeps_ret. exact I.
Qed.

Lemma keeps_flush_row (target_width : Q) (row : list nat) (row_height : Q) :
  keeps v (flush_row env target_width row row_height) (fun _ => True).
Proof.
  unfold flush_row.
  eapply keeps_bind; [apply keeps_rooms_have_objects|]. intros b Hb.
  eapply keeps_bind.
  { apply keeps_for_each. intros i Hi.
    apply (keeps_set_full_height v row b i init_size Hb Hi).
    intros r. apply init_size_keeps_flags. }
  intros _ _.
  eapply keeps_bind; [apply keeps_rooms_of|]. intros rs _.
  eapply keeps_bind; [apply keeps_py_max|]. intros h _.
  eapply keeps_bind; [apply keeps_lift_outcome|]. intros room_target_widths _.
  eapply keeps_bind.
  { apply keeps_fold_m. intros w [i tw] _.
    eapply keeps_bind; [apply keeps_plot_room|]. intros _ _.
    eapply keeps_bind; [apply keeps_room_at|]. intros r _.
    apply keeps_ret. exact I. }
  intros w _.
  eapply keeps_bind; [apply keeps_get_scene|]. intros sc _.
  eapply keeps_bind; [apply keeps_modify_scene, scene_inv_set_width|]. intros _ _.
  apply keeps_ret. exact I.
Qed.

Lemma keeps_target_body (target_width : Q) (all_rooms : list nat) (st : RowLoop) :
  keeps v (target_body env target_width all_rooms st) (fun _ => True).
Proof.
  unfold target_body. destruct (all_rooms !! rl_i st) as [i|]; [|apply keeps_raise].
  eapply keeps_bind; [apply keeps_room_at|]. intros room _.
  eapply keeps_bind; [apply keeps_get_scene|]. intros sc _.
  destruct (Qle_bool (width room + rl_width st) (scene_width sc));
    [apply keeps_ret; exact I|].
  eapply keeps_bind; [apply keeps_flush_row|]. intros h _.
  apply keeps_ret. exact I.
Qed.

Lemma scene_inv_init_sizes (sc : Scene) :
  scene_inv v sc -> scene_inv v (Scene_set_rooms (map init_size (rooms sc)) sc).
Proof.
  intros [Hv Hf]. split.
  - unfold objects_vector in *. cbn [rooms Scene_set_rooms].
    rewrite map_map. exact Hv.
  - unfold full_height_inv in *. cbn [rooms Scene_set_rooms].
    apply Forall_map. exact Hf.
Qed.

Lemma keeps_plot_rooms_linear_target (mentioned_rooms : list string)
    (target_width height_offset : Q) (all_mentioned_rooms : option (list string)) :
  keeps v (plot_rooms_linear_target env mentioned_rooms target_width
             height_offset all_mentioned_rooms) (fun _ => True).
Proof.
  unfold plot_rooms_linear_target.
  eapply keeps_bind; [apply keeps_modify_scene, scene_inv_set_width|]. intros _ _.
  eapply keeps_bind; [apply keeps_select_rooms|]. intros front _.
  eapply keeps_bind; [apply keeps_select_rooms|]. intros back _.
  eapply keeps_bind; [apply keeps_modify_scene, scene_inv_init_sizes|]. intros _ _.
  eapply keeps_bind; [apply keeps_while, keeps_target_body|]. intros st _.
  eapply keeps_bind; [apply keeps_flush_row|]. intros h _.
  apply keeps_ret. exact I.
Qed.

Lemma keeps_plot_rooms_linear (mentioned_rooms : list string)
    (target_width : option Q) (height_offset : Q)
    (all_mentioned_rooms : option (list string)) :
  keeps v (plot_rooms_linear env mentioned_rooms target_width height_offset
             all_mentioned_rooms) (fun _ => True).
Proof.
  unfold plot_rooms_linear. destruct target_width.
  - apply keeps_plot_rooms_linear_target.
  - apply keeps_plot_rooms_linear_free.
Qed.

End FullHeightLayout.

Lemma Room_update_object_keeps_flags (j : nat) (f : Object -> Object) (r : Room) :
  has_objects (Room_update_object j f r) = has_objects r
  /\ use_full_height (Room_update_object j f r) = use_full_height r.
Proof.
  split; [|reflexivity]. unfold has_objects, Room_update_object.
  cbn [objects Room_set_children].
  destruct (objects r) as [[|o l]|]; try reflexivity. destruct j; reflexivity.
Qed.

Section FullHeightScene.

Variable env : Collaborators.
Variable v : list bool.

Lemma scene_inv_map_flags (f : Room -> Room) (sc : Scene) :
  (forall r, has_objects (f r) = has_objects r
             /\ use_full_height (f r) = use_full_height r) ->
  scene_inv v sc -> scene_inv v (Scene_set_rooms (map f (rooms sc)) sc).
Proof.
  intros Hf [Hv Hi]. split.
  - unfold objects_vector in *. cbn [rooms Scene_set_rooms].
    rewrite map_map, <- Hv. apply map_ext. intros r. apply Hf.
  - unfold full_height_inv in *. cbn [rooms Scene_set_rooms].
    apply Forall_map. eapply Forall_impl; [exact Hi|].
    intros r Hr. cbn beta. destruct (Hf r) as [-> ->]. exact Hr.
Qed.

Lemma keeps_update_flags (i : nat) (f : Room -> Room) :
  (forall r, has_objects (f r) = has_objects r
             /\ use_full_height (f r) = use_full_height r) ->
  keeps v (update_room i f) (fun _ => True).
Proof.
  intros Hf. apply keeps_update_room. intros r [_ Hr].
  destruct (Hf r) as [-> ->]. split; [reflexivity | exact Hr].
Qed.

Lemma keeps_reset_children_flags : keeps v reset_children_flags (fun _ => True).
Proof.
  unfold reset_children_flags.
  eapply keeps_bind; [apply keeps_get_scene|]. intros sc _.
  apply keeps_for_each. intros i _.
  eapply keeps_bind.
  { apply keeps_update_flags. intros r. split; reflexivity. }
  intros _ _. eapply keeps_bind; [apply keeps_room_at|]. intros room [Hroom _].
  destruct (objects room) as [objs|] eqn:Hobjs; [|apply keeps_raise].
  apply keeps_update_room. intros r [Hr Hu].
  assert (E : has_objects (Room_set_children (receptacles room)
                             (Some (map (Object_set_is_on_floor false) objs)) r)
              = has_objects r).
  { rewrite Hroom in Hr. injection Hr as <-.
    unfold has_objects. cbn [objects Room_set_children]. rewrite Hobjs.
    destruct objs; reflexivity. }
  split; [exact E|]. rewrite E. exact Hu.
Qed.

Lemma keeps_resolve_room (m : Mentions) (i : nat) (mentioned : list string) :
  keeps v (resolve_room m i mentioned) (fun _ => True).
Proof.
  unfold resolve_room.
  eapply keeps_bind.
  { apply keeps_fold_m. intros acc obj _.
    eapply keeps_bind; [apply keeps_room_at|]. intros room _.
    destruct (find_object_by_id room obj) as [[j o]|]; [|apply keeps_ret; exact I].
    eapply keeps_bind;
      [apply keeps_update_flags; intros r; apply Room_update_object_keeps_flags|].
    intros _ _. apply keeps_ret. exact I. }
  intros mentioned1 _. eapply keeps_bind.
  { apply keeps_fold_m. intros acc obj _.
    eapply keeps_bind; [apply keeps_room_at|]. intros room _.
    destruct (find_object_by_id room obj); apply keeps_ret; exact I. }
  intros mentioned2 _. apply keeps_fold_m. intros acc [prop_function recep] _.
  eapply keeps_bind; [apply keeps_room_at|]. intros room _.
  destruct (find_receptacle_by_id (receptacles room) recep) as [[j r0]|];
    [|apply keeps_ret; exact I].
  destruct (String.eqb prop_function "is_on_top");
    [|destruct (String.eqb prop_function "is_inside"); [|apply keeps_raise]];
    (eapply keeps_bind;
     [apply keeps_update_flags; intros r; split; reflexivity
     |intros _ _; apply keeps_ret; exact I]).
Qed.

Lemma keeps_add_arrow_call (a b : option Point) (dashed : bool) (color : string) :
  keeps v (add_arrow_call a b dashed color) (fun _ => True).
Proof.
  unfold add_arrow_call. destruct a, b; try apply keeps_raise. apply keeps_draw.
Qed.

Lemma keeps_plot_proposition_lines (color_index : nat) (proposition : Proposition) :
  keeps v (plot_proposition_lines color_index proposition) (fun _ => True).
Proof.
  unfold plot_proposition_lines.
  destruct (object_names (args proposition)) as [objs|]; [|apply keeps_ret; exact I].
  eapply keeps_bind; [apply keeps_lift_outcome|]. intros number _.
  destruct (String.eqb (function_name proposition) "is_inside"
            || String.eqb (function_name proposition) "is_on_top").
  - eapply keeps_bind; [apply keeps_lift_outcome|]. intros recs _.
    eapply keeps_bind; [|intros _ _; apply keeps_ret; exact I].
    unfold plot_object_to_receptacle_lines.
    eapply keeps_bind; [apply keeps_get_scene|]. intros sc _.
    apply keeps_for_each. intros object_name _.
    apply keeps_for_each. intros room _.
    destruct (find_object_by_id room object_name) as [[j o]|];
      [|apply keeps_ret; exact I].
    apply keeps_for_each. intros receptacle_name _.
    apply keeps_for_each. intros [k r] _.
    destruct (String.eqb (function_name proposition) "is_inside");
      [apply keeps_add_arrow_call|].
    destruct (String.eqb (function_name proposition) "is_on_top");
      [apply keeps_add_arrow_call | apply keeps_ret; exact I].
  - destruct (String.eqb (function_name proposition) "is_in_room");
      [|apply keeps_ret; exact I].
    eapply keeps_bind; [apply keeps_lift_outcome|]. intros rms _.
    eapply keeps_bind; [|intros _ _; apply keeps_ret; exact I].
    unfold plot_object_to_room_lines.
    eapply keeps_bind; [apply keeps_get_scene|]. intros sc _.
    apply keeps_for_each. intros [j o] _.
    apply keeps_for_each. intros room _.
    destruct (room_center_position room); [apply keeps_add_arrow_call|apply keeps_raise].
Qed.

Lemma keeps_plot_for_propositions (propositions : list Proposition)
    (show_instruction : bool) (height_offset : Q) (initial_ax : option Canvas)
    (all_mentioned_rooms : option (list string)) :
  keeps v (plot_for_propositions env propositions show_instruction height_offset
             initial_ax all_mentioned_rooms) (fun _ => True).
Proof.
  unfold plot_for_propositions.
  eapply keeps_bind; [apply keeps_lift_outcome|]. intros m _.
  eapply keeps_bind.
  { apply keeps_modify_scene. intros sc. apply scene_inv_map_flags.
    intros r. split; reflexivity. }
  intros _ _. eapply keeps_bind; [apply keeps_reset_children_flags|]. intros _ _.
  eapply keeps_bind; [apply keeps_get_scene|]. intros sc _.
  eapply keeps_bind.
  { apply keeps_fold_m. intros acc i _. apply keeps_resolve_room. }
  intros mentioned _. eapply keeps_bind.
  { apply keeps_modify_scene. intros sc'. apply scene_inv_map_flags.
    intros r. split; reflexivity. }
  intros _ _. eapply keeps_bind; [apply keeps_set_axes|]. intros _ _.
  eapply keeps_bind; [apply keeps_plot_rooms_linear|]. intros [hl hu] _.
  eapply keeps_bind.
  { apply keeps_fold_m. intros acc p _. apply keeps_plot_proposition_lines. }
  intros _ _. eapply keeps_bind; [apply keeps_get_scene|]. intros sc' _.
  eapply keeps_bind.
  { destruct (negb (PyStr.is_empty (instruction sc')) && show_instruction);
      [apply keeps_draw | apply keeps_ret; exact I]. }
  intros _ _. eapply keeps_bind.
  { destruct (is_next_tos m).
    - apply keeps_draw.
    - eapply keeps_bind; [apply keeps_draw|]. intros _ _. apply keeps_draw. }
  intros _ _. eapply keeps_bind; [apply keeps_draw|]. intros _ _.
  apply keeps_ret. exact I.
Qed.

Lemma keeps_Scene_plot (propositions : option (list Proposition))
    (constraints : option (list Constraint)) (force_hide_instructions : bool) :
  keeps v (Scene_plot env propositions constraints force_hide_instructions)
        (fun _ => True).
Proof.
  unfold Scene_plot.
  destruct constraints as [constraints|]; [|apply keeps_raise].
  destruct propositions as [propositions|]; [|apply keeps_raise].
  eapply keeps_bind; [apply keeps_lift_outcome|]. intros toposort _.
  destruct toposort as [|level levels].
  - eapply keeps_bind; [apply keeps_plot_for_propositions|]. intros [[hl hu] w] _.
    eapply keeps_bind; [apply keeps_modify_scene; intros sc H; exact H|].
    intros _ _. apply keeps_ret. exact I.
  - eapply keeps_bind; [apply keeps_lift_outcome|]. intros m _.
    eapply keeps_bind; [apply keeps_get_scene|]. intros sc _.
    eapply keeps_bind; [apply keeps_set_axes|]. intros _ _.
    eapply keeps_bind.
    { apply keeps_fold_m. intros [[[idx n] mu] ml] current_level _.
      unfold plot_level.
      eapply keeps_bind; [apply keeps_lift_outcome|]. intros props _.
      eapply keeps_bind; [apply keeps_get_axes|]. intros ax _.
      eapply keeps_bind; [apply keeps_plot_for_propositions|]. intros [[hl hu] w] _.
      eapply keeps_bind; [apply keeps_draw|]. intros _ _.
      apply keeps_ret. exact I. }
    intros [[[idx n] mu] ml] _.
    eapply keeps_bind; [apply keeps_modify_scene; intros sc' H; exact H|].
    intros _ _. apply keeps_ret. exact I.
Qed.

End FullHeightScene.

(** C8: a room that has objects has [use_full_height] set: the constructor
    sets it whatever its argument says, [init_size] and [Room.plot] do not
    touch it, and the row packing of [plot_rooms_linear], with or without a
    target width, as well as [plot_for_propositions] and [Scene.plot] that
    call it, leave every room with objects at full height, on normal return
    and on an exception. *)
Theorem C8_rooms_with_objects_use_full_height :
  (forall (config : RoomConfig) (rid : string) (recs : list Receptacle)
          (objs : option (list Object)) (use_full_height_arg in_prop : bool)
          (mapping : option (gmap string string)),
      let room := Room_init config rid recs objs
                    use_full_height_arg in_prop mapping in
      (has_objects room = true -> use_full_height room = true)
      /\ (has_objects room = false -> use_full_height room = use_full_height_arg))
  /\ (forall (env : Collaborators) (sc : Scene) (ax : Canvas)
             (mentioned_rooms : list string) (target_width : option Q)
             (height_offset : Q) (all_mentioned_rooms : option (list string)),
        full_height_inv sc ->
        let s' := fst (plot_rooms_linear env mentioned_rooms target_width
                         height_offset all_mentioned_rooms (sc, ax)) in
        full_height_inv (fst s') /\ objects_vector (fst s') = objects_vector sc)
  /\ (forall (env : Collaborators) (sc : Scene) (ax : Canvas)
             (propositions : list Proposition) (show_instruction : bool)
             (height_offset : Q) (initial_ax : option Canvas)
             (all_mentioned_rooms : option (list string)),
        full_height_inv sc ->
        let s' := fst (plot_for_propositions env propositions show_instruction
                         height_offset initial_ax all_mentioned_rooms (sc, ax)) in
        full_height_inv (fst s') /\ objects_vector (fst s') = objects_vector sc)
  /\ (forall (env : Collaborators) (sc : Scene) (ax : Canvas)
             (propositions : option (list Proposition))
             (constraints : option (list Constraint))
             (force_hide_instructions : bool),
        full_height_inv sc ->
        let s' := fst (Scene_plot env propositions constraints
                         force_hide_instructions (sc, ax)) in
        full_height_inv (fst s') /\ objects_vector (fst s') = objects_vector sc).
Proof.
  split.
  { intros config rid recs objs ufh inp otr room. subst room.
    unfold Room_init.
    destruct (init_size_keeps_flags
                {| room_config := config; room_id := rid;
                   receptacles := recs; objects := objs;
                   in_proposition := inp; plot_placeholder := false;
                   object_to_recep := otr;
                   use_full_height :=
                     match objs with Some (_ :: _) => true | _ => ufh end;
                   room_width := 0; width := 0; room_height := 0; height := 0;
                   room_center_position := None |}) as [-> ->].
    unfold has_objects. cbn [objects use_full_height].
    destruct objs as [[|o l]|]; split; intros; try reflexivity; discriminate. }
  split; [|split].
  - intros env sc ax mentioned_rooms target_width height_offset all_mentioned_rooms Hinv s'.
    destruct (keeps_plot_rooms_linear env (objects_vector sc) mentioned_rooms
                target_width height_offset all_mentioned_rooms (sc, ax))
      as [[Hv Hf] _]; [split; [reflexivity | exact Hinv]|].
    split; assumption.
  - intros env sc ax propositions show_instruction height_offset initial_ax
      all_mentioned_rooms Hinv s'.
    destruct (keeps_plot_for_propositions env (objects_vector sc) propositions
                show_instruction height_offset initial_ax all_mentioned_rooms (sc, ax))
      as [[Hv Hf] _]; [split; [reflexivity | exact Hinv]|].
    split; assumption.
  - intros env sc ax propositions constraints force_hide_instructions Hinv s'.
    destruct (keeps_Scene_plot env (objects_vector sc) propositions constraints
                force_hide_instructions (sc, ax))
      as [[Hv Hf] _]; [split; [reflexivity | exact Hinv]|].
    split; assumption.
Qed.

Lemma C8_rooms_with_objects_use_full_height_witness :
  let s' := fst (plot_rooms_linear example_env ["kitchen_0"] (Some 500) 0 None
                   (example_scene, [])) in
  full_height_inv (fst s') /\ objects_vector (fst s') = objects_vector example_scene.
Proof.
  apply (proj1 (proj2 C8_rooms_with_objects_use_full_height)).
  unfold full_height_inv. cbn [rooms example_scene].
  repeat (constructor; [intros Hobj; vm_compute in Hobj |- *; congruence|]).
  constructor.
Defined.

(** ** Rooms whose [objects] is [None] *)

Lemma classify_proposition_errors (env_m : Mentions) (prop : Proposition) (e : PyError) :
  classify_proposition env_m prop = Raise e -> e = KeyError \/ e = NotImplementedError.
Proof.
  unfold classify_proposition, arg, outcome_bind.
  repeat match goal with
         | |- context [if ?b then _ else _] => destruct b
         | |- context [match ?o with Some _ => _ | None => _ end] => destruct o
         end;
    intros E; inversion E; auto.
Qed.

Lemma classify_propositions_errors (props : list Proposition) :
  forall (m : Mentions) (e : PyError),
    classify_propositions m props = Raise e -> e = KeyError \/ e = NotImplementedError.
Proof.
  induction props as [|p props IH]; intros m e E; simpl in E; [discriminate|].
  destruct (classify_proposition m p) as [m'|e'] eqn:Ep; simpl in E.
  - eapply IH, E.
  - inversion E; subst. eapply classify_proposition_errors, Ep.
Qed.

(** The reset loop over positions [k, k+1, ...] raises [TypeError] when one
    of the rooms it will visit has no [objects] list. *)
Lemma reset_loop_raises (count : nat) :
  forall (k i : nat) (s : Scene * Canvas) (room : Room),
    rooms (fst s) !! i = Some room -> objects room = None ->
    (k <= i < k + count)%nat ->
    snd (for_each (seq k count)
           (fun i =>
              run update_room i
                    (fun room => Room_set_children
                                   (map (Receptacle_set_placeholders false false)
                                        (receptacles room))
                                   (objects room) room);
              do room <- room_at i;
              match objects room with
              | None => raise TypeError
              | Some objs =>
                  update_room i
                    (Room_set_children (receptacles room)
                       (Some (map (Object_set_is_on_floor false) objs)))
              end) s)
    = Raise TypeError.
Proof.
  induction count as [|count IH]; intros k i s room Hi Hnone Hrange; [lia|].
  cbn [seq for_each]. unfold bind at 1. unfold bind at 1.
  unfold update_room at 1.
  destruct (rooms (fst s) !! k) as [rk|] eqn:Hk.
  2: { apply lookup_ge_None in Hk. apply lookup_lt_Some in Hi. lia. }
  cbn [fst snd]. unfold bind at 1. unfold room_at at 1. cbn [fst snd rooms Scene_set_rooms].
  rewrite list_lookup_insert_eq by (eapply lookup_lt_Some; exact Hk).
  cbn [objects Room_set_children].
  destruct (objects rk) as [objs|] eqn:Hobjs; [|reflexivity].
  unfold update_room at 1. cbn [fst snd rooms Scene_set_rooms].
  rewrite list_lookup_insert_eq by (eapply lookup_lt_Some; exact Hk).
  cbn [fst snd].
  destruct (decide (k = i)) as [->|Hne].
  - rewrite Hi in Hk. injection Hk as <-. rewrite Hnone in Hobjs. discriminate.
  - apply (IH (S k) i _ room); [|exact Hnone|lia].
    cbn [fst rooms Scene_set_rooms].
    rewrite !list_lookup_insert_ne by exact Hne. exact Hi.
Qed.

(** C10: if some room of the scene has [objects = None], the default of the
    constructor, [plot_for_propositions] raises for every list of
    propositions: unless classifying the propositions has already failed,
    the loop that clears the floor flags iterates over [room.objects] with
    no guard and raises [TypeError]. *)
Theorem C10_none_objects_raise (env : Collaborators)
    (propositions : list Proposition) (show_instruction : bool) (height_offset : Q)
    (initial_ax : option Canvas) (all_mentioned_rooms : option (list string))
    (sc : Scene) (ax : Canvas) (i : nat) (room : Room) :
  rooms sc !! i = Some room ->
  objects room = None ->
  exists e : PyError,
    snd (plot_for_propositions env propositions show_instruction height_offset
           initial_ax all_mentioned_rooms (sc, ax)) = Raise e
    /\ (e = TypeError \/ e = KeyError \/ e = NotImplementedError)
    /\ (is_raise (classify_propositions no_mentions propositions) = false ->
        e = TypeError).
Proof.
  intros Hi Hnone. unfold plot_for_propositions. unfold bind at 1.
  destruct (classify_propositions no_mentions propositions) as [m|e] eqn:Hc;
    cbn [lift_outcome ret raise].
  - exists TypeError. split; [|split; [left; reflexivity | reflexivity]].
    unfold bind at 1. unfold modify_scene at 1. cbn [fst snd].
    unfold bind at 1.
    match goal with
    | |- context [reset_children_flags ?s] =>
        assert (Hr : snd (reset_children_flags s) = Raise TypeError)
    end.
    { unfold reset_children_flags. unfold bind at 1. unfold get_scene at 1.
      cbn [fst snd rooms Scene_set_rooms].
      apply (reset_loop_raises _ 0 i _
               (Room_set_plot_placeholder
                  (str_in (room_id room) (mentioned_rooms m)) room)).
      - cbn [fst rooms Scene_set_rooms]. rewrite list_lookup_fmap, Hi. reflexivity.
      - exact Hnone.
      - apply lookup_lt_Some in Hi. rewrite length_map. lia. }
    match goal with
    | |- context [reset_children_flags ?s] => destruct (reset_children_flags s) as [s1 r1]
    end.
    cbn [snd] in Hr. subst r1. reflexivity.
  - exists e. split; [reflexivity|]. split; [|discriminate].
    destruct (classify_propositions_errors _ _ _ Hc) as [->| ->]; auto.
Qed.

Lemma C10_none_objects_raise_witness :
  exists e : PyError,
    snd (plot_for_propositions example_env [] true 0 None None (example_scene, []))
    = Raise e
    /\ (e = TypeError \/ e = KeyError \/ e = NotImplementedError)
    /\ (is_raise (classify_propositions no_mentions []) = false -> e = TypeError).
Proof.
  apply (C10_none_objects_raise example_env [] true 0 None None example_scene []
           O kitchen_room); reflexivity.
Defined.

(** ** Proposition kinds on the two paths of [Scene.plot] *)

(** C4: the two paths of [Scene.plot] do not accept the same proposition
    kinds.  With a temporal constraint, the pass that collects the
    mentioned rooms has no branch for [is_next_to] and raises
    [NotImplementedError] on it, whatever the scene; the classification of
    [plot_for_propositions] accepts the same proposition, and without a
    temporal constraint the scene is plotted and the legend is drawn. *)
Theorem C4_toposort_path_rejects_is_next_to :
  (forall (env : Collaborators) (sc : Scene) (ax : Canvas)
          (force_hide_instructions : bool),
      snd (Scene_plot env (Some [next_to_proposition]) (Some [temporal_constraint])
             force_hide_instructions (sc, ax))
      = Raise NotImplementedError)
  /\ classify_propositions_toposort no_mentions [next_to_proposition]
     = Raise NotImplementedError
  /\ classify_propositions no_mentions [next_to_proposition]
     = Ok {| mentioned_objs := []; on_floor_objs := []; mentioned_receps := [];
             mentioned_rooms := [];
             is_next_tos := [([("apple_0", "object")], [("fridge_0", "furniture")],
                              1%Z)] |}
  /\ (let r := Scene_plot example_env (Some [next_to_proposition])
                 (Some [terminal_constraint]) false (furnished_scene, []) in
      snd r = Ok 1%nat /\ has_legend (snd (fst r)) = true).
Proof.
  split; [intros; reflexivity|].
  split; [reflexivity|].
  split; [reflexivity|].
  split; vm_compute; reflexivity.
Qed.


(** ** The loop bound of the row packing is never reached *)

Lemma post_ret {A} (a : A) (Q : A -> Prop) : Q a -> post (ret a) Q.
Proof. intros HQ s. exact HQ. Qed.

Lemma post_raise {A} (e : PyError) (Q : A -> Prop) :
  e <> FuelExhausted -> post (raise e) Q.
Proof. intros He s. exact He. Qed.

Lemma post_bind {A B} (m : SceneM A) (k : A -> SceneM B)
    (Q : A -> Prop) (Q' : B -> Prop) :
  post m Q -> (forall a, Q a -> post (k a) Q') -> post (bind m k) Q'.
Proof.
  intros Hm Hk s. unfold bind. specialize (Hm s).
  destruct (m s) as [s' [a|e]]; cbn [snd] in *.
  - apply (Hk a Hm s').
  - exact Hm.
Qed.

Lemma post_weaken {A} (m : SceneM A) (Q Q' : A -> Prop) :
  post m Q -> (forall a, Q a -> Q' a) -> post m Q'.
Proof.
  intros Hm HQ s. specialize (Hm s). destruct (snd (m s)); [apply HQ|]; exact Hm.
Qed.

Lemma post_for_each {A} (l : list A) (body : A -> SceneM unit) :
  (forall x, post (body x) (fun _ => True)) ->
  post (for_each l body) (fun _ => True).
Proof.
  intros Hb. induction l as [|x l IH]; simpl.
  - apply post_ret. exact I.
  - eapply post_bind; [apply Hb|]. intros _ _. exact IH.
Qed.

Lemma post_fold_m {A B} (l : list A) (body : B -> A -> SceneM B) (acc : B) :
  (forall acc x, post (body acc x) (fun _ => True)) ->
  post (fold_m l acc body) (fun _ => True).
Proof.
  intros Hb. revert acc. induction l as [|x l IH]; intros acc; simpl.
  - apply post_ret. exact I.
  - eapply post_bind; [apply Hb|]. intros acc' _. apply IH.
Qed.

(** A loop whose body decreases a measure runs to its end within a bound
    above the initial measure. *)
Lemma post_while {L} (mu : L -> nat) (cond : L -> Scene * Canvas -> bool)
    (body : L -> SceneM L) :
  (forall l s0, cond l s0 = true -> post (body l) (fun l' => (mu l' < mu l)%nat)) ->
  forall (fuel : nat) (l : L),
    (mu l < fuel)%nat -> post (while_loop fuel cond body l) (fun _ => True).
Proof.
  intros Hb. induction fuel as [|fuel IH]; intros l Hl s; [lia|].
  simpl. destruct (cond l s) eqn:Hc; [|exact I].
  apply (post_bind (body l) (while_loop fuel cond body)
           (fun l' => (mu l' < mu l)%nat) (fun _ => True)); [eapply Hb, Hc|].
  intros l' Hl'. apply IH. lia.
Qed.

Lemma post_lift_outcome {A} (o : outcome A) :
  (forall e, o = Raise e -> e <> FuelExhausted) ->
  post (lift_outcome o) (fun _ => True).
Proof.
  intros Ho. destruct o as [a|e]; [apply post_ret; exact I|].
  apply post_raise. apply Ho. reflexivity.
Qed.

Lemma post_get_scene : post get_scene (fun _ => True).
Proof. intros s. exact I. Qed.

Lemma post_modify_scene (f : Scene -> Scene) : post (modify_scene f) (fun _ => True).
Proof. intros s. exact I. Qed.

Lemma post_draw (c : DrawCmd) : post (draw c) (fun _ => True).
Proof. intros s. exact I. Qed.

Lemma post_set_axes (ax : Canvas) : post (set_axes ax) (fun _ => True).
Proof. intros s. exact I. Qed.

Lemma post_get_axes : post get_axes (fun _ => True).
Proof. intros s. exact I. Qed.

Lemma post_room_at (i : nat) : post (room_at i) (fun _ => True).
Proof.
  intros s. unfold room_at. destruct (rooms (fst s) !! i); [exact I|discriminate].
Qed.

Lemma post_update_room (i : nat) (f : Room -> Room) :
  post (update_room i f) (fun _ => True).
Proof.
  intros s. unfold update_room. destruct (rooms (fst s) !! i); [exact I|discriminate].
Qed.

Lemma post_py_max (l : list Q) : post (py_max l) (fun _ => True).
Proof. destruct l; [apply post_raise; discriminate | apply post_ret; exact I]. Qed.

Section LoopBound.

Variable env : Collaborators.

Lemma object_patch_errors (o : Object) (p : Point) (e : PyError) :
  object_patch env o p = Raise e -> e = KeyError.
Proof.
  unfold object_patch. intros He.
  destruct (icon_path o) as [ip|]; try destruct (path_exists env ip);
    try discriminate;
    destruct (object_category_map env _) as [cat|];
    try destruct (category_color_map env cat);
    try discriminate; inversion He; reflexivity.
Qed.

Lemma plot_objects_errors (m : option (gmap string string)) (y spacing : Q)
    (objs : list Object) :
  forall (offset : Q) (recs : list Receptacle) (ax : Canvas)
         (objs' : list Object) (recs' : list Receptacle) (ax' : Canvas) (e : PyError),
    plot_objects env m y spacing objs offset recs ax = (objs', recs', ax', Raise e) ->
    e = KeyError \/ e = AttributeError.
Proof.
  induction objs as [|obj rest IH]; intros offset recs ax objs' recs' ax' e Hp;
    simpl in Hp; [discriminate|].
  destruct (mapped_receptacle m obj) as [rid|].
  - destruct (find_receptacle_by_id recs rid) as [[i cur]|];
      [|inversion Hp; right; reflexivity].
    destruct (Object_plot_cases env obj ax (new_top_item_position cur))
      as [(e' & Hpatch & Hplot)|(d & Hpatch & Hplot)]; rewrite Hplot in Hp.
    + inversion Hp; subst. left. eapply object_patch_errors, Hpatch.
    + cbn [text_position Object_set_center] in Hp.
      destruct (text_position obj) as [tp|]; [|inversion Hp; right; reflexivity].
      match type of Hp with
      | context [plot_objects ?a ?b ?c ?d ?e ?f ?g ?h] =>
          destruct (plot_objects a b c d e f g h)
            as [[[rest1 recs1] ax1] res1] eqn:Hcall
      end.
      inversion Hp; subst. eapply IH, Hcall.
  - destruct (Object_plot_cases env obj ax (offset, y))
      as [(e' & Hpatch & Hplot)|(d & Hpatch & Hplot)]; rewrite Hplot in Hp.
    + inversion Hp; subst. left. eapply object_patch_errors, Hpatch.
    + match type of Hp with
      | context [plot_objects ?a ?b ?c ?d ?e ?f ?g ?h] =>
          destruct (plot_objects a b c d e f g h)
            as [[[rest1 recs1] ax1] res1] eqn:Hcall
      end.
      inversion Hp; subst. eapply IH, Hcall.
Qed.

(** [Room.plot] raises nothing but the [KeyError] of an unknown object
    category and the [AttributeError] of an object stacked on a receptacle. *)
Lemma Room_plot_errors (self : Room) (position : Point) (ax : Canvas)
    (target_width : option Q) (e : PyError) :
  snd (Room_plot env self position ax target_width) = Raise e ->
  e = KeyError \/ e = AttributeError.
Proof.
  unfold Room_plot.
  match goal with
  | |- context [plot_receptacles ?a ?b ?c ?d ?e ?f] =>
      destruct (plot_receptacles a b c d e f) as [recs1 ax1]
  end.
  destruct (has_objects self).
  - destruct (unmapped_objects self) as [total_object_width num_objects].
    match goal with
    | |- context [plot_objects ?a ?b ?c ?d ?e ?f ?g ?h] =>
        destruct (plot_objects a b c d e f g h)
          as [[[objs' recs2] ax3] res] eqn:Hcall
    end.
    destruct res as [[]|e']; [unfold Room_plot_finish; discriminate|].
    cbn [snd]. intros He. inversion He; subst. eapply plot_objects_errors, Hcall.
  - unfold Room_plot_finish. discriminate.
Qed.

Lemma post_plot_room (i : nat) (position : Point) (target_width : option Q) :
  post (plot_room env i position target_width) (fun _ => True).
Proof.
  intros s. unfold plot_room. destruct (rooms (fst s) !! i) as [r|]; [|discriminate].
  pose proof (Room_plot_errors r position (snd s) target_width) as He.
  destruct (Room_plot env r position (snd s) target_width) as [[r' ax'] [[]|e]];
    cbn [snd] in *; [exact I|].
  destruct (He e eq_refl) as [-> | ->]; discriminate.
Qed.

Lemma post_rooms_of (row : list nat) : post (rooms_of row) (fun _ => True).
Proof.
  unfold rooms_of. apply post_fold_m. intros acc i.
  eapply post_bind; [apply post_room_at|]. intros r _. apply post_ret. exact I.
Qed.

Lemma post_rooms_have_objects (row : list nat) :
  post (rooms_have_objects row) (fun _ => True).
Proof.
  unfold rooms_have_objects. eapply post_bind; [apply post_rooms_of|].
  intros rs _. apply post_ret. exact I.
Qed.

Lemma post_select_rooms (keep : string -> bool) :
  post (select_rooms keep) (fun _ => True).
Proof.
  unfold select_rooms. eapply post_bind; [apply post_get_scene|]. intros sc _.
  apply post_fold_m. intros acc i.
  eapply post_bind; [apply post_room_at|]. intros r _. apply post_ret. exact I.
Qed.

Lemma post_plot_row (set_full_height : option bool) (row : list nat) (y : Q) :
  post (plot_row env set_full_height row y) (fun _ => True).
Proof.
  unfold plot_row. apply post_fold_m. intros w i.
  eapply post_bind.
  - destruct set_full_height; [apply post_update_room | apply post_ret; exact I].
  - intros _ _. eapply post_bind; [apply post_plot_room|]. intros _ _.
    eapply post_bind; [apply post_room_at|]. intros r _. apply post_ret. exact I.
Qed.

Lemma redistribute_errors (rs : list Room) (tw : Q) (e : PyError) :
  redistribute_target_width_to_rooms rs tw = Raise e -> e <> FuelExhausted.
Proof.
  unfold redistribute_target_width_to_rooms.
  destruct (Qeq_bool (Qsum (map width rs)) 0); intros He; inversion He; discriminate.
Qed.

(** A flush that returns had a room in its row: on an empty row [max]
    raises [ValueError]. *)
Lemma post_flush_row (target_width : Q) (row : list nat) (row_height : Q) :
  post (flush_row env target_width row row_height) (fun _ => row <> []).
Proof.
  destruct row as [|i row].
  - intros s. cbn. discriminate.
  - apply (post_weaken _ (fun _ => True)); [|intros; discriminate].
    unfold flush_row.
    eapply post_bind; [apply post_rooms_have_objects|]. intros b _.
    eapply post_bind; [apply post_for_each; intros; apply post_update_room|].
    intros _ _. eapply post_bind; [apply post_rooms_of|]. intros rs _.
    eapply post_bind; [apply post_py_max|]. intros h _.
    eapply post_bind; [apply post_lift_outcome, redistribute_errors|].
    intros tws _. eapply post_bind.
    { apply post_fold_m. intros w [j tw].
      eapply post_bind; [apply post_plot_room|]. intros _ _.
      eapply post_bind; [apply post_room_at|]. intros r _. apply post_ret. exact I. }
    intros w _. eapply post_bind; [apply post_get_scene|]. intros sc _.
    eapply post_bind; [apply post_modify_scene|]. intros _ _.
    apply post_ret. exact I.
Qed.

Lemma post_target_body (target_width : Q) (all_rooms : list nat) (st : RowLoop) :
  post (target_body env target_width all_rooms st)
       (fun st' => (row_measure (length all_rooms) st'
                    < row_measure (length all_rooms) st)%nat).
Proof.
  unfold target_body.
  destruct (all_rooms !! rl_i st) as [i|] eqn:Hi; [|apply post_raise; discriminate].
  apply lookup_lt_Some in Hi.
  eapply post_bind; [apply post_room_at|]. intros room _.
  eapply post_bind; [apply post_get_scene|]. intros sc _.
  destruct (Qle_bool (width room + rl_width st) (scene_width sc)).
  - apply post_ret. unfold row_measure. cbn [rl_i rl_rooms].
    destruct (rl_rooms st ++ [i]) eqn:E; [destruct (rl_rooms st); discriminate|].
    destruct (rl_rooms st); lia.
  - eapply post_bind; [apply post_flush_row|]. intros h Hrow.
    apply post_ret. unfold row_measure. cbn [rl_i rl_rooms].
    destruct (rl_rooms st); [contradiction|lia].
Qed.

Lemma post_linear_body (n : nat) (mentioned_rooms : list string) (st : RowLoop) :
  (rl_i st < n)%nat ->
  post (linear_body env mentioned_rooms st)
       (fun st' => (row_measure n st' < row_measure n st)%nat).
Proof.
  intros Hi. unfold linear_body.
  eapply post_bind; [apply post_room_at|]. intros room _.
  eapply post_bind; [apply post_get_scene|]. intros sc _.
  destruct (negb (str_in (room_id room) mentioned_rooms)).
  - destruct (Qle_bool (width room + rl_width st) (scene_width sc)).
    + apply post_ret. unfold row_measure. cbn [rl_i rl_rooms].
      destruct (rl_rooms st ++ [rl_i st]) eqn:E; [destruct (rl_rooms st); discriminate|].
      destruct (rl_rooms st); lia.
    + destruct (rl_rooms st) as [|j row] eqn:Hrow.
      * intros s. cbn. discriminate.
      * eapply post_bind; [apply post_rooms_of|]. intros rs _.
        eapply post_bind; [apply post_py_max|]. intros h _.
        eapply post_bind; [apply post_rooms_have_objects|]. intros b _.
        eapply post_bind; [apply post_plot_row|]. intros _ _.
        apply post_ret. unfold row_measure. cbn [rl_i rl_rooms]. rewrite Hrow. lia.
  - apply post_ret. unfold row_measure. cbn [rl_i rl_rooms].
    destruct (rl_rooms st); lia.
Qed.

(** [plot_rooms_linear] never stops on the bound of its loop: its outcome
    is a value or a Python exception. *)
Lemma post_plot_rooms_linear (mentioned_rooms : list string)
    (target_width : option Q) (height_offset : Q)
    (all_mentioned_rooms : option (list string)) :
  post (plot_rooms_linear env mentioned_rooms target_width height_offset
          all_mentioned_rooms) (fun _ => True).
Proof.
  unfold plot_rooms_linear. destruct target_width as [tw|].
  - unfold plot_rooms_linear_target.
    eapply post_bind; [apply post_modify_scene|]. intros _ _.
    eapply post_bind; [apply post_select_rooms|]. intros front _.
    eapply post_bind; [apply post_select_rooms|]. intros back _.
    eapply post_bind; [apply post_modify_scene|]. intros _ _.
    eapply post_bind.
    { apply (post_while (row_measure (length (front ++ back)))).
      - intros l s0 _. apply post_target_body.
      - unfold row_measure. cbn [rl_i rl_rooms]. lia. }
    intros st _. eapply post_bind;
      [eapply post_weaken; [apply post_flush_row | intros; exact I]|].
    intros h _. apply post_ret. exact I.
  - unfold plot_rooms_linear_free.
    eapply post_bind; [apply post_get_scene|]. intros sc0 _.
    eapply post_bind.
    { apply post_fold_m. intros acc i.
      eapply post_bind; [apply post_room_at|]. intros room _.
      destruct (str_in (room_id room) mentioned_rooms); [|apply post_ret; exact I].
      eapply post_bind; [apply post_plot_room|]. intros _ _.
      eapply post_bind; [apply post_room_at|]. intros room' _.
      apply post_ret. exact I. }
    intros first_row_position _.
    eapply post_bind; [apply post_modify_scene|]. intros _ _.
    eapply post_bind; [apply post_select_rooms|]. intros mentioned _.
    eapply post_bind; [apply post_rooms_of|]. intros ms _.
    eapply post_bind; [apply post_py_max|]. intros first_row_height _.
    eapply post_bind.
    { apply (post_while (row_measure (length (rooms sc0)))).
      - intros l s0 Hc. apply post_linear_body. apply Nat.ltb_lt. exact Hc.
      - unfold row_measure. cbn [rl_i rl_rooms]. lia. }
    intros st _. eapply post_bind; [apply post_rooms_of|]. intros rs _.
    eapply post_bind; [apply post_py_max|]. intros h _.
    eapply post_bind; [apply post_plot_row|]. intros _ _.
    apply post_ret. exact I.
Qed.

Lemma arg_errors {A} (o : option A) (e : PyError) :
  arg o = Raise e -> e <> FuelExhausted.
Proof. destruct o; intros He; inversion He; discriminate. Qed.

Lemma classify_propositions_toposort_errors (props : list Proposition) :
  forall (m : Mentions) (e : PyError),
    classify_propositions_toposort m props = Raise e -> e <> FuelExhausted.
Proof.
  induction props as [|p props IH]; intros m e E; simpl in E; [discriminate|].
  destruct (classify_proposition_toposort m p) as [m'|e'] eqn:Ep; simpl in E.
  - eapply IH, E.
  - inversion E; subst. revert Ep.
    unfold classify_proposition_toposort, arg, outcome_bind.
    repeat match goal with
           | |- context [if ?b then _ else _] => destruct b
           | |- context [match ?o with Some _ => _ | None => _ end] => destruct o
           end;
      intros E'; inversion E'; discriminate.
Qed.

Lemma py_index_all_errors {A} (l : list A) (idxs : list Z) (e : PyError) :
  py_index_all l idxs = Raise e -> e <> FuelExhausted.
Proof.
  revert e. induction idxs as [|idx rest IH]; intros e E; simpl in E; [discriminate|].
  destruct (py_index l idx) as [a|e'] eqn:Ei; simpl in E.
  - destruct (py_index_all l rest) as [r|e''] eqn:Er; simpl in E; [discriminate|].
    inversion E; subst. apply IH. reflexivity.
  - inversion E; subst. revert Ei. unfold py_index.
    destruct (_ <? 0)%Z; [intros E'; inversion E'; discriminate|].
    destruct (l !! _); intros E'; inversion E'; discriminate.
Qed.

Lemma find_toposort_errors (constraints : list Constraint) :
  forall (cur : list (list Z)) (e : PyError),
    find_toposort cur constraints = Raise e -> e <> FuelExhausted.
Proof.
  induction constraints as [|c rest IH]; intros cur e E; simpl in E; [discriminate|].
  destruct (String.eqb (constraint_type c) "TemporalConstraint"); [|eapply IH, E].
  destruct (toposort c) as [t|]; simpl in E; [eapply IH, E|].
  inversion E; discriminate.
Qed.

Lemma post_add_arrow_call (a b : option Point) (dashed : bool) (color : string) :
  post (add_arrow_call a b dashed color) (fun _ => True).
Proof.
  unfold add_arrow_call.
  destruct a, b; try (apply post_raise; discriminate). apply post_draw.
Qed.

Lemma post_plot_proposition_lines (color_index : nat) (proposition : Proposition) :
  post (plot_proposition_lines color_index proposition) (fun _ => True).
Proof.
  unfold plot_proposition_lines.
  destruct (object_names (args proposition)) as [objs|]; [|apply post_ret; exact I].
  eapply post_bind; [apply post_lift_outcome, arg_errors|]. intros number _.
  destruct (String.eqb (function_name proposition) "is_inside"
            || String.eqb (function_name proposition) "is_on_top").
  - eapply post_bind; [apply post_lift_outcome, arg_errors|]. intros recs _.
    eapply post_bind; [|intros _ _; apply post_ret; exact I].
    unfold plot_object_to_receptacle_lines.
    eapply post_bind; [apply post_get_scene|]. intros sc _.
    apply post_for_each. intros object_name.
    apply post_for_each. intros room.
    destruct (find_object_by_id room object_name) as [[j o]|];
      [|apply post_ret; exact I].
    apply post_for_each. intros receptacle_name.
    apply post_for_each. intros [k r].
    destruct (String.eqb (function_name proposition) "is_inside");
      [apply post_add_arrow_call|].
    destruct (String.eqb (function_name proposition) "is_on_top");
      [apply post_add_arrow_call | apply post_ret; exact I].
  - destruct (String.eqb (function_name proposition) "is_in_room");
      [|apply post_ret; exact I].
    eapply post_bind; [apply post_lift_outcome, arg_errors|]. intros rms _.
    eapply post_bind; [|intros _ _; apply post_ret; exact I].
    unfold plot_object_to_room_lines.
    eapply post_bind; [apply post_get_scene|]. intros sc _.
    apply post_for_each. intros [j o].
    apply post_for_each. intros room.
    destruct (room_center_position room);
      [apply post_add_arrow_call | apply post_raise; discriminate].
Qed.

Lemma post_resolve_room (m : Mentions) (i : nat) (mentioned : list string) :
  post (resolve_room m i mentioned) (fun _ => True).
Proof.
  unfold resolve_room.
  eapply post_bind.
  { apply post_fold_m. intros acc obj.
    eapply post_bind; [apply post_room_at|]. intros room _.
    destruct (find_object_by_id room obj) as [[j o]|]; [|apply post_ret; exact I].
    eapply post_bind; [apply post_update_room|]. intros _ _. apply post_ret. exact I. }
  intros mentioned1 _. eapply post_bind.
  { apply post_fold_m. intros acc obj.
    eapply post_bind; [apply post_room_at|]. intros room _.
    destruct (find_object_by_id room obj); apply post_ret; exact I. }
  intros mentioned2 _. apply post_fold_m. intros acc [prop_function recep].
  eapply post_bind; [apply post_room_at|]. intros room _.
  destruct (find_receptacle_by_id (receptacles room) recep) as [[j r0]|];
    [|apply post_ret; exact I].
  destruct (String.eqb prop_function "is_on_top");
    [|destruct (String.eqb prop_function "is_inside");
      [|apply post_raise; discriminate]];
    (eapply post_bind; [apply post_update_room | intros _ _; apply post_ret; exact I]).
Qed.

Lemma post_plot_for_propositions (propositions : list Proposition)
    (show_instruction : bool) (height_offset : Q) (initial_ax : option Canvas)
    (all_mentioned_rooms : option (list string)) :
  post (plot_for_propositions env propositions show_instruction height_offset
          initial_ax all_mentioned_rooms) (fun _ => True).
Proof.
  unfold plot_for_propositions.
  eapply post_bind.
  { apply post_lift_outcome. intros e He.
    destruct (classify_propositions_errors _ _ _ He) as [-> | ->]; discriminate. }
  intros m _. eapply post_bind; [apply post_modify_scene|]. intros _ _.
  eapply post_bind.
  { unfold reset_children_flags.
    eapply post_bind; [apply post_get_scene|]. intros sc _.
    apply post_for_each. intros i.
    eapply post_bind; [apply post_update_room|]. intros _ _.
    eapply post_bind; [apply post_room_at|]. intros room _.
    destruct (objects room); [apply post_update_room | apply post_raise; discriminate]. }
  intros _ _. eapply post_bind; [apply post_get_scene|]. intros sc _.
  eapply post_bind; [apply post_fold_m; intros; apply post_resolve_room|].
  intros mentioned _. eapply post_bind; [apply post_modify_scene|]. intros _ _.
  eapply post_bind; [apply post_set_axes|]. intros _ _.
  eapply post_bind; [apply post_plot_rooms_linear|]. intros [hl hu] _.
  eapply post_bind; [apply post_fold_m; intros; apply post_plot_proposition_lines|].
  intros _ _. eapply post_bind; [apply post_get_scene|]. intros sc' _.
  eapply post_bind.
  { destruct (negb (PyStr.is_empty (instruction sc')) && show_instruction);
      [apply post_draw | apply post_ret; exact I]. }
  intros _ _. eapply post_bind.
  { destruct (is_next_tos m).
    - apply post_draw.
    - eapply post_bind; [apply post_draw|]. intros _ _. apply post_draw. }
  intros _ _. eapply post_bind; [apply post_draw|]. intros _ _.
  apply post_ret. exact I.
Qed.

(** [Scene.plot] ends with a value or with a Python exception: the bound of
    the row-packing loop, twice the number of rooms plus one, is enough. *)
Lemma Scene_plot_within_bound (propositions : option (list Proposition))
    (constraints : option (list Constraint)) (force_hide_instructions : bool) :
  post (Scene_plot env propositions constraints force_hide_instructions)
       (fun _ => True).
Proof.
  unfold Scene_plot.
  destruct constraints as [constraints|]; [|apply post_raise; discriminate].
  destruct propositions as [propositions|]; [|apply post_raise; discriminate].
  eapply post_bind; [apply post_lift_outcome, find_toposort_errors|].
  intros toposort _. destruct toposort as [|level levels].
  - eapply post_bind; [apply post_plot_for_propositions|]. intros [[hl hu] w] _.
    eapply post_bind; [apply post_modify_scene|]. intros _ _. apply post_ret. exact I.
  - eapply post_bind;
      [apply post_lift_outcome, classify_propositions_toposort_errors|].
    intros m _. eapply post_bind; [apply post_get_scene|]. intros sc _.
    eapply post_bind; [apply post_set_axes|]. intros _ _.
    eapply post_bind.
    { apply post_fold_m. intros [[[idx n] mu] ml] current_level.
      unfold plot_level.
      eapply post_bind; [apply post_lift_outcome, py_index_all_errors|].
      intros props _. eapply post_bind; [apply post_get_axes|]. intros ax _.
      eapply post_bind; [apply post_plot_for_propositions|]. intros [[hl hu] w] _.
      eapply post_bind; [apply post_draw|]. intros _ _. apply post_ret. exact I. }
    intros [[[idx n] mu] ml] _.
    eapply post_bind; [apply post_modify_scene|]. intros _ _. apply post_ret. exact I.
Qed.

End LoopBound.


(** * Further properties *)

(** ** Searching a room *)

Lemma find_object_from_spec (l : list Object) (oid : string) :
  forall (k : nat),
    match find_object_from k l oid with
    | Some (i, o) =>
        exists j, i = (k + j)%nat /\ l !! j = Some o /\ object_id o = oid
                  /\ forall j' o', (j' < j)%nat -> l !! j' = Some o' -> object_id o' <> oid
    | None => forall o, In o l -> object_id o <> oid
    end.
Proof.
  induction l as [|x l IH]; intros k; simpl.
  - intros o [].
  - destruct (String.eqb (object_id x) oid) eqn:E.
    + apply String.eqb_eq in E. exists O.
      split; [lia|]. split; [reflexivity|]. split; [exact E|].
      intros j' o' Hj. lia.
    + apply String.eqb_neq in E. specialize (IH (S k)).
      destruct (find_object_from (S k) l oid) as [[i o]|].
      * destruct IH as (j & -> & Hj & Hid & Hbefore).
        exists (S j). split; [lia|]. split; [exact Hj|]. split; [exact Hid|].
        intros [|j'] o' Hlt Ho'; simpl in Ho'.
        -- inversion Ho'; subst. exact E.
        -- apply (Hbefore j' o'); [lia | exact Ho'].
      * intros o [->|Ho]; [exact E | apply IH, Ho].
Qed.

Lemma find_receptacle_from_spec (l : list Receptacle) (rid : string) :
  forall (k : nat),
    match find_receptacle_from k l rid with
    | Some (i, r) =>
        exists j, i = (k + j)%nat /\ l !! j = Some r /\ receptacle_id r = rid
                  /\ forall j' r', (j' < j)%nat -> l !! j' = Some r' ->
                                   receptacle_id r' <> rid
    | None => forall r, In r l -> receptacle_id r <> rid
    end.
Proof.
  induction l as [|x l IH]; intros k; simpl.
  - intros o [].
  - destruct (String.eqb (receptacle_id x) rid) eqn:E.
    + apply String.eqb_eq in E. exists O.
      split; [lia|]. split; [reflexivity|]. split; [exact E|].
      intros j' o' Hj. lia.
    + apply String.eqb_neq in E. specialize (IH (S k)).
      destruct (find_receptacle_from (S k) l rid) as [[i o]|].
      * destruct IH as (j & -> & Hj & Hid & Hbefore).
        exists (S j). split; [lia|]. split; [exact Hj|]. split; [exact Hid|].
        intros [|j'] o' Hlt Ho'; simpl in Ho'.
        -- inversion Ho'; subst. exact E.
        -- apply (Hbefore j' o'); [lia | exact Ho'].
      * intros o [->|Ho]; [exact E | apply IH, Ho].
Qed.

(** X1: [find_object_by_id] and [find_receptacle_by_id] return the first
    child with the given id, and [None] exactly when no child has it; a
    room whose [objects] is [None] or empty has no object of any id. *)
Theorem X1_find_by_id_first_match :
  (forall (recs : list Receptacle) (rid : string),
      match find_receptacle_by_id recs rid with
      | Some (i, r) =>
          recs !! i = Some r /\ receptacle_id r = rid
          /\ forall j r', (j < i)%nat -> recs !! j = Some r' -> receptacle_id r' <> rid
      | None => forall r, In r recs -> receptacle_id r <> rid
      end)
  /\ (forall (room : Room) (oid : string),
        match find_object_by_id room oid with
        | Some (i, o) =>
            objects_list room !! i = Some o /\ object_id o = oid
            /\ forall j o', (j < i)%nat -> objects_list room !! j = Some o' ->
                            object_id o' <> oid
        | None => forall o, In o (objects_list room) -> object_id o <> oid
        end).
Proof.
  split.
  - intros recs rid. unfold find_receptacle_by_id.
    pose proof (find_receptacle_from_spec recs rid O) as H.
    destruct (find_receptacle_from 0 recs rid) as [[i r]|]; [|exact H].
    destruct H as (j & -> & Hj & Hid & Hb). auto.
  - intros room oid. unfold find_object_by_id.
    destruct (has_objects room) eqn:Hobj.
    + pose proof (find_object_from_spec (objects_list room) oid O) as H.
      destruct (find_object_from 0 (objects_list room) oid) as [[i r]|]; [|exact H].
      destruct H as (j & -> & Hj & Hid & Hb). auto.
    + unfold has_objects, objects_list in *.
      destruct (objects room) as [[|o l]|]; try discriminate; intros o' [].
Qed.

(** ** Room order of a new scene *)

Lemma descending_map {A B} (f : A -> B) (key : B -> nat) (l : list A) :
  descending (fun a => key (f a)) l -> descending key (map f l).
Proof.
  induction 1 as [|x l Hx Hl IH]; simpl; constructor; [|exact IH].
  intros y Hy. apply in_map_iff in Hy. destruct Hy as (a & <- & Ha). apply Hx, Ha.
Qed.

Lemma map_lookup_seq {A} (d : A) (l : list A) :
  map (fun i => default d (l !! i)) (seq 0 (length l)) = l.
Proof.
  induction l as [|x l IH]; [reflexivity|].
  cbn [length seq map]. f_equal. rewrite <- seq_shift, map_map. exact IH.
Qed.

Lemma sort_rooms_permutation {H : Type} `{EqDecision H} (room_of : H -> Room)
    (rooms : list H) (instruction : string) :
  NoDup rooms -> Permutation (sort_rooms room_of rooms instruction) rooms.
Proof.
  intros Hnd. destruct instruction as [|c i] eqn:Hi; [reflexivity|].
  rewrite sort_rooms_spec by discriminate.
  rewrite sorted_reverse_Permutation, first_occurrences_NoDup by exact Hnd.
  reflexivity.
Qed.

Lemma sort_rooms_descending {H : Type} `{EqDecision H} (room_of : H -> Room)
    (rooms : list H) (instruction : string) :
  instruction <> ""%string ->
  descending (fun h => room_score (keywords_of instruction) (room_of h))
    (sort_rooms room_of rooms instruction).
Proof.
  intros Hne. rewrite sort_rooms_spec by exact Hne. apply sorted_reverse_descending.
Qed.

(** X2: a new scene stores every room passed to [Scene.__init__] exactly
    once: the stored list is a rearrangement of the caller's list, it is the
    caller's list itself when the instruction is empty, and otherwise it is
    in descending order of relevance score. *)
Theorem X2_scene_init_rooms (config : SceneConfig) (rooms0 : list Room)
    (instruction : string) :
  Permutation (rooms (Scene_init config rooms0 instruction)) rooms0
  /\ rooms (Scene_init config rooms0 "") = rooms0
  /\ (instruction <> ""%string ->
      descending (room_score (keywords_of instruction))
        (rooms (Scene_init config rooms0 instruction))).
Proof.
  unfold Scene_init. cbn [rooms].
  destruct rooms0 as [|r0 rest]; [repeat split; constructor|].
  set (l := r0 :: rest).
  set (room_of := fun i : nat => default r0 (l !! i)).
  split; [|split].
  - rewrite (sort_rooms_permutation room_of (seq 0 (length l)) instruction)
      by apply NoDup_seq.
    subst room_of. rewrite (map_lookup_seq r0 l). reflexivity.
  - subst room_of. cbn [sort_rooms PyStr.is_empty]. apply (map_lookup_seq r0 l).
  - intros Hne. apply descending_map.
    apply (sort_rooms_descending room_of). exact Hne.
Qed.

Lemma sorted_reverse_fixed {A} (key : A -> nat) (l : list A) :
  descending key l -> sorted_reverse key l = l.
Proof.
  induction 1 as [|x l Hx Hl IH]; [reflexivity|].
  cbn [sorted_reverse fold_right]. fold (sorted_reverse key l). rewrite IH.
  destruct l as [|z l]; [reflexivity|]. cbn [insert_desc].
  assert (E : (key x <? key z)%nat = false).
  { apply Nat.ltb_ge. apply Hx. left. reflexivity. }
  rewrite E. reflexivity.
Qed.

Lemma first_occurrences_fold_NoDup {H : Type} `{EqDecision H} (l : list H) :
  forall acc : list H,
    NoDup acc ->
    NoDup (fold_left (fun acc h => if bool_decide (h ∈ acc) then acc else acc ++ [h])
             l acc).
Proof.
  induction l as [|x l IH]; intros acc Hacc; simpl; [exact Hacc|].
  apply IH. destruct (decide (x ∈ acc)) as [Hin|Hnin].
  - rewrite bool_decide_eq_true_2 by exact Hin. exact Hacc.
  - rewrite bool_decide_eq_false_2 by exact Hnin.
    apply NoDup_app. split; [exact Hacc|]. split.
    + intros y Hy Hy'. apply list_elem_of_singleton in Hy'. subst. contradiction.
    + apply NoDup_singleton.
Qed.

Lemma first_occurrences_is_NoDup {H : Type} `{EqDecision H} (l : list H) :
  NoDup (first_occurrences l).
Proof. apply first_occurrences_fold_NoDup. constructor. Qed.

(** X3: sorting is idempotent: [sort_rooms] applied to its own result, with
    the same instruction, changes nothing, whatever the input list (also one
    that names a room object twice). *)
Theorem X3_sort_rooms_idempotent {H : Type} `{EqDecision H} (room_of : H -> Room)
    (rooms0 : list H) (instruction : string) :
  sort_rooms room_of (sort_rooms room_of rooms0 instruction) instruction
  = sort_rooms room_of rooms0 instruction.
Proof.
  destruct instruction as [|c i] eqn:Hi; [reflexivity|]. rewrite <- Hi.
  assert (Hne : instruction <> ""%string) by (rewrite Hi; discriminate).
  clear Hi. rewrite !(sort_rooms_spec room_of) by exact Hne.
  set (key := fun h => room_score (keywords_of instruction) (room_of h)).
  rewrite (first_occurrences_NoDup (sorted_reverse key (first_occurrences rooms0))).
  - apply sorted_reverse_fixed, sorted_reverse_descending.
  - rewrite sorted_reverse_Permutation. apply first_occurrences_is_NoDup.
Qed.

(** ** Identifiers without an index token *)

Lemma prefix_empty (w : string) : String.prefix "" w = true.
Proof. destruct w; reflexivity. Qed.

Lemma contains_empty (w : string) : PyStr.contains "" w = true.
Proof. destruct w; reflexivity. Qed.

Lemma contains_underscore_cons (c : ascii) (s : string) :
  PyStr.contains "_" (String c s) = false ->
  Ascii.eqb c "_"%char = false /\ PyStr.contains "_" s = false.
Proof.
  change (PyStr.contains "_" (String c s))
    with (String.prefix "_" (String c s) || PyStr.contains "_" s).
  intros Hc. apply orb_false_iff in Hc. destruct Hc as [Hp Hs]. split; [|exact Hs].
  destruct (Ascii.eqb c "_"%char) eqn:E; [|reflexivity].
  apply Ascii.eqb_eq in E. subst c. cbn in Hp. rewrite prefix_empty in Hp.
  discriminate.
Qed.

Lemma string_app_cons (c : ascii) (s t : string) :
  (String c s ++ t)%string = String c (s ++ t)%string.
Proof. reflexivity. Qed.

Lemma string_app_empty (s : string) : (s ++ "")%string = s.
Proof.
  induction s as [|c s IH]; [reflexivity|]. rewrite string_app_cons, IH. reflexivity.
Qed.

Lemma string_app_snoc (cur : string) (c : ascii) (s : string) :
  (PyStr.snoc cur c ++ s)%string = (cur ++ String c s)%string.
Proof.
  unfold PyStr.snoc. induction cur as [|d cur IH]; [reflexivity|].
  rewrite !string_app_cons, IH. reflexivity.
Qed.

Lemma split_on_no_separator (s : string) :
  forall cur : string,
    PyStr.contains "_" s = false ->
    PyStr.split_on_from "_"%char cur s = [(cur ++ s)%string].
Proof.
  induction s as [|c s IH]; intros cur Hs.
  - cbn [PyStr.split_on_from]. rewrite string_app_empty. reflexivity.
  - apply contains_underscore_cons in Hs. destruct Hs as [Hc Hs].
    cbn [PyStr.split_on_from]. rewrite Hc, (IH _ Hs), string_app_snoc.
    reflexivity.
Qed.

Lemma phrase_no_separator (ident : string) :
  PyStr.contains "_" ident = false -> PyStr.phrase ident = ""%string.
Proof.
  intros Hs. unfold PyStr.phrase, PyStr.split_on.
  rewrite (split_on_no_separator ident "" Hs). reflexivity.
Qed.

(** X4: an identifier without an underscore has no index token to drop, so
    the phrase compared with the instruction is the empty string, and the
    empty string is inside every word: such an identifier scores one point
    for each word of the instruction, and a room of that kind scores at
    least the number of words. *)
Theorem X4_id_without_underscore_matches_every_word (ident : string)
    (keywords : list string) :
  PyStr.contains "_" ident = false ->
  count_matches ident keywords = length keywords
  /\ forall room : Room,
       room_id room = ident ->
       (length keywords <= room_score keywords room)%nat.
Proof.
  intros Hs.
  assert (Hc : count_matches ident keywords = length keywords).
  { unfold count_matches. rewrite (phrase_no_separator ident Hs).
    assert (G : forall a : nat,
               fold_left (fun acc keyword =>
                            (acc + (if PyStr.contains "" keyword then 1 else 0))%nat)
                         keywords a = (a + length keywords)%nat).
    { induction keywords as [|k ks IH]; intros a; simpl; [lia|].
      rewrite IH, contains_empty. lia. }
    rewrite G. reflexivity. }
  split; [exact Hc|]. intros room Hid.
  rewrite room_score_spec. unfold spec_score, room_phrases.
  change (length (List.filter (fun pw => PyStr.contains (fst pw) (snd pw))
                    (list_prod ?l keywords))) with (matches l keywords).
  change (PyStr.phrase (room_id room) :: ?l)
    with ([PyStr.phrase (room_id room)] ++ l).
  rewrite matches_app.
  assert (E : matches [PyStr.phrase (room_id room)] keywords = length keywords).
  { rewrite <- Hc, <- Hid. unfold count_matches. rewrite count_matches_from.
    reflexivity. }
  rewrite E. lia.
Qed.

Lemma X4_id_without_underscore_matches_every_word_witness :
  count_matches "kitchen" ["put"; "the"; "apple"]%string = 3%nat.
Proof.
  apply (X4_id_without_underscore_matches_every_word "kitchen"
           ["put"; "the"; "apple"]%string).
  reflexivity.
Defined.

(** ** Cleanup *)

Lemma Room_cleanup_children (r : Room) :
  receptacles (Room_cleanup r) = []
  /\ has_objects (Room_cleanup r) = false
  /\ objects_list (Room_cleanup r) = []
  /\ (objects (Room_cleanup r) = None <-> objects r = None).
Proof.
  unfold Room_cleanup, has_objects, objects_list.
  cbn [receptacles objects Room_set_children].
  destruct (receptacles r) as [|x l], (objects r) as [[|o os]|];
    repeat split; try reflexivity; try discriminate; intros; assumption.
Qed.

Lemma Room_cleanup_idempotent (r : Room) : Room_cleanup (Room_cleanup r) = Room_cleanup r.
Proof.
  unfold Room_cleanup. cbn [receptacles objects Room_set_children].
  destruct (receptacles r) as [|x l], (objects r) as [[|o os]|]; reflexivity.
Qed.

(** X5: [cleanup] empties every room and nothing else: the scene keeps its
    rooms, in order and with their ids; a cleaned room has no receptacle
    and no object, so both lookups fail for every id, its relevance score
    is that of its own id, and plotting it cannot raise; an [objects] that
    was [None] stays [None]; a second cleanup changes nothing. *)
Theorem X5_cleanup_empties_rooms (sc : Scene) :
  map room_id (rooms (Scene_cleanup sc)) = map room_id (rooms sc)
  /\ Scene_cleanup (Scene_cleanup sc) = Scene_cleanup sc
  /\ Forall (fun r =>
               receptacles r = []
               /\ has_objects r = false
               /\ (forall id, find_object_by_id r id = None
                              /\ find_receptacle_by_id (receptacles r) id = None)
               /\ (forall keywords,
                      room_score keywords r = count_matches (room_id r) keywords)
               /\ (forall env position ax target_width,
                      snd (Room_plot env r position ax target_width) = Ok tt))
       (rooms (Scene_cleanup sc))
  /\ Forall2 (fun r r' => objects r' = None <-> objects r = None)
       (rooms sc) (rooms (Scene_cleanup sc)).
Proof.
  unfold Scene_cleanup. cbn [rooms Scene_set_rooms].
  split; [rewrite map_map; reflexivity|].
  split.
  { unfold Scene_set_rooms. cbn [rooms scene_config instruction scene_width scene_height].
    f_equal. rewrite map_map. apply map_ext. intros r. apply Room_cleanup_idempotent. }
  split.
  - apply Forall_map. apply Forall_forall. intros r _. cbn beta.
    destruct (Room_cleanup_children r) as (Hrecs & Hobjs & Hlist & _).
    split; [exact Hrecs|]. split; [exact Hobjs|]. split; [|split].
    + intros id. unfold find_object_by_id. rewrite Hobjs, Hrecs. split; reflexivity.
    + intros keywords. unfold room_score. rewrite Hrecs, Hobjs. reflexivity.
    + intros env position ax target_width.
      destruct (Room_plot_shape env (Room_cleanup r) position ax target_width)
        as (objs' & recs2 & rh & h & center & extra & res & Hplot & _ & _ & _ & Hres).
      rewrite Hplot. cbn [snd]. apply Hres, Hobjs.
  - induction (rooms sc) as [|r l IH]; [constructor|].
    cbn [map]. constructor; [|exact IH].
    apply (Room_cleanup_children r).
Qed.

(** ** When [Room.plot] returns *)

Lemma object_patch_ok_iff (env : Collaborators) (o : Object) (p : Point) :
  (exists d, object_patch env o p = Ok d) <-> has_shape env o = true.
Proof.
  unfold object_patch, has_shape.
  destruct (icon_path o) as [ip|]; [destruct (path_exists env ip)|];
    cbn [orb];
    try (split; [reflexivity | intros _; eexists; reflexivity]);
    destruct (object_category_map env _) as [cat|];
    try destruct (category_color_map env cat) as [col|];
    split; try discriminate; try reflexivity;
    try (intros _; eexists; reflexivity); intros [d Hd]; discriminate.
Qed.

Lemma find_receptacle_from_none_iff (l : list Receptacle) (rid : string) (k : nat) :
  find_receptacle_from k l rid = None
  <-> existsb (fun r => String.eqb (receptacle_id r) rid) l = false.
Proof.
  revert k. induction l as [|x l IH]; intros k; simpl; [split; reflexivity|].
  destruct (String.eqb (receptacle_id x) rid); cbn [orb]; [split; discriminate|].
  apply IH.
Qed.

Lemma existsb_receptacle_ids (rid : string) (l l' : list Receptacle) :
  map receptacle_id l = map receptacle_id l' ->
  existsb (fun r => String.eqb (receptacle_id r) rid) l
  = existsb (fun r => String.eqb (receptacle_id r) rid) l'.
Proof.
  revert l'. induction l as [|x l IH]; intros [|x' l'] E; try discriminate;
    [reflexivity|].
  cbn [map] in E. injection E as Ex El. cbn [existsb]. rewrite Ex, (IH l' El).
  reflexivity.
Qed.

Lemma stackable_ids (m : option (gmap string string)) (l l' : list Receptacle)
    (o : Object) :
  map receptacle_id l = map receptacle_id l' -> stackable m l o = stackable m l' o.
Proof.
  intros E. unfold stackable. destruct (mapped_receptacle m o) as [rid|]; [|reflexivity].
  rewrite (existsb_receptacle_ids rid l l' E). reflexivity.
Qed.

Lemma receptacle_ids_insert_cursor (recs : list Receptacle) (i : nat)
    (cur : Receptacle) (c : Point) :
  recs !! i = Some cur ->
  map receptacle_id (<[i := Receptacle_set_new_top_item_position c cur]> recs)
  = map receptacle_id recs.
Proof.
  intros Hi. change (map receptacle_id) with (fmap (M := list) receptacle_id).
  rewrite list_fmap_insert. apply list_insert_id.
  rewrite list_lookup_fmap, Hi. reflexivity.
Qed.

Lemma plot_receptacles_ids (env : Collaborators) (y spacing : Q)
    (recs : list Receptacle) :
  (forall r p, receptacle_id (receptacle_plot env r p) = receptacle_id r) ->
  forall (offset : Q) (ax : Canvas),
    map receptacle_id (fst (plot_receptacles env y spacing recs offset ax))
    = map receptacle_id recs.
Proof.
  intros Hid. induction recs as [|r rest IH]; intros offset ax; [reflexivity|].
  cbn [plot_receptacles].
  match goal with
  | |- context [plot_receptacles ?a ?b ?c ?d ?e ?f] =>
      specialize (IH e f); destruct (plot_receptacles a b c d e f) as [rest' ax']
  end.
  cbn [fst map] in *. rewrite Hid, IH. reflexivity.
Qed.

(** The loop over the objects ends normally exactly when every object has
    a shape and every mapped object can be stacked. *)
Lemma plot_objects_ok_iff (env : Collaborators) (m : option (gmap string string))
    (y spacing : Q) (objs : list Object) :
  forall (offset : Q) (recs : list Receptacle) (ax : Canvas),
    snd (plot_objects env m y spacing objs offset recs ax) = Ok tt
    <-> Forall (fun o => has_shape env o = true /\ stackable m recs o = true) objs.
Proof.
  induction objs as [|obj rest IH]; intros offset recs ax.
  - cbn. split; [constructor | reflexivity].
  - rewrite Forall_cons. cbn [plot_objects]. unfold stackable at 1.
    destruct (mapped_receptacle m obj) as [rid|].
    + unfold find_receptacle_by_id.
      destruct (find_receptacle_from 0 recs rid) as [[i cur]|] eqn:Hfind.
      * assert (Hex : existsb (fun r => String.eqb (receptacle_id r) rid) recs = true).
        { destruct (existsb _ recs) eqn:E; [reflexivity|].
          apply (find_receptacle_from_none_iff recs rid 0) in E. congruence. }
        rewrite Hex. cbn [andb].
        destruct (Object_plot_cases env obj ax (new_top_item_position cur))
          as [(e & Hpatch & Hplot)|(d & Hpatch & Hplot)]; rewrite Hplot.
        -- cbn [snd]. split; [discriminate|]. intros [[Hs _] _].
           apply (object_patch_ok_iff env obj (new_top_item_position cur)) in Hs.
           destruct Hs as [d Hd]. congruence.
        -- assert (Hs : has_shape env obj = true).
           { apply (object_patch_ok_iff env obj (new_top_item_position cur)).
             exists d. exact Hpatch. }
           cbn [text_position Object_set_center].
           destruct (text_position obj) as [tp|].
           ++ match goal with
              | |- context [plot_objects ?a ?b ?c ?d ?e ?f ?g ?h] =>
                  specialize (IH f g h);
                  destruct (plot_objects a b c d e f g h)
                    as [[[rest1 recs1] ax1] res1]
              end.
              cbn [snd] in *. rewrite IH.
              assert (Hids : forall o,
                         stackable m
                           (<[i := Receptacle_set_new_top_item_position
                                     (fst (new_top_item_position cur),
                                      snd tp + oc_height (object_config
                                                 (Object_set_center
                                                    (Some (fst (new_top_item_position cur)
                                                           + oc_width (object_config obj) / 2,
                                                           snd (new_top_item_position cur)
                                                           + oc_height (object_config obj) / 2))
                                                    obj))) cur]> recs) o
                         = stackable m recs o).
              { intros o. apply stackable_ids, receptacle_ids_insert_cursor.
                apply (find_receptacle_by_id_lookup recs rid). exact Hfind. }
              split.
              ** intros HF. split; [split; [exact Hs|reflexivity]|].
                 eapply Forall_impl; [exact HF|]. intros o [Ho1 Ho2].
                 split; [exact Ho1|]. rewrite <- Hids. exact Ho2.
              ** intros [_ HF]. eapply Forall_impl; [exact HF|]. intros o [Ho1 Ho2].
                 split; [exact Ho1|]. rewrite Hids. exact Ho2.
           ++ cbn [snd]. split; [discriminate|]. intros [[_ Hf] _]. discriminate.
      * assert (Hex : existsb (fun r => String.eqb (receptacle_id r) rid) recs = false).
        { apply (find_receptacle_from_none_iff recs rid 0). exact Hfind. }
        rewrite Hex. cbn [snd andb]. split; [discriminate|].
        intros [[_ Hf] _]. discriminate.
    + destruct (Object_plot_cases env obj ax (offset, y))
        as [(e & Hpatch & Hplot)|(d & Hpatch & Hplot)]; rewrite Hplot.
      * cbn [snd]. split; [discriminate|]. intros [[Hs _] _].
        apply (object_patch_ok_iff env obj (offset, y)) in Hs.
        destruct Hs as [d Hd]. congruence.
      * assert (Hs : has_shape env obj = true).
        { apply (object_patch_ok_iff env obj (offset, y)). exists d. exact Hpatch. }
        match goal with
        | |- context [plot_objects ?a ?b ?c ?d ?e ?f ?g ?h] =>
            specialize (IH f g h);
            destruct (plot_objects a b c d e f g h) as [[[rest1 recs1] ax1] res1]
        end.
        cbn [snd] in *. rewrite IH. split.
        -- intros HF. split; [split; [exact Hs|reflexivity]|exact HF].
        -- intros [_ HF]. exact HF.
Qed.

Lemma has_objects_false_list (self : Room) :
  has_objects self = false -> objects_list self = [].
Proof.
  unfold has_objects, objects_list.
  destruct (objects self) as [[|o l]|]; try reflexivity; discriminate.
Qed.

Lemma Room_plot_ok_iff (env : Collaborators) (self : Room) (position : Point)
    (ax : Canvas) (target_width : option Q) :
  snd (Room_plot env self position ax target_width) = Ok tt
  <-> Forall (fun o =>
                has_shape env o = true
                /\ stackable (object_to_recep self)
                     (fst (plot_receptacles env (receptacle_row_y self position)
                             (receptacle_row_spacing self target_width)
                             (receptacles self)
                             (receptacle_row_start self position target_width) ax))
                     o = true)
       (objects_list self).
Proof.
  unfold Room_plot, receptacle_row_start, receptacle_row_y, receptacle_row_spacing.
  cbn [fst snd].
  match goal with
  | |- context [plot_receptacles ?a ?b ?c ?d ?e ?f] =>
      replace (plot_receptacles a
                 (snd position + vertical_margin (room_config self)
                  + bottom_pad (room_config self)) c d
                 (fst position + horizontal_margin (room_config self) + c
                  + receptacle_horizontal_margin_fraction (room_config self)
                    * plot_room_width self target_width) f)
        with (plot_receptacles a b c d e f) by reflexivity;
      destruct (plot_receptacles a b c d e f) as [recs1 ax1]
  end.
  cbn [fst].
  destruct (has_objects self) eqn:Hobj.
  - destruct (unmapped_objects self) as [total_object_width num_objects].
    match goal with
    | |- context [plot_objects ?a ?b ?c ?d ?e ?f ?g ?h] =>
        pose proof (plot_objects_ok_iff a b c d e f g h) as Hiff;
        destruct (plot_objects a b c d e f g h) as [[[objs' recs2] ax3] res]
    end.
    cbn [snd] in Hiff. rewrite <- Hiff.
    destruct res as [[]|e]; cbn [snd].
    + unfold Room_plot_finish. cbn [snd]. split; reflexivity.
    + split; discriminate.
  - rewrite (has_objects_false_list self Hobj). unfold Room_plot_finish. cbn [snd].
    split; [constructor | reflexivity].
Qed.

(** X6: [Room.plot] returns normally exactly when every object of the room
    has something to draw (an icon file that exists, or a colour for its
    category) and every object that the map sends to a receptacle finds
    that receptacle in the room and carries a [text_position]; otherwise
    it raises [KeyError] or [AttributeError], nothing else.  A room
    without objects is always plotted.  [Receptacle.plot] is assumed not
    to rename a receptacle. *)
Theorem X6_room_plot_returns_iff (env : Collaborators)
    (receptacle_plot_id :
       forall (r : Receptacle) (p : Point),
         receptacle_id (receptacle_plot env r p) = receptacle_id r)
    (self : Room) (position : Point) (ax : Canvas) (target_width : option Q) :
  (snd (Room_plot env self position ax target_width) = Ok tt
   <-> Forall (fun o =>
                 has_shape env o = true
                 /\ stackable (object_to_recep self) (receptacles self) o = true)
        (objects_list self))
  /\ (has_objects self = false ->
      snd (Room_plot env self position ax target_width) = Ok tt)
  /\ (forall e, snd (Room_plot env self position ax target_width) = Raise e ->
                e = KeyError \/ e = AttributeError).
Proof.
  split; [|split].
  - rewrite Room_plot_ok_iff. apply Forall_iff. intros o.
    rewrite (stackable_ids (object_to_recep self) _ (receptacles self) o
               (plot_receptacles_ids env _ _ _ receptacle_plot_id _ _)).
    reflexivity.
  - intros Hobj. apply Room_plot_ok_iff.
    rewrite (has_objects_false_list self Hobj). constructor.
  - intros e. apply Room_plot_errors.
Qed.

Lemma X6_room_plot_returns_iff_witness :
  snd (Room_plot example_env furnished_room (0, 0) [] None) = Ok tt
  /\ snd (Room_plot example_env stacked_room (0, 0) [] None) <> Ok tt.
Proof.
  pose proof (X6_room_plot_returns_iff example_env (fun r p => eq_refl)
                furnished_room (0, 0) [] None) as [Hf _].
  pose proof (X6_room_plot_returns_iff example_env (fun r p => eq_refl)
                stacked_room (0, 0) [] None) as [Hs _].
  split.
  - apply Hf. repeat constructor.
  - intros Hok. apply Hs in Hok. inversion Hok as [|o l [_ Hst] _]. discriminate Hst.
Defined.

(** X7: an object that the map sends to a receptacle makes [Room.plot]
    raise unless it carries a [text_position]: [Room.plot] reads
    [obj.text_position], which [Object.plot] binds as a local name only and
    [Object.__init__] does not create.  A room that stacks an object built
    by the constructor alone is therefore never plotted to the end. *)
Theorem X7_stacked_object_without_text_position_raises (env : Collaborators)
    (self : Room) (position : Point) (ax : Canvas) (target_width : option Q)
    (o : Object) :
  In o (objects_list self) ->
  mapped_receptacle (object_to_recep self) o <> None ->
  text_position o = None ->
  snd (Room_plot env self position ax target_width) = Raise KeyError
  \/ snd (Room_plot env self position ax target_width) = Raise AttributeError.
Proof.
  intros Hin Hmap Htext.
  pose proof (Room_plot_errors env self position ax target_width) as Herr.
  pose proof (Room_plot_ok_iff env self position ax target_width) as Hiff.
  destruct (snd (Room_plot env self position ax target_width)) as [[]|e].
  - exfalso. destruct Hiff as [Hiff _]. specialize (Hiff eq_refl).
    rewrite List.Forall_forall in Hiff. destruct (Hiff o Hin) as [_ Hst].
    unfold stackable in Hst.
    destruct (mapped_receptacle (object_to_recep self) o); [|contradiction].
    rewrite Htext, andb_false_r in Hst. discriminate.
  - destruct (Herr e eq_refl) as [-> | ->]; [left | right]; reflexivity.
Qed.

Lemma X7_stacked_object_without_text_position_raises_witness :
  snd (Room_plot example_env stacked_room (0, 0) [] None) = Raise KeyError
  \/ snd (Room_plot example_env stacked_room (0, 0) [] None) = Raise AttributeError.
Proof.
  apply (X7_stacked_object_without_text_position_raises example_env stacked_room
           (0, 0) [] None (Object_init example_object_config "apple_0" None)).
  - left. reflexivity.
  - vm_compute. discriminate.
  - reflexivity.
Defined.

(** ** The size that [Room.plot] gives a room *)

Lemma Room_plot_geometry (env : Collaborators) (self : Room) (position : Point)
    (ax : Canvas) (target_width : option Q) :
  let self' := fst (fst (Room_plot env self position ax target_width)) in
  room_width self' = plot_room_width self target_width
  /\ width self' = plot_room_width self target_width
                   + 2 * horizontal_margin (room_config self)
  /\ room_config self' = room_config self.
Proof.
  destruct (Room_plot_shape env self position ax target_width)
    as (objs' & recs2 & rh & h & center & extra & res & Hplot & _).
  cbv zeta. rewrite Hplot. cbn [fst]. repeat split.
Qed.

Lemma Qmax_eq_r (a b c : Q) : b == c -> Qmax a b == Qmax a c.
Proof.
  intros E.
  destruct (Q.max_spec a b) as [[H1 ->]|[H1 ->]];
    destruct (Q.max_spec a c) as [[H2 ->]|[H2 ->]]; qlra.
Qed.

Lemma Qmax_zero_half (x : Q) :
  0 <= Qmax 0 (x / 2) /\ (x <= 0 -> Qmax 0 (x / 2) == 0).
Proof.
  assert (E : x / 2 == x * (1 # 2)) by field.
  destruct (Q.max_spec 0 (x / 2)) as [[H ->]|[H ->]]; rewrite E in *; split;
    intros; qlra.
Qed.

(** X8: what a target width does to the width of a room.  [Room.plot]
    widens the content box by twice
    [max(0, (target - room_width - 2 * horizontal_margin) / 2)], where
    [room_width] is the width of the box without a target, and the room is
    as wide as the box and the two margins.  So a room is never narrower
    with a target than without, and a target of at most
    [room_width + 2 * horizontal_margin] changes neither width. *)
Theorem X8_room_plot_target_width (env : Collaborators) (self : Room)
    (position : Point) (ax : Canvas) (target : Q) :
  let natural := fst (fst (Room_plot env self position ax None)) in
  let stretched := fst (fst (Room_plot env self position ax (Some target))) in
  let margin := horizontal_margin (room_config self) in
  room_width stretched
  == room_width natural
     + 2 * Qmax 0 ((target - room_width natural - 2 * margin) / 2)
  /\ width stretched == room_width stretched + 2 * margin
  /\ room_width natural <= room_width stretched
  /\ width natural <= width stretched
  /\ (target <= room_width natural + 2 * margin ->
      room_width stretched == room_width natural
      /\ width stretched == width natural).
Proof.
  cbv zeta.
  destruct (Room_plot_geometry env self position ax None) as (Hrw0 & Hw0 & _).
  destruct (Room_plot_geometry env self position ax (Some target)) as (Hrw1 & Hw1 & _).
  cbv zeta in Hrw0, Hw0, Hrw1, Hw1. rewrite Hrw0, Hw0, Hrw1, Hw1.
  unfold plot_room_width.
  set (rw := Qmax _ _ + left_pad (room_config self) + right_pad (room_config self)).
  set (hm := horizontal_margin (room_config self)).
  assert (E : Qmax 0 ((target - (rw + 2 * 0) - 2 * hm) / 2)
              == Qmax 0 ((target - rw - 2 * hm) / 2)).
  { apply Qmax_eq_r. field. }
  destruct (Qmax_zero_half (target - rw - 2 * hm)) as (Hpos & Hzero).
  split; [rewrite E; ring|]. split; [reflexivity|].
  split; [qlra|]. split; [qlra|].
  intros Hle. assert (Hz : Qmax 0 ((target - rw - 2 * hm) / 2) == 0).
  { apply Hzero. qlra. }
  split; rewrite Hz; ring.
Qed.

Lemma X8_room_plot_target_width_witness :
  let natural := fst (fst (Room_plot example_env furnished_room (0, 0) [] None)) in
  let stretched :=
    fst (fst (Room_plot example_env furnished_room (0, 0) [] (Some 100))) in
  room_width stretched == room_width natural /\ width stretched == width natural.
Proof.
  cbv zeta.
  apply (proj2 (proj2 (proj2 (proj2
           (X8_room_plot_target_width example_env furnished_room (0, 0) [] 100))))).
  vm_compute. discriminate.
Defined.

Lemma fold_unmapped_widths (m : option (gmap string string)) (objs : list Object) :
  (forall o, In o objs -> mapped_receptacle m o = None) ->
  forall a : Q,
    fold_left (fun acc o =>
                 match mapped_receptacle m o with
                 | None => acc + Object_width o
                 | Some _ => acc
                 end) objs a
    = fold_left (fun acc o => acc + Object_width o) objs a.
Proof.
  induction objs as [|o objs IH]; intros Hm a; [reflexivity|].
  cbn [fold_left]. rewrite (Hm o) by (left; reflexivity).
  apply IH. intros o' Ho'. apply Hm. right. exact Ho'.
Qed.

(** X9: plotting does not change the size that [init_size] computed: for a
    room none of whose objects is mapped to a receptacle, and with
    [use_full_height] set when it has objects, [Room.plot] without a target
    width leaves [room_width], [width], [room_height] and [height] as
    [init_size] set them. *)
Theorem X9_room_plot_keeps_init_size (env : Collaborators) (self : Room)
    (position : Point) (ax : Canvas) :
  (forall o, In o (objects_list self) ->
             mapped_receptacle (object_to_recep self) o = None) ->
  (has_objects self = true -> use_full_height self = true) ->
  let sized := init_size self in
  let plotted := fst (fst (Room_plot env sized position ax None)) in
  room_width plotted == room_width sized
  /\ width plotted == width sized
  /\ room_height plotted = room_height sized
  /\ height plotted = height sized.
Proof.
  intros Hmap Hfull. cbv zeta.
  destruct (Room_plot_geometry env (init_size self) position ax None)
    as (Hrw & Hw & _). cbv zeta in Hrw, Hw.
  assert (Hnat : plot_room_width (init_size self) None == room_width (init_size self)).
  { unfold plot_room_width, init_size.
    cbn [room_config room_width Room_set_geometry receptacles object_to_recep].
    change (has_objects (Room_set_geometry ?a ?b ?c ?d ?e self)) with (has_objects self).
    change (objects_list (Room_set_geometry ?a ?b ?c ?d ?e self))
      with (objects_list self).
    rewrite (fold_unmapped_widths _ _ Hmap). ring. }
  split; [rewrite Hrw; exact Hnat|].
  split.
  { rewrite Hw, Hnat. unfold init_size. cbn [width room_width room_config Room_set_geometry].
    reflexivity. }
  unfold Room_plot.
  match goal with
  | |- context [plot_receptacles ?a ?b ?c ?d ?e ?f] =>
      destruct (plot_receptacles a b c d e f) as [recs1 ax1]
  end.
  change (has_objects (init_size self)) with (has_objects self).
  change (use_full_height (init_size self)) with (use_full_height self).
  destruct (has_objects self) eqn:Hobj.
  - destruct (unmapped_objects (init_size self)) as [total_object_width num_objects].
    match goal with
    | |- context [plot_objects ?a ?b ?c ?d ?e ?f ?g ?h] =>
        destruct (plot_objects a b c d e f g h) as [[[objs' recs2] ax3] res]
    end.
    destruct res as [[]|e]; unfold Room_plot_finish, init_size;
      cbn [fst room_height height Room_set_geometry Room_set_children room_config];
      rewrite (Hfull eq_refl); split; reflexivity.
  - unfold Room_plot_finish, init_size.
    cbn [fst room_height height Room_set_geometry Room_set_children room_config].
    destruct (use_full_height self); split; reflexivity.
Qed.

Lemma X9_room_plot_keeps_init_size_witness :
  let sized := init_size furnished_room in
  let plotted := fst (fst (Room_plot example_env sized (0, 0) [] None)) in
  room_width plotted == room_width sized
  /\ width plotted == width sized
  /\ room_height plotted = room_height sized
  /\ height plotted = height sized.
Proof.
  apply (X9_room_plot_keeps_init_size example_env furnished_room (0, 0) []).
  - intros o _. reflexivity.
  - intros _. reflexivity.
Defined.

(** ** Placement of the objects by [Room.plot] *)

Lemma centered_at_compat (y : Q) (l : list Object) (xs xs' : list Q) :
  Forall2 (centered_at y) l xs -> Forall2 Qeq xs xs' -> Forall2 (centered_at y) l xs'.
Proof.
  intros Hl. revert xs'. induction Hl as [|o x l xs Ho _ IH]; intros xs' Hx.
  - inversion Hx. constructor.
  - inversion Hx as [|x0 x' xs0 xs0' Hxx Hrest]; subst. constructor; [|apply IH, Hrest].
    unfold centered_at in *. destruct (center_position o) as [c|]; [|exact Ho].
    rewrite <- Hxx. exact Ho.
Qed.

Lemma unmapped_objects_all (m : option (gmap string string)) (objs : list Object) :
  (forall o, In o objs -> mapped_receptacle m o = None) ->
  forall (a : Q) (n : nat),
    fold_left (fun '(tw, k) obj =>
                 match mapped_receptacle m obj with
                 | None => (tw + Object_width obj, S k)
                 | Some _ => (tw, k)
                 end) objs (a, n)
    = (fold_left Qplus (map Object_width objs) a, (n + length objs)%nat).
Proof.
  induction objs as [|o objs IH]; intros Hm a n; cbn [fold_left map length].
  - rewrite Nat.add_0_r. reflexivity.
  - rewrite (Hm o) by (left; reflexivity).
    rewrite IH by (intros o' Ho'; apply Hm; right; exact Ho').
    f_equal. lia.
Qed.

(** The loop over objects none of which is mapped to a receptacle: when it
    ends normally the objects stand in one row. *)
Lemma plot_objects_row (env : Collaborators) (m : option (gmap string string))
    (y spacing : Q) (objs : list Object) :
  (forall o, In o objs -> mapped_receptacle m o = None) ->
  forall (offset : Q) (recs : list Receptacle) (ax : Canvas)
         (objs' : list Object) (recs' : list Receptacle) (ax' : Canvas),
    plot_objects env m y spacing objs offset recs ax = (objs', recs', ax', Ok tt) ->
    Forall2 (centered_at y) objs' (even_row offset spacing (map Object_width objs))
    /\ recs' = recs.
Proof.
  induction objs as [|obj rest IH]; intros Hm offset recs ax objs' recs' ax' Hp;
    cbn [plot_objects] in Hp.
  - inversion Hp; subst. split; [constructor | reflexivity].
  - rewrite (Hm obj) in Hp by (left; reflexivity).
    destruct (Object_plot_cases env obj ax (offset, y))
      as [(e & Hpatch & Hplot)|(d & Hpatch & Hplot)]; rewrite Hplot in Hp;
      [discriminate|].
    match type of Hp with
    | context [plot_objects ?a ?b ?c ?d ?e ?f ?g ?h] =>
        destruct (plot_objects a b c d e f g h)
          as [[[rest1 recs1] ax1] res1] eqn:Hcall
    end.
    inversion Hp; subst. apply IH in Hcall;
      [|intros o Ho; apply Hm; right; exact Ho].
    destruct Hcall as [Hrow ->]. split; [|reflexivity].
    cbn [map even_row]. constructor.
    + unfold centered_at. cbn [center_position Object_set_center fst snd].
      split; reflexivity.
    + eapply centered_at_compat; [exact Hrow|].
      apply even_row_compat.
      unfold Object_width. cbn [object_config Object_set_center]. ring.
Qed.

(** X10: the objects of a room that are not mapped to a receptacle stand in
    one row with even spacing: with [spacing = (room_width - fraction * 2 *
    room_width - sum of the object widths) / (count + 1)], the first object
    has its left edge at the left content edge plus [fraction * room_width
    + spacing], each next one at the right edge of the previous one plus
    [spacing], all at the height [bottom_pad + full_height * objects_height]
    above the content box; the center anchor of each object is the center
    of its box. *)
Theorem X10_objects_evenly_spaced (env : Collaborators) (self : Room)
    (position : Point) (ax : Canvas) (target_width : option Q) :
  (forall o, In o (objects_list self) ->
             mapped_receptacle (object_to_recep self) o = None) ->
  snd (Room_plot env self position ax target_width) = Ok tt ->
  let cfg := room_config self in
  let self' := fst (fst (Room_plot env self position ax target_width)) in
  let rw := room_width self' in
  let fraction := object_horizontal_margin_fraction cfg in
  let total := Qsum (map Object_width (objects_list self)) in
  let count := length (objects_list self) in
  let spacing := (rw - fraction * 2 * rw - total) / (Qnat count + 1) in
  let room_left := fst position + horizontal_margin cfg in
  let y := snd position + vertical_margin cfg + bottom_pad cfg
           + full_height cfg * objects_height cfg in
  Forall2 (centered_at y) (objects_list self')
    (even_row (room_left + fraction * rw + spacing) spacing
       (map Object_width (objects_list self))).
Proof.
  intros Hmap Hok. cbv zeta.
  destruct (Room_plot_geometry env self position ax target_width) as (Hrw & _ & _).
  cbv zeta in Hrw. rewrite Hrw. clear Hrw. revert Hok.
  unfold Room_plot.
  match goal with
  | |- context [plot_receptacles ?a ?b ?c ?d ?e ?f] =>
      destruct (plot_receptacles a b c d e f) as [recs1 ax1]
  end.
  destruct (has_objects self) eqn:Hobj.
  - unfold unmapped_objects.
    rewrite (unmapped_objects_all _ _ Hmap 0 0). cbn [fst snd Nat.add].
    match goal with
    | |- context [plot_objects ?a ?b ?c ?d ?e ?f ?g ?h] =>
        destruct (plot_objects a b c d e f g h)
          as [[[objs' recs2] ax3] res] eqn:Hcall
    end.
    destruct res as [[]|e]; [|discriminate]. intros _.
    apply plot_objects_row in Hcall; [|exact Hmap]. destruct Hcall as [Hrow _].
    unfold Room_plot_finish. cbn [fst].
    unfold objects_list at 1. cbn [objects Room_set_geometry Room_set_children].
    exact Hrow.
  - intros _. unfold Room_plot_finish. cbn [fst].
    unfold objects_list at 1. cbn [objects Room_set_geometry Room_set_children].
    fold (objects_list self). rewrite (has_objects_false_list self Hobj).
    constructor.
Qed.

Lemma X10_objects_evenly_spaced_witness :
  Forall2 (centered_at (0 + 5 + 20 + 200 * (1 # 2)))
    (objects_list (fst (fst (Room_plot example_env furnished_room (0, 0) [] None))))
    (even_row
       (0 + 5 + (1 # 10)
                * room_width (fst (fst (Room_plot example_env furnished_room (0, 0) [] None)))
        + (room_width (fst (fst (Room_plot example_env furnished_room (0, 0) [] None)))
           - (1 # 10) * 2
             * room_width (fst (fst (Room_plot example_env furnished_room (0, 0) [] None)))
           - Qsum [40; 40]) / (Qnat 2 + 1))
       ((room_width (fst (fst (Room_plot example_env furnished_room (0, 0) [] None)))
         - (1 # 10) * 2
           * room_width (fst (fst (Room_plot example_env furnished_room (0, 0) [] None)))
         - Qsum [40; 40]) / (Qnat 2 + 1))
       [40; 40]).
Proof.
  apply (X10_objects_evenly_spaced example_env furnished_room (0, 0) [] None).
  - intros o _. reflexivity.
  - reflexivity.
Defined.

(** ** Proposition kinds *)

Lemma classify_proposition_unknown (m : Mentions) (prop : Proposition) :
  classify_proposition m prop = Raise NotImplementedError
  <-> known_function (function_name prop) = false.
Proof.
  unfold classify_proposition, known_function, arg, outcome_bind.
  destruct (String.eqb (function_name prop) "is_on_top");
    destruct (String.eqb (function_name prop) "is_inside");
    destruct (String.eqb (function_name prop) "is_in_room");
    destruct (String.eqb (function_name prop) "is_on_floor");
    destruct (String.eqb (function_name prop) "is_next_to");
    cbn [orb];
    repeat match goal with
           | |- context [match ?o with Some _ => _ | None => _ end] => destruct o
           end;
    split; intros E; try discriminate E; reflexivity.
Qed.

Lemma classify_proposition_toposort_unknown (m : Mentions) (prop : Proposition) :
  classify_proposition_toposort m prop = Raise NotImplementedError
  <-> known_function_toposort (function_name prop) = false.
Proof.
  unfold classify_proposition_toposort, known_function_toposort, arg, outcome_bind.
  destruct (String.eqb (function_name prop) "is_on_top");
    destruct (String.eqb (function_name prop) "is_inside");
    destruct (String.eqb (function_name prop) "is_in_room");
    destruct (String.eqb (function_name prop) "is_on_floor");
    cbn [orb];
    repeat match goal with
           | |- context [match ?o with Some _ => _ | None => _ end] => destruct o
           end;
    split; intros E; try discriminate E; reflexivity.
Qed.

Lemma classify_propositions_unknown (props : list Proposition) :
  forall m : Mentions,
    classify_propositions m props = Raise NotImplementedError ->
    exists p, In p props /\ known_function (function_name p) = false.
Proof.
  induction props as [|p props IH]; intros m E; cbn [classify_propositions] in E;
    [discriminate|].
  destruct (classify_proposition m p) as [m'|e] eqn:Ep; cbn [outcome_bind] in E.
  - destruct (IH m' E) as (q & Hq & Hk). exists q. split; [right; exact Hq | exact Hk].
  - inversion E; subst. exists p. split; [left; reflexivity|].
    apply (classify_proposition_unknown m p). exact Ep.
Qed.

Lemma classify_propositions_toposort_rejects (props : list Proposition) :
  forall m : Mentions,
    (exists p, In p props /\ known_function_toposort (function_name p) = false) ->
    exists e, classify_propositions_toposort m props = Raise e
              /\ (e = NotImplementedError \/ e = KeyError).
Proof.
  induction props as [|p props IH]; intros m (q & Hq & Hk); [destruct Hq|].
  cbn [classify_propositions_toposort].
  destruct (classify_proposition_toposort m p) as [m'|e] eqn:Ep; cbn [outcome_bind].
  - destruct Hq as [->|Hq].
    + apply (classify_proposition_toposort_unknown m q) in Hk. congruence.
    + apply IH. exists q. split; assumption.
  - exists e. split; [reflexivity|].
    revert Ep. clear.
    unfold classify_proposition_toposort, arg, outcome_bind.
    repeat match goal with
           | |- context [if ?b then _ else _] => destruct b
           | |- context [match ?o with Some _ => _ | None => _ end] => destruct o
           end;
      intros E; inversion E; auto.
Qed.

(** X11: the classification of [plot_for_propositions] raises
    [NotImplementedError] exactly on a function name outside [is_on_top],
    [is_inside], [is_in_room], [is_on_floor], [is_next_to]; the pass of
    [Scene.plot] over a toposort exactly on a name outside the first four.
    A list of propositions is rejected that way only if it holds such a
    proposition. *)
Theorem X11_unknown_function_names :
  (forall (m : Mentions) (prop : Proposition),
      classify_proposition m prop = Raise NotImplementedError
      <-> known_function (function_name prop) = false)
  /\ (forall (m : Mentions) (prop : Proposition),
        classify_proposition_toposort m prop = Raise NotImplementedError
        <-> known_function_toposort (function_name prop) = false)
  /\ (forall (m : Mentions) (props : list Proposition),
        classify_propositions m props = Raise NotImplementedError ->
        exists p, In p props /\ known_function (function_name p) = false).
Proof.
  split; [exact classify_proposition_unknown|].
  split; [exact classify_proposition_toposort_unknown|].
  intros m props. apply classify_propositions_unknown.
Qed.

(** X12: with a temporal constraint that carries a non-empty toposort,
    [Scene.plot] cannot handle a list of propositions that holds an
    [is_next_to] anywhere (or any name outside the four of the toposort
    pass): it raises [NotImplementedError], or the [KeyError] of an earlier
    proposition with a missing argument, before anything is drawn and
    before the scene is touched. *)
Theorem X12_toposort_with_is_next_to_raises (env : Collaborators)
    (propositions : list Proposition) (constraints : list Constraint)
    (level : list Z) (levels : list (list Z)) (force_hide_instructions : bool)
    (s : Scene * Canvas) (p : Proposition) :
  find_toposort [] constraints = Ok (level :: levels) ->
  In p propositions ->
  known_function_toposort (function_name p) = false ->
  exists e,
    Scene_plot env (Some propositions) (Some constraints) force_hide_instructions s
    = (s, Raise e)
    /\ (e = NotImplementedError \/ e = KeyError).
Proof.
  intros Htopo Hin Hk.
  destruct (classify_propositions_toposort_rejects propositions no_mentions)
    as (e & He & Hkind); [exists p; split; assumption|].
  exists e. split; [|exact Hkind].
  unfold Scene_plot. unfold bind at 1. rewrite Htopo. cbn [lift_outcome ret].
  unfold bind at 1. rewrite He. reflexivity.
Qed.

Lemma X12_toposort_with_is_next_to_raises_witness :
  exists e,
    Scene_plot example_env (Some [next_to_proposition]) (Some [temporal_constraint])
      false (furnished_scene, [])
    = ((furnished_scene, []), Raise e)
    /\ (e = NotImplementedError \/ e = KeyError).
Proof.
  apply (X12_toposort_with_is_next_to_raises example_env [next_to_proposition]
           [temporal_constraint] [0%Z] [] false (furnished_scene, [])
           next_to_proposition).
  - reflexivity.
  - left. reflexivity.
  - reflexivity.
Defined.

(** ** The direction of the arrowhead *)

Section ArrowDirection.

Local Open Scope R_scope.
Import Arrow.




End ArrowDirection.

(** ** What a scene method leaves alone *)

Section StepsRules.

Variable R : Scene * Canvas -> Scene * Canvas -> Prop.
Hypothesis R_refl : forall s, R s s.
Hypothesis R_trans : forall s1 s2 s3, R s1 s2 -> R s2 s3 -> R s1 s3.

Lemma steps_ret {A} (a : A) : steps R (ret a).
Proof. intros s. apply R_refl. Qed.

Lemma steps_raise {A} (e : PyError) : steps R (raise (A := A) e).
Proof. intros s. apply R_refl. Qed.

Lemma steps_bind {A B} (m : SceneM A) (k : A -> SceneM B) :
  steps R m -> (forall a, steps R (k a)) -> steps R (bind m k).
Proof.
  intros Hm Hk s. unfold bind. specialize (Hm s).
  destruct (m s) as [s' [a|e]]; cbn [fst] in *.
  - eapply R_trans; [exact Hm | apply Hk].
  - exact Hm.
Qed.

Lemma steps_lift_outcome {A} (o : outcome A) : steps R (lift_outcome o).
Proof. destruct o; [apply steps_ret | apply steps_raise]. Qed.

Lemma steps_for_each {A} (l : list A) (body : A -> SceneM unit) :
  (forall x, steps R (body x)) -> steps R (for_each l body).
Proof.
  intros Hb. induction l as [|x l IH]; simpl; [apply steps_ret|].
  apply steps_bind; [apply Hb | intros _; exact IH].
Qed.

Lemma steps_fold_m {A B} (l : list A) (body : B -> A -> SceneM B) (acc : B) :
  (forall acc x, steps R (body acc x)) -> steps R (fold_m l acc body).
Proof.
  intros Hb. revert acc. induction l as [|x l IH]; intros acc; simpl;
    [apply steps_ret|].
  apply steps_bind; [apply Hb | intros acc'; apply IH].
Qed.

Lemma steps_while {L} (fuel : nat) (cond : L -> Scene * Canvas -> bool)
    (body : L -> SceneM L) :
  (forall l, steps R (body l)) ->
  forall l, steps R (while_loop fuel cond body l).
Proof.
  intros Hb. induction fuel as [|fuel IH]; intros l s; simpl.
  - destruct (cond l s); apply R_refl.
  - destruct (cond l s); [|apply R_refl].
    apply (steps_bind (body l) (while_loop fuel cond body)); [apply Hb | apply IH].
Qed.

Lemma steps_get_scene : steps R get_scene.
Proof. intros s. apply R_refl. Qed.

Lemma steps_get_axes : steps R get_axes.
Proof. intros s. apply R_refl. Qed.

Lemma steps_room_at (i : nat) : steps R (room_at i).
Proof. intros s. unfold room_at. destruct (rooms (fst s) !! i); apply R_refl. Qed.

Lemma steps_py_max (l : list Q) : steps R (py_max l).
Proof. destruct l; [apply steps_raise | apply steps_ret]. Qed.

Lemma steps_rooms_of (row : list nat) : steps R (rooms_of row).
Proof.
  unfold rooms_of. apply steps_fold_m. intros acc i.
  apply steps_bind; [apply steps_room_at | intros r; apply steps_ret].
Qed.

Lemma steps_rooms_have_objects (row : list nat) : steps R (rooms_have_objects row).
Proof.
  unfold rooms_have_objects.
  apply steps_bind; [apply steps_rooms_of | intros rs; apply steps_ret].
Qed.

Lemma steps_select_rooms (keep : string -> bool) : steps R (select_rooms keep).
Proof.
  unfold select_rooms. apply steps_bind; [apply steps_get_scene|]. intros sc.
  apply steps_fold_m. intros acc i.
  apply steps_bind; [apply steps_room_at | intros r; apply steps_ret].
Qed.

End StepsRules.

Lemma Forall2_refl_all {A} (P : A -> A -> Prop) (l : list A) :
  (forall a, P a a) -> Forall2 P l l.
Proof. intros HP. induction l; constructor; auto. Qed.

Lemma Forall2_trans_all {A} (P : A -> A -> Prop) (l1 l2 l3 : list A) :
  (forall a b c, P a b -> P b c -> P a c) ->
  Forall2 P l1 l2 -> Forall2 P l2 l3 -> Forall2 P l1 l3.
Proof.
  intros HP H12. revert l3. induction H12 as [|a b l1 l2 Hab _ IH]; intros l3 H23.
  - inversion H23. constructor.
  - inversion H23 as [|b' c l2' l3' Hbc Hrest]; subst.
    constructor; [eapply HP; eassumption | apply IH; exact Hrest].
Qed.

Lemma same_object_refl (o : Object) : same_object o o.
Proof. repeat split. Qed.

Lemma same_object_trans (a b c : Object) :
  same_object a b -> same_object b c -> same_object a c.
Proof.
  intros (H1 & H2 & H3 & H4) (G1 & G2 & G3 & G4). repeat split; congruence.
Qed.

Lemma same_receptacle_refl (r : Receptacle) : same_receptacle r r.
Proof. split; reflexivity. Qed.

Lemma same_receptacle_trans (a b c : Receptacle) :
  same_receptacle a b -> same_receptacle b c -> same_receptacle a c.
Proof. intros [H1 H2] [G1 G2]. split; congruence. Qed.

Lemma same_room_refl (r : Room) : same_room r r.
Proof.
  repeat split.
  - apply Forall2_refl_all, same_receptacle_refl.
  - destruct (objects r); [apply Forall2_refl_all, same_object_refl | exact I].
Qed.

Lemma same_room_trans (a b c : Room) : same_room a b -> same_room b c -> same_room a c.
Proof.
  intros (H1 & H2 & H3 & H4 & H5) (G1 & G2 & G3 & G4 & G5).
  split; [congruence|]. split; [congruence|]. split; [congruence|]. split.
  - eapply Forall2_trans_all; [apply same_receptacle_trans | exact H4 | exact G4].
  - destruct (objects a), (objects b), (objects c); try contradiction; [|exact I].
    eapply Forall2_trans_all; [apply same_object_trans | exact H5 | exact G5].
Qed.

Lemma same_scene_refl (sc : Scene) : same_scene sc sc.
Proof. repeat split. apply Forall2_refl_all, same_room_refl. Qed.

Lemma same_scene_trans (a b c : Scene) :
  same_scene a b -> same_scene b c -> same_scene a c.
Proof.
  intros (H1 & H2 & H3) (G1 & G2 & G3).
  split; [congruence|]. split; [congruence|].
  eapply Forall2_trans_all; [apply same_room_trans | exact H3 | exact G3].
Qed.

Lemma scene_kept_refl (s : Scene * Canvas) : scene_kept s s.
Proof. apply same_scene_refl. Qed.

Lemma scene_kept_trans (s1 s2 s3 : Scene * Canvas) :
  scene_kept s1 s2 -> scene_kept s2 s3 -> scene_kept s1 s3.
Proof. apply same_scene_trans. Qed.

Lemma same_scene_insert (sc : Scene) (i : nat) (r r' : Room) :
  rooms sc !! i = Some r -> same_room r r' ->
  same_scene sc (Scene_set_rooms (<[i := r']> (rooms sc)) sc).
Proof.
  intros Hi Hr. split; [reflexivity|]. split; [reflexivity|].
  cbn [rooms Scene_set_rooms]. revert i Hi.
  induction (rooms sc) as [|x l IH]; intros i Hi; [discriminate|].
  destruct i as [|i]; cbn in Hi |- *.
  - inversion Hi; subst. constructor; [exact Hr|].
    apply Forall2_refl_all, same_room_refl.
  - constructor; [apply same_room_refl | apply IH, Hi].
Qed.

Lemma same_scene_map (sc : Scene) (f : Room -> Room) :
  (forall r, same_room r (f r)) ->
  same_scene sc (Scene_set_rooms (map f (rooms sc)) sc).
Proof.
  intros Hf. split; [reflexivity|]. split; [reflexivity|].
  cbn [rooms Scene_set_rooms]. induction (rooms sc) as [|x l IH]; constructor; auto.
Qed.

Lemma scene_kept_update_room (i : nat) (f : Room -> Room) :
  (forall r, same_room r (f r)) -> steps scene_kept (update_room i f).
Proof.
  intros Hf s. unfold update_room, scene_kept.
  destruct (rooms (fst s) !! i) as [r|] eqn:Hi; cbn [fst].
  - eapply same_scene_insert; [exact Hi | apply Hf].
  - apply same_scene_refl.
Qed.

Lemma scene_kept_modify_rooms (f : Room -> Room) :
  (forall r, same_room r (f r)) ->
  steps scene_kept (modify_scene (fun sc => Scene_set_rooms (map f (rooms sc)) sc)).
Proof. intros Hf s. unfold modify_scene, scene_kept. cbn [fst]. apply same_scene_map, Hf. Qed.

Lemma scene_kept_set_width (w : Q) : steps scene_kept (modify_scene (Scene_set_width w)).
Proof.
  intros s. split; [reflexivity|]. split; [reflexivity|].
  apply Forall2_refl_all, same_room_refl.
Qed.

Lemma scene_kept_set_height (h : Q) : steps scene_kept (modify_scene (Scene_set_height h)).
Proof.
  intros s. split; [reflexivity|]. split; [reflexivity|].
  apply Forall2_refl_all, same_room_refl.
Qed.

Lemma scene_kept_draw (c : DrawCmd) : steps scene_kept (draw c).
Proof. intros s. apply same_scene_refl. Qed.

Lemma scene_kept_set_axes (ax : Canvas) : steps scene_kept (set_axes ax).
Proof. intros s. apply same_scene_refl. Qed.

Lemma same_room_fields (r r' : Room) :
  room_id r' = room_id r -> room_config r' = room_config r ->
  object_to_recep r' = object_to_recep r ->
  receptacles r' = receptacles r -> objects r' = objects r ->
  same_room r r'.
Proof.
  intros H1 H2 H3 H4 H5. split; [exact H1|]. split; [exact H2|]. split; [exact H3|].
  rewrite H4, H5. split.
  - apply Forall2_refl_all, same_receptacle_refl.
  - destruct (objects r); [apply Forall2_refl_all, same_object_refl | exact I].
Qed.

Lemma same_room_flags (a b c : bool) (r : Room) : same_room r (Room_set_flags a b c r).
Proof. apply same_room_fields; reflexivity. Qed.

Lemma same_room_init_size (r : Room) : same_room r (init_size r).
Proof. apply same_room_fields; reflexivity. Qed.

Lemma same_receptacle_cursor_moved (l l' : list Receptacle) :
  Forall2 cursor_moved l l' -> Forall2 same_receptacle l l'.
Proof.
  intros H. eapply Forall2_impl; [exact H|].
  intros r r' [c ->]. split; reflexivity.
Qed.

Lemma same_object_center_changed (l l' : list Object) :
  Forall2 center_changed l l' -> Forall2 same_object l l'.
Proof.
  intros H. eapply Forall2_impl; [exact H|].
  intros o o' [c ->]. repeat split.
Qed.

Ltac kept_bind := apply (steps_bind scene_kept scene_kept_trans).
Ltac kept_ret := apply (steps_ret scene_kept scene_kept_refl).
Ltac kept_raise := apply (steps_raise scene_kept scene_kept_refl).
Ltac kept_pure :=
  first [ apply (steps_room_at _ scene_kept_refl)
        | apply (steps_get_scene _ scene_kept_refl)
        | apply (steps_get_axes _ scene_kept_refl)
        | apply (steps_py_max _ scene_kept_refl)
        | apply (steps_lift_outcome _ scene_kept_refl)
        | apply (steps_rooms_of _ scene_kept_refl scene_kept_trans)
        | apply (steps_rooms_have_objects _ scene_kept_refl scene_kept_trans)
        | apply (steps_select_rooms _ scene_kept_refl scene_kept_trans) ].
Ltac kept_fold := apply (steps_fold_m _ scene_kept_refl scene_kept_trans).
Ltac kept_for := apply (steps_for_each _ scene_kept_refl scene_kept_trans).
Ltac kept_while := apply (steps_while _ scene_kept_refl scene_kept_trans).

Section Frame.

Variable env : Collaborators.
Hypothesis receptacle_plot_same :
  forall (r : Receptacle) (p : Point), same_receptacle r (receptacle_plot env r p).

Lemma plot_receptacles_same (y spacing : Q) (recs : list Receptacle) :
  forall (offset : Q) (ax : Canvas),
    Forall2 same_receptacle recs (fst (plot_receptacles env y spacing recs offset ax)).
Proof.
  induction recs as [|r rest IH]; intros offset ax; [constructor|].
  cbn [plot_receptacles].
  match goal with
  | |- context [plot_receptacles ?a ?b ?c ?d ?e ?f] =>
      specialize (IH e f); destruct (plot_receptacles a b c d e f) as [rest' ax']
  end.
  cbn [fst] in *. constructor; [apply receptacle_plot_same | exact IH].
Qed.

Lemma Room_plot_same_room (self : Room) (position : Point) (ax : Canvas)
    (target_width : option Q) :
  same_room self (fst (fst (Room_plot env self position ax target_width))).
Proof.
  destruct (Room_plot_shape env self position ax target_width)
    as (objs' & recs2 & rh & h & center & extra & res & Hplot & Hrecs & _ & Hobjs & _).
  rewrite Hplot. cbn [fst].
  split; [reflexivity|]. split; [reflexivity|]. split; [reflexivity|].
  cbn [receptacles objects Room_set_geometry Room_set_children]. split.
  - eapply Forall2_trans_all;
      [apply same_receptacle_trans | apply plot_receptacles_same
      | apply same_receptacle_cursor_moved, Hrecs].
  - destruct (objects self), objs'; try contradiction; [|exact I].
    apply same_object_center_changed, Hobjs.
Qed.

Lemma scene_kept_plot_room (i : nat) (position : Point) (target_width : option Q) :
  steps scene_kept (plot_room env i position target_width).
Proof.
  intros s. unfold plot_room, scene_kept.
  destruct (rooms (fst s) !! i) as [r|] eqn:Hi; [|apply same_scene_refl].
  pose proof (Room_plot_same_room r position (snd s) target_width) as Hr.
  destruct (Room_plot env r position (snd s) target_width) as [[r' ax'] res].
  cbn [fst] in *. eapply same_scene_insert; eassumption.
Qed.

Lemma scene_kept_plot_row (set_full_height : option bool) (row : list nat) (y : Q) :
  steps scene_kept (plot_row env set_full_height row y).
Proof.
  unfold plot_row. kept_fold.
  intros w i. kept_bind.
  - destruct set_full_height as [b|]; [|kept_ret].
    apply scene_kept_update_room. intros r. apply same_room_flags.
  - intros _. kept_bind; [apply scene_kept_plot_room|]. intros _.
    kept_bind; [kept_pure|]. intros r. kept_ret.
Qed.

Lemma scene_kept_linear_body (mentioned : list string) (st : RowLoop) :
  steps scene_kept (linear_body env mentioned st).
Proof.
  unfold linear_body.
  kept_bind; [kept_pure|]. intros room.
  kept_bind; [kept_pure|]. intros sc.
  destruct (negb (str_in (room_id room) mentioned)); [|kept_ret].
  destruct (Qle_bool (width room + rl_width st) (scene_width sc)); [kept_ret|].
  kept_bind; [kept_pure|]. intros rs.
  kept_bind; [kept_pure|]. intros h.
  kept_bind; [kept_pure|]. intros b.
  kept_bind; [apply scene_kept_plot_row|]. intros _. kept_ret.
Qed.

Lemma scene_kept_plot_rooms_linear_free (mentioned : list string) (height_offset : Q) :
  steps scene_kept (plot_rooms_linear_free env mentioned height_offset).
Proof.
  unfold plot_rooms_linear_free.
  kept_bind; [kept_pure|]. intros sc0.
  kept_bind.
  { kept_fold. intros acc i.
    kept_bind; [kept_pure|]. intros room.
    destruct (str_in (room_id room) mentioned); [|kept_ret].
    kept_bind; [apply scene_kept_plot_room|]. intros _.
    kept_bind; [kept_pure|]. intros room'.
    kept_ret. }
  intros first_row_position.
  kept_bind; [apply scene_kept_set_width|]. intros _.
  kept_bind; [kept_pure|].
  intros ms.
  kept_bind; [kept_pure|]. intros rs.
  kept_bind; [kept_pure|]. intros h.
  kept_bind.
  { kept_while.
    intros l. apply scene_kept_linear_body. }
  intros st.
  kept_bind; [kept_pure|]. intros rs'.
  kept_bind; [kept_pure|]. intros h'.
  kept_bind; [apply scene_kept_plot_row|]. intros _. kept_ret.
Qed.

Lemma scene_kept_flush_row (target_width : Q) (row : list nat) (row_height : Q) :
  steps scene_kept (flush_row env target_width row row_height).
Proof.
  unfold flush_row.
  kept_bind; [kept_pure|]. intros b.
  kept_bind.
  { kept_for. intros i.
    apply scene_kept_update_room. intros r.
    eapply same_room_trans; [apply same_room_flags | apply same_room_init_size]. }
  intros _.
  kept_bind; [kept_pure|]. intros rs.
  kept_bind; [kept_pure|]. intros h.
  kept_bind; [kept_pure|]. intros shares.
  kept_bind.
  { kept_fold. intros w [i share].
    kept_bind; [apply scene_kept_plot_room|]. intros _.
    kept_bind; [kept_pure|]. intros r. kept_ret. }
  intros w.
  kept_bind; [kept_pure|]. intros sc.
  kept_bind; [apply scene_kept_set_width|]. intros _. kept_ret.
Qed.

Lemma scene_kept_target_body (target_width : Q) (all_rooms : list nat) (st : RowLoop) :
  steps scene_kept (target_body env target_width all_rooms st).
Proof.
  unfold target_body. destruct (all_rooms !! rl_i st) as [i|]; [|kept_raise].
  kept_bind; [kept_pure|]. intros room.
  kept_bind; [kept_pure|]. intros sc.
  destruct (Qle_bool (width room + rl_width st) (scene_width sc)); [kept_ret|].
  kept_bind; [apply scene_kept_flush_row|]. intros h. kept_ret.
Qed.

Lemma scene_kept_plot_rooms_linear (mentioned : list string)
    (target_width : option Q) (height_offset : Q)
    (all_mentioned_rooms : option (list string)) :
  steps scene_kept (plot_rooms_linear env mentioned target_width height_offset all_mentioned_rooms).
Proof.
  unfold plot_rooms_linear. destruct target_width as [tw|];
    [|apply scene_kept_plot_rooms_linear_free].
  unfold plot_rooms_linear_target.
  kept_bind; [apply scene_kept_set_width|]. intros _.
  kept_bind; [kept_pure|].
  intros front.
  kept_bind; [kept_pure|].
  intros back.
  kept_bind; [apply scene_kept_modify_rooms, same_room_init_size|]. intros _.
  kept_bind.
  { kept_while.
    intros l. apply scene_kept_target_body. }
  intros st. kept_bind; [apply scene_kept_flush_row|]. intros h. kept_ret.
Qed.

End Frame.

Lemma Forall2_alter_same {A} (P : A -> A -> Prop) (f : A -> A) (j : nat) (l : list A) :
  (forall a, P a a) -> (forall a, P a (f a)) -> Forall2 P l (alter f j l).
Proof.
  intros Hrefl Hf. revert j. induction l as [|x l IH]; intros j; [constructor|].
  destruct j as [|j]; cbn.
  - constructor; [apply Hf | apply Forall2_refl_all, Hrefl].
  - constructor; [apply Hrefl | apply IH].
Qed.

Lemma Forall2_map_same {A} (P : A -> A -> Prop) (f : A -> A) (l : list A) :
  (forall a, P a (f a)) -> Forall2 P l (map f l).
Proof. intros Hf. induction l; constructor; auto. Qed.

Lemma same_room_update_object (j : nat) (f : Object -> Object) (r : Room) :
  (forall o, same_object o (f o)) -> same_room r (Room_update_object j f r).
Proof.
  intros Hf. unfold Room_update_object.
  split; [reflexivity|]. split; [reflexivity|]. split; [reflexivity|].
  cbn [receptacles objects Room_set_children]. split.
  - apply Forall2_refl_all, same_receptacle_refl.
  - destruct (objects r); [|exact I].
    apply Forall2_alter_same; [apply same_object_refl | exact Hf].
Qed.

Lemma same_room_update_receptacle (j : nat) (f : Receptacle -> Receptacle) (r : Room) :
  (forall x, same_receptacle x (f x)) -> same_room r (Room_update_receptacle j f r).
Proof.
  intros Hf. unfold Room_update_receptacle.
  split; [reflexivity|]. split; [reflexivity|]. split; [reflexivity|].
  cbn [receptacles objects Room_set_children]. split.
  - apply Forall2_alter_same; [apply same_receptacle_refl | exact Hf].
  - destruct (objects r); [apply Forall2_refl_all, same_object_refl | exact I].
Qed.

Lemma scene_kept_reset_children_flags : steps scene_kept reset_children_flags.
Proof.
  unfold reset_children_flags. kept_bind; [kept_pure|]. intros sc.
  kept_for. intros i. kept_bind.
  { apply scene_kept_update_room. intros r.
    split; [reflexivity|]. split; [reflexivity|]. split; [reflexivity|].
    cbn [receptacles objects Room_set_children]. split.
    - apply Forall2_map_same. intros x. split; reflexivity.
    - destruct (objects r); [apply Forall2_refl_all, same_object_refl | exact I]. }
  intros _ s. unfold bind, room_at.
  destruct (rooms (fst s) !! i) as [room|] eqn:Hi; [|apply scene_kept_refl].
  destruct (objects room) as [objs|] eqn:Hobjs; [|apply scene_kept_refl].
  unfold update_room. rewrite Hi. unfold scene_kept. cbn [fst].
  eapply same_scene_insert; [exact Hi|].
  split; [reflexivity|]. split; [reflexivity|]. split; [reflexivity|].
  cbn [receptacles objects Room_set_children]. rewrite Hobjs. split.
  - apply Forall2_refl_all, same_receptacle_refl.
  - apply Forall2_map_same. intros o. repeat split.
Qed.

Lemma scene_kept_resolve_room (m : Mentions) (i : nat) (mentioned : list string) :
  steps scene_kept (resolve_room m i mentioned).
Proof.
  unfold resolve_room. kept_bind.
  { kept_fold. intros acc obj. kept_bind; [kept_pure|]. intros room.
    destruct (find_object_by_id room obj) as [[j o]|]; [|kept_ret].
    kept_bind; [|intros _; kept_ret].
    apply scene_kept_update_room. intros r. apply same_room_update_object.
    intros x. repeat split. }
  intros mentioned1. kept_bind.
  { kept_fold. intros acc obj. kept_bind; [kept_pure|]. intros room.
    destruct (find_object_by_id room obj); kept_ret. }
  intros mentioned2. kept_fold. intros acc [prop_function recep].
  kept_bind; [kept_pure|]. intros room.
  destruct (find_receptacle_by_id (receptacles room) recep) as [[j r0]|]; [|kept_ret].
  destruct (String.eqb prop_function "is_on_top");
    [|destruct (String.eqb prop_function "is_inside"); [|kept_raise]];
    (kept_bind; [|intros _; kept_ret]);
    apply scene_kept_update_room; intros r; apply same_room_update_receptacle;
    intros x; split; reflexivity.
Qed.

Lemma scene_kept_add_arrow_call (a b : option Point) (dashed : bool) (color : string) :
  steps scene_kept (add_arrow_call a b dashed color).
Proof.
  unfold add_arrow_call. destruct a, b; try kept_raise. apply scene_kept_draw.
Qed.

Lemma scene_kept_plot_proposition_lines (color_index : nat) (proposition : Proposition) :
  steps scene_kept (plot_proposition_lines color_index proposition).
Proof.
  unfold plot_proposition_lines.
  destruct (object_names (args proposition)) as [objs|]; [|kept_ret].
  kept_bind; [kept_pure|]. intros number.
  destruct (String.eqb (function_name proposition) "is_inside"
            || String.eqb (function_name proposition) "is_on_top").
  - kept_bind; [kept_pure|]. intros recs.
    kept_bind; [|intros _; kept_ret].
    unfold plot_object_to_receptacle_lines.
    kept_bind; [kept_pure|]. intros sc.
    kept_for. intros object_name. kept_for. intros room.
    destruct (find_object_by_id room object_name) as [[j o]|]; [|kept_ret].
    kept_for. intros receptacle_name. kept_for. intros [k r].
    destruct (String.eqb (function_name proposition) "is_inside");
      [apply scene_kept_add_arrow_call|].
    destruct (String.eqb (function_name proposition) "is_on_top");
      [apply scene_kept_add_arrow_call | kept_ret].
  - destruct (String.eqb (function_name proposition) "is_in_room"); [|kept_ret].
    kept_bind; [kept_pure|]. intros rms.
    kept_bind; [|intros _; kept_ret].
    unfold plot_object_to_room_lines.
    kept_bind; [kept_pure|]. intros sc.
    kept_for. intros [j o]. kept_for. intros room.
    destruct (room_center_position room);
      [apply scene_kept_add_arrow_call | kept_raise].
Qed.

Section FrameScene.

Variable env : Collaborators.
Hypothesis receptacle_plot_same :
  forall (r : Receptacle) (p : Point), same_receptacle r (receptacle_plot env r p).

Lemma scene_kept_plot_for_propositions (propositions : list Proposition)
    (show_instruction : bool) (height_offset : Q) (initial_ax : option Canvas)
    (all_mentioned_rooms : option (list string)) :
  steps scene_kept
    (plot_for_propositions env propositions show_instruction height_offset
       initial_ax all_mentioned_rooms).
Proof.
  unfold plot_for_propositions.
  kept_bind; [kept_pure|]. intros m.
  kept_bind; [apply scene_kept_modify_rooms; intros r; apply same_room_flags|].
  intros _. kept_bind; [apply scene_kept_reset_children_flags|]. intros _.
  kept_bind; [kept_pure|]. intros sc.
  kept_bind; [kept_fold; intros acc i; apply scene_kept_resolve_room|].
  intros mentioned.
  kept_bind; [apply scene_kept_modify_rooms; intros r; apply same_room_flags|].
  intros _. kept_bind; [apply scene_kept_set_axes|]. intros _.
  kept_bind; [apply (scene_kept_plot_rooms_linear env receptacle_plot_same)|].
  intros [hl hu].
  kept_bind; [kept_fold; intros acc p; apply scene_kept_plot_proposition_lines|].
  intros _. kept_bind; [kept_pure|]. intros sc'.
  kept_bind.
  { destruct (negb (PyStr.is_empty (instruction sc')) && show_instruction);
      [apply scene_kept_draw | kept_ret]. }
  intros _. kept_bind.
  { destruct (is_next_tos m).
    - apply scene_kept_draw.
    - kept_bind; [apply scene_kept_draw|]. intros _. apply scene_kept_draw. }
  intros _. kept_bind; [apply scene_kept_draw|]. intros _. kept_ret.
Qed.

Lemma scene_kept_Scene_plot (propositions : option (list Proposition))
    (constraints : option (list Constraint)) (force_hide_instructions : bool) :
  steps scene_kept (Scene_plot env propositions constraints force_hide_instructions).
Proof.
  unfold Scene_plot.
  destruct constraints as [constraints|]; [|kept_raise].
  destruct propositions as [propositions|]; [|kept_raise].
  kept_bind; [kept_pure|]. intros toposort.
  destruct toposort as [|level levels].
  - kept_bind; [apply scene_kept_plot_for_propositions|]. intros [[hl hu] w].
    kept_bind; [apply scene_kept_set_height|]. intros _. kept_ret.
  - kept_bind; [kept_pure|]. intros m.
    kept_bind; [kept_pure|]. intros sc.
    kept_bind; [apply scene_kept_set_axes|]. intros _.
    kept_bind.
    { kept_fold. intros [[[idx n] mu] ml] current_level. unfold plot_level.
      kept_bind; [kept_pure|]. intros props.
      kept_bind; [kept_pure|]. intros ax.
      kept_bind; [apply scene_kept_plot_for_propositions|]. intros [[hl hu] w].
      kept_bind; [apply scene_kept_draw|]. intros _. kept_ret. }
    intros [[[idx n] mu] ml].
    kept_bind; [apply scene_kept_set_height|]. intros _. kept_ret.
Qed.

End FrameScene.

(** X14: [Scene.plot] and [Scene.plot_rooms_linear] rearrange nothing and
    rename nothing, whether they return or raise: afterwards the scene has
    the same config and instruction and the same rooms in the same order,
    each room with its id, its config, its object map and its receptacles
    and objects in the same order, each object with its id, icon, config
    and text position, each receptacle with its id and width.  Only sizes,
    anchors, flags and stacking cursors change.  [Receptacle.plot] is
    assumed to keep the id and the width of a receptacle. *)
Theorem X14_plot_keeps_scene_contents (env : Collaborators)
    (receptacle_plot_same :
       forall (r : Receptacle) (p : Point), same_receptacle r (receptacle_plot env r p))
    (s : Scene * Canvas) :
  (forall propositions constraints force_hide_instructions,
      same_scene (fst s)
        (fst (fst (Scene_plot env propositions constraints
                     force_hide_instructions s))))
  /\ (forall mentioned target_width height_offset all_mentioned_rooms,
        same_scene (fst s)
          (fst (fst (plot_rooms_linear env mentioned target_width height_offset
                       all_mentioned_rooms s)))).
Proof.
  split.
  - intros propositions constraints force_hide_instructions.
    apply (scene_kept_Scene_plot env receptacle_plot_same).
  - intros mentioned target_width height_offset all_mentioned_rooms.
    apply (scene_kept_plot_rooms_linear env receptacle_plot_same).
Qed.

Lemma X14_plot_keeps_scene_contents_witness :
  same_scene (fst (furnished_scene, ([] : Canvas)))
    (fst (fst (Scene_plot example_env (Some [next_to_proposition])
                 (Some [terminal_constraint]) false (furnished_scene, [])))).
Proof.
  exact (proj1 (X14_plot_keeps_scene_contents example_env
                  (fun r p => conj eq_refl eq_refl) (furnished_scene, ([] : Canvas)))
           (Some [next_to_proposition]) (Some [terminal_constraint]) false).
Defined.

(** ** The row loops end *)

(** X15: the two [while] loops of [plot_rooms_linear] end: each iteration
    either moves to the next room or flushes a non-empty row, and a room
    that does not fit into an empty row ends the call with [ValueError], so
    twice the number of rooms plus one iterations are enough.  Neither
    [plot_rooms_linear] nor [Scene.plot] ever stops on that bound. *)
Theorem X15_row_loops_terminate (env : Collaborators) (s : Scene * Canvas) :
  (forall mentioned target_width height_offset all_mentioned_rooms,
      snd (plot_rooms_linear env mentioned target_width height_offset
             all_mentioned_rooms s) <> Raise FuelExhausted)
  /\ (forall propositions constraints force_hide_instructions,
        snd (Scene_plot env propositions constraints force_hide_instructions s)
        <> Raise FuelExhausted).
Proof.
  split.
  - intros mentioned target_width height_offset all_mentioned_rooms.
    pose proof (post_plot_rooms_linear env mentioned target_width height_offset
                  all_mentioned_rooms s) as H.
    destruct (snd (plot_rooms_linear env mentioned target_width height_offset
                     all_mentioned_rooms s)) as [a|e]; [discriminate|].
    intros E. inversion E; subst. apply H. reflexivity.
  - intros propositions constraints force_hide_instructions.
    pose proof (Scene_plot_within_bound env propositions constraints
                  force_hide_instructions s) as H.
    destruct (snd (Scene_plot env propositions constraints
                     force_hide_instructions s)) as [a|e]; [discriminate|].
    intros E. inversion E; subst. apply H. reflexivity.
Qed.

(** ** Rooms selected by id *)

Lemma select_loop_spec (keep : string -> bool) (s : Scene * Canvas) (l : list Room) :
  forall (k : nat) (acc : list nat),
    (forall j, rooms (fst s) !! (k + j)%nat = l !! j) ->
    fold_m (seq k (length l)) acc
      (fun acc i => do room <- room_at i;
                    ret (if keep (room_id room) then (acc ++ [i])%list else acc)) s
    = (s, Ok (acc ++ positions_from k keep l)).
Proof.
  induction l as [|r l IH]; intros k acc Hl.
  - cbn. rewrite app_nil_r. reflexivity.
  - cbn [length seq fold_m positions_from]. unfold bind at 1. unfold bind at 1.
    unfold room_at at 1.
    pose proof (Hl O) as H0. rewrite Nat.add_0_r in H0. cbn in H0. rewrite H0.
    cbn [ret]. rewrite (IH (S k)).
    + destruct (keep (room_id r)); [rewrite <- app_assoc|]; reflexivity.
    + intros j. specialize (Hl (S j)).
      replace (S k + j)%nat with (k + S j)%nat by lia. exact Hl.
Qed.

Lemma select_rooms_spec (keep : string -> bool) (s : Scene * Canvas) :
  select_rooms keep s = (s, Ok (positions_from 0 keep (rooms (fst s)))).
Proof.
  unfold select_rooms. unfold bind at 1. unfold get_scene at 1. cbn [fst].
  rewrite (select_loop_spec keep s (rooms (fst s)) 0 []); [reflexivity|].
  intros j. reflexivity.
Qed.

Lemma positions_from_range (keep : string -> bool) (l : list Room) :
  forall (k i : nat), In i (positions_from k keep l) -> (k <= i < k + length l)%nat.
Proof.
  induction l as [|r l IH]; intros k i Hi; cbn in Hi; [destruct Hi|].
  cbn [length]. destruct (keep (room_id r)).
  - destruct Hi as [<-|Hi]; [lia|]. apply IH in Hi. lia.
  - apply IH in Hi. lia.
Qed.

Lemma positions_from_lookup (keep : string -> bool) (l : list Room) :
  forall (k i : nat),
    In i (positions_from k keep l) <->
    exists r, l !! (i - k)%nat = Some r /\ (k <= i)%nat /\ keep (room_id r) = true.
Proof.
  induction l as [|r l IH]; intros k i; cbn [positions_from].
  - split; [intros [] | intros (r & Hr & _); discriminate].
  - assert (Hrest : In i (positions_from (S k) keep l) <->
                    exists r', (r :: l) !! (i - k)%nat = Some r' /\ (S k <= i)%nat
                               /\ keep (room_id r') = true).
    { rewrite IH. split; intros (r' & Hr' & Hk & Hkeep); exists r'.
      - split; [|split; [exact Hk | exact Hkeep]].
        replace (i - k)%nat with (S (i - S k)) by lia. exact Hr'.
      - split; [|split; [exact Hk | exact Hkeep]].
        replace (i - k)%nat with (S (i - S k)) in Hr' by lia. exact Hr'. }
    destruct (keep (room_id r)) eqn:Hkeep.
    + cbn [In]. rewrite Hrest. split.
      * intros [<-|(r' & Hr' & Hk & Hkeep')].
        -- exists r. rewrite Nat.sub_diag. split; [reflexivity|]. split; [lia|exact Hkeep].
        -- exists r'. split; [exact Hr'|]. split; [lia | exact Hkeep'].
      * intros (r' & Hr' & Hk & Hkeep').
        destruct (decide (i = k)) as [->|Hne]; [left; reflexivity|].
        right. exists r'. split; [exact Hr'|]. split; [lia | exact Hkeep'].
    + rewrite Hrest. split.
      * intros (r' & Hr' & Hk & Hkeep'). exists r'.
        split; [exact Hr'|]. split; [lia | exact Hkeep'].
      * intros (r' & Hr' & Hk & Hkeep').
        destruct (decide (i = k)) as [->|Hne].
        -- rewrite Nat.sub_diag in Hr'. cbn in Hr'. inversion Hr'; subst. congruence.
        -- exists r'. split; [exact Hr'|]. split; [lia | exact Hkeep'].
Qed.

Lemma positions_from_split (keep : string -> bool) (l : list Room) :
  forall k : nat,
    Permutation (positions_from k keep l
                 ++ positions_from k (fun id => negb (keep id)) l)
                (seq k (length l)).
Proof.
  induction l as [|r l IH]; intros k; cbn [positions_from length seq];
    [reflexivity|].
  destruct (keep (room_id r)); cbn [negb].
  - cbn [app]. constructor. apply IH.
  - rewrite <- Permutation_middle. constructor. apply IH.
Qed.

Lemma positions_from_sorted (keep : string -> bool) (l : list Room) :
  forall k : nat, StronglySorted lt (positions_from k keep l).
Proof.
  induction l as [|r l IH]; intros k; cbn [positions_from]; [constructor|].
  destruct (keep (room_id r)); [|apply IH].
  constructor; [apply IH|].
  apply List.Forall_forall. intros i Hi. apply positions_from_range in Hi. lia.
Qed.

(** X16: with a target width, the order in which [plot_rooms_linear] lays
    the rooms out ([all_rooms]) lists every room of the scene exactly once:
    first the rooms whose id is among the mentioned ones, in scene order,
    then all the others, in scene order.  Building the two parts reads the
    scene and changes nothing. *)
Theorem X16_layout_order_lists_each_room_once (keep : string -> bool)
    (s : Scene * Canvas) :
  exists front back : list nat,
    select_rooms keep s = (s, Ok front)
    /\ select_rooms (fun id => negb (keep id)) s = (s, Ok back)
    /\ Permutation (front ++ back) (seq 0 (length (rooms (fst s))))
    /\ StronglySorted lt front /\ StronglySorted lt back
    /\ (forall i, In i front <->
                  exists r, rooms (fst s) !! i = Some r /\ keep (room_id r) = true)
    /\ (forall i, In i back <->
                  exists r, rooms (fst s) !! i = Some r /\ keep (room_id r) = false).
Proof.
  exists (positions_from 0 keep (rooms (fst s))),
         (positions_from 0 (fun id => negb (keep id)) (rooms (fst s))).
  split; [apply select_rooms_spec|]. split; [apply select_rooms_spec|].
  split; [apply positions_from_split|].
  split; [apply positions_from_sorted|]. split; [apply positions_from_sorted|].
  split; intros i; rewrite positions_from_lookup, Nat.sub_0_r.
  - split; intros (r & Hr & H); exists r; [tauto|]. split; [exact Hr|]. split; [lia|exact H].
  - split.
    + intros (r & Hr & _ & H). exists r. split; [exact Hr|].
      apply negb_true_iff. exact H.
    + intros (r & Hr & H). exists r. split; [exact Hr|]. split; [lia|].
      rewrite H. reflexivity.
Qed.

(** ** Scenes that cannot be laid out *)

Lemma positions_from_none (keep : string -> bool) (l : list Room) :
  Forall (fun r => keep (room_id r) = false) l ->
  forall k : nat, positions_from k keep l = [].
Proof.
  induction 1 as [|r l Hr _ IH]; intros k; cbn [positions_from]; [reflexivity|].
  rewrite Hr. apply IH.
Qed.

Lemma first_row_skip (env : Collaborators) (mentioned : list string)
    (s : Scene * Canvas) (l : list Room) :
  Forall (fun r => str_in (room_id r) mentioned = false) l ->
  forall (k : nat) (acc : Q),
    (forall j, rooms (fst s) !! (k + j)%nat = l !! j) ->
    fold_m (seq k (length l)) acc
      (fun first_row_position i =>
         do room <- room_at i;
         if str_in (room_id room) mentioned then
           run plot_room env i (first_row_position, 0) None;
           do room' <- room_at i;
           ret (first_row_position + width room')
         else ret first_row_position) s
    = (s, Ok acc).
Proof.
  induction 1 as [|r l Hr _ IH]; intros k acc Hl; [reflexivity|].
  cbn [length seq fold_m]. unfold bind at 1. unfold bind at 1. unfold room_at at 1.
  pose proof (Hl O) as H0. rewrite Nat.add_0_r in H0. cbn in H0. rewrite H0, Hr.
  cbn [ret]. apply IH. intros j. specialize (Hl (S j)).
  replace (S k + j)%nat with (k + S j)%nat by lia. exact Hl.
Qed.

(** X17: without a target width, [plot_rooms_linear] needs a mentioned
    room: when no room of the scene has its id among the mentioned ones
    (an empty scene included), the height of the first row is the maximum
    of an empty sequence and the call ends with [ValueError], having set
    the scene width to zero and drawn nothing. *)
Theorem X17_no_mentioned_room_raises (env : Collaborators) (mentioned : list string)
    (height_offset : Q) (all_mentioned_rooms : option (list string))
    (s : Scene * Canvas) :
  Forall (fun r => str_in (room_id r) mentioned = false) (rooms (fst s)) ->
  plot_rooms_linear env mentioned None height_offset all_mentioned_rooms s
  = ((Scene_set_width 0 (fst s), snd s), Raise ValueError).
Proof.
  intros Hnone. unfold plot_rooms_linear, plot_rooms_linear_free.
  unfold bind at 1. unfold get_scene at 1. cbn [fst].
  unfold bind at 1.
  rewrite (first_row_skip env mentioned s (rooms (fst s)) Hnone 0 0)
    by (intros j; reflexivity).
  unfold bind at 1. unfold modify_scene at 1. cbn [fst snd].
  unfold bind at 1. rewrite select_rooms_spec. cbn [fst rooms Scene_set_width].
  rewrite (positions_from_none _ _ Hnone). reflexivity.
Qed.

Lemma X17_no_mentioned_room_raises_witness :
  plot_rooms_linear example_env ["garage_0"%string] None 0 None (example_scene, [])
  = ((Scene_set_width 0 (fst (example_scene, ([] : Canvas))),
      snd (example_scene, ([] : Canvas))), Raise ValueError).
Proof.
  apply (X17_no_mentioned_room_raises example_env ["garage_0"%string] 0 None
           (example_scene, [])).
  repeat constructor.
Defined.

Lemma flush_row_empty (env : Collaborators) (target_width row_height : Q)
    (s : Scene * Canvas) :
  flush_row env target_width [] row_height s = (s, Raise ValueError).
Proof. reflexivity. Qed.

(** X18: with a target width, a room wider than the target cannot be
    placed: it does not fit into the empty row either, the empty row is
    flushed, and the maximum of an empty sequence raises.  When every room
    of the scene is wider than the target (an empty scene included),
    [plot_rooms_linear] ends with [ValueError], having set the scene width
    to the target and recomputed the room sizes, and drawn nothing. *)
Theorem X18_target_narrower_than_every_room_raises (env : Collaborators)
    (mentioned : list string) (target : Q) (height_offset : Q)
    (all_mentioned_rooms : option (list string)) (s : Scene * Canvas) :
  Forall (fun r => target < width (init_size r)) (rooms (fst s)) ->
  plot_rooms_linear env mentioned (Some target) height_offset all_mentioned_rooms s
  = ((Scene_set_rooms (map init_size (rooms (fst s)))
        (Scene_set_width target (fst s)), snd s),
     Raise ValueError).
Proof.
  intros Hwide. unfold plot_rooms_linear, plot_rooms_linear_target.
  unfold bind at 1. unfold modify_scene at 1. cbn [fst snd].
  unfold bind at 1. rewrite select_rooms_spec.
  unfold bind at 1. rewrite select_rooms_spec.
  cbn [fst snd rooms Scene_set_width].
  unfold bind at 1. unfold modify_scene at 1.
  cbn [fst snd rooms Scene_set_width].
  set (s2 := (Scene_set_rooms (map init_size (rooms (fst s)))
                (Scene_set_width target (fst s)), snd s)).
  pose proof (positions_from_split
                (fun id => str_in id match all_mentioned_rooms with
                                     | Some l => l
                                     | None => mentioned
                                     end) (rooms (fst s)) 0) as Hperm.
  cbv beta in Hperm.
  match goal with
  | |- context [while_loop (2 * length ?a + 1)] =>
      remember a as all_rooms eqn:Hall
  end.
  clear Hall. unfold bind at 1.
  destruct all_rooms as [|i rest].
  - cbn [length Nat.mul Nat.add while_loop Nat.ltb Nat.leb rl_i].
    unfold bind at 1. cbn [rl_rooms rl_height]. rewrite flush_row_empty. reflexivity.
  - assert (Hin : In i (seq 0 (length (rooms (fst s))))).
    { eapply Permutation_in; [exact Hperm|]. left. reflexivity. }
    apply in_seq in Hin.
    destruct (rooms (fst s) !! i) as [r|] eqn:Hi;
      [|apply lookup_ge_None in Hi; lia].
    replace (2 * length (i :: rest) + 1)%nat with (S (2 * length (i :: rest)))
      by lia.
    cbn [while_loop rl_i length Nat.ltb Nat.leb].
    unfold bind at 1. unfold target_body at 1. cbn [rl_i lookup list_lookup].
    unfold bind at 1. unfold room_at at 1.
    assert (Hi2 : rooms (fst s2) !! i = Some (init_size r)).
    { subst s2. cbn [fst rooms Scene_set_rooms].
      change (map init_size) with (fmap (M := list) init_size).
      rewrite list_lookup_fmap, Hi. reflexivity. }
    rewrite Hi2. unfold bind at 1. unfold get_scene at 1. cbn [fst].
    assert (Hw : Qle_bool (width (init_size r) + 0) target = false).
    { destruct (Qle_bool (width (init_size r) + 0) target) eqn:E; [|reflexivity].
      apply Qle_bool_iff in E.
      rewrite List.Forall_forall in Hwide.
      assert (Hr : target < width (init_size r)).
      { apply Hwide. apply list_elem_of_In. eapply list_elem_of_lookup_2. exact Hi. }
      qlra. }
    subst s2. cbn [fst scene_width Scene_set_rooms Scene_set_width rl_width].
    rewrite Hw. unfold bind at 1. cbn [rl_rooms rl_height].
    rewrite flush_row_empty. reflexivity.
Qed.

Lemma X18_target_narrower_than_every_room_raises_witness :
  plot_rooms_linear example_env [] (Some 50) 0 None (example_scene, [])
  = ((Scene_set_rooms (map init_size (rooms (fst (example_scene, ([] : Canvas)))))
        (Scene_set_width 50 (fst (example_scene, ([] : Canvas)))),
      snd (example_scene, ([] : Canvas))),
     Raise ValueError).
Proof.
  apply (X18_target_narrower_than_every_room_raises example_env [] 50 0 None
           (example_scene, [])).
  repeat constructor.
Defined.

(** ** Constraints *)

Lemma find_toposort_no_temporal (constraints : list Constraint) :
  Forall (fun c => constraint_type c <> "TemporalConstraint"%string) constraints ->
  forall cur, find_toposort cur constraints = Ok cur.
Proof.
  induction 1 as [|c cs Hc _ IH]; intros cur; cbn [find_toposort]; [reflexivity|].
  apply String.eqb_neq in Hc. rewrite Hc. apply IH.
Qed.

Lemma find_toposort_last (cs1 : list Constraint) :
  forall (cur : list (list Z)) (c : Constraint) (cs2 : list Constraint)
         (t : list (list Z)),
    Forall (fun c' => constraint_type c' = "TemporalConstraint"%string ->
                      toposort c' <> None) cs1 ->
    constraint_type c = "TemporalConstraint"%string ->
    toposort c = Some t ->
    Forall (fun c' => constraint_type c' <> "TemporalConstraint"%string) cs2 ->
    find_toposort cur (cs1 ++ c :: cs2) = Ok t.
Proof.
  induction cs1 as [|c1 cs1 IH]; intros cur c cs2 t H1 Hc Ht H2.
  - cbn [app find_toposort]. apply String.eqb_eq in Hc. rewrite Hc, Ht.
    cbn [arg outcome_bind]. apply find_toposort_no_temporal, H2.
  - inversion H1 as [|x l Hx Hl]; subst. cbn [app find_toposort].
    destruct (String.eqb (constraint_type c1) "TemporalConstraint") eqn:E.
    + apply String.eqb_eq in E. specialize (Hx E).
      destruct (toposort c1) as [t1|]; [|contradiction].
      cbn [arg outcome_bind]. apply IH; assumption.
    + apply IH; assumption.
Qed.

Lemma find_toposort_raises (constraints : list Constraint) :
  forall (cur : list (list Z)) (e : PyError),
    find_toposort cur constraints = Raise e ->
    e = KeyError
    /\ exists c, In c constraints
                 /\ constraint_type c = "TemporalConstraint"%string
                 /\ toposort c = None.
Proof.
  induction constraints as [|c cs IH]; intros cur e E; cbn [find_toposort] in E;
    [discriminate|].
  destruct (String.eqb (constraint_type c) "TemporalConstraint") eqn:Hc.
  - destruct (toposort c) as [t|] eqn:Ht; cbn [arg outcome_bind] in E.
    + destruct (IH _ _ E) as (He & c' & Hin & H1 & H2).
      split; [exact He|]. exists c'. split; [right; exact Hin|]. split; assumption.
    + inversion E; subst. split; [reflexivity|]. exists c.
      split; [left; reflexivity|]. split; [apply String.eqb_eq, Hc | exact Ht].
  - destruct (IH _ _ E) as (He & c' & Hin & H1 & H2).
    split; [exact He|]. exists c'. split; [right; exact Hin|]. split; assumption.
Qed.

(** X19: of the constraints only the temporal ones count, and of these the
    last: [Scene.plot] behaves as if it had been given that constraint
    alone, and as if it had been given no constraint when none is temporal.
    A temporal constraint without a ["toposort"] entry is the one way in
    which reading the constraints fails, with [KeyError]. *)
Theorem X19_last_temporal_constraint_wins (env : Collaborators)
    (propositions : option (list Proposition)) (force_hide_instructions : bool) :
  (forall constraints,
      Forall (fun c => constraint_type c <> "TemporalConstraint"%string) constraints ->
      Scene_plot env propositions (Some constraints) force_hide_instructions
      = Scene_plot env propositions (Some []) force_hide_instructions)
  /\ (forall cs1 c cs2 t,
        Forall (fun c' => constraint_type c' = "TemporalConstraint"%string ->
                          toposort c' <> None) cs1 ->
        constraint_type c = "TemporalConstraint"%string ->
        toposort c = Some t ->
        Forall (fun c' => constraint_type c' <> "TemporalConstraint"%string) cs2 ->
        Scene_plot env propositions (Some (cs1 ++ c :: cs2)) force_hide_instructions
        = Scene_plot env propositions (Some [c]) force_hide_instructions)
  /\ (forall constraints e,
        find_toposort [] constraints = Raise e ->
        e = KeyError
        /\ exists c, In c constraints
                     /\ constraint_type c = "TemporalConstraint"%string
                     /\ toposort c = None).
Proof.
  split; [|split].
  - intros constraints Hnone. unfold Scene_plot.
    rewrite (find_toposort_no_temporal constraints Hnone). reflexivity.
  - intros cs1 c cs2 t H1 Hc Ht H2. unfold Scene_plot.
    rewrite (find_toposort_last cs1 [] c cs2 t H1 Hc Ht H2).
    assert (E : find_toposort [] [c] = Ok t).
    { apply (find_toposort_last [] [] c [] t); try assumption; constructor. }
    rewrite E. reflexivity.
  - intros constraints e. apply find_toposort_raises.
Qed.

(** ** The rooms kept in front *)

Lemma str_in_iff (x : string) (l : list string) : str_in x l = true <-> In x l.
Proof.
  unfold str_in. rewrite existsb_exists. split.
  - intros (y & Hy & E). apply String.eqb_eq in E. subst. exact Hy.
  - intros Hx. exists x. split; [exact Hx | apply String.eqb_refl].
Qed.

Lemma mention_In (id x : string) (l : list string) :
  In x (mention id l) <-> x = id \/ In x l.
Proof.
  unfold mention. destruct (str_in id l) eqn:E; cbn [negb].
  - apply str_in_iff in E. split; [intros H; right; exact H|].
    intros [->|H]; assumption.
  - rewrite in_app_iff. cbn [In]. split.
    + intros [H|[<-|[]]]; [right; exact H | left; reflexivity].
    + intros [->|H]; [right; left; reflexivity | left; exact H].
Qed.

Lemma mention_objects_In (room : Room) (objs : list string) :
  forall (acc : list string) (x : string),
    In x (fold_left (fun mentioned obj =>
                       match find_object_by_id room obj with
                       | Some _ => mention (room_id room) mentioned
                       | None => mentioned
                       end) objs acc)
    <-> In x acc
        \/ (x = room_id room
            /\ exists obj, In obj objs /\ find_object_by_id room obj <> None).
Proof.
  induction objs as [|obj objs IH]; intros acc x; cbn [fold_left].
  - split; [intros H; left; exact H | intros [H|(_ & o & [] & _)]; exact H].
  - rewrite IH. destruct (find_object_by_id room obj) as [p|] eqn:E.
    + rewrite mention_In. split.
      * intros [[->|H]|(Hx & o & Ho & Hf)].
        -- right. split; [reflexivity|]. exists obj. split; [left; reflexivity|].
           congruence.
        -- left. exact H.
        -- right. split; [exact Hx|]. exists o. split; [right; exact Ho | exact Hf].
      * intros [H|(Hx & o & [<-|Ho] & Hf)].
        -- left. right. exact H.
        -- left. left. exact Hx.
        -- right. split; [exact Hx|]. exists o. split; assumption.
    + split.
      * intros [H|(Hx & o & Ho & Hf)]; [left; exact H|].
        right. split; [exact Hx|]. exists o. split; [right; exact Ho | exact Hf].
      * intros [H|(Hx & o & [<-|Ho] & Hf)]; [left; exact H | congruence |].
        right. split; [exact Hx|]. exists o. split; assumption.
Qed.

Lemma mention_receptacles_In (room : Room) (receps : list (string * string)) :
  forall (acc : list string) (x : string),
    In x (fold_left (fun mentioned '(_, recep) =>
                       match find_receptacle_by_id (receptacles room) recep with
                       | Some _ => mention (room_id room) mentioned
                       | None => mentioned
                       end) receps acc)
    <-> In x acc
        \/ (x = room_id room
            /\ exists fn recep, In (fn, recep) receps
                 /\ find_receptacle_by_id (receptacles room) recep <> None).
Proof.
  induction receps as [|[fn recep] receps IH]; intros acc x; cbn [fold_left].
  - split; [intros H; left; exact H | intros [H|(_ & f & r & [] & _)]; exact H].
  - rewrite IH.
    destruct (find_receptacle_by_id (receptacles room) recep) as [p|] eqn:E.
    + rewrite mention_In. split.
      * intros [[->|H]|(Hx & f & r & Hr & Hf)].
        -- right. split; [reflexivity|]. exists fn, recep.
           split; [left; reflexivity | congruence].
        -- left. exact H.
        -- right. split; [exact Hx|]. exists f, r. split; [right; exact Hr | exact Hf].
      * intros [H|(Hx & f & r & [Heq|Hr] & Hf)].
        -- left. right. exact H.
        -- left. left. exact Hx.
        -- right. split; [exact Hx|]. exists f, r. split; assumption.
    + split.
      * intros [H|(Hx & f & r & Hr & Hf)]; [left; exact H|].
        right. split; [exact Hx|]. exists f, r. split; [right; exact Hr | exact Hf].
      * intros [H|(Hx & f & r & [Heq|Hr] & Hf)]; [left; exact H | |].
        -- inversion Heq; subst. congruence.
        -- right. split; [exact Hx|]. exists f, r. split; assumption.
Qed.

Lemma insert_str_In (x y : string) (l : list string) :
  In y (insert_str x l) <-> y = x \/ In y l.
Proof.
  induction l as [|z l IH]; cbn [insert_str In].
  - intuition.
  - destruct (String.ltb z x); cbn [In]; rewrite ?IH; intuition.
Qed.

Lemma sorted_str_In (y : string) (l : list string) : In y (sorted_str l) <-> In y l.
Proof.
  induction l as [|x l IH]; cbn [sorted_str fold_right In]; [reflexivity|].
  fold (sorted_str l). rewrite insert_str_In, IH. intuition.
Qed.

(** X20: on the toposort path the rooms kept in front
    ([all_mentioned_rooms]) are the rooms named by an [is_in_room]
    proposition together with the rooms of the scene that hold a mentioned
    object or a mentioned receptacle, and no others; sorting the list
    changes its order only. *)
Theorem X20_rooms_kept_in_front (m : Mentions) (rms : list Room) (id : string) :
  In id (sorted_str (mentioned_rooms_toposort m rms))
  <-> In id (mentioned_rooms m)
      \/ exists room, In room rms /\ room_id room = id /\ holds_mentioned m room.
Proof.
  rewrite sorted_str_In. unfold mentioned_rooms_toposort.
  generalize (mentioned_rooms m) as acc.
  induction rms as [|room rms IH]; intros acc; cbn [fold_left].
  - split; [intros H; left; exact H | intros [H|(r & [] & _)]; exact H].
  - rewrite IH, mention_receptacles_In, mention_objects_In. unfold holds_mentioned.
    split.
    + intros [[[H|(Hx & Hobj)]|(Hx & Hrec)]|(r & Hr & Hid & Hh)].
      * left. exact H.
      * right. exists room. split; [left; reflexivity|]. split; [congruence|].
        left. exact Hobj.
      * right. exists room. split; [left; reflexivity|]. split; [congruence|].
        right. exact Hrec.
      * right. exists r. split; [right; exact Hr|]. split; assumption.
    + intros [H|(r & [<-|Hr] & Hid & [Hobj|Hrec])].
      * left. left. left. exact H.
      * left. left. right. split; [congruence | exact Hobj].
      * left. right. split; [congruence | exact Hrec].
      * right. exists r. split; [exact Hr|]. split; [exact Hid | left; exact Hobj].
      * right. exists r. split; [exact Hr|]. split; [exact Hid | right; exact Hrec].
Qed.

(** ** The arrows of a proposition *)

Section ArrowsAdded.

Variable dashed : bool.
Variable color : string.

Lemma arrows_added_refl (s : Scene * Canvas) : arrows_added dashed color s s.
Proof.
  split; [reflexivity|]. exists []. split; [rewrite app_nil_r; reflexivity|constructor].
Qed.

Lemma arrows_added_trans (s1 s2 s3 : Scene * Canvas) :
  arrows_added dashed color s1 s2 -> arrows_added dashed color s2 s3 ->
  arrows_added dashed color s1 s3.
Proof.
  intros (H1 & a1 & E1 & F1) (H2 & a2 & E2 & F2). split; [congruence|].
  exists (a1 ++ a2). split; [rewrite E2, E1, app_assoc; reflexivity|].
  apply Forall_app. split; assumption.
Qed.

Lemma arrows_added_call (a b : option Point) :
  steps (arrows_added dashed color) (add_arrow_call a b dashed color).
Proof.
  intros s. unfold add_arrow_call.
  destruct a as [p|], b as [q|]; try apply arrows_added_refl.
  unfold draw. cbn [fst snd]. split; [reflexivity|].
  exists [AddArrow p q dashed color]. split; [reflexivity|].
  constructor; [|constructor]. exists p, q. reflexivity.
Qed.

End ArrowsAdded.

Lemma receptacle_lines_errors (fn color : string) (dashed : bool)
    (c : option Point) (l : list (nat * Receptacle)) :
  forall (s : Scene * Canvas) (e : PyError),
    snd (for_each l
           (fun '(_, receptacle_obj) =>
              if String.eqb fn "is_inside" then
                add_arrow_call c (center_placeholder_position receptacle_obj)
                  dashed color
              else if String.eqb fn "is_on_top" then
                add_arrow_call c (top_placeholder_position receptacle_obj)
                  dashed color
              else ret tt) s) = Raise e ->
    e = TypeError.
Proof.
  induction l as [|[k r] l IH]; intros s e E; cbn [for_each] in E; [discriminate|].
  unfold bind at 1 in E.
  match type of E with
  | context [match ?call with _ => _ end] => destruct call as [s' [[]|e']] eqn:Hcall
  end.
  - eapply IH, E.
  - cbn [snd] in E. inversion E; subst. clear E. revert Hcall.
    unfold add_arrow_call, draw, ret, raise.
    destruct (String.eqb fn "is_inside"), (String.eqb fn "is_on_top"), c;
      try destruct (center_placeholder_position r);
      try destruct (top_placeholder_position r);
      intros Hcall; inversion Hcall; reflexivity.
Qed.

Lemma for_each_errors {A} (P : PyError -> Prop) (l : list A)
    (body : A -> SceneM unit) :
  (forall x s e, snd (body x s) = Raise e -> P e) ->
  forall s e, snd (for_each l body s) = Raise e -> P e.
Proof.
  intros Hb. induction l as [|x l IH]; intros s e E; cbn [for_each] in E;
    [discriminate|].
  unfold bind in E. specialize (Hb x s).
  destruct (body x s) as [s' [[]|e']]; cbn [snd] in *.
  - eapply IH, E.
  - inversion E; subst. apply Hb. reflexivity.
Qed.

(** X21: drawing the arrows of a proposition touches nothing but the axes,
    and adds nothing but arrows, all in the colour given and all dashed or
    all solid: dashed exactly when the proposition names more objects than
    its [number].  This holds also when the call raises: it raises
    [TypeError] when an anchor it needs is still [None] (an object or a
    receptacle that was never plotted), and for an arrow to a room
    [AttributeError] when the room was never plotted. *)
Theorem X21_proposition_arrows (s : Scene * Canvas) (object_names : list string)
    (number : Z) (color : string) :
  let dashed := (number <? Z.of_nat (length object_names))%Z in
  (forall receptacle_names function_name,
      let r := plot_object_to_receptacle_lines object_names receptacle_names
                 number function_name color s in
      arrows_added dashed color s (fst r)
      /\ (forall e, snd r = Raise e -> e = TypeError))
  /\ (forall room_names,
        let r := plot_object_to_room_lines object_names room_names number color s in
        arrows_added dashed color s (fst r)
        /\ (forall e, snd r = Raise e -> e = TypeError \/ e = AttributeError)).
Proof.
  cbv zeta. set (dashed := (number <? Z.of_nat (length object_names))%Z).
  pose proof (arrows_added_refl dashed color) as Hrefl.
  pose proof (arrows_added_trans dashed color) as Htrans.
  split.
  - intros receptacle_names function_name. split.
    + revert s. change (steps (arrows_added dashed color)
                          (plot_object_to_receptacle_lines object_names
                             receptacle_names number function_name color)).
      unfold plot_object_to_receptacle_lines. fold dashed.
      apply (steps_bind _ Htrans); [apply (steps_get_scene _ Hrefl)|]. intros sc.
      apply (steps_for_each _ Hrefl Htrans). intros object_name.
      apply (steps_for_each _ Hrefl Htrans). intros room.
      destruct (find_object_by_id room object_name) as [[j o]|];
        [|apply (steps_ret _ Hrefl)].
      apply (steps_for_each _ Hrefl Htrans). intros receptacle_name.
      apply (steps_for_each _ Hrefl Htrans). intros [k r].
      destruct (String.eqb function_name "is_inside"); [apply arrows_added_call|].
      destruct (String.eqb function_name "is_on_top");
        [apply arrows_added_call | apply (steps_ret _ Hrefl)].
    + unfold plot_object_to_receptacle_lines. fold dashed.
      unfold bind at 1. unfold get_scene at 1. cbn [fst].
      apply (for_each_errors (fun e => e = TypeError)). intros object_name.
      apply (for_each_errors (fun e => e = TypeError)). intros room.
      destruct (find_object_by_id room object_name) as [[j o]|];
        [|intros s0 e E; discriminate].
      apply (for_each_errors (fun e => e = TypeError)). intros receptacle_name.
      apply receptacle_lines_errors.
  - intros room_names. split.
    + revert s. change (steps (arrows_added dashed color)
                          (plot_object_to_room_lines object_names room_names
                             number color)).
      unfold plot_object_to_room_lines. fold dashed.
      apply (steps_bind _ Htrans); [apply (steps_get_scene _ Hrefl)|]. intros sc.
      apply (steps_for_each _ Hrefl Htrans). intros [j o].
      apply (steps_for_each _ Hrefl Htrans). intros room.
      destruct (room_center_position room);
        [apply arrows_added_call | apply (steps_raise _ Hrefl)].
    + unfold plot_object_to_room_lines. fold dashed.
      unfold bind at 1. unfold get_scene at 1. cbn [fst].
      apply (for_each_errors (fun e => e = TypeError \/ e = AttributeError)).
      intros [j o].
      apply (for_each_errors (fun e => e = TypeError \/ e = AttributeError)).
      intros room s0 e.
      destruct (room_center_position room) as [c|].
      * unfold add_arrow_call, draw, raise.
        destruct (center_position o); intros E; inversion E. left. reflexivity.
      * intros E. inversion E. right. reflexivity.
Qed.

(** ** The width of a scene with a target width *)

Lemma width_grows_refl (s : Scene * Canvas) : width_grows s s.
Proof. apply Qle_refl. Qed.

Lemma width_grows_trans (s1 s2 s3 : Scene * Canvas) :
  width_grows s1 s2 -> width_grows s2 s3 -> width_grows s1 s3.
Proof. apply Qle_trans. Qed.

Lemma width_grows_update_room (i : nat) (f : Room -> Room) :
  steps width_grows (update_room i f).
Proof.
  intros s. unfold update_room, width_grows.
  destruct (rooms (fst s) !! i); apply Qle_refl.
Qed.

Lemma width_grows_plot_room (env : Collaborators) (i : nat) (position : Point)
    (target_width : option Q) :
  steps width_grows (plot_room env i position target_width).
Proof.
  intros s. unfold plot_room, width_grows.
  destruct (rooms (fst s) !! i) as [r|]; [|apply Qle_refl].
  destruct (Room_plot env r position (snd s) target_width) as [[r' ax'] res].
  apply Qle_refl.
Qed.

Ltac grows_bind := apply (steps_bind width_grows width_grows_trans).
Ltac grows_ret := apply (steps_ret width_grows width_grows_refl).
Ltac grows_pure :=
  first [ apply (steps_room_at _ width_grows_refl)
        | apply (steps_get_scene _ width_grows_refl)
        | apply (steps_py_max _ width_grows_refl)
        | apply (steps_lift_outcome _ width_grows_refl)
        | apply (steps_rooms_of _ width_grows_refl width_grows_trans)
        | apply (steps_rooms_have_objects _ width_grows_refl width_grows_trans)
        | apply (steps_select_rooms _ width_grows_refl width_grows_trans) ].

Lemma width_grows_flush_row (env : Collaborators) (target_width : Q)
    (row : list nat) (row_height : Q) :
  steps width_grows (flush_row env target_width row row_height).
Proof.
  unfold flush_row.
  grows_bind; [grows_pure|]. intros b.
  grows_bind.
  { apply (steps_for_each _ width_grows_refl width_grows_trans). intros i.
    apply width_grows_update_room. }
  intros _.
  grows_bind; [grows_pure|]. intros rs.
  grows_bind; [grows_pure|]. intros h.
  grows_bind; [grows_pure|]. intros shares.
  grows_bind.
  { apply (steps_fold_m _ width_grows_refl width_grows_trans). intros w [i share].
    grows_bind; [apply width_grows_plot_room|]. intros _.
    grows_bind; [grows_pure|]. intros r. grows_ret. }
  intros w s. unfold bind, get_scene, modify_scene, ret, width_grows.
  cbn [fst snd scene_width Scene_set_width]. apply Q.le_max_r.
Qed.

Lemma width_grows_target_body (env : Collaborators) (target_width : Q)
    (all_rooms : list nat) (st : RowLoop) :
  steps width_grows (target_body env target_width all_rooms st).
Proof.
  unfold target_body.
  destruct (all_rooms !! rl_i st) as [i|];
    [|apply (steps_raise _ width_grows_refl)].
  grows_bind; [grows_pure|]. intros room.
  grows_bind; [grows_pure|]. intros sc.
  destruct (Qle_bool (width room + rl_width st) (scene_width sc)); [grows_ret|].
  grows_bind; [apply width_grows_flush_row|]. intros h. grows_ret.
Qed.

(** X22: with a target width the scene is never narrower than the target:
    [plot_rooms_linear] first sets the scene width to the target, and a
    flushed row can only widen the scene.  This holds on both exits. *)
Theorem X22_scene_at_least_target_wide (env : Collaborators)
    (mentioned : list string) (target height_offset : Q)
    (all_mentioned_rooms : option (list string)) (s : Scene * Canvas) :
  target <= scene_width
              (fst (fst (plot_rooms_linear env mentioned (Some target) height_offset
                           all_mentioned_rooms s))).
Proof.
  unfold plot_rooms_linear, plot_rooms_linear_target.
  unfold bind at 1. unfold modify_scene at 1. cbn [fst snd].
  match goal with
  | |- context [bind ?m ?k (?sc, ?ax)] =>
      assert (Hsteps : steps width_grows (bind m k))
  end.
  { grows_bind; [grows_pure|]. intros front.
    grows_bind; [grows_pure|]. intros back.
    grows_bind.
    { intros s0. unfold modify_scene, width_grows. apply Qle_refl. }
    intros _.
    grows_bind.
    { apply (steps_while _ width_grows_refl width_grows_trans).
      intros l. apply width_grows_target_body. }
    intros st. grows_bind; [apply width_grows_flush_row|]. intros h. grows_ret. }
  apply (Hsteps (Scene_set_width target (fst s), snd s)).
Qed.

(** ** What a flush does to a row *)

Lemma bind_ok_inv {S A B} (m : M S A) (k : A -> M S B) (s s' : S) (b : B) :
  bind m k s = (s', Ok b) ->
  exists s1 a, m s = (s1, Ok a) /\ k a s1 = (s', Ok b).
Proof.
  unfold bind. destruct (m s) as [s1 [a|e]]; intros E; [|discriminate].
  exists s1, a. split; [reflexivity | exact E].
Qed.

Lemma rooms_of_from_ok (row : list nat) (rs : list Room) (s : Scene * Canvas) :
  Forall2 (fun i r => rooms (fst s) !! i = Some r) row rs ->
  forall acc : list Room,
    fold_m row acc (fun acc i => do r <- room_at i; ret (acc ++ [r])%list) s
    = (s, Ok (acc ++ rs)%list).
Proof.
  induction 1 as [|i r row rs Hi _ IH]; intros acc; cbn [fold_m].
  - rewrite app_nil_r. reflexivity.
  - unfold bind at 1. unfold bind at 1. unfold room_at at 1. rewrite Hi.
    cbn [ret]. rewrite IH, <- app_assoc. reflexivity.
Qed.

Lemma rooms_of_ok (row : list nat) (rs : list Room) (s : Scene * Canvas) :
  Forall2 (fun i r => rooms (fst s) !! i = Some r) row rs ->
  rooms_of row s = (s, Ok rs).
Proof. intros H. unfold rooms_of. rewrite (rooms_of_from_ok row rs s H []). reflexivity. Qed.

Lemma update_rooms_ok (g : Room -> Room) (row : list nat) (rs : list Room) :
  forall s : Scene * Canvas,
    NoDup row ->
    Forall2 (fun i r => rooms (fst s) !! i = Some r) row rs ->
    exists rooms_a : list Room,
      for_each row (fun i => update_room i g) s
      = ((Scene_set_rooms rooms_a (fst s), snd s), Ok tt)
      /\ Forall2 (fun i r => rooms_a !! i = Some (g r)) row rs
      /\ (forall j, ~ In j row -> rooms_a !! j = rooms (fst s) !! j).
Proof.
  revert rs. induction row as [|i row IH]; intros rs s Hnd Hl.
  - inversion Hl; subst. exists (rooms (fst s)). cbn [for_each].
    split; [destruct s as [[c i r w h] ax]; reflexivity|].
    split; [constructor | reflexivity].
  - inversion Hl as [|i' r row' rs' Hi Hrest]; subst.
    apply NoDup_cons in Hnd. destruct Hnd as [Hni Hnd].
    cbn [for_each]. unfold bind at 1. unfold update_room at 1. rewrite Hi.
    set (s1 := (Scene_set_rooms (<[i := g r]> (rooms (fst s))) (fst s), snd s)).
    assert (Hl1 : Forall2 (fun j r' => rooms (fst s1) !! j = Some r') row rs').
    { subst s1. cbn [fst rooms Scene_set_rooms].
      clear IH Hl Hnd. induction Hrest as [|j r' row rs' Hj _ IHr]; constructor.
      - rewrite list_lookup_insert_ne; [exact Hj|].
        intros ->. apply Hni. left.
      - apply IHr. intros Hin. apply Hni. right. exact Hin. }
    destruct (IH rs' s1 Hnd Hl1) as (rooms_a & Hrun & Hrow & Hout).
    exists rooms_a. split; [rewrite Hrun; reflexivity|]. split.
    + constructor; [|exact Hrow].
      rewrite Hout by (intros Hin; apply Hni, list_elem_of_In, Hin).
      subst s1. cbn [fst rooms Scene_set_rooms].
      apply list_lookup_insert_eq. eapply lookup_lt_Some. exact Hi.
    + intros j Hj. rewrite Hout by (intros Hin; apply Hj; right; exact Hin).
      subst s1. cbn [fst rooms Scene_set_rooms].
      apply list_lookup_insert_ne. intros ->. apply Hj. left. reflexivity.
Qed.

Lemma Qsum_cons (x : Q) (l : list Q) : Qsum (x :: l) == x + Qsum l.
Proof.
  unfold Qsum. cbn [fold_left].
  assert (G : forall a b, fold_left Qplus l (a + b) == b + fold_left Qplus l a).
  { induction l as [|y l IH]; intros a b; cbn [fold_left]; [ring|].
    rewrite <- IH. apply fold_left_Qplus_compat. ring. }
  apply G.
Qed.

Lemma Qsum_Forall2 (l l' : list Q) : Forall2 Qeq l l' -> Qsum l == Qsum l'.
Proof.
  induction 1 as [|a b l l' Hab _ IH]; [reflexivity|].
  rewrite !Qsum_cons, Hab, IH. reflexivity.
Qed.

Lemma Qsum_pos (l : list Q) : l <> [] -> Forall (fun x => 0 < x) l -> 0 < Qsum l.
Proof.
  intros Hne Hpos. destruct Hpos as [|x l Hx Hl]; [contradiction|].
  rewrite Qsum_cons. clear Hne.
  assert (G : 0 <= Qsum l).
  { induction Hl as [|y l Hy _ IH]; [apply Qle_refl|]. rewrite Qsum_cons. qlra. }
  qlra.
Qed.

Lemma stretched_width (r : Room) (share : Q) :
  plot_room_width r None + 2 * horizontal_margin (room_config r) <= share ->
  plot_room_width r (Some share) + 2 * horizontal_margin (room_config r) == share.
Proof.
  unfold plot_room_width.
  set (rw := Qmax _ _ + left_pad (room_config r) + right_pad (room_config r)).
  set (hm := horizontal_margin (room_config r)).
  intros Hle.
  assert (E : (share - rw - 2 * hm) / 2 == (share - rw - 2 * hm) * (1 # 2)) by field.
  destruct (Q.max_spec 0 ((share - rw - 2 * hm) / 2)) as [[Hlt ->]|[Hle' ->]].
  - field.
  - rewrite E in Hle'. qlra.
Qed.

Lemma plot_shares_spec (env : Collaborators) (y : Q) (pairs : list (nat * Q)) :
  forall (cur : Q) (s s' : Scene * Canvas) (cur' : Q),
    NoDup (map fst pairs) ->
    Forall (fun p =>
              exists r, rooms (fst s) !! fst p = Some r
                        /\ plot_room_width r None
                           + 2 * horizontal_margin (room_config r) <= snd p) pairs ->
    fold_m pairs cur
      (fun current_row_width '(i, room_target_width) =>
         run plot_room env i (current_row_width, y) (Some room_target_width);
         do room <- room_at i;
         ret (current_row_width + width room)) s
    = (s', Ok cur') ->
    cur' == cur + Qsum (map snd pairs)
    /\ scene_width (fst s') = scene_width (fst s)
    /\ (forall j, ~ In j (map fst pairs) -> rooms (fst s') !! j = rooms (fst s) !! j)
    /\ exists rs' : list Room,
         Forall2 (fun i r' => rooms (fst s') !! i = Some r') (map fst pairs) rs'
         /\ Forall2 (fun sh r' => width r' == sh) (map snd pairs) rs'.
Proof.
  induction pairs as [|[i sh] pairs IH]; intros cur s s' cur' Hnd Hfit Hrun.
  - cbn in Hrun. inversion Hrun; subst. cbn [map]. split; [unfold Qsum; cbn; ring|].
    split; [reflexivity|]. split; [reflexivity|]. exists []. split; constructor.
  - cbn [map fst snd] in *. apply NoDup_cons in Hnd. destruct Hnd as [Hni Hnd].
    inversion Hfit as [|p l Hp Hrest]; subst. cbn [fst snd] in Hp.
    destruct Hp as (r & Hi & Hle).
    cbn [fold_m] in Hrun. apply bind_ok_inv in Hrun.
    destruct Hrun as (s1 & cur1 & Hstep & Hrun).
    apply bind_ok_inv in Hstep. destruct Hstep as (s0 & [] & Hplot & Hstep).
    unfold plot_room in Hplot. rewrite Hi in Hplot.
    pose proof (Room_plot_geometry env r (cur, y) (snd s) (Some sh)) as (_ & Hw & _).
    cbv zeta in Hw.
    destruct (Room_plot env r (cur, y) (snd s) (Some sh)) as [[r' ax'] res].
    cbn [fst] in Hw. inversion Hplot; subst. clear Hplot.
    unfold bind, room_at in Hstep. cbn [fst rooms Scene_set_rooms] in Hstep.
    rewrite list_lookup_insert_eq in Hstep by (eapply lookup_lt_Some; exact Hi).
    cbn [ret] in Hstep. inversion Hstep; subst. clear Hstep.
    assert (Hwr : width r' == sh).
    { rewrite Hw. apply stretched_width. exact Hle. }
    assert (Hfit1 : Forall (fun p =>
                              exists r0,
                                rooms (fst (Scene_set_rooms (<[i := r']> (rooms (fst s)))
                                              (fst s), ax')) !! fst p = Some r0
                                /\ plot_room_width r0 None
                                   + 2 * horizontal_margin (room_config r0) <= snd p)
                      pairs).
    { rewrite List.Forall_forall in Hrest |- *. intros [j shj] Hj.
      destruct (Hrest (j, shj) Hj) as (r0 & Hj0 & Hle0). exists r0.
      split; [|exact Hle0]. cbn [fst snd rooms Scene_set_rooms] in *.
      rewrite list_lookup_insert_ne; [exact Hj0|].
      intros ->. apply Hni. apply list_elem_of_In.
      apply in_map_iff. exists (j, shj). split; [reflexivity | exact Hj]. }
    destruct (IH _ _ _ _ Hnd Hfit1 Hrun) as (Hcur & Hsw & Hout & rs' & Hrs & Hws).
    cbn [fst snd rooms Scene_set_rooms scene_width] in Hsw, Hout.
    split; [rewrite Hcur, Qsum_cons, Hwr; ring|].
    split; [exact Hsw|]. split.
    + intros j Hj. rewrite Hout by (intros Hin; apply Hj; right; exact Hin).
      apply list_lookup_insert_ne. intros ->. apply Hj. left. reflexivity.
    + exists (r' :: rs'). split; constructor; try assumption.
      rewrite Hout by (intros Hin; apply Hni, list_elem_of_In, Hin).
      apply list_lookup_insert_eq. eapply lookup_lt_Some. exact Hi.
Qed.

Lemma natural_width_unmapped (r : Room) :
  (forall o, In o (objects_list r) ->
             mapped_receptacle (object_to_recep r) o = None) ->
  plot_room_width r None + 2 * horizontal_margin (room_config r)
  == width (init_size r).
Proof.
  intros Hmap. unfold plot_room_width, init_size.
  cbn [width Room_set_geometry].
  rewrite (fold_unmapped_widths _ _ Hmap). ring.
Qed.

Lemma share_at_least_width (w total target : Q) :
  0 < w -> 0 < total -> total <= target -> w <= w * (target / total).
Proof.
  intros Hw Ht Hle.
  assert (H1 : 1 <= target / total).
  { apply Qle_shift_div_l; [exact Ht|]. qlra. }
  apply Qle_trans with (w * 1); [rewrite Qmult_1_r; apply Qle_refl|].
  apply Qmult_le_l; assumption.
Qed.

Lemma Qmax_eq_l (a b c : Q) : a == b -> Qmax a c == Qmax b c.
Proof.
  intros E.
  destruct (Q.max_spec a c) as [[H1 ->]|[H1 ->]];
    destruct (Q.max_spec b c) as [[H2 ->]|[H2 ->]]; qlra.
Qed.

Lemma Forall2_lookup_map {A B} (g : B -> A) (l : list A) (row : list nat)
    (rs : list B) :
  Forall2 (fun i r => l !! i = Some (g r)) row rs ->
  Forall2 (fun i r => l !! i = Some r) row (map g rs).
Proof. induction 1; cbn [map]; constructor; assumption. Qed.

Lemma combine_fst {A B} (l : list A) (l' : list B) :
  length l = length l' -> map fst (combine l l') = l.
Proof.
  revert l'. induction l as [|x l IH]; intros [|y l'] E; try discriminate;
    [reflexivity|].
  cbn. f_equal. apply IH. injection E as E. exact E.
Qed.

Lemma combine_snd {A B} (l : list A) (l' : list B) :
  length l = length l' -> map snd (combine l l') = l'.
Proof.
  revert l'. induction l as [|x l IH]; intros [|y l'] E; try discriminate;
    [reflexivity|].
  cbn. f_equal. apply IH. injection E as E. exact E.
Qed.

Lemma shares_fit (b : bool) (total target : Q) (l : list Room) :
  0 < total -> total <= target ->
  forall (rs : list Room) (row : list nat),
    Forall2 (fun i r =>
               l !! i = Some (init_size (Room_set_use_full_height b r))) row rs ->
    Forall plain_room rs ->
    Forall (fun p =>
              exists r, l !! fst p = Some r
                        /\ plot_room_width r None
                           + 2 * horizontal_margin (room_config r) <= snd p)
      (combine row
         (map (fun room : Room => width room * (target / total))
            (map (fun r => init_size (Room_set_use_full_height b r)) rs))).
Proof.
  intros Hpos Hle. induction rs as [|r rs IH]; intros row Hl Hplain.
  - inversion Hl; subst. constructor.
  - inversion Hl as [|i r' row' rs' Hi Hrest]; subst.
    inversion Hplain as [|r0 l0 [Hw Hmap] Hplain']; subst.
    cbn [map combine]. constructor; [|apply IH; assumption].
    cbn [fst snd]. exists (init_size (Room_set_use_full_height b r)).
    split; [exact Hi|].
    change (plot_room_width (init_size (Room_set_use_full_height b r)) None)
      with (plot_room_width r None).
    change (room_config (init_size (Room_set_use_full_height b r)))
      with (room_config r).
    change (width (init_size (Room_set_use_full_height b r)))
      with (width (init_size r)).
    rewrite (natural_width_unmapped r Hmap).
    apply share_at_least_width; assumption.
Qed.

Lemma shares_widths (b : bool) (k : Q) (rs : list Room) :
  forall rs' : list Room,
    Forall2 (fun sh r' => width r' == sh)
      (map (fun room : Room => width room * k)
         (map (fun r => init_size (Room_set_use_full_height b r)) rs)) rs' ->
    Forall2 (fun r r' => width r' == width (init_size r) * k) rs rs'.
Proof.
  induction rs as [|r rs IH]; intros rs' H; inversion H; subst; constructor.
  - assumption.
  - apply IH. assumption.
Qed.

Lemma Forall2_widths_Qeq (shares : list Q) (rs' : list Room) :
  Forall2 (fun sh r' => width r' == sh) shares rs' ->
  Forall2 Qeq (map width rs') shares.
Proof. induction 1; cbn [map]; constructor; assumption. Qed.

(** What a flush does to a row of plain rooms that fits the target, in exact
    arithmetic: each room gets its share as width and the shares add up to
    the target. *)
Lemma flush_row_spec (env : Collaborators) (target row_height : Q)
    (row : list nat) (rs : list Room) (s s' : Scene * Canvas) (h' : Q) :
  NoDup row ->
  rs <> [] ->
  Forall2 (fun i r => rooms (fst s) !! i = Some r) row rs ->
  Forall plain_room rs ->
  Qsum (map (fun r => width (init_size r)) rs) <= target ->
  flush_row env target row row_height s = (s', Ok h') ->
  exists rs' : list Room,
    Forall2 (fun i r' => rooms (fst s') !! i = Some r') row rs'
    /\ Forall2 (fun r r' =>
                  width r' == width (init_size r)
                              * (target / Qsum (map (fun r => width (init_size r)) rs)))
         rs rs'
    /\ Qsum (map width rs') == target
    /\ scene_width (fst s') == Qmax target (scene_width (fst s))
    /\ (forall j, ~ In j row -> rooms (fst s') !! j = rooms (fst s) !! j).
Proof.
  intros Hnd Hne Hl Hplain Hle Hrun.
  assert (Hpos : 0 < Qsum (map (fun r => width (init_size r)) rs)).
  { apply Qsum_pos.
    - destruct rs; [contradiction | discriminate].
    - apply Forall_map. eapply Forall_impl; [exact Hplain|]. intros r [Hr _]. exact Hr. }
  unfold flush_row in Hrun.
  unfold bind at 1 in Hrun. unfold rooms_have_objects at 1 in Hrun.
  unfold bind at 1 in Hrun. rewrite (rooms_of_ok row rs s Hl) in Hrun.
  cbn [ret] in Hrun.
  set (b := existsb has_objects rs) in Hrun. clearbody b.
  destruct (update_rooms_ok
              (fun room => init_size (Room_set_use_full_height b room))
              row rs s Hnd Hl) as (rooms_a & Hupd & Hrow & Hout).
  unfold bind at 1 in Hrun. rewrite Hupd in Hrun.
  set (sa := (Scene_set_rooms rooms_a (fst s), snd s)) in *.
  set (grs := map (fun r => init_size (Room_set_use_full_height b r)) rs) in *.
  assert (Hla : Forall2 (fun i r => rooms (fst sa) !! i = Some r) row grs).
  { subst sa grs. cbn [fst rooms Scene_set_rooms].
    apply Forall2_lookup_map. exact Hrow. }
  unfold bind at 1 in Hrun. rewrite (rooms_of_ok row grs sa Hla) in Hrun.
  unfold bind at 1 in Hrun.
  destruct (map height grs) as [|h0 hs] eqn:Hheights.
  { subst grs. destruct rs; [contradiction | discriminate]. }
  cbn [py_max ret] in Hrun.
  assert (Htotal : Qsum (map width grs)
                   = Qsum (map (fun r => width (init_size r)) rs)).
  { subst grs. rewrite map_map. reflexivity. }
  unfold bind at 1 in Hrun.
  rewrite redistribute_ok in Hrun by (rewrite Htotal; qlra).
  rewrite Htotal in Hrun. cbn [lift_outcome ret] in Hrun.
  apply bind_ok_inv in Hrun. destruct Hrun as (s5 & cur & Hfold & Hrun).
  set (total := Qsum (map (fun r => width (init_size r)) rs)) in *.
  set (shares := map (fun room : Room => width room * (target / total)) grs) in *.
  assert (Hlen : length row = length shares).
  { subst shares grs. rewrite !length_map. eapply Forall2_length. exact Hl. }
  assert (Hfit : Forall (fun p =>
                           exists r, rooms (fst sa) !! fst p = Some r
                                     /\ plot_room_width r None
                                        + 2 * horizontal_margin (room_config r)
                                        <= snd p) (combine row shares)).
  { subst shares grs sa. cbn [fst rooms Scene_set_rooms].
    apply shares_fit; assumption. }
  rewrite <- (combine_fst row shares Hlen) in Hnd.
  destruct (plot_shares_spec env _ (combine row shares) 0 sa s5 cur Hnd Hfit Hfold)
    as (Hcur & Hsw & Hout5 & rs' & Hrs' & Hws).
  rewrite (combine_fst row shares Hlen) in Hrs', Hout5.
  rewrite (combine_snd row shares Hlen) in Hws, Hcur.
  assert (Hshares : Qsum shares == target).
  { subst shares.
    rewrite <- (map_map width (fun w => w * (target / total))).
    rewrite Qsum_scale, Htotal. fold total. field. qlra. }
  unfold bind, get_scene, modify_scene, ret in Hrun. cbn [fst snd] in Hrun.
  inversion Hrun; subst s' h'. clear Hrun.
  cbn [fst rooms scene_width Scene_set_width].
  exists rs'. split; [exact Hrs'|]. split; [|split; [|split]].
  - subst shares grs. apply (shares_widths b). exact Hws.
  - rewrite <- Hshares. apply Qsum_Forall2, Forall2_widths_Qeq, Hws.
  - rewrite Hsw. subst sa. cbn [fst scene_width Scene_set_rooms].
    apply Qmax_eq_l. rewrite Hcur, Hshares. ring.
  - intros j Hj. rewrite Hout5 by exact Hj. subst sa.
    cbn [fst rooms Scene_set_rooms]. apply Hout. exact Hj.
Qed.

Lemma shares_at_least_widths (total target : Q) (rs rs' : list Room) :
  0 < total -> total <= target ->
  Forall plain_room rs ->
  Forall2 (fun r r' => width r' == width (init_size r) * (target / total)) rs rs' ->
  Forall2 (fun r r' => width (init_size r) <= width r') rs rs'.
Proof.
  intros Ht Hle Hp Hshares. induction Hshares as [|r r' l l' Hr _ IH]; constructor.
  - rewrite Hr. apply share_at_least_width; [|exact Ht | exact Hle].
    inversion Hp as [|? ? [Hw _] _]; subst. exact Hw.
  - apply IH. inversion Hp; assumption.
Qed.

(** X23: what a flush does to the rooms.  For a row of distinct rooms of
    positive width, none with an object mapped to a receptacle, whose
    widths sum to at most the target, a flush that returns leaves every
    room of the row at least as wide as [init_size] makes it, touches no
    room outside the row, and makes the scene as wide as the larger of the
    row (the widths of its rooms as plotted, added from left to right) and
    the scene before. *)
Theorem X23_flushed_row_widens_rooms (env : Collaborators) (target row_height : Q)
    (row : list nat) (rs : list Room) (s s' : Scene * Canvas) (h' : Q) :
  NoDup row ->
  rs <> [] ->
  Forall2 (fun i r => rooms (fst s) !! i = Some r) row rs ->
  Forall plain_room rs ->
  Qsum (map (fun r => width (init_size r)) rs) <= target ->
  flush_row env target row row_height s = (s', Ok h') ->
  exists rs' : list Room,
    Forall2 (fun i r' => rooms (fst s') !! i = Some r') row rs'
    /\ Forall2 (fun r r' => width (init_size r) <= width r') rs rs'
    /\ scene_width (fst s') == Qmax (Qsum (map width rs')) (scene_width (fst s))
    /\ (forall j, ~ In j row -> rooms (fst s') !! j = rooms (fst s) !! j).
Proof.
  intros Hnd Hne Hl Hplain Hle Hrun.
  destruct (flush_row_spec env target row_height row rs s s' h'
              Hnd Hne Hl Hplain Hle Hrun) as (rs' & Hrs' & Hws & Hsum & Hsw & Hout).
  assert (Hpos : 0 < Qsum (map (fun r => width (init_size r)) rs)).
  { apply Qsum_pos.
    - destruct rs; [contradiction | discriminate].
    - apply Forall_map. eapply Forall_impl; [exact Hplain|]. intros r [Hr _]. exact Hr. }
  exists rs'. split; [exact Hrs'|]. split; [|split; [|exact Hout]].
  - eapply shares_at_least_widths; eassumption.
  - rewrite Hsw. symmetry. apply Qmax_eq_l. exact Hsum.
Qed.

Lemma X23_flushed_row_widens_rooms_witness :
  let s := (furnished_scene, ([] : Canvas)) in
  let r := flush_row example_env 500 [0; 1]%nat 0 s in
  exists rs' : list Room,
    Forall2 (fun i r' => rooms (fst (fst r)) !! i = Some r') [0; 1]%nat rs'
    /\ Forall2 (fun r0 r' => width (init_size r0) <= width r')
         [furnished_room; pantry_room] rs'
    /\ scene_width (fst (fst r)) == Qmax (Qsum (map width rs')) (scene_width (fst s))
    /\ (forall j, ~ In j [0; 1]%nat -> rooms (fst (fst r)) !! j = rooms (fst s) !! j).
Proof.
  cbv zeta.
  apply (X23_flushed_row_widens_rooms example_env 500 0 [0; 1]%nat
           [furnished_room; pantry_room] (furnished_scene, ([] : Canvas))
           (fst (flush_row example_env 500 [0; 1]%nat 0
                   (furnished_scene, ([] : Canvas))))
           (match snd (flush_row example_env 500 [0; 1]%nat 0
                         (furnished_scene, ([] : Canvas))) with
            | Ok h => h
            | Raise _ => 0
            end)).
  - apply (bool_decide_unpack (NoDup [0; 1]%nat)). vm_compute. exact I.
  - discriminate.
  - repeat constructor.
  - repeat constructor; intros o _; reflexivity.
  - vm_compute. discriminate.
  - vm_compute. reflexivity.
Defined.

(** ** An invariant of a loop that returns *)

Lemma while_inv {L} (Inv : L -> Scene * Canvas -> Prop)
    (cond : L -> Scene * Canvas -> bool) (body : L -> SceneM L) :
  (forall l s l' s', Inv l s -> cond l s = true ->
                     body l s = (s', Ok l') -> Inv l' s') ->
  forall (fuel : nat) (l : L) (s : Scene * Canvas) (l' : L) (s' : Scene * Canvas),
    Inv l s ->
    while_loop fuel cond body l s = (s', Ok l') ->
    Inv l' s' /\ cond l' s' = false.
Proof.
  intros Hb. induction fuel as [|fuel IH]; intros l s l' s' Hinv Hrun;
    cbn [while_loop] in Hrun; destruct (cond l s) eqn:Hc; try discriminate.
  - inversion Hrun; subst. split; assumption.
  - apply bind_ok_inv in Hrun. destruct Hrun as (s1 & l1 & Hstep & Hrun).
    eapply IH; [|exact Hrun]. eapply Hb; eassumption.
  - inversion Hrun; subst. split; assumption.
Qed.

(** ** The first row of the layout without a target width *)

Section FirstRow.

Variable env : Collaborators.
Variable mentioned : list string.

Lemma first_row_kept_refl (s : Scene * Canvas) : first_row_kept mentioned s s.
Proof.
  split; [reflexivity|]. apply Forall2_refl_all. intros r. split; reflexivity.
Qed.

Lemma first_row_kept_trans (s1 s2 s3 : Scene * Canvas) :
  first_row_kept mentioned s1 s2 -> first_row_kept mentioned s2 s3 ->
  first_row_kept mentioned s1 s3.
Proof.
  intros [Hw1 H1] [Hw2 H2]. split; [congruence|].
  revert H2. generalize (rooms (fst s3)). induction H1 as [|a b l1 l2 [Hid Hab] _ IH];
    intros l3 H2; inversion H2 as [|b' c l2' l3' [Hid' Hbc] Hrest]; subst; constructor.
  - split; [congruence|]. intros Hm. specialize (Hab Hm). subst b. apply Hbc, Hm.
  - apply IH, Hrest.
Qed.

Lemma unmentioned_at_kept (s s' : Scene * Canvas) (i : nat) :
  first_row_kept mentioned s s' -> unmentioned_at mentioned s i ->
  unmentioned_at mentioned s' i.
Proof.
  intros [_ H] Hu r' Hr'.
  destruct (Forall2_lookup_r _ _ _ _ _ H Hr') as (r & Hr & Hid & _).
  specialize (Hu r Hr). unfold is_mentioned in *. rewrite Hid. exact Hu.
Qed.

Lemma first_row_kept_insert (s : Scene * Canvas) (i : nat) (r r' : Room)
    (ax' : Canvas) :
  rooms (fst s) !! i = Some r -> room_id r' = room_id r ->
  is_mentioned mentioned r = false ->
  first_row_kept mentioned s
    (Scene_set_rooms (<[i := r']> (rooms (fst s))) (fst s), ax').
Proof.
  intros Hi Hid Hm. split; [reflexivity|]. cbn [fst rooms Scene_set_rooms].
  revert i Hi. induction (rooms (fst s)) as [|x l IH]; intros i Hi; [discriminate|].
  destruct i as [|i]; cbn in Hi |- *.
  - inversion Hi; subst. constructor.
    + split; [exact Hid|]. intros Hm'. congruence.
    + apply Forall2_refl_all. intros a. split; reflexivity.
  - constructor; [split; reflexivity | apply IH, Hi].
Qed.

Lemma first_row_kept_bind {A B} (m : SceneM A) (k : A -> SceneM B)
    (s : Scene * Canvas) :
  first_row_kept mentioned s (fst (m s)) ->
  (forall a s1, m s = (s1, Ok a) -> first_row_kept mentioned s1 (fst (k a s1))) ->
  first_row_kept mentioned s (fst (bind m k s)).
Proof.
  intros Hm Hk. unfold bind. destruct (m s) as [s1 [a|e]]; cbn [fst] in *.
  - eapply first_row_kept_trans; [exact Hm | apply Hk; reflexivity].
  - exact Hm.
Qed.

Lemma Room_plot_room_id (self : Room) (position : Point) (ax : Canvas)
    (target_width : option Q) :
  room_id (fst (fst (Room_plot env self position ax target_width))) = room_id self.
Proof.
  destruct (Room_plot_shape env self position ax target_width)
    as (objs' & recs2 & rh & h & center & extra & res & Hplot & _).
  rewrite Hplot. reflexivity.
Qed.

Lemma first_row_kept_update_room (i : nat) (f : Room -> Room) (s : Scene * Canvas) :
  (forall r, room_id (f r) = room_id r) ->
  unmentioned_at mentioned s i ->
  first_row_kept mentioned s (fst (update_room i f s)).
Proof.
  intros Hf Hu. unfold update_room.
  destruct (rooms (fst s) !! i) as [r|] eqn:Hi; [|apply first_row_kept_refl].
  cbn [fst]. eapply first_row_kept_insert; [exact Hi | apply Hf | apply Hu, Hi].
Qed.

Lemma first_row_kept_plot_room (i : nat) (position : Point)
    (target_width : option Q) (s : Scene * Canvas) :
  unmentioned_at mentioned s i ->
  first_row_kept mentioned s (fst (plot_room env i position target_width s)).
Proof.
  intros Hu. unfold plot_room.
  destruct (rooms (fst s) !! i) as [r|] eqn:Hi; [|apply first_row_kept_refl].
  pose proof (Room_plot_room_id r position (snd s) target_width) as Hid.
  destruct (Room_plot env r position (snd s) target_width) as [[r' ax'] res].
  cbn [fst] in *. eapply first_row_kept_insert; [exact Hi | exact Hid | apply Hu, Hi].
Qed.

Lemma first_row_kept_row_step (set_full_height : option bool) (y w : Q) (i : nat)
    (s : Scene * Canvas) :
  unmentioned_at mentioned s i ->
  first_row_kept mentioned s
    (fst ((run (match set_full_height with
                | Some b => update_room i (Room_set_use_full_height b)
                | None => ret tt
                end);
           run plot_room env i (w, y) None;
           do room <- room_at i;
           ret (w + width room)) s)).
Proof.
  intros Hi. apply first_row_kept_bind.
  - destruct set_full_height as [b|]; [|apply first_row_kept_refl].
    apply first_row_kept_update_room; [intros r; reflexivity | exact Hi].
  - intros [] s1 H1.
    assert (K1 : first_row_kept mentioned s s1).
    { destruct set_full_height as [b|].
      - pose proof (first_row_kept_update_room i (Room_set_use_full_height b) s
                      (fun r => eq_refl) Hi) as K. rewrite H1 in K. exact K.
      - inversion H1; subst. apply first_row_kept_refl. }
    apply first_row_kept_bind.
    + apply first_row_kept_plot_room. eapply unmentioned_at_kept; eassumption.
    + intros [] s2 H2. unfold bind, room_at.
      destruct (rooms (fst s2) !! i); apply first_row_kept_refl.
Qed.

Lemma first_row_kept_plot_row (set_full_height : option bool) (y : Q)
    (row : list nat) :
  forall (w : Q) (s : Scene * Canvas),
    (forall i, In i row -> unmentioned_at mentioned s i) ->
    first_row_kept mentioned s
      (fst (fold_m row w
              (fun current_row_width i =>
                 run (match set_full_height with
                      | Some b => update_room i (Room_set_use_full_height b)
                      | None => ret tt
                      end);
                 run plot_room env i (current_row_width, y) None;
                 do room <- room_at i;
                 ret (current_row_width + width room)) s)).
Proof.
  induction row as [|i row IH]; intros w s Hu; cbn [fold_m];
    [apply first_row_kept_refl|].
  assert (Hi : unmentioned_at mentioned s i) by (apply Hu; left; reflexivity).
  pose proof (first_row_kept_row_step set_full_height y w i s Hi) as Hstep.
  apply first_row_kept_bind; [exact Hstep|].
  intros w1 s1 H1. apply IH. intros j Hj.
  eapply unmentioned_at_kept; [|apply Hu; right; exact Hj].
  rewrite H1 in Hstep. exact Hstep.
Qed.

Lemma first_row_spec (l : list Room) :
  forall (pre : list Room) (acc : Q) (s s1 : Scene * Canvas) (pos : Q),
    rooms (fst s) = (pre ++ l)%list ->
    fold_m (seq (length pre) (length l)) acc
      (fun first_row_position i =>
         do room <- room_at i;
         if str_in (room_id room) mentioned then
           run plot_room env i (first_row_position, 0) None;
           do room' <- room_at i;
           ret (first_row_position + width room')
         else ret first_row_position) s
    = (s1, Ok pos) ->
    exists l1 : list Room,
      rooms (fst s1) = (pre ++ l1)%list
      /\ Forall2 (fun r r1 => room_id r1 = room_id r) l l1
      /\ pos == acc + Qsum (map width (List.filter (is_mentioned mentioned) l1)).
Proof.
  induction l as [|r l IH]; intros pre acc s s1 pos Hrooms Hrun.
  - cbn in Hrun. inversion Hrun; subst. exists [].
    split; [exact Hrooms|]. split; [constructor|]. unfold Qsum. cbn. ring.
  - cbn [length seq fold_m] in Hrun.
    apply bind_ok_inv in Hrun. destruct Hrun as (s0 & pos0 & Hstep & Hrun).
    assert (Hi : rooms (fst s) !! length pre = Some r).
    { rewrite Hrooms. rewrite lookup_app_r by lia.
      rewrite Nat.sub_diag. reflexivity. }
    unfold bind at 1 in Hstep. unfold room_at at 1 in Hstep. rewrite Hi in Hstep.
    destruct (str_in (room_id r) mentioned) eqn:Hm.
    + apply bind_ok_inv in Hstep. destruct Hstep as (sa & [] & Hplot & Hstep).
      unfold plot_room in Hplot. rewrite Hi in Hplot.
      pose proof (Room_plot_room_id r (acc, 0) (snd s) None) as Hid.
      destruct (Room_plot env r (acc, 0) (snd s) None) as [[r' ax'] res].
      cbn [fst] in Hid. inversion Hplot; subst sa res. clear Hplot.
      unfold bind, room_at in Hstep. cbn [fst rooms Scene_set_rooms] in Hstep.
      rewrite list_lookup_insert_eq in Hstep by (eapply lookup_lt_Some; exact Hi).
      cbn [ret] in Hstep. inversion Hstep; subst s0 pos0. clear Hstep.
      assert (Hrooms1 : rooms (fst (Scene_set_rooms (<[length pre := r']> (rooms (fst s)))
                                      (fst s), ax'))
                        = ((pre ++ [r']) ++ l)%list).
      { cbn [fst rooms Scene_set_rooms]. rewrite Hrooms.
        rewrite insert_app_r_alt by lia. rewrite Nat.sub_diag.
        cbn. rewrite <- app_assoc. reflexivity. }
      replace (S (length pre)) with (length (pre ++ [r'])) in Hrun
        by (rewrite length_app; cbn; lia).
      destruct (IH _ _ _ _ _ Hrooms1 Hrun) as (l1 & Hl1 & Hids & Hpos).
      exists (r' :: l1). split; [rewrite Hl1, <- app_assoc; reflexivity|].
      split; [constructor; assumption|].
      cbn [List.filter]. unfold is_mentioned at 1. rewrite Hid, Hm.
      cbn [map]. rewrite Qsum_cons, Hpos. ring.
    + cbn [ret] in Hstep. inversion Hstep; subst s0 pos0. clear Hstep.
      assert (Hrooms1 : rooms (fst s) = ((pre ++ [r]) ++ l)%list).
      { rewrite Hrooms, <- app_assoc. reflexivity. }
      replace (S (length pre)) with (length (pre ++ [r])) in Hrun
        by (rewrite length_app; cbn; lia).
      destruct (IH _ _ _ _ _ Hrooms1 Hrun) as (l1 & Hl1 & Hids & Hpos).
      exists (r :: l1). split; [rewrite Hl1, <- app_assoc; reflexivity|].
      split; [constructor; [reflexivity | assumption]|].
      cbn [List.filter]. unfold is_mentioned at 1. rewrite Hm. exact Hpos.
Qed.

Lemma positions_from_filter (l : list Room) :
  forall pre : list Room,
    Forall2 (fun i r => (pre ++ l) !! i = Some r)
      (positions_from (length pre) (fun id => str_in id mentioned) l)
      (List.filter (is_mentioned mentioned) l).
Proof.
  induction l as [|r l IH]; intros pre; cbn [positions_from List.filter];
    [constructor|].
  specialize (IH (pre ++ [r])). rewrite length_app in IH. cbn [length] in IH.
  rewrite Nat.add_1_r, <- app_assoc in IH. cbn [app] in IH.
  unfold is_mentioned at 1. destruct (str_in (room_id r) mentioned).
  - constructor; [|exact IH].
    rewrite lookup_app_r by lia. rewrite Nat.sub_diag. reflexivity.
  - exact IH.
Qed.

Lemma filter_first_row_kept (l l' : list Room) :
  Forall2 (fun r r' => room_id r' = room_id r
                       /\ (is_mentioned mentioned r = true -> r' = r)) l l' ->
  List.filter (is_mentioned mentioned) l' = List.filter (is_mentioned mentioned) l.
Proof.
  induction 1 as [|r r' l l' [Hid Heq] _ IH]; [reflexivity|].
  cbn [List.filter].
  assert (E : is_mentioned mentioned r' = is_mentioned mentioned r).
  { unfold is_mentioned. rewrite Hid. reflexivity. }
  rewrite E. destruct (is_mentioned mentioned r) eqn:Hm; [|exact IH].
  rewrite (Heq eq_refl), IH. reflexivity.
Qed.

End FirstRow.


Lemma fold_max_spec (l : list Q) :
  forall x : Q,
    x <= fold_left Qmax l x
    /\ Forall (fun y => y <= fold_left Qmax l x) l
    /\ (fold_left Qmax l x == x \/ Exists (fun y => y == fold_left Qmax l x) l).
Proof.
  induction l as [|y l IH]; intros x; cbn [fold_left].
  - split; [apply Qle_refl|]. split; [constructor | left; reflexivity].
  - destruct (IH (Qmax x y)) as (Hle & Hall & Hex).
    assert (Hx : x <= Qmax x y) by apply Q.le_max_l.
    assert (Hy : y <= Qmax x y) by apply Q.le_max_r.
    split; [eapply Qle_trans; eassumption|].
    split; [constructor; [eapply Qle_trans; eassumption | exact Hall]|].
    destruct Hex as [Hm|Hex]; [|right; right; exact Hex].
    destruct (Q.max_spec x y) as [[_ E]|[_ E]].
    + right. left. symmetry. eapply Qeq_trans; [exact Hm | exact E].
    + left. eapply Qeq_trans; [exact Hm | exact E].
Qed.

Lemma py_max_ok (l : list Q) (s s' : Scene * Canvas) (m : Q) :
  py_max l s = (s', Ok m) ->
  s' = s /\ l <> [] /\ Forall (fun y => y <= m) l /\ Exists (fun y => y == m) l.
Proof.
  destruct l as [|x l]; cbn [py_max]; intros E; [discriminate|].
  inversion E; subst. split; [reflexivity|]. split; [discriminate|].
  destruct (fold_max_spec l x) as (Hle & Hall & Hex).
  split; [constructor; assumption|].
  destruct Hex as [Hm|Hex]; [left; symmetry; exact Hm | right; exact Hex].
Qed.

Lemma rooms_of_state (row : list nat) (s s' : Scene * Canvas) (rs : list Room) :
  rooms_of row s = (s', Ok rs) -> s' = s.
Proof.
  intros E.
  pose proof (steps_rooms_of eq (@eq_refl _) (@eq_trans _) row s) as H.
  rewrite E in H. symmetry. exact H.
Qed.

Lemma rooms_have_objects_state (row : list nat) (s s' : Scene * Canvas) (b : bool) :
  rooms_have_objects row s = (s', Ok b) -> s' = s.
Proof.
  intros E.
  pose proof (steps_rooms_have_objects eq (@eq_refl _) (@eq_trans _) row s) as H.
  rewrite E in H. symmetry. exact H.
Qed.

Lemma linear_body_inv (env : Collaborators) (mentioned : list string)
    (s2 : Scene * Canvas) (st st' : RowLoop) (s s' : Scene * Canvas) :
  first_row_kept mentioned s2 s
  /\ (forall i, In i (rl_rooms st) -> unmentioned_at mentioned s i) ->
  linear_body env mentioned st s = (s', Ok st') ->
  first_row_kept mentioned s2 s'
  /\ (forall i, In i (rl_rooms st') -> unmentioned_at mentioned s' i).
Proof.
  intros [Hkept Hrow] Hrun. unfold linear_body in Hrun.
  apply bind_ok_inv in Hrun. destruct Hrun as (s0 & room & Hroom & Hrun).
  unfold room_at in Hroom.
  destruct (rooms (fst s) !! rl_i st) as [r|] eqn:Hr; [|discriminate].
  inversion Hroom; subst s0 room. clear Hroom.
  unfold bind at 1 in Hrun. unfold get_scene at 1 in Hrun.
  destruct (str_in (room_id r) mentioned) eqn:Hm; cbn [negb] in Hrun.
  - inversion Hrun; subst s' st'. split; assumption.
  - destruct (Qle_bool (width r + rl_width st) (scene_width (fst s))).
    + inversion Hrun; subst s' st'. cbn [rl_rooms]. split; [exact Hkept|].
      intros i Hi. apply in_app_or in Hi. destruct Hi as [Hi|[<-|[]]]; [apply Hrow, Hi|].
      intros r0 Hr0. rewrite Hr in Hr0. inversion Hr0; subst. exact Hm.
    + apply bind_ok_inv in Hrun. destruct Hrun as (sa & rs & Hrs & Hrun).
      apply rooms_of_state in Hrs. subst sa.
      apply bind_ok_inv in Hrun. destruct Hrun as (sb & h & Hmax & Hrun).
      apply py_max_ok in Hmax. destruct Hmax as (-> & _).
      apply bind_ok_inv in Hrun. destruct Hrun as (sc & b & Hb & Hrun).
      apply rooms_have_objects_state in Hb. subst sc.
      apply bind_ok_inv in Hrun. destruct Hrun as (sd & w & Hplot & Hrun).
      inversion Hrun; subst s' st'. clear Hrun. cbn [rl_rooms].
      split; [|intros i []].
      eapply first_row_kept_trans; [exact Hkept|].
      pose proof (first_row_kept_plot_row env mentioned (Some b) (rl_height st - h)
                    (rl_rooms st) 0 s Hrow) as K.
      unfold plot_row in Hplot. cbv beta iota in K. rewrite Hplot in K. exact K.
Qed.

(** X25: without a target width the mentioned rooms form the first row and
    give the scene its size.  When [plot_rooms_linear] returns, the scene
    is as wide as the mentioned rooms together (their widths as plotted,
    side by side from [x = 0]), there is at least one such room, and the
    upper height returned is the height of the tallest of them; the rows
    plotted afterwards leave the mentioned rooms as they are. *)
Theorem X25_first_row_sizes_the_scene (env : Collaborators) (mentioned : list string)
    (height_offset : Q) (all_mentioned_rooms : option (list string))
    (s s' : Scene * Canvas) (height_lower height_upper : Q) :
  plot_rooms_linear env mentioned None height_offset all_mentioned_rooms s
  = (s', Ok (height_lower, height_upper)) ->
  let first_row := List.filter (is_mentioned mentioned) (rooms (fst s')) in
  first_row <> []
  /\ scene_width (fst s') == Qsum (map width first_row)
  /\ Forall (fun r => height r <= height_upper) first_row
  /\ Exists (fun r => height r == height_upper) first_row.
Proof.
  intros Hrun. cbv zeta.
  unfold plot_rooms_linear, plot_rooms_linear_free in Hrun.
  unfold bind at 1 in Hrun. unfold get_scene at 1 in Hrun. cbn [fst] in Hrun.
  apply bind_ok_inv in Hrun. destruct Hrun as (s1 & pos & Hfirst & Hrun).
  destruct (first_row_spec env mentioned (rooms (fst s)) [] 0 s s1 pos eq_refl Hfirst)
    as (l1 & Hl1 & _ & Hpos).
  cbn [app] in Hl1.
  unfold bind at 1 in Hrun. unfold modify_scene at 1 in Hrun.
  set (s2 := (Scene_set_width pos (fst s1), snd s1)) in Hrun.
  unfold bind at 1 in Hrun. rewrite select_rooms_spec in Hrun.
  assert (Hrooms2 : rooms (fst s2) = l1) by exact Hl1.
  rewrite <- Hrooms2 in Hpos.
  pose proof (positions_from_filter mentioned (rooms (fst s2)) []) as Hms.
  cbn [app length] in Hms.
  unfold bind at 1 in Hrun. rewrite (rooms_of_ok _ _ s2 Hms) in Hrun.
  apply bind_ok_inv in Hrun. destruct Hrun as (sa & hu & Hmax & Hrun).
  apply py_max_ok in Hmax. destruct Hmax as (-> & Hne & Hall & Hex).
  apply bind_ok_inv in Hrun. destruct Hrun as (s3 & st & Hloop & Hrun).
  assert (Hinv : first_row_kept mentioned s2 s3
                 /\ (forall i, In i (rl_rooms st) -> unmentioned_at mentioned s3 i)).
  { match type of Hloop with
    | while_loop ?fuel ?cond ?body ?l ?s0 = _ =>
        apply (while_inv
                 (fun st s0 => first_row_kept mentioned s2 s0
                               /\ (forall i, In i (rl_rooms st) ->
                                             unmentioned_at mentioned s0 i))
                 cond body
                 (fun l0 s0 l' s0' Hi _ Hb =>
                    linear_body_inv env mentioned s2 l0 l' s0 s0' Hi Hb)
                 fuel l s0 st s3)
    end; [|exact Hloop].
    split; [apply first_row_kept_refl | intros i []]. }
  destruct Hinv as [Hkept Hrow].
  apply bind_ok_inv in Hrun. destruct Hrun as (sb & rs & Hrs & Hrun).
  apply rooms_of_state in Hrs. subst sb.
  apply bind_ok_inv in Hrun. destruct Hrun as (sc & h & Hmax & Hrun).
  apply py_max_ok in Hmax. destruct Hmax as (-> & _).
  apply bind_ok_inv in Hrun. destruct Hrun as (s4 & w & Hplot & Hrun).
  inversion Hrun; subst s' height_lower height_upper. clear Hrun.
  assert (Hfinal : first_row_kept mentioned s2 s4).
  { eapply first_row_kept_trans; [exact Hkept|].
    pose proof (first_row_kept_plot_row env mentioned None (rl_height st - h)
                  (rl_rooms st) 0 s3 Hrow) as K.
    unfold plot_row in Hplot. cbv beta iota in K. rewrite Hplot in K. exact K. }
  destruct Hfinal as [Hsw Hrooms].
  rewrite (filter_first_row_kept mentioned _ _ Hrooms).
  split; [|split; [|split]].
  - intros E. apply Hne. rewrite E. reflexivity.
  - rewrite Hsw. change (scene_width (fst s2)) with pos. rewrite Hpos. ring.
  - rewrite List.Forall_forall in Hall. apply List.Forall_forall.
    intros r Hr. apply Hall. apply in_map. exact Hr.
  - apply List.Exists_exists in Hex. destruct Hex as (x & Hx & Hxm).
    apply in_map_iff in Hx. destruct Hx as (r & <- & Hr).
    apply List.Exists_exists. exists r. split; assumption.
Qed.

Lemma X25_first_row_sizes_the_scene_witness :
  let r := plot_rooms_linear example_env ["kitchen_0"%string] None 0 None
             (furnished_scene, ([] : Canvas)) in
  let first_row :=
    List.filter (is_mentioned ["kitchen_0"%string]) (rooms (fst (fst r))) in
  let hu := snd (match snd r with Ok p => p | Raise _ => (0, 0) end) in
  first_row <> []
  /\ scene_width (fst (fst r)) == Qsum (map width first_row)
  /\ Forall (fun r => height r <= hu) first_row
  /\ Exists (fun r => height r == hu) first_row.
Proof.
  cbv zeta.
  apply (X25_first_row_sizes_the_scene example_env ["kitchen_0"%string] 0 None
           (furnished_scene, ([] : Canvas))
           (fst (plot_rooms_linear example_env ["kitchen_0"%string] None 0 None
                   (furnished_scene, ([] : Canvas))))
           (fst (match snd (plot_rooms_linear example_env ["kitchen_0"%string]
                              None 0 None (furnished_scene, ([] : Canvas))) with
                 | Ok p => p
                 | Raise _ => (0, 0)
                 end))
           (snd (match snd (plot_rooms_linear example_env ["kitchen_0"%string]
                              None 0 None (furnished_scene, ([] : Canvas))) with
                 | Ok p => p
                 | Raise _ => (0, 0)
                 end))).
  vm_compute. reflexivity.
Defined.

(** ** Which rooms are highlighted *)

Lemma Forall2_insert_same {A} (P : A -> A -> Prop) (l : list A) (i : nat) (x y : A) :
  (forall a, P a a) -> l !! i = Some x -> P x y -> Forall2 P l (<[i := y]> l).
Proof.
  intros Hrefl. revert i. induction l as [|a l IH]; intros i Hi Hxy; [discriminate|].
  destruct i as [|i]; cbn in Hi |- *.
  - inversion Hi; subst. constructor; [exact Hxy | apply Forall2_refl_all, Hrefl].
  - constructor; [apply Hrefl | apply IH; assumption].
Qed.

(** A relation between a room before and after that is blind to the
    children, the geometry and [use_full_height] of the room is kept by
    everything [plot_for_propositions] does to the rooms apart from its two
    loops that set [plot_placeholder] and [in_proposition]. *)
Section RoomsKept.

Variable RR : Room -> Room -> Prop.
Hypothesis RR_refl : forall r, RR r r.
Hypothesis RR_trans : forall a b c, RR a b -> RR b c -> RR a c.
Hypothesis RR_children :
  forall recs objs r, RR r (Room_set_children recs objs r).
Hypothesis RR_geometry :
  forall rw w rh h c r, RR r (Room_set_geometry rw w rh h c r).
Hypothesis RR_full_height : forall b r, RR r (Room_set_use_full_height b r).

Lemma rooms_kept_refl (s : Scene * Canvas) : rooms_kept RR s s.
Proof. apply Forall2_refl_all, RR_refl. Qed.

Lemma rooms_kept_trans (s1 s2 s3 : Scene * Canvas) :
  rooms_kept RR s1 s2 -> rooms_kept RR s2 s3 -> rooms_kept RR s1 s3.
Proof. unfold rooms_kept. apply Forall2_trans_all, RR_trans. Qed.

Ltac rk_bind := apply (steps_bind (rooms_kept RR) rooms_kept_trans).
Ltac rk_ret := apply (steps_ret (rooms_kept RR) rooms_kept_refl).
Ltac rk_raise := apply (steps_raise (rooms_kept RR) rooms_kept_refl).
Ltac rk_pure :=
  first [ apply (steps_room_at _ rooms_kept_refl)
        | apply (steps_get_scene _ rooms_kept_refl)
        | apply (steps_get_axes _ rooms_kept_refl)
        | apply (steps_py_max _ rooms_kept_refl)
        | apply (steps_lift_outcome _ rooms_kept_refl)
        | apply (steps_rooms_of _ rooms_kept_refl rooms_kept_trans)
        | apply (steps_rooms_have_objects _ rooms_kept_refl rooms_kept_trans)
        | apply (steps_select_rooms _ rooms_kept_refl rooms_kept_trans) ].
Ltac rk_fold := apply (steps_fold_m _ rooms_kept_refl rooms_kept_trans).
Ltac rk_for := apply (steps_for_each _ rooms_kept_refl rooms_kept_trans).
Ltac rk_while := apply (steps_while _ rooms_kept_refl rooms_kept_trans).

Lemma rooms_kept_update_room (i : nat) (f : Room -> Room) :
  (forall r, RR r (f r)) -> steps (rooms_kept RR) (update_room i f).
Proof.
  intros Hf s. unfold update_room, rooms_kept.
  destruct (rooms (fst s) !! i) as [r|] eqn:Hi; cbn [fst rooms Scene_set_rooms].
  - eapply Forall2_insert_same; [exact RR_refl | exact Hi | apply Hf].
  - apply Forall2_refl_all, RR_refl.
Qed.

Lemma rooms_kept_modify_rooms (f : Room -> Room) :
  (forall r, RR r (f r)) ->
  steps (rooms_kept RR)
    (modify_scene (fun sc => Scene_set_rooms (map f (rooms sc)) sc)).
Proof.
  intros Hf s. unfold modify_scene, rooms_kept. cbn [fst rooms Scene_set_rooms].
  apply Forall2_map_same, Hf.
Qed.

Lemma rooms_kept_set_width (w : Q) :
  steps (rooms_kept RR) (modify_scene (Scene_set_width w)).
Proof. intros s. apply Forall2_refl_all, RR_refl. Qed.

Lemma rooms_kept_draw (c : DrawCmd) : steps (rooms_kept RR) (draw c).
Proof. intros s. apply Forall2_refl_all, RR_refl. Qed.

Lemma rooms_kept_set_axes (ax : Canvas) : steps (rooms_kept RR) (set_axes ax).
Proof. intros s. apply Forall2_refl_all, RR_refl. Qed.

Lemma RR_init_size (r : Room) : RR r (init_size r).
Proof. unfold init_size. apply RR_geometry. Qed.

Lemma RR_update_object (j : nat) (f : Object -> Object) (r : Room) :
  RR r (Room_update_object j f r).
Proof. unfold Room_update_object. apply RR_children. Qed.

Lemma RR_update_receptacle (j : nat) (f : Receptacle -> Receptacle) (r : Room) :
  RR r (Room_update_receptacle j f r).
Proof. unfold Room_update_receptacle. apply RR_children. Qed.

Lemma rooms_kept_reset_children_flags : steps (rooms_kept RR) reset_children_flags.
Proof.
  unfold reset_children_flags. rk_bind; [rk_pure|]. intros sc.
  rk_for. intros i. rk_bind.
  { apply rooms_kept_update_room. intros r. apply RR_children. }
  intros _. rk_bind; [rk_pure|]. intros room.
  destruct (objects room) as [objs|]; [|rk_raise].
  apply rooms_kept_update_room. intros r. apply RR_children.
Qed.

Lemma rooms_kept_resolve_room (m : Mentions) (i : nat) (mentioned : list string) :
  steps (rooms_kept RR) (resolve_room m i mentioned).
Proof.
  unfold resolve_room. rk_bind.
  { rk_fold. intros acc obj. rk_bind; [rk_pure|]. intros room.
    destruct (find_object_by_id room obj) as [[j o]|]; [|rk_ret].
    rk_bind; [|intros _; rk_ret].
    apply rooms_kept_update_room. intros r. apply RR_update_object. }
  intros mentioned1. rk_bind.
  { rk_fold. intros acc obj. rk_bind; [rk_pure|]. intros room.
    destruct (find_object_by_id room obj); rk_ret. }
  intros mentioned2. rk_fold. intros acc [prop_function recep].
  rk_bind; [rk_pure|]. intros room.
  destruct (find_receptacle_by_id (receptacles room) recep) as [[j r0]|]; [|rk_ret].
  destruct (String.eqb prop_function "is_on_top");
    [|destruct (String.eqb prop_function "is_inside"); [|rk_raise]];
    (rk_bind; [|intros _; rk_ret]);
    apply rooms_kept_update_room; intros r; apply RR_update_receptacle.
Qed.

Lemma rooms_kept_add_arrow_call (a b : option Point) (dashed : bool) (color : string) :
  steps (rooms_kept RR) (add_arrow_call a b dashed color).
Proof.
  unfold add_arrow_call. destruct a, b; try rk_raise. apply rooms_kept_draw.
Qed.

Lemma rooms_kept_plot_proposition_lines (color_index : nat) (proposition : Proposition) :
  steps (rooms_kept RR) (plot_proposition_lines color_index proposition).
Proof.
  unfold plot_proposition_lines.
  destruct (object_names (args proposition)) as [objs|]; [|rk_ret].
  rk_bind; [rk_pure|]. intros number.
  destruct (String.eqb (function_name proposition) "is_inside"
            || String.eqb (function_name proposition) "is_on_top").
  - rk_bind; [rk_pure|]. intros recs.
    rk_bind; [|intros _; rk_ret].
    unfold plot_object_to_receptacle_lines.
    rk_bind; [rk_pure|]. intros sc.
    rk_for. intros object_name. rk_for. intros room.
    destruct (find_object_by_id room object_name) as [[j o]|]; [|rk_ret].
    rk_for. intros receptacle_name. rk_for. intros [k r].
    destruct (String.eqb (function_name proposition) "is_inside");
      [apply rooms_kept_add_arrow_call|].
    destruct (String.eqb (function_name proposition) "is_on_top");
      [apply rooms_kept_add_arrow_call | rk_ret].
  - destruct (String.eqb (function_name proposition) "is_in_room"); [|rk_ret].
    rk_bind; [rk_pure|]. intros rms.
    rk_bind; [|intros _; rk_ret].
    unfold plot_object_to_room_lines.
    rk_bind; [rk_pure|]. intros sc.
    rk_for. intros [j o]. rk_for. intros room.
    destruct (room_center_position room);
      [apply rooms_kept_add_arrow_call | rk_raise].
Qed.

Variable env : Collaborators.

Lemma RR_Room_plot (self : Room) (position : Point) (ax : Canvas)
    (target_width : option Q) :
  RR self (fst (fst (Room_plot env self position ax target_width))).
Proof.
  destruct (Room_plot_shape env self position ax target_width)
    as (objs' & recs2 & rh & h & center & extra & res & Hplot & _).
  rewrite Hplot. cbn [fst].
  eapply RR_trans; [apply RR_children | apply RR_geometry].
Qed.

Lemma rooms_kept_plot_room (i : nat) (position : Point) (target_width : option Q) :
  steps (rooms_kept RR) (plot_room env i position target_width).
Proof.
  intros s. unfold plot_room, rooms_kept.
  destruct (rooms (fst s) !! i) as [r|] eqn:Hi; [|apply Forall2_refl_all, RR_refl].
  pose proof (RR_Room_plot r position (snd s) target_width) as Hr.
  destruct (Room_plot env r position (snd s) target_width) as [[r' ax'] res].
  cbn [fst rooms Scene_set_rooms] in *.
  eapply Forall2_insert_same; [exact RR_refl | exact Hi | exact Hr].
Qed.

Lemma rooms_kept_plot_row (set_full_height : option bool) (row : list nat) (y : Q) :
  steps (rooms_kept RR) (plot_row env set_full_height row y).
Proof.
  unfold plot_row. rk_fold.
  intros w i. rk_bind.
  - destruct set_full_height as [b|]; [|rk_ret].
    apply rooms_kept_update_room. intros r. apply RR_full_height.
  - intros _. rk_bind; [apply rooms_kept_plot_room|]. intros _.
    rk_bind; [rk_pure|]. intros r. rk_ret.
Qed.

Lemma rooms_kept_linear_body (mentioned : list string) (st : RowLoop) :
  steps (rooms_kept RR) (linear_body env mentioned st).
Proof.
  unfold linear_body.
  rk_bind; [rk_pure|]. intros room.
  rk_bind; [rk_pure|]. intros sc.
  destruct (negb (str_in (room_id room) mentioned)); [|rk_ret].
  destruct (Qle_bool (width room + rl_width st) (scene_width sc)); [rk_ret|].
  rk_bind; [rk_pure|]. intros rs.
  rk_bind; [rk_pure|]. intros h.
  rk_bind; [rk_pure|]. intros b.
  rk_bind; [apply rooms_kept_plot_row|]. intros _. rk_ret.
Qed.

Lemma rooms_kept_plot_rooms_linear_free (mentioned : list string) (height_offset : Q) :
  steps (rooms_kept RR) (plot_rooms_linear_free env mentioned height_offset).
Proof.
  unfold plot_rooms_linear_free.
  rk_bind; [rk_pure|]. intros sc0.
  rk_bind.
  { rk_fold. intros acc i.
    rk_bind; [rk_pure|]. intros room.
    destruct (str_in (room_id room) mentioned); [|rk_ret].
    rk_bind; [apply rooms_kept_plot_room|]. intros _.
    rk_bind; [rk_pure|]. intros room'.
    rk_ret. }
  intros first_row_position.
  rk_bind; [apply rooms_kept_set_width|]. intros _.
  rk_bind; [rk_pure|].
  intros ms.
  rk_bind; [rk_pure|]. intros rs.
  rk_bind; [rk_pure|]. intros h.
  rk_bind.
  { rk_while.
    intros l. apply rooms_kept_linear_body. }
  intros st.
  rk_bind; [rk_pure|]. intros rs'.
  rk_bind; [rk_pure|]. intros h'.
  rk_bind; [apply rooms_kept_plot_row|]. intros _. rk_ret.
Qed.

Lemma rooms_kept_flush_row (target_width : Q) (row : list nat) (row_height : Q) :
  steps (rooms_kept RR) (flush_row env target_width row row_height).
Proof.
  unfold flush_row.
  rk_bind; [rk_pure|]. intros b.
  rk_bind.
  { rk_for. intros i.
    apply rooms_kept_update_room. intros r.
    eapply RR_trans; [apply RR_full_height | apply RR_init_size]. }
  intros _.
  rk_bind; [rk_pure|]. intros rs.
  rk_bind; [rk_pure|]. intros h.
  rk_bind; [rk_pure|]. intros shares.
  rk_bind.
  { rk_fold. intros w [i share].
    rk_bind; [apply rooms_kept_plot_room|]. intros _.
    rk_bind; [rk_pure|]. intros r. rk_ret. }
  intros w.
  rk_bind; [rk_pure|]. intros sc.
  rk_bind; [apply rooms_kept_set_width|]. intros _. rk_ret.
Qed.

Lemma rooms_kept_target_body (target_width : Q) (all_rooms : list nat) (st : RowLoop) :
  steps (rooms_kept RR) (target_body env target_width all_rooms st).
Proof.
  unfold target_body. destruct (all_rooms !! rl_i st) as [i|]; [|rk_raise].
  rk_bind; [rk_pure|]. intros room.
  rk_bind; [rk_pure|]. intros sc.
  destruct (Qle_bool (width room + rl_width st) (scene_width sc)); [rk_ret|].
  rk_bind; [apply rooms_kept_flush_row|]. intros h. rk_ret.
Qed.

Lemma rooms_kept_plot_rooms_linear (mentioned : list string)
    (target_width : option Q) (height_offset : Q)
    (all_mentioned_rooms : option (list string)) :
  steps (rooms_kept RR)
    (plot_rooms_linear env mentioned target_width height_offset all_mentioned_rooms).
Proof.
  unfold plot_rooms_linear. destruct target_width as [tw|];
    [|apply rooms_kept_plot_rooms_linear_free].
  unfold plot_rooms_linear_target.
  rk_bind; [apply rooms_kept_set_width|]. intros _.
  rk_bind; [rk_pure|].
  intros front.
  rk_bind; [rk_pure|].
  intros back.
  rk_bind; [apply rooms_kept_modify_rooms, RR_init_size|]. intros _.
  rk_bind.
  { rk_while.
    intros l. apply rooms_kept_target_body. }
  intros st. rk_bind; [apply rooms_kept_flush_row|]. intros h. rk_ret.
Qed.

(** The stages of a call of [plot_for_propositions] that returns: the
    propositions are classified, the placeholder flag of every room is
    set, the flags of the children are cleared, the rooms are resolved, and
    from the state in which the [in_proposition] flag of every room has
    been set the rooms are kept. *)
Lemma plot_for_propositions_stages (propositions : list Proposition)
    (show_instruction : bool) (height_offset : Q) (initial_ax : option Canvas)
    (all_mentioned_rooms : option (list string))
    (s s' : Scene * Canvas) (res : Q * Q * string) :
  plot_for_propositions env propositions show_instruction height_offset
    initial_ax all_mentioned_rooms s = (s', Ok res) ->
  exists (m : Mentions) (s3 s4 : Scene * Canvas) (mentioned : list string),
    classify_propositions no_mentions propositions = Ok m
    /\ reset_children_flags
         (Scene_set_rooms
            (map (fun room => Room_set_plot_placeholder
                                (str_in (room_id room) (mentioned_rooms m)) room)
               (rooms (fst s))) (fst s), snd s) = (s3, Ok tt)
    /\ fold_m (seq 0 (length (rooms (fst s3)))) (mentioned_rooms m)
         (fun mentioned i => resolve_room m i mentioned) s3 = (s4, Ok mentioned)
    /\ rooms_kept RR
         (Scene_set_rooms
            (map (fun room => Room_set_in_proposition
                                (str_in (room_id room) mentioned) room)
               (rooms (fst s4))) (fst s4), snd s4) s'.
Proof.
  intros Hrun. unfold plot_for_propositions in Hrun.
  apply bind_ok_inv in Hrun. destruct Hrun as (s0 & m & Hc & Hrun).
  destruct (classify_propositions no_mentions propositions) as [m0|e] eqn:Hm;
    [|discriminate].
  inversion Hc; subst s0 m0. clear Hc.
  apply bind_ok_inv in Hrun. destruct Hrun as (s2 & [] & H2 & Hrun).
  inversion H2; subst s2. clear H2.
  apply bind_ok_inv in Hrun. destruct Hrun as (s3 & [] & H3 & Hrun).
  apply bind_ok_inv in Hrun. destruct Hrun as (s3' & sc & Hsc & Hrun).
  inversion Hsc; subst s3' sc. clear Hsc.
  apply bind_ok_inv in Hrun. destruct Hrun as (s4 & mentioned & H4 & Hrun).
  apply bind_ok_inv in Hrun. destruct Hrun as (s5 & [] & H5 & Hrun).
  inversion H5; subst s5. clear H5.
  exists m, s3, s4, mentioned.
  split; [reflexivity|]. split; [exact H3|]. split; [exact H4|].
  match type of Hrun with
  | ?k ?s5 = _ =>
      assert (K : steps (rooms_kept RR) k);
        [|specialize (K s5); rewrite Hrun in K; exact K]
  end.
  rk_bind; [apply rooms_kept_set_axes|]. intros _.
  rk_bind; [apply rooms_kept_plot_rooms_linear|].
  intros [hl hu].
  rk_bind; [rk_fold; intros acc p; apply rooms_kept_plot_proposition_lines|].
  intros _. rk_bind; [rk_pure|]. intros sc'.
  rk_bind.
  { destruct (negb (PyStr.is_empty (instruction sc')) && show_instruction);
      [apply rooms_kept_draw | rk_ret]. }
  intros _. rk_bind.
  { destruct (is_next_tos m).
    - apply rooms_kept_draw.
    - rk_bind; [apply rooms_kept_draw|]. intros _. apply rooms_kept_draw. }
  intros _. rk_bind; [apply rooms_kept_draw|]. intros _. rk_ret.
Qed.

End RoomsKept.

Lemma same_flags_refl (r : Room) : same_flags r r.
Proof. repeat split. Qed.

Lemma same_flags_trans (a b c : Room) :
  same_flags a b -> same_flags b c -> same_flags a c.
Proof.
  intros (A1 & A2 & A3) (B1 & B2 & B3). repeat split; congruence.
Qed.

Lemma find_object_from_same (l l' : list Object) (oid : string) :
  Forall2 same_object l l' ->
  forall k, find_object_from k l' oid = None <-> find_object_from k l oid = None.
Proof.
  induction 1 as [|o o' l l' Ho _ IH]; intros k; cbn [find_object_from]; [tauto|].
  destruct Ho as (-> & _). destruct (String.eqb (object_id o) oid); [|apply IH].
  split; discriminate.
Qed.

Lemma find_object_same_room (r r' : Room) (oid : string) :
  same_room r r' ->
  (find_object_by_id r' oid <> None <-> find_object_by_id r oid <> None).
Proof.
  intros (_ & _ & _ & _ & Hobjs).
  unfold find_object_by_id, has_objects, objects_list.
  destruct (objects r) as [l|], (objects r') as [l'|]; try contradiction; [|tauto].
  pose proof (find_object_from_same l l' oid Hobjs 0) as K.
  destruct Hobjs; [tauto|]. rewrite K. tauto.
Qed.

Lemma find_receptacle_from_same (l l' : list Receptacle) (rid : string) :
  Forall2 same_receptacle l l' ->
  forall k, find_receptacle_from k l' rid = None <-> find_receptacle_from k l rid = None.
Proof.
  induction 1 as [|x x' l l' Hx _ IH]; intros k; cbn [find_receptacle_from]; [tauto|].
  destruct Hx as (-> & _). destruct (String.eqb (receptacle_id x) rid); [|apply IH].
  split; discriminate.
Qed.

Lemma find_receptacle_same_room (r r' : Room) (rid : string) :
  same_room r r' ->
  (find_receptacle_by_id (receptacles r') rid <> None
   <-> find_receptacle_by_id (receptacles r) rid <> None).
Proof.
  intros (_ & _ & _ & Hrecs & _). unfold find_receptacle_by_id.
  rewrite (find_receptacle_from_same _ _ rid Hrecs 0). tauto.
Qed.

Lemma holds_named_same_room (m : Mentions) (r r' : Room) :
  same_room r r' -> (holds_named m r <-> holds_named m r').
Proof.
  intros H. unfold holds_named, holds_mentioned. split.
  - intros [(o & Ho & Hf)|[(o & Ho & Hf)|(fn & rc & Hr & Hf)]].
    + left. exists o. split; [exact Ho | apply (find_object_same_room r r' o H), Hf].
    + right. left. exists o.
      split; [exact Ho | apply (find_object_same_room r r' o H), Hf].
    + right. right. exists fn, rc.
      split; [exact Hr | apply (find_receptacle_same_room r r' rc H), Hf].
  - intros [(o & Ho & Hf)|[(o & Ho & Hf)|(fn & rc & Hr & Hf)]].
    + left. exists o. split; [exact Ho | apply (find_object_same_room r r' o H), Hf].
    + right. left. exists o.
      split; [exact Ho | apply (find_object_same_room r r' o H), Hf].
    + right. right. exists fn, rc.
      split; [exact Hr | apply (find_receptacle_same_room r r' rc H), Hf].
Qed.

(** What is said of the room at position [i] with id [id] can be said
    before or after a computation that keeps the contents of the scene. *)
Lemma room_named_kept (Q : Room -> Prop) (s s' : Scene * Canvas) (i : nat)
    (id : string) :
  scene_kept s s' ->
  (forall r r', same_room r r' -> (Q r <-> Q r')) ->
  (exists room, rooms (fst s') !! i = Some room /\ room_id room = id /\ Q room)
  <-> (exists room, rooms (fst s) !! i = Some room /\ room_id room = id /\ Q room).
Proof.
  intros (_ & _ & HF) HQ. split; intros (room & Hl & Hid & Hq).
  - destruct (Forall2_lookup_r _ _ _ _ _ HF Hl) as (r0 & Hl0 & Hsame).
    exists r0. split; [exact Hl0|]. split.
    + destruct Hsame as (E & _). congruence.
    + apply (HQ r0 room Hsame), Hq.
  - destruct (Forall2_lookup_l _ _ _ _ _ HF Hl) as (r1 & Hl1 & Hsame).
    exists r1. split; [exact Hl1|]. split.
    + destruct Hsame as (E & _). congruence.
    + apply (HQ room r1 Hsame), Hq.
Qed.

(** A loop of [plot_for_propositions] over names that appends the id of
    the room at position [i] when the room has a child of the name. *)
Lemma fold_mention_ok {A} (i : nat) (hit : Room -> A -> Prop)
    (body : list string -> A -> SceneM (list string)) :
  (forall acc x s s' acc', body acc x s = (s', Ok acc') ->
     scene_kept s s'
     /\ exists room, rooms (fst s) !! i = Some room
          /\ forall id, In id acc' <-> In id acc \/ (id = room_id room /\ hit room x)) ->
  (forall r r' x, same_room r r' -> (hit r x <-> hit r' x)) ->
  forall (l : list A) (acc : list string) (s s' : Scene * Canvas) (res : list string),
    fold_m l acc body s = (s', Ok res) ->
    scene_kept s s'
    /\ forall id, In id res
         <-> In id acc
             \/ exists room, rooms (fst s) !! i = Some room /\ room_id room = id
                  /\ exists x, In x l /\ hit room x.
Proof.
  intros Hstep Hhit. induction l as [|a l IH]; intros acc s s' res Hrun;
    cbn [fold_m] in Hrun.
  - inversion Hrun; subst. split; [apply scene_kept_refl|].
    intros id. split; [intros H; left; exact H|].
    intros [H|(room & _ & _ & x & [] & _)]. exact H.
  - apply bind_ok_inv in Hrun. destruct Hrun as (s1 & acc1 & Hb & Hrest).
    destruct (Hstep _ _ _ _ _ Hb) as (K1 & room & Hroom & Hacc1).
    destruct (IH _ _ _ _ Hrest) as (K2 & Hres).
    split; [eapply scene_kept_trans; eassumption|].
    intros id.
    pose proof (room_named_kept (fun r => exists x, In x l /\ hit r x) s s1 i id K1)
      as T.
    cbv beta in T. split.
    + intros H. apply Hres in H. destruct H as [H|H].
      * apply Hacc1 in H. destruct H as [H|(-> & Hh)]; [left; exact H|].
        right. exists room. split; [exact Hroom|]. split; [reflexivity|].
        exists a. split; [left; reflexivity | exact Hh].
      * apply T in H.
        -- destruct H as (r0 & Hl & Hid & x & Hx & Hh). right. exists r0.
           split; [exact Hl|]. split; [exact Hid|]. exists x.
           split; [right; exact Hx | exact Hh].
        -- intros r r' Hs. split; intros (x & Hx & Hh); exists x;
             (split; [exact Hx | apply (Hhit r r' x Hs), Hh]).
    + intros [H|(r0 & Hl & Hid & x & [<-|Hx] & Hh)].
      * apply Hres. left. apply Hacc1. left. exact H.
      * apply Hres. left. apply Hacc1. right.
        rewrite Hroom in Hl. inversion Hl; subst r0. split; [congruence | exact Hh].
      * apply Hres. right. apply T.
        -- intros r r' Hs. split; intros (y & Hy & Hhy); exists y;
             (split; [exact Hy | apply (Hhit r r' y Hs), Hhy]).
        -- exists r0. split; [exact Hl|]. split; [exact Hid|]. exists x.
           split; assumption.
Qed.

Lemma room_at_ok (i : nat) (s s' : Scene * Canvas) (room : Room) :
  room_at i s = (s', Ok room) -> s' = s /\ rooms (fst s) !! i = Some room.
Proof.
  unfold room_at. destruct (rooms (fst s) !! i) as [r|]; [|discriminate].
  intros E. inversion E; subst. split; reflexivity.
Qed.

Lemma update_room_ok (i : nat) (f : Room -> Room) (s s' : Scene * Canvas) (u : unit) :
  (forall r, same_room r (f r)) ->
  update_room i f s = (s', Ok u) -> scene_kept s s'.
Proof.
  intros Hf E.
  pose proof (scene_kept_update_room i f Hf s) as K. rewrite E in K. exact K.
Qed.

Lemma resolve_room_ok (m : Mentions) (i : nat) (mentioned : list string)
    (s s' : Scene * Canvas) (res : list string) :
  resolve_room m i mentioned s = (s', Ok res) ->
  scene_kept s s'
  /\ forall id, In id res
       <-> In id mentioned
           \/ exists room, rooms (fst s) !! i = Some room /\ room_id room = id
                /\ holds_named m room.
Proof.
  intros Hrun. unfold resolve_room in Hrun.
  apply bind_ok_inv in Hrun. destruct Hrun as (s1 & l1 & H1 & Hrun).
  apply bind_ok_inv in Hrun. destruct Hrun as (s2 & l2 & H2 & H3).
  apply (fold_mention_ok i (fun room obj => find_object_by_id room obj <> None))
    in H1.
  2:{ intros acc obj t t' acc' Hb.
      apply bind_ok_inv in Hb. destruct Hb as (t0 & room & Hroom & Hb).
      apply room_at_ok in Hroom. destruct Hroom as (-> & Hroom).
      destruct (find_object_by_id room obj) as [[j o]|] eqn:Hf.
      - apply bind_ok_inv in Hb. destruct Hb as (t1 & u & Hu & Hb).
        inversion Hb; subst t' acc'. split.
        + eapply update_room_ok; [| exact Hu].
          intros r. apply same_room_update_object. intros x. repeat split.
        + exists room. split; [exact Hroom|]. intros id. rewrite mention_In.
          rewrite Hf. split.
          * intros [->|H]; [right; split; [reflexivity | discriminate] | left; exact H].
          * intros [H|(-> & _)]; [right; exact H | left; reflexivity].
      - inversion Hb; subst t' acc'. split; [apply scene_kept_refl|].
        exists room. split; [exact Hroom|]. intros id. rewrite Hf. split.
        + intros H. left. exact H.
        + intros [H|(_ & Hn)]; [exact H | contradiction Hn; reflexivity]. }
  2:{ intros r r' x Hs. symmetry. apply find_object_same_room, Hs. }
  apply (fold_mention_ok i (fun room obj => find_object_by_id room obj <> None))
    in H2.
  2:{ intros acc obj t t' acc' Hb.
      apply bind_ok_inv in Hb. destruct Hb as (t0 & room & Hroom & Hb).
      apply room_at_ok in Hroom. destruct Hroom as (-> & Hroom).
      destruct (find_object_by_id room obj) as [p|] eqn:Hf.
      - inversion Hb; subst t' acc'. split; [apply scene_kept_refl|].
        exists room. split; [exact Hroom|]. intros id. rewrite mention_In.
        rewrite Hf. split.
        + intros [->|H]; [right; split; [reflexivity | discriminate] | left; exact H].
        + intros [H|(-> & _)]; [right; exact H | left; reflexivity].
      - inversion Hb; subst t' acc'. split; [apply scene_kept_refl|].
        exists room. split; [exact Hroom|]. intros id. rewrite Hf. split.
        + intros H. left. exact H.
        + intros [H|(_ & Hn)]; [exact H | contradiction Hn; reflexivity]. }
  2:{ intros r r' x Hs. symmetry. apply find_object_same_room, Hs. }
  apply (fold_mention_ok i
           (fun room (p : string * string) =>
              find_receptacle_by_id (receptacles room) (snd p) <> None))
    in H3.
  2:{ intros acc [fn recep] t t' acc' Hb. cbn [snd].
      apply bind_ok_inv in Hb. destruct Hb as (t0 & room & Hroom & Hb).
      apply room_at_ok in Hroom. destruct Hroom as (-> & Hroom).
      destruct (find_receptacle_by_id (receptacles room) recep) as [[j r0]|] eqn:Hf.
      - assert (Hboth : scene_kept t t' /\ acc' = mention (room_id room) acc).
        { destruct (String.eqb fn "is_on_top");
            [|destruct (String.eqb fn "is_inside"); [|discriminate]];
            (apply bind_ok_inv in Hb; destruct Hb as (t1 & u & Hu & Hb);
             inversion Hb; subst t' acc'; split; [|reflexivity];
             eapply update_room_ok; [| exact Hu];
             intros r; apply same_room_update_receptacle; intros x;
             split; reflexivity). }
        destruct Hboth as (K & ->). split; [exact K|].
        exists room. split; [exact Hroom|]. intros id. rewrite mention_In.
        cbv beta. cbn [snd]. rewrite Hf. split.
        + intros [->|H]; [right; split; [reflexivity | discriminate] | left; exact H].
        + intros [H|(-> & _)]; [right; exact H | left; reflexivity].
      - inversion Hb; subst t' acc'. split; [apply scene_kept_refl|].
        exists room. split; [exact Hroom|]. intros id.
        cbv beta. cbn [snd]. rewrite Hf. split.
        + intros H. left. exact H.
        + intros [H|(_ & Hn)]; [exact H | contradiction Hn; reflexivity]. }
  2:{ intros r r' x Hs. symmetry. apply find_receptacle_same_room, Hs. }
  destruct H1 as (K1 & M1), H2 as (K2 & M2), H3 as (K3 & M3).
  assert (K12 : scene_kept s s2) by (eapply scene_kept_trans; eassumption).
  split; [eapply scene_kept_trans; eassumption|].
  intros id.
  pose proof (room_named_kept
                (fun r => exists x, In x (mentioned_objs m)
                                    /\ find_object_by_id r x <> None)
                s s1 i id K1) as T1.
  pose proof (room_named_kept
                (fun r => exists x : string * string,
                            In x (mentioned_receps m)
                            /\ find_receptacle_by_id (receptacles r) (snd x) <> None)
                s s2 i id K12) as T2.
  cbv beta in T1, T2.
  assert (Q1 : forall r r', same_room r r' ->
                 ((exists x, In x (mentioned_objs m) /\ find_object_by_id r x <> None)
                  <-> (exists x, In x (mentioned_objs m)
                                 /\ find_object_by_id r' x <> None))).
  { intros r r' Hs. split; intros (x & Hx & Hh); exists x;
      (split; [exact Hx | apply (find_object_same_room r r' x Hs), Hh]). }
  assert (Q2 : forall r r', same_room r r' ->
                 ((exists x : string * string,
                     In x (mentioned_receps m)
                     /\ find_receptacle_by_id (receptacles r) (snd x) <> None)
                  <-> (exists x : string * string,
                         In x (mentioned_receps m)
                         /\ find_receptacle_by_id (receptacles r') (snd x) <> None))).
  { intros r r' Hs. split; intros (x & Hx & Hh); exists x;
      (split; [exact Hx | apply (find_receptacle_same_room r r' (snd x) Hs), Hh]). }
  specialize (T1 Q1). specialize (T2 Q2).
  unfold holds_named, holds_mentioned. split.
  - intros H. apply M3 in H. destruct H as [H|H].
    + apply M2 in H. destruct H as [H|H].
      * apply M1 in H. destruct H as [H|(room & Hl & Hid & Hh)]; [left; exact H|].
        right. exists room. split; [exact Hl|]. split; [exact Hid|]. left. exact Hh.
      * apply T1 in H. destruct H as (room & Hl & Hid & Hh).
        right. exists room. split; [exact Hl|]. split; [exact Hid|].
        right. left. exact Hh.
    + apply T2 in H. destruct H as (room & Hl & Hid & [fn rc] & Hx & Hh).
      right. exists room. split; [exact Hl|]. split; [exact Hid|].
      right. right. exists fn, rc. split; [exact Hx | exact Hh].
  - intros [H|(room & Hl & Hid & [Hh|[Hh|(fn & rc & Hx & Hh)]])].
    + apply M3. left. apply M2. left. apply M1. left. exact H.
    + apply M3. left. apply M2. left. apply M1. right.
      exists room. split; [exact Hl|]. split; [exact Hid | exact Hh].
    + apply M3. left. apply M2. right. apply T1.
      exists room. split; [exact Hl|]. split; [exact Hid | exact Hh].
    + apply M3. right. apply T2.
      exists room. split; [exact Hl|]. split; [exact Hid|].
      exists (fn, rc). split; [exact Hx | exact Hh].
Qed.

Lemma resolve_rooms_ok (m : Mentions) (idxs : list nat) :
  forall (acc : list string) (s s' : Scene * Canvas) (res : list string),
    fold_m idxs acc (fun mentioned i => resolve_room m i mentioned) s = (s', Ok res) ->
    scene_kept s s'
    /\ forall id, In id res
         <-> In id acc
             \/ exists i room, In i idxs /\ rooms (fst s) !! i = Some room
                  /\ room_id room = id /\ holds_named m room.
Proof.
  induction idxs as [|i idxs IH]; intros acc s s' res Hrun; cbn [fold_m] in Hrun.
  - inversion Hrun; subst. split; [apply scene_kept_refl|].
    intros id. split; [intros H; left; exact H|].
    intros [H|(i & room & [] & _)]. exact H.
  - apply bind_ok_inv in Hrun. destruct Hrun as (s1 & acc1 & Hb & Hrest).
    apply resolve_room_ok in Hb. destruct Hb as (K1 & M1).
    destruct (IH _ _ _ _ Hrest) as (K2 & M2).
    split; [eapply scene_kept_trans; eassumption|].
    intros id. split.
    + intros H. apply M2 in H. destruct H as [H|(j & room & Hj & Hl & Hid & Hh)].
      * apply M1 in H. destruct H as [H|(room & Hl & Hid & Hh)]; [left; exact H|].
        right. exists i, room. split; [left; reflexivity|]. auto.
      * right.
        destruct (proj1 (room_named_kept (holds_named m) s s1 j id K1
                           (holds_named_same_room m))
                    (ex_intro _ room (conj Hl (conj Hid Hh))))
          as (r0 & Hl0 & Hid0 & Hh0).
        exists j, r0. split; [right; exact Hj|]. auto.
    + intros [H|(j & room & [<-|Hj] & Hl & Hid & Hh)].
      * apply M2. left. apply M1. left. exact H.
      * apply M2. left. apply M1. right. exists room. auto.
      * apply M2. right.
        destruct (proj2 (room_named_kept (holds_named m) s s1 j id K1
                           (holds_named_same_room m))
                    (ex_intro _ room (conj Hl (conj Hid Hh))))
          as (r1 & Hl1 & Hid1 & Hh1).
        exists j, r1. auto.
Qed.

Lemma lookup_seq_In {A} (l : list A) (P : A -> Prop) :
  (exists i x, In i (seq 0 (length l)) /\ l !! i = Some x /\ P x)
  <-> exists x, In x l /\ P x.
Proof.
  split.
  - intros (i & x & _ & Hl & Hp). exists x. split; [|exact Hp].
    apply list_elem_of_In. eapply list_elem_of_lookup_2. exact Hl.
  - intros (x & Hx & Hp). apply list_elem_of_In, list_elem_of_lookup_1 in Hx.
    destruct Hx as (i & Hl). exists i, x. split; [|split; assumption].
    apply in_seq. apply lookup_lt_Some in Hl. lia.
Qed.

(** X26: which rooms [plot_for_propositions] highlights.  When the call
    returns, a room of the scene shows the placeholder exactly when an
    [is_in_room] proposition names its id, and it is drawn as part of the
    propositions ([in_proposition]) exactly when its id is named in that
    way or is the id of a room of the scene that holds an object named by
    an [is_on_floor] proposition, a mentioned object or a mentioned
    receptacle; so every room that shows the placeholder is drawn as part
    of the propositions.  The layout and the arrows drawn afterwards leave
    both flags as they are. *)
Theorem X26_highlighted_rooms (env : Collaborators) (propositions : list Proposition)
    (show_instruction : bool) (height_offset : Q) (initial_ax : option Canvas)
    (all_mentioned_rooms : option (list string))
    (s s' : Scene * Canvas) (res : Q * Q * string) :
  plot_for_propositions env propositions show_instruction height_offset
    initial_ax all_mentioned_rooms s = (s', Ok res) ->
  exists m : Mentions,
    classify_propositions no_mentions propositions = Ok m
    /\ Forall (fun r =>
                 (plot_placeholder r = true <-> In (room_id r) (mentioned_rooms m))
                 /\ (in_proposition r = true
                     <-> In (room_id r) (mentioned_rooms m)
                         \/ exists room, In room (rooms (fst s))
                              /\ room_id room = room_id r /\ holds_named m room)
                 /\ (plot_placeholder r = true -> in_proposition r = true))
         (rooms (fst s')).
Proof.
  intros Hrun.
  destruct (plot_for_propositions_stages same_flags same_flags_refl same_flags_trans
              (fun recs objs r => same_flags_refl r)
              (fun rw w rh h c r => same_flags_refl r)
              (fun b r => same_flags_refl r)
              env propositions show_instruction height_offset initial_ax
              all_mentioned_rooms s s' res Hrun)
    as (m & s3 & s4 & mentioned & Hm & H3 & H4 & H5).
  exists m. split; [exact Hm|].
  set (s2 := (Scene_set_rooms
                (map (fun room => Room_set_plot_placeholder
                                    (str_in (room_id room) (mentioned_rooms m)) room)
                   (rooms (fst s))) (fst s), snd s)) in H3.
  assert (K02 : scene_kept s s2).
  { apply same_scene_map. intros r. apply same_room_flags. }
  assert (K23 : scene_kept s2 s3).
  { pose proof (scene_kept_reset_children_flags s2) as K. rewrite H3 in K. exact K. }
  assert (F23 : rooms_kept same_flags s2 s3).
  { pose proof (rooms_kept_reset_children_flags same_flags same_flags_refl
                  same_flags_trans (fun recs objs r => same_flags_refl r) s2) as K.
    rewrite H3 in K. exact K. }
  assert (F34 : rooms_kept same_flags s3 s4).
  { pose proof (steps_fold_m (rooms_kept same_flags)
                  (rooms_kept_refl same_flags same_flags_refl)
                  (rooms_kept_trans same_flags same_flags_trans)
                  (seq 0 (length (rooms (fst s3))))
                  (fun mentioned i => resolve_room m i mentioned)
                  (mentioned_rooms m)
                  (fun acc i => rooms_kept_resolve_room same_flags same_flags_refl
                                  same_flags_trans
                                  (fun recs objs r => same_flags_refl r) m i acc)
                  s3) as K.
    rewrite H4 in K. exact K. }
  apply resolve_rooms_ok in H4. destruct H4 as (K34 & Hmentioned).
  assert (K03 : scene_kept s s3) by (eapply scene_kept_trans; eassumption).
  assert (Hin : forall id,
             In id mentioned
             <-> In id (mentioned_rooms m)
                 \/ exists room, In room (rooms (fst s)) /\ room_id room = id
                      /\ holds_named m room).
  { intros id. rewrite Hmentioned.
    assert (T : (exists i room, In i (seq 0 (length (rooms (fst s3))))
                   /\ rooms (fst s3) !! i = Some room
                   /\ room_id room = id /\ holds_named m room)
                <-> exists room, In room (rooms (fst s)) /\ room_id room = id
                      /\ holds_named m room).
    { rewrite (lookup_seq_In (rooms (fst s3))
                 (fun room => room_id room = id /\ holds_named m room)).
      destruct K03 as (_ & _ & HF). split.
      - intros (r3 & Hr3 & Hid & Hh).
        apply list_elem_of_In, list_elem_of_lookup_1 in Hr3. destruct Hr3 as (k & Hl).
        destruct (Forall2_lookup_r _ _ _ _ _ HF Hl) as (r0 & Hl0 & Hsame).
        exists r0. split; [apply list_elem_of_In; eapply list_elem_of_lookup_2; exact Hl0|].
        split; [destruct Hsame as (E & _); congruence|].
        apply (holds_named_same_room m r0 r3 Hsame), Hh.
      - intros (r0 & Hr0 & Hid & Hh).
        apply list_elem_of_In, list_elem_of_lookup_1 in Hr0. destruct Hr0 as (k & Hl).
        destruct (Forall2_lookup_l _ _ _ _ _ HF Hl) as (r3 & Hl3 & Hsame).
        exists r3. split; [apply list_elem_of_In; eapply list_elem_of_lookup_2; exact Hl3|].
        split; [destruct Hsame as (E & _); congruence|].
        apply (holds_named_same_room m r0 r3 Hsame), Hh. }
    rewrite T. reflexivity. }
  assert (Hflags : forall r, In r (rooms (fst s')) ->
             plot_placeholder r = str_in (room_id r) (mentioned_rooms m)
             /\ in_proposition r = str_in (room_id r) mentioned).
  { intros r Hr.
    apply list_elem_of_In, list_elem_of_lookup_1 in Hr. destruct Hr as (k & Hl).
    destruct (Forall2_lookup_r _ _ _ _ _ H5 Hl) as (r5 & Hl5 & (E5 & P5 & I5)).
    cbn [fst rooms Scene_set_rooms] in Hl5.
    rewrite list_lookup_fmap in Hl5.
    destruct (rooms (fst s4) !! k) as [r4|] eqn:Hl4; [|discriminate].
    cbn in Hl5. inversion Hl5; subst r5. clear Hl5.
    destruct (Forall2_lookup_r _ _ _ _ _ F34 Hl4) as (r3 & Hl3 & (E4 & P4 & _)).
    destruct (Forall2_lookup_r _ _ _ _ _ F23 Hl3) as (r2 & Hl2 & (E3 & P3 & _)).
    subst s2. cbn [fst rooms Scene_set_rooms] in Hl2.
    rewrite list_lookup_fmap in Hl2.
    destruct (rooms (fst s) !! k) as [r0|] eqn:Hl0; [|discriminate].
    cbn in Hl2. inversion Hl2; subst r2. clear Hl2.
    cbn [room_id plot_placeholder in_proposition Room_set_in_proposition
         Room_set_plot_placeholder Room_set_flags] in *.
    split; congruence. }
  apply List.Forall_forall. intros r Hr.
  destruct (Hflags r Hr) as (Hp & Hi).
  split; [|split].
  - rewrite Hp. apply str_in_iff.
  - rewrite Hi, str_in_iff. apply Hin.
  - rewrite Hp, Hi, !str_in_iff. intros H. apply Hin. left. exact H.
Qed.

Lemma X26_highlighted_rooms_witness :
  let result := plot_for_propositions example_env [in_room_proposition] true 0 None None
             (furnished_scene, ([] : Canvas)) in
  exists m : Mentions,
    classify_propositions no_mentions [in_room_proposition] = Ok m
    /\ Forall (fun r =>
                 (plot_placeholder r = true <-> In (room_id r) (mentioned_rooms m))
                 /\ (in_proposition r = true
                     <-> In (room_id r) (mentioned_rooms m)
                         \/ exists room,
                              In room (rooms (fst (furnished_scene, ([] : Canvas))))
                              /\ room_id room = room_id r /\ holds_named m room)
                 /\ (plot_placeholder r = true -> in_proposition r = true))
         (rooms (fst (fst result))).
Proof.
  cbv zeta.
  apply (X26_highlighted_rooms example_env [in_room_proposition] true 0 None None
           (furnished_scene, ([] : Canvas))
           (fst (plot_for_propositions example_env [in_room_proposition] true 0 None
                   None (furnished_scene, ([] : Canvas))))
           (match snd (plot_for_propositions example_env [in_room_proposition] true 0
                         None None (furnished_scene, ([] : Canvas))) with
            | Ok p => p
            | Raise _ => (0, 0, ""%string)
            end)).
  vm_compute. reflexivity.
Defined.
